(** * cc-scaffold: recommendation engine, configuration merge and diff,
      backup pruning and project scanner

    A shallow embedding of the JavaScript sources
    - [analyzer.js]  (the recommendation rules and [analyzeProject]),
    - [merger.js]    ([loadExistingConfig], [extractCustomSections],
                      [mergeComponents], [mergeConfigurations],
                      [getDiffSummary], [listBackups], [cleanupBackups]),
    - [scanner.js]   ([scanProject] and its helpers),
    followed by the properties the specification states about them.

    Conventions of the embedding
    - a JavaScript string is a [string]; its characters stand for UTF-16
      code units below 256;
    - an index returned by [indexOf] and the arguments of [slice] are [Z],
      with the value [-1] and the negative-index rules written out;
    - a [Set] is the list of its members in insertion order, a [Map] an
      association list in insertion order;
    - a promise that rejects, or a statement that throws, is the [Throw]
      completion of a small exception monad; [try]/[catch] is [catch];
    - the file system is the record [Fs.World] of what each probe answers,
      and the built-in [JSON.parse] is a parameter wherever it is called. *)

From Stdlib Require Import List String Ascii ZArith Bool Lia Arith Sorted Permutation
  DecimalString.
Import ListNotations.

Local Open Scope string_scope.
Local Open Scope list_scope.

Set Implicit Arguments.

(* ===================================================================== *)
(** * Completions: values or thrown exceptions *)
(* ===================================================================== *)

Inductive completion (A : Type) : Type :=
| Normal (a : A)
| Throw (error : string).

Arguments Normal {A} a.
Arguments Throw {A} error.

Definition bind {A B} (c : completion A) (k : A -> completion B) : completion B :=
  match c with
  | Normal a => k a
  | Throw e => Throw e
  end.

(** [try { body } catch { handler }] *)
Definition catch {A} (body : completion A) (handler : string -> completion A)
  : completion A :=
  match body with
  | Normal a => Normal a
  | Throw e => handler e
  end.

Notation "x <- c ;; k" := (bind c (fun x => k))
  (at level 61, c at next level, right associativity).

(* ===================================================================== *)
(** * JavaScript containers *)
(* ===================================================================== *)

(** [new Set()], [add], [has] and spreading: members in insertion order. *)
Module JsSet.

Definition has (x : string) (s : list string) : bool :=
  existsb (String.eqb x) s.

Definition add (s : list string) (x : string) : list string :=
  if has x s then s else s ++ [x].

(** [new Set(array)] *)
Definition of_list (l : list string) : list string :=
  fold_left add l [].

End JsSet.

(** [new Map()] keyed by strings: [set] keeps the position of a key that is
    already present, [delete] removes it, iteration follows insertion
    order. *)
Module JsMap.
Section WithValue.
Variable V : Type.

Fixpoint set (k : string) (v : V) (m : list (string * V)) : list (string * V) :=
  match m with
  | [] => [(k, v)]
  | (k', v') :: m' =>
      if String.eqb k k' then (k, v) :: m' else (k', v') :: set k v m'
  end.

Fixpoint get (k : string) (m : list (string * V)) : option V :=
  match m with
  | [] => None
  | (k', v') :: m' => if String.eqb k k' then Some v' else get k m'
  end.

Definition delete (k : string) (m : list (string * V)) : list (string * V) :=
  filter (fun kv => negb (String.eqb k (fst kv))) m.

End WithValue.
End JsMap.

(** [array.slice(from, to)]: negative indices count from the end, and both
    are clamped to the length. *)
Definition clamp_index (len i : Z) : Z :=
  if (i <? 0)%Z then Z.max (len + i) 0 else Z.min i len.

Definition array_slice {A} (l : list A) (from to : Z) : list A :=
  let len := Z.of_nat (List.length l) in
  let k := clamp_index len from in
  let final := clamp_index len to in
  firstn (Z.to_nat (final - k)) (skipn (Z.to_nat k) l).

(** [array.slice(from)] *)
Definition array_slice_from {A} (l : list A) (from : Z) : list A :=
  array_slice l from (Z.of_nat (List.length l)).

(* ===================================================================== *)
(** * JavaScript strings *)
(* ===================================================================== *)

Module Str.

Definition len (s : string) : Z := Z.of_nat (String.length s).

(** [s.startsWith(p)] *)
Fixpoint startsWith (s p : string) : bool :=
  match p, s with
  | EmptyString, _ => true
  | String a p', String b s' => Ascii.eqb a b && startsWith s' p'
  | String _ _, EmptyString => false
  end.

Fixpoint drop (n : nat) (s : string) : string :=
  match n, s with
  | O, _ => s
  | S n', String _ s' => drop n' s'
  | S _, EmptyString => EmptyString
  end.

Fixpoint take (n : nat) (s : string) : string :=
  match n, s with
  | O, _ => EmptyString
  | S n', String c s' => String c (take n' s')
  | S _, EmptyString => EmptyString
  end.

(** Leftmost position of [s] from which the rest of [s] passes [test]:
    the scan both [indexOf] and a regular expression search perform. *)
Fixpoint firstSuffix (test : string -> bool) (s : string) : option nat :=
  if test s then Some O
  else match s with
       | EmptyString => None
       | String _ s' => option_map S (firstSuffix test s')
       end.

(** Position of the first occurrence of [pat] in [s]. *)
Definition find (s pat : string) : option nat :=
  firstSuffix (fun rest => startsWith rest pat) s.

(** [s.indexOf(pat)] *)
Definition indexOf (s pat : string) : Z :=
  match find s pat with
  | Some i => Z.of_nat i
  | None => (-1)%Z
  end.

(** [s.includes(pat)] *)
Definition includes (s pat : string) : bool :=
  match find s pat with
  | Some _ => true
  | None => false
  end.

(** [s.endsWith(p)] *)
Definition endsWith (s p : string) : bool :=
  (String.length p <=? String.length s)%nat
  && String.eqb (drop (String.length s - String.length p) s) p.

(** [s.slice(from, to)] *)
Definition slice (s : string) (from to : Z) : string :=
  let k := clamp_index (len s) from in
  let final := clamp_index (len s) to in
  take (Z.to_nat (final - k)) (drop (Z.to_nat k) s).

(** [s.slice(from)] *)
Definition slice_from (s : string) (from : Z) : string :=
  slice s from (len s).

(** [s.replace(pat, rep)] with a string pattern: the first occurrence only. *)
Definition replace (s pat rep : string) : string :=
  match find s pat with
  | Some i => take i s ++ rep ++ drop (i + String.length pat) s
  | None => s
  end.

(** Number of matches of the global regular expression made of the literal
    [pat]: occurrences are counted left to right without overlap.  [skip]
    is the number of characters still covered by the previous match. *)
Fixpoint count_from (skip : nat) (s pat : string) : nat :=
  match s with
  | EmptyString => O
  | String _ s' =>
      match skip with
      | S k => count_from k s' pat
      | O => if startsWith s pat
             then S (count_from (String.length pat - 1) s' pat)
             else count_from O s' pat
      end
  end.

Definition count_matches (s pat : string) : nat := count_from O s pat.

(** White space and line terminators among the code units below 256:
    TAB, LF, VT, FF, CR, SPACE and NO-BREAK SPACE. *)
Definition is_space (c : ascii) : bool :=
  let n := nat_of_ascii c in
  ((9 <=? n) && (n <=? 13) || (n =? 32) || (n =? 160))%nat.

Fixpoint trimStart (s : string) : string :=
  match s with
  | EmptyString => EmptyString
  | String c s' => if is_space c then trimStart s' else s
  end.

Fixpoint trimEnd (s : string) : string :=
  match s with
  | EmptyString => EmptyString
  | String c s' =>
      match trimEnd s' with
      | EmptyString => if is_space c then EmptyString else String c EmptyString
      | t => String c t
      end
  end.

(** [s.trim()] *)
Definition trim (s : string) : string := trimEnd (trimStart s).

(** The line feed character, and [array.join(sep)]. *)
Definition nl : string := String "010" EmptyString.

End Str.

(** Sequential loop whose body may throw: [for (const x of l) { ... }]. *)
Fixpoint foldM {A B} (f : A -> B -> completion A) (l : list B) (a : A)
  : completion A :=
  match l with
  | [] => Normal a
  | x :: l' => a' <- f a x ;; foldM f l' a'
  end.


(* ===================================================================== *)
(** * JavaScript values *)
(* ===================================================================== *)

Module Js.

(** The values a context object or a parsed JSON text is made of.  Numbers
    are kept as integers: only the test against zero is ever applied to
    them.  The properties of an object are listed in creation order and
    have distinct keys. *)
Unset Elimination Schemes.
Inductive value : Type :=
| VUndefined
| VNull
| VBool (b : bool)
| VNum (n : Z)
| VStr (s : string)
| VArr (items : list value)
| VObj (props : list (string * value)).
Set Elimination Schemes.

Definition truthy (v : value) : bool :=
  match v with
  | VUndefined | VNull => false
  | VBool b => b
  | VNum n => negb (n =? 0)%Z
  | VStr s => negb (String.eqb s "")
  | VArr _ | VObj _ => true
  end.

(** [v.key], for the property names this program reads (none of them is
    defined on a primitive or on an array): reading a property of
    [undefined] or [null] throws a TypeError. *)
Definition getProp (v : value) (key : string) : completion value :=
  match v with
  | VUndefined | VNull => Throw "TypeError: cannot read properties"
  | VObj props =>
      match JsMap.get key props with
      | Some x => Normal x
      | None => Normal VUndefined
      end
  | _ => Normal VUndefined
  end.

(** [v === s] for a string [s] *)
Definition isString (s : string) (v : value) : bool :=
  match v with
  | VStr s' => String.eqb s' s
  | _ => false
  end.

(** [v.includes(item)]: membership for an array, substring test for a
    string; any other value has no such method and the call throws. *)
Definition callIncludes (v : value) (item : string) : completion value :=
  match v with
  | VArr items => Normal (VBool (existsb (isString item) items))
  | VStr s => Normal (VBool (Str.includes s item))
  | _ => Throw "TypeError: includes is not a function"
  end.

(** [v?.includes(item)] *)
Definition optionalIncludes (v : value) (item : string) : completion value :=
  match v with
  | VUndefined | VNull => Normal VUndefined
  | _ => callIncludes v item
  end.

End Js.

(* ===================================================================== *)
(** * The file system *)
(* ===================================================================== *)

Module Fs.

(** The project directory as the probes of the program see it; paths are
    relative to the project root.
    - [access p]: [fs.access] resolves;
    - [stat p]: [Some isDirectory] when [fs.stat] resolves;
    - [readFileText p]: the text [fs.readFile(p, 'utf-8')] resolves to;
    - [readdir p]: the names [fs.readdir] resolves to;
    - [fastGlob pattern]: what the fast-glob package returns for the
      pattern with the scanner's options, [None] when the import or the
      call rejects.
    [None] covers every failure: a missing file, a permission error. *)
Record World : Type := {
  basename : string;
  access : string -> bool;
  stat : string -> option bool;
  readFileText : string -> option string;
  readdir : string -> option (list string);
  fastGlob : string -> option (list string)
}.

End Fs.

(* ===================================================================== *)
(** * merger.js *)
(* ===================================================================== *)

Module Merger.

(** ** [extractCustomSections] *)

Definition customMarkers : list string :=
  [ "## Project-Specific";
    "## Our Rules";
    "## Custom Rules";
    "## Project Rules";
    "## Local Additions";
    "## Team Conventions";
    "## Company Standards" ].

(** Does the regular expression [/\n## [^#]/] match at the very start of
    [s]: a line feed, two hashes and a space, then one more code unit that
    is not a hash (a negated class also matches a line feed). *)
Definition heading_here (s : string) : bool :=
  Str.startsWith s (Str.nl ++ "## ")
  && match Str.drop 4 s with
     | String c _ => negb (Ascii.eqb c "#")
     | EmptyString => false
     end.

(** [s.match(/\n## [^#]/)]: the index of the leftmost match, or [null]. *)
Definition matchNextHeading (s : string) : option nat :=
  Str.firstSuffix heading_here s.

(** Body of the loop over [customMarkers]; [customContent] is the
    accumulator. *)
Definition captureMarker (content customContent marker : string) : string :=
  let markerIndex := Str.indexOf content marker in
  if (markerIndex =? -1)%Z then customContent
  else
    let afterMarker := Str.slice_from content (markerIndex + Str.len marker) in
    let endIndex :=
      match matchNextHeading afterMarker with
      | Some index => (markerIndex + Str.len marker + Z.of_nat index)%Z
      | None => Str.len content
      end in
    customContent ++ Str.slice content markerIndex endIndex ++ Str.nl ++ Str.nl.

Definition extractCustomSections (content : string) : string :=
  if String.eqb content "" then ""
  else Str.trim (fold_left (captureMarker content) customMarkers "").

(** ** Stored components and [mergeComponents] *)

(** An entry of [config.skills], [config.agents] or [config.hooks] as
    [loadExistingConfig] builds it.  [content] is [null] for a skill
    directory without SKILL.md; hooks are pushed without a
    [customSections] property, which reads back as [undefined]. *)
Record StoredComponent : Type := {
  name : string;
  content : option string;
  customSections : option string
}.

(** The entries [loadExistingConfig] pushes for a skill whose SKILL.md was
    read, for an agent file and for a hook file. *)
Definition loadedSkill (dir text : string) : StoredComponent :=
  {| name := dir; content := Some text;
     customSections := Some (extractCustomSections text) |}.

Definition loadedAgent (file text : string) : StoredComponent :=
  {| name := Str.replace file ".md" ""; content := Some text;
     customSections := Some (extractCustomSections text) |}.

Definition loadedHook (file text : string) : StoredComponent :=
  {| name := Str.replace file ".sh" ""; content := Some text;
     customSections := None |}.

(** The objects [mergeComponents] pushes; exactly one of the flags
    [isUpdate], [isNew], [isExisting] is set on each. *)
Inductive MergedComponent : Type :=
| IsUpdate (name : string) (preserveCustomSections : string)
| IsNew (name : string)
| IsExisting (name : string) (content : option string)
    (customSections : option string).

Definition merged_name (c : MergedComponent) : string :=
  match c with
  | IsUpdate n _ => n
  | IsNew n => n
  | IsExisting n _ _ => n
  end.

(** [value || ''] for a string-or-undefined value: the empty string is
    falsy, so both [undefined] and [''] give ['']. *)
Definition or_empty (v : option string) : string :=
  match v with
  | Some s => s
  | None => ""
  end.

(** First loop: index the existing components by name. *)
Definition indexExisting (existing : list StoredComponent)
  : list (string * StoredComponent) :=
  fold_left (fun m item => JsMap.set (name item) item m) existing [].

(** Body of the second loop, on the pair (existingByName, merged).  The
    stored item is an object, hence truthy whenever [get] finds one. *)
Definition processIncoming
    (st : list (string * StoredComponent) * list MergedComponent) (item : string)
  : list (string * StoredComponent) * list MergedComponent :=
  let '(existingByName, merged) := st in
  match JsMap.get item existingByName with
  | Some existingItem =>
      (JsMap.delete item existingByName,
       merged ++ [IsUpdate item (or_empty (customSections existingItem))])
  | None => (existingByName, merged ++ [IsNew item])
  end.

Definition mergeComponents (existing : list StoredComponent) (incoming : list string)
  : list MergedComponent :=
  let existingByName := indexExisting existing in
  let '(remaining, merged) :=
    fold_left processIncoming incoming (existingByName, []) in
  merged ++
  map (fun kv => IsExisting (fst kv) (content (snd kv)) (customSections (snd kv)))
      remaining.

(** ** [mergeConfigurations] *)

Record CustomComponent : Type := {
  custom_type : string;
  custom_name : string;
  custom_description : string
}.

(** What [loadExistingConfig] returns; [exists_] is its property
    [exists].  [preservedContext] is an object used as a map from names to
    texts. *)
Record ExistingConfig : Type := {
  path : string;
  exists_ : bool;
  skills : list StoredComponent;
  agents : list StoredComponent;
  hooks : list StoredComponent;
  custom : list CustomComponent;
  settings : option Js.value;
  claudeMd : option string;
  preservedContext : list (string * string)
}.

(** ** [loadExistingConfig] *)

Section Load.

(** [JSON.parse]: [None] when it throws a SyntaxError. *)
Variable JSON_parse : string -> option Js.value.
Variable w : Fs.World.

(** The object [config] before anything is read. *)
Definition notLoaded : ExistingConfig :=
  {| path := ".claude"; exists_ := false;
     skills := []; agents := []; hooks := []; custom := [];
     settings := None; claudeMd := None; preservedContext := [] |}.

(** settings.json: [null] when the file cannot be read or is not JSON. *)
Definition loadSettings : option Js.value :=
  match Fs.readFileText w ".claude/settings.json" with
  | Some text => JSON_parse text
  | None => None
  end.

(** One turn of the loop over .claude/skills: an entry that is not a
    directory (or cannot be inspected) is passed over; a directory without
    a readable SKILL.md is pushed with [content: null]. *)
Definition loadSkillDir (dir : string) : list StoredComponent :=
  match Fs.stat w (".claude/skills/" ++ dir) with
  | Some true =>
      match Fs.readFileText w (".claude/skills/" ++ dir ++ "/SKILL.md") with
      | Some text => [loadedSkill dir text]
      | None => [ {| name := dir; content := None; customSections := Some "" |} ]
      end
  | _ => []
  end.

Definition loadSkills : list StoredComponent :=
  match Fs.readdir w ".claude/skills" with
  | Some skillDirs => flat_map loadSkillDir skillDirs
  | None => []
  end.

(** The loop over the files of .claude/agents (and likewise hooks and
    context): a file that cannot be read throws out of the loop into the
    enclosing [catch]; what was pushed before it stays. *)
Fixpoint loadFiles {A} (dir ext : string) (make : string -> string -> A)
    (files : list string) : list A :=
  match files with
  | [] => []
  | file :: rest =>
      if Str.endsWith file ext then
        match Fs.readFileText w (dir ++ "/" ++ file) with
        | Some text => make file text :: loadFiles dir ext make rest
        | None => []
        end
      else loadFiles dir ext make rest
  end.

Definition loadAgents : list StoredComponent :=
  match Fs.readdir w ".claude/agents" with
  | Some agentFiles => loadFiles ".claude/agents" ".md" loadedAgent agentFiles
  | None => []
  end.

Definition loadHooks : list StoredComponent :=
  match Fs.readdir w ".claude/hooks" with
  | Some hookFiles => loadFiles ".claude/hooks" ".sh" loadedHook hookFiles
  | None => []
  end.

(** [config.preservedContext[file.replace('.md', '')] = content] for each
    context file in turn. *)
Definition loadContext : list (string * string) :=
  match Fs.readdir w ".claude/context" with
  | Some contextFiles =>
      fold_left (fun obj kv => JsMap.set (fst kv) (snd kv) obj)
        (loadFiles ".claude/context" ".md"
           (fun file text => (Str.replace file ".md" "", text)) contextFiles)
        []
  | None => []
  end.

Definition loadExistingConfig : ExistingConfig :=
  if Fs.access w ".claude" then
    {| path := ".claude"; exists_ := true;
       skills := loadSkills;
       agents := loadAgents;
       hooks := loadHooks;
       custom := [];
       settings := loadSettings;
       claudeMd := Fs.readFileText w "CLAUDE.md";
       preservedContext := loadContext |}
  else notLoaded.

End Load.

(** [newConfig.components]; each list may be missing. *)
Record Components : Type := {
  c_skills : option (list string);
  c_agents : option (list string);
  c_hooks : option (list string);
  c_custom : option (list CustomComponent)
}.

(** The requested configuration: its [components] (possibly missing) and
    the other properties, which the merge copies unchanged. *)
Record NewConfig : Type := {
  components : option Components;
  otherProperties : list (string * string)
}.

(** [newConfig.components?.skills || []] and its siblings. *)
Definition requested (pick : Components -> option (list string)) (c : NewConfig)
  : list string :=
  match components c with
  | Some comps => match pick comps with Some l => l | None => [] end
  | None => []
  end.

Definition requestedCustom (c : NewConfig) : list CustomComponent :=
  match components c with
  | Some comps => match c_custom comps with Some l => l | None => [] end
  | None => []
  end.

Record MergedComponents : Type := {
  m_skills : list MergedComponent;
  m_agents : list MergedComponent;
  m_hooks : list MergedComponent;
  m_custom : list CustomComponent
}.

(** The value [mergeConfigurations] resolves to (apart from [null]): either
    [newConfig] itself, or [newConfig] with [components] and
    [preservedContext] overwritten. *)
Inductive ResolvedConfig : Type :=
| Verbatim (newConfig : NewConfig)
| Merged (newConfig : NewConfig) (components : MergedComponents)
    (preservedContext : list (string * string)).

(** [backup] is the completion of [backupExisting(existing.path)] in the
    file system at hand; [None] stands for [null]. *)
Definition mergeConfigurations (backup : completion (option string))
    (existing : ExistingConfig) (newConfig : NewConfig) (strategy : string)
  : completion (option ResolvedConfig) :=
  if String.eqb strategy "backup-replace" then
    _ <- backup ;; Normal (Some (Verbatim newConfig))
  else if String.eqb strategy "replace" then Normal (Some (Verbatim newConfig))
  else if String.eqb strategy "cancel" then Normal None
  else
    Normal (Some (Merged newConfig
      {| m_skills := mergeComponents (skills existing) (requested c_skills newConfig);
         m_agents := mergeComponents (agents existing) (requested c_agents newConfig);
         m_hooks := mergeComponents (hooks existing) (requested c_hooks newConfig);
         m_custom := custom existing ++ requestedCustom newConfig |}
      (preservedContext existing))).

(** The three component kinds, to state properties once for all of them. *)
Inductive Kind : Type := Skills | Agents | Hooks.

Definition existingOf (k : Kind) (e : ExistingConfig) : list StoredComponent :=
  match k with
  | Skills => skills e
  | Agents => agents e
  | Hooks => hooks e
  end.

Definition requestedOf (k : Kind) (c : NewConfig) : list string :=
  match k with
  | Skills => requested c_skills c
  | Agents => requested c_agents c
  | Hooks => requested c_hooks c
  end.

Definition resolvedOf (k : Kind) (r : ResolvedConfig) : list MergedComponent :=
  match r with
  | Verbatim _ => []
  | Merged _ comps _ =>
      match k with
      | Skills => m_skills comps
      | Agents => m_agents comps
      | Hooks => m_hooks comps
      end
  end.

(** ** [getDiffSummary] *)

Record SectionDiff : Type := {
  added : list string;
  removed : list string;
  kept : list string
}.

Record DiffSummary : Type := {
  diff_skills : SectionDiff;
  diff_agents : SectionDiff;
  diff_hooks : SectionDiff
}.

Definition diffSection (existingNames newNames : list string) : SectionDiff :=
  let existingSet := JsSet.of_list existingNames in
  let newSet := JsSet.of_list newNames in
  {| added := filter (fun s => negb (JsSet.has s existingSet)) newSet;
     removed := filter (fun s => negb (JsSet.has s newSet)) existingSet;
     kept := filter (fun s => JsSet.has s existingSet) newSet |}.

Definition getDiffSummary (existing : ExistingConfig) (newConfig : NewConfig)
  : DiffSummary :=
  {| diff_skills := diffSection (map name (skills existing)) (requested c_skills newConfig);
     diff_agents := diffSection (map name (agents existing)) (requested c_agents newConfig);
     diff_hooks := diffSection (map name (hooks existing)) (requested c_hooks newConfig) |}.

Definition diffOf (k : Kind) (d : DiffSummary) : SectionDiff :=
  match k with
  | Skills => diff_skills d
  | Agents => diff_agents d
  | Hooks => diff_hooks d
  end.

End Merger.

(** ** merger.js: [listBackups] and [cleanupBackups] *)

Module Backup.

(** An entry of the project directory as [readdir] (with file types) and
    [stat] report it; [birthtime] is in milliseconds and is [None] when
    [fs.stat] rejects. *)
Record Dirent : Type := {
  entryName : string;
  isDirectory : bool;
  birthtime : option Z
}.

(** The project directory: whether [readdir] resolves, its entries in the
    order [readdir] lists them, and for which paths [fs.rm] would succeed
    (a removal can fail for lack of permission). *)
Record ProjectDir : Type := {
  readable : bool;
  entries : list Dirent;
  removable : string -> bool
}.

(** Paths are kept relative to the project directory. *)
Record Backup : Type := {
  name : string;
  timestamp : string;
  created : Z;
  path : string
}.

Definition isBackupEntry (e : Dirent) : bool :=
  isDirectory e && Str.startsWith (entryName e) ".claude.backup.".

(** The object pushed for a backup directory whose [stat] gave the birth
    time [t]. *)
Definition backupOf (entry : Dirent) (t : Z) : Backup :=
  {| name := entryName entry;
     timestamp := Str.replace (entryName entry) ".claude.backup." "";
     created := t;
     path := entryName entry |}.

Definition collectBackup (backups : list Backup) (entry : Dirent)
  : completion (list Backup) :=
  if isBackupEntry entry then
    match birthtime entry with
    | Some t => Normal (backups ++ [backupOf entry t])
    | None => Throw "stat failed"
    end
  else Normal backups.

(** [backups.sort((a, b) => b.created - a.created)].  The sort of an array
    is stable, so its result is the one stable arrangement, which
    insertion from the right computes: an element goes in front of the
    first one that is not newer. *)
Fixpoint insertNewestFirst (x : Backup) (l : list Backup) : list Backup :=
  match l with
  | [] => [x]
  | y :: l' =>
      if (created y <=? created x)%Z then x :: l
      else y :: insertNewestFirst x l'
  end.

Definition sortNewestFirst (l : list Backup) : list Backup :=
  fold_right insertNewestFirst [] l.

Definition listBackups (dir : ProjectDir) : completion (list Backup) :=
  if readable dir then
    backups <- foldM collectBackup (entries dir) [] ;;
    Normal (sortNewestFirst backups)
  else Throw "readdir failed".

(** [fs.rm(path, { recursive: true })]: rejects when the path is missing
    ([force] is not set) or cannot be removed. *)
Definition withEntries (dir : ProjectDir) (es : list Dirent) : ProjectDir :=
  {| readable := readable dir; entries := es; removable := removable dir |}.

Definition rm (dir : ProjectDir) (p : string) : completion ProjectDir :=
  if existsb (fun e => String.eqb (entryName e) p) (entries dir) && removable dir p
  then Normal (withEntries dir
                 (filter (fun e => negb (String.eqb (entryName e) p)) (entries dir)))
  else Throw "rm failed".

Record Counts : Type := {
  removed : Z;
  kept : Z
}.

(** Body of the removal loop, on the pair (directory, removed). *)
Definition removeOne (st : ProjectDir * Z) (backup : Backup)
  : completion (ProjectDir * Z) :=
  catch (dir' <- rm (fst st) (path backup) ;; Normal (dir', (snd st + 1)%Z))
        (fun _ => Normal st).

(** Resolves to the counts, together with the directory as it is left. *)
Definition cleanupBackups (dir : ProjectDir) (keepCount : Z)
  : completion (Counts * ProjectDir) :=
  backups <- listBackups dir ;;
  if (Z.of_nat (List.length backups) <=? keepCount)%Z then
    Normal ({| removed := 0; kept := Z.of_nat (List.length backups) |}, dir)
  else
    let toRemove := array_slice_from backups keepCount in
    st <- foldM removeOne toRemove (dir, 0%Z) ;;
    Normal ({| removed := snd st; kept := keepCount |}, fst st).

End Backup.

(* ===================================================================== *)
(** * analyzer.js *)
(* ===================================================================== *)

Module Analyzer.
Import Js.

(** A condition is a function object: what calling it does, and the text
    [toString()] gives back, which is the text it was written with. *)
Record Condition : Type := {
  source : string;
  run : value -> completion value
}.

(** A recommendation rule.  The lists are arrays, which are truthy even
    when empty, so the guards [if (rule.skills)] and the like always
    pass; [reason] is a string, falsy when empty. *)
Record Rule : Type := {
  condition : Condition;
  skills : list string;
  agents : list string;
  hooks : list string;
  reason : string
}.

(** [ctx.field?.includes('item')] *)
Definition fieldIncludes (field item : string) (ctx : value) : completion value :=
  f <- getProp ctx field ;; optionalIncludes f item.

(** [ctx.field === 'text'] *)
Definition fieldEquals (field text : string) (ctx : value) : completion value :=
  f <- getProp ctx field ;; Normal (VBool (isString text f)).

(** [a || b] *)
Definition orElse (a b : value -> completion value) (ctx : value)
  : completion value :=
  x <- a ctx ;; if truthy x then Normal x else b ctx.

Definition includesCondition (field item : string) : Condition :=
  {| source := "(ctx) => ctx." ++ field ++ "?.includes('" ++ item ++ "')";
     run := fieldIncludes field item |}.

Definition equalsCondition (field text : string) : Condition :=
  {| source := "(ctx) => ctx." ++ field ++ " === '" ++ text ++ "'";
     run := fieldEquals field text |}.

(** [() => true] *)
Definition alwaysTrue : Condition :=
  {| source := "() => true"; run := fun _ => Normal (VBool true) |}.

(** Line break and indentation of the conditions written on several
    lines. *)
Definition brk : string := Str.nl ++ "      ".

Definition recommendationRules : list Rule :=
  [ (* Clean Architecture *)
    {| condition := includesCondition "architecture" "clean-architecture";
       skills := ["refactoring-advisor"; "naming-conventions"; "code-reviewer"];
       agents := ["architect"; "refactorer"];
       hooks := ["layer-violation-blocker"];
       reason := "Clean Architecture requires strict layer boundaries and naming conventions" |};
    (* Vertical Slice *)
    {| condition := includesCondition "architecture" "vertical-slice";
       skills := ["refactoring-advisor"; "code-reviewer"];
       agents := ["architect"];
       hooks := [];
       reason := "Vertical Slice Architecture benefits from feature-focused organization" |};
    (* CQRS *)
    {| condition := includesCondition "architecture" "cqrs";
       skills := ["code-reviewer"; "naming-conventions"];
       agents := ["architect"];
       hooks := [];
       reason := "CQRS pattern requires clear separation of commands and queries" |};
    (* Microservices *)
    {| condition := includesCondition "architecture" "microservices";
       skills := ["api-design-reviewer"; "logging-standards"; "error-handling-patterns"];
       agents := ["architect"; "debugger"];
       hooks := [];
       reason := "Microservices require robust API design and observability" |};
    (* Data Integrity concerns *)
    {| condition := includesCondition "concerns" "data-integrity";
       skills := ["database-reviewer"; "test-writer"; "error-handling-patterns"];
       agents := ["test-runner"; "migrator"];
       hooks := ["quality-gate"];
       reason := "Data integrity requires comprehensive testing and safe migrations" |};
    (* Security concerns *)
    {| condition := includesCondition "concerns" "security";
       skills := ["security-auditor"; "dependency-auditor"; "error-handling-patterns"];
       agents := ["security-auditor"];
       hooks := ["secrets-scanner"; "quality-gate"];
       reason := "Security concerns require proactive vulnerability scanning" |};
    (* Performance concerns *)
    {| condition := includesCondition "concerns" "performance";
       skills := ["performance-analyzer"; "database-reviewer"];
       agents := ["debugger"];
       hooks := [];
       reason := "Performance optimization needs systematic analysis" |};
    (* Accessibility concerns *)
    {| condition := includesCondition "concerns" "accessibility";
       skills := ["accessibility-auditor"; "ux-reviewer"];
       agents := [];
       hooks := [];
       reason := "Accessibility requires WCAG compliance validation" |};
    (* User Experience concerns *)
    {| condition := includesCondition "concerns" "user-experience";
       skills := ["ux-reviewer"; "accessibility-auditor"];
       agents := [];
       hooks := [];
       reason := "Great UX requires usability heuristic evaluation" |};
    (* Test Coverage concerns *)
    {| condition := includesCondition "concerns" "test-coverage";
       skills := ["test-writer"; "code-reviewer"];
       agents := ["test-runner"];
       hooks := ["quality-gate"];
       reason := "High test coverage requires systematic test writing" |};
    (* Documentation concerns *)
    {| condition := includesCondition "concerns" "documentation";
       skills := ["doc-generator"; "commit-msg-generator"];
       agents := ["doc-engineer"; "onboarder"];
       hooks := ["changelog-reminder"];
       reason := "Good documentation needs consistent generation and updates" |};
    (* Non-technical users *)
    {| condition := equalsCondition "targetUsers" "non-technical";
       skills := ["accessibility-auditor"; "ux-reviewer"];
       agents := [];
       hooks := [];
       reason := "Non-technical users need accessible, intuitive interfaces" |};
    (* Frontend frameworks *)
    {| condition :=
         {| source := "(ctx) =>" ++ brk ++ "ctx.techStack?.includes('angular') ||"
                      ++ brk ++ "ctx.techStack?.includes('react') ||"
                      ++ brk ++ "ctx.techStack?.includes('nextjs')";
            run := orElse (orElse (fieldIncludes "techStack" "angular")
                                  (fieldIncludes "techStack" "react"))
                          (fieldIncludes "techStack" "nextjs") |};
       skills := ["accessibility-auditor"; "ux-reviewer"; "performance-analyzer"; "test-writer"];
       agents := ["test-runner"];
       hooks := ["post-edit-format"];
       reason := "Frontend frameworks benefit from UX validation and formatting" |};
    (* Angular specific *)
    {| condition := includesCondition "techStack" "angular";
       skills := ["naming-conventions"; "test-writer"];
       agents := ["test-runner"];
       hooks := ["pre-commit-lint"];
       reason := "Angular projects need strict conventions and testing" |};
    (* React/Next.js specific *)
    {| condition :=
         {| source := "(ctx) => ctx.techStack?.includes('react') || ctx.techStack?.includes('nextjs')";
            run := orElse (fieldIncludes "techStack" "react")
                          (fieldIncludes "techStack" "nextjs") |};
       skills := ["performance-analyzer"; "test-writer"];
       agents := ["test-runner"];
       hooks := ["pre-commit-lint"];
       reason := "React projects benefit from performance optimization" |};
    (* .NET / C# *)
    {| condition := includesCondition "techStack" "dotnet";
       skills := ["naming-conventions"; "code-reviewer"; "test-writer"];
       agents := ["architect"; "test-runner"];
       hooks := ["pre-commit-lint"; "post-edit-format"];
       reason := ".NET projects need consistent conventions and architecture" |};
    (* Entity Framework Core / SQL *)
    {| condition :=
         {| source := "(ctx) =>" ++ brk
                      ++ "ctx.techStack?.includes('ef-core') || ctx.techStack?.includes('sql')";
            run := orElse (fieldIncludes "techStack" "ef-core")
                          (fieldIncludes "techStack" "sql") |};
       skills := ["database-reviewer"];
       agents := ["migrator"];
       hooks := [];
       reason := "Database work needs migration safety and query optimization" |};
    (* Node.js *)
    {| condition := includesCondition "techStack" "nodejs";
       skills := ["logging-standards"; "error-handling-patterns"; "dependency-auditor"];
       agents := ["debugger"];
       hooks := ["pre-commit-lint"; "post-edit-format"];
       reason := "Node.js projects need good error handling and dependency management" |};
    (* TypeScript *)
    {| condition := includesCondition "techStack" "typescript";
       skills := ["naming-conventions"; "code-reviewer"];
       agents := [];
       hooks := ["pre-commit-lint"];
       reason := "TypeScript benefits from strict naming and type checking" |};
    (* Python *)
    {| condition := includesCondition "techStack" "python";
       skills := ["naming-conventions"; "test-writer"; "doc-generator"];
       agents := ["test-runner"];
       hooks := ["pre-commit-lint"; "post-edit-format"];
       reason := "Python projects need PEP8 compliance and documentation" |};
    (* Docker/Kubernetes *)
    {| condition :=
         {| source := "(ctx) =>" ++ brk
                      ++ "ctx.techStack?.includes('docker') || ctx.techStack?.includes('kubernetes')";
            run := orElse (fieldIncludes "techStack" "docker")
                          (fieldIncludes "techStack" "kubernetes") |};
       skills := ["security-auditor"];
       agents := ["architect"];
       hooks := ["secrets-scanner"];
       reason := "Container environments need security hardening" |};
    (* API projects *)
    {| condition := {| source := "(ctx) => ctx.hasApi";
                       run := fun ctx => getProp ctx "hasApi" |};
       skills := ["api-design-reviewer"; "doc-generator"; "security-auditor"];
       agents := ["doc-engineer"];
       hooks := [];
       reason := "APIs benefit from design validation and documentation" |};
    (* CLI tools *)
    {| condition := equalsCondition "projectType" "cli-tool";
       skills := ["doc-generator"; "error-handling-patterns"];
       agents := ["doc-engineer"];
       hooks := [];
       reason := "CLI tools need good documentation and error handling" |};
    (* Monorepos *)
    {| condition := equalsCondition "projectType" "monorepo";
       skills := ["naming-conventions"; "git-workflow"];
       agents := ["architect"];
       hooks := ["branch-protection"];
       reason := "Monorepos need consistent conventions across packages" |};
    (* Always include these for any project *)
    {| condition := alwaysTrue;
       skills := ["code-reviewer"; "commit-msg-generator"; "git-workflow"];
       agents := ["code-reviewer"];
       hooks := ["session-context-loader"];
       reason := "Essential skills for any software project" |} ].

(** The accumulator [recommendations]: three sets and the array of
    reasons. *)
Record Recommendations : Type := {
  rec_skills : list string;
  rec_agents : list string;
  rec_hooks : list string;
  rec_reasons : list string
}.

Definition noRecommendations : Recommendations :=
  {| rec_skills := []; rec_agents := []; rec_hooks := []; rec_reasons := [] |}.

(** Body of the [try] block. *)
Definition applyRule (context : value) (recommendations : Recommendations)
    (rule : Rule) : completion Recommendations :=
  c <- run (condition rule) context ;;
  if truthy c then
    Normal
      {| rec_skills := fold_left JsSet.add (skills rule) (rec_skills recommendations);
         rec_agents := fold_left JsSet.add (agents rule) (rec_agents recommendations);
         rec_hooks := fold_left JsSet.add (hooks rule) (rec_hooks recommendations);
         rec_reasons :=
           if negb (String.eqb (reason rule) "")
              && negb (String.eqb (source (condition rule)) "() => true")
           then rec_reasons recommendations ++ [reason rule]
           else rec_reasons recommendations |}
  else Normal recommendations.

(** One turn of the loop: the [catch] clause skips a rule that failed.  A
    condition throws before anything is added, so nothing is half done. *)
Definition tryRule (context : value) (recommendations : Recommendations)
    (rule : Rule) : completion Recommendations :=
  catch (applyRule context recommendations rule)
        (fun _ => Normal recommendations).

(** The returned object: the sets spread into arrays, the reasons
    deduplicated. *)
Record Result : Type := {
  out_skills : list string;
  out_agents : list string;
  out_hooks : list string;
  out_reasons : list string
}.

(** The loop and the conversion of [analyzeProject], for any rule table. *)
Definition evaluate (rules : list Rule) (context : value) : completion Result :=
  recommendations <- foldM (tryRule context) rules noRecommendations ;;
  Normal {| out_skills := rec_skills recommendations;
            out_agents := rec_agents recommendations;
            out_hooks := rec_hooks recommendations;
            out_reasons := JsSet.of_list (rec_reasons recommendations) |}.

Definition analyzeProject (context : value) : completion Result :=
  evaluate recommendationRules context.

(** The context [{}], no property of which is set. *)
Definition emptyContext : value := VObj [].

End Analyzer.

(* ===================================================================== *)
(** * scanner.js *)
(* ===================================================================== *)

Module Scanner.
Import Js Fs.

Record ExistingClaudeComponents : Type := {
  skills : list string;
  agents : list string;
  hooks : list string
}.

(** The object [detected].  [name] starts as a string and may become any
    truthy value found under ["name"] in package.json. *)
Record Detected : Type := {
  name : value;
  languages : list string;
  frameworks : list string;
  databases : list string;
  architecture : list string;
  projectType : string;
  techStack : list string;
  hasTests : bool;
  hasDocker : bool;
  hasCI : bool;
  hasApi : bool;
  existingClaude : bool;
  existingClaudeComponents : ExistingClaudeComponents
}.

(** Assignment to one property of [detected]. *)
Definition update_name (f : value -> value) (d : Detected) : Detected :=
  {| name := f (name d);
     languages := languages d;
     frameworks := frameworks d;
     databases := databases d;
     architecture := architecture d;
     projectType := projectType d;
     techStack := techStack d;
     hasTests := hasTests d;
     hasDocker := hasDocker d;
     hasCI := hasCI d;
     hasApi := hasApi d;
     existingClaude := existingClaude d;
     existingClaudeComponents := existingClaudeComponents d |}.

Definition update_languages (f : list string -> list string) (d : Detected) : Detected :=
  {| name := name d;
     languages := f (languages d);
     frameworks := frameworks d;
     databases := databases d;
     architecture := architecture d;
     projectType := projectType d;
     techStack := techStack d;
     hasTests := hasTests d;
     hasDocker := hasDocker d;
     hasCI := hasCI d;
     hasApi := hasApi d;
     existingClaude := existingClaude d;
     existingClaudeComponents := existingClaudeComponents d |}.

Definition update_frameworks (f : list string -> list string) (d : Detected) : Detected :=
  {| name := name d;
     languages := languages d;
     frameworks := f (frameworks d);
     databases := databases d;
     architecture := architecture d;
     projectType := projectType d;
     techStack := techStack d;
     hasTests := hasTests d;
     hasDocker := hasDocker d;
     hasCI := hasCI d;
     hasApi := hasApi d;
     existingClaude := existingClaude d;
     existingClaudeComponents := existingClaudeComponents d |}.

Definition update_databases (f : list string -> list string) (d : Detected) : Detected :=
  {| name := name d;
     languages := languages d;
     frameworks := frameworks d;
     databases := f (databases d);
     architecture := architecture d;
     projectType := projectType d;
     techStack := techStack d;
     hasTests := hasTests d;
     hasDocker := hasDocker d;
     hasCI := hasCI d;
     hasApi := hasApi d;
     existingClaude := existingClaude d;
     existingClaudeComponents := existingClaudeComponents d |}.

Definition update_architecture (f : list string -> list string) (d : Detected) : Detected :=
  {| name := name d;
     languages := languages d;
     frameworks := frameworks d;
     databases := databases d;
     architecture := f (architecture d);
     projectType := projectType d;
     techStack := techStack d;
     hasTests := hasTests d;
     hasDocker := hasDocker d;
     hasCI := hasCI d;
     hasApi := hasApi d;
     existingClaude := existingClaude d;
     existingClaudeComponents := existingClaudeComponents d |}.

Definition update_projectType (f : string -> string) (d : Detected) : Detected :=
  {| name := name d;
     languages := languages d;
     frameworks := frameworks d;
     databases := databases d;
     architecture := architecture d;
     projectType := f (projectType d);
     techStack := techStack d;
     hasTests := hasTests d;
     hasDocker := hasDocker d;
     hasCI := hasCI d;
     hasApi := hasApi d;
     existingClaude := existingClaude d;
     existingClaudeComponents := existingClaudeComponents d |}.

Definition update_techStack (f : list string -> list string) (d : Detected) : Detected :=
  {| name := name d;
     languages := languages d;
     frameworks := frameworks d;
     databases := databases d;
     architecture := architecture d;
     projectType := projectType d;
     techStack := f (techStack d);
     hasTests := hasTests d;
     hasDocker := hasDocker d;
     hasCI := hasCI d;
     hasApi := hasApi d;
     existingClaude := existingClaude d;
     existingClaudeComponents := existingClaudeComponents d |}.

Definition update_hasTests (f : bool -> bool) (d : Detected) : Detected :=
  {| name := name d;
     languages := languages d;
     frameworks := frameworks d;
     databases := databases d;
     architecture := architecture d;
     projectType := projectType d;
     techStack := techStack d;
     hasTests := f (hasTests d);
     hasDocker := hasDocker d;
     hasCI := hasCI d;
     hasApi := hasApi d;
     existingClaude := existingClaude d;
     existingClaudeComponents := existingClaudeComponents d |}.

Definition update_hasDocker (f : bool -> bool) (d : Detected) : Detected :=
  {| name := name d;
     languages := languages d;
     frameworks := frameworks d;
     databases := databases d;
     architecture := architecture d;
     projectType := projectType d;
     techStack := techStack d;
     hasTests := hasTests d;
     hasDocker := f (hasDocker d);
     hasCI := hasCI d;
     hasApi := hasApi d;
     existingClaude := existingClaude d;
     existingClaudeComponents := existingClaudeComponents d |}.

Definition update_hasCI (f : bool -> bool) (d : Detected) : Detected :=
  {| name := name d;
     languages := languages d;
     frameworks := frameworks d;
     databases := databases d;
     architecture := architecture d;
     projectType := projectType d;
     techStack := techStack d;
     hasTests := hasTests d;
     hasDocker := hasDocker d;
     hasCI := f (hasCI d);
     hasApi := hasApi d;
     existingClaude := existingClaude d;
     existingClaudeComponents := existingClaudeComponents d |}.

Definition update_hasApi (f : bool -> bool) (d : Detected) : Detected :=
  {| name := name d;
     languages := languages d;
     frameworks := frameworks d;
     databases := databases d;
     architecture := architecture d;
     projectType := projectType d;
     techStack := techStack d;
     hasTests := hasTests d;
     hasDocker := hasDocker d;
     hasCI := hasCI d;
     hasApi := f (hasApi d);
     existingClaude := existingClaude d;
     existingClaudeComponents := existingClaudeComponents d |}.

Definition update_existingClaude (f : bool -> bool) (d : Detected) : Detected :=
  {| name := name d;
     languages := languages d;
     frameworks := frameworks d;
     databases := databases d;
     architecture := architecture d;
     projectType := projectType d;
     techStack := techStack d;
     hasTests := hasTests d;
     hasDocker := hasDocker d;
     hasCI := hasCI d;
     hasApi := hasApi d;
     existingClaude := f (existingClaude d);
     existingClaudeComponents := existingClaudeComponents d |}.

Definition update_existingClaudeComponents (f : ExistingClaudeComponents -> ExistingClaudeComponents) (d : Detected) : Detected :=
  {| name := name d;
     languages := languages d;
     frameworks := frameworks d;
     databases := databases d;
     architecture := architecture d;
     projectType := projectType d;
     techStack := techStack d;
     hasTests := hasTests d;
     hasDocker := hasDocker d;
     hasCI := hasCI d;
     hasApi := hasApi d;
     existingClaude := existingClaude d;
     existingClaudeComponents := f (existingClaudeComponents d) |}.

Definition push_languages (x : string) := update_languages (fun l => l ++ [x]).
Definition push_frameworks (x : string) := update_frameworks (fun l => l ++ [x]).
Definition push_databases (x : string) := update_databases (fun l => l ++ [x]).
Definition push_architecture (x : string) := update_architecture (fun l => l ++ [x]).
Definition push_techStack (x : string) := update_techStack (fun l => l ++ [x]).
Definition set_projectType (x : string) := update_projectType (fun _ => x).
Definition set_hasTests := update_hasTests (fun _ => true).
Definition set_hasDocker := update_hasDocker (fun _ => true).
Definition set_hasCI := update_hasCI (fun _ => true).
Definition set_hasApi := update_hasApi (fun _ => true).
Definition set_existingClaude := update_existingClaude (fun _ => true).

Definition update_skills (f : list string -> list string) : Detected -> Detected :=
  update_existingClaudeComponents
    (fun c => {| skills := f (skills c); agents := agents c; hooks := hooks c |}).

Definition update_agents (f : list string -> list string) : Detected -> Detected :=
  update_existingClaudeComponents
    (fun c => {| skills := skills c; agents := f (agents c); hooks := hooks c |}).

Definition update_hooks (f : list string -> list string) : Detected -> Detected :=
  update_existingClaudeComponents
    (fun c => {| skills := skills c; agents := agents c; hooks := f (hooks c) |}).

(** Statements in sequence, and [if (b) { ... }]. *)
Definition seq (steps : list (Detected -> Detected)) (d : Detected) : Detected :=
  fold_left (fun d step => step d) steps d.

Definition when (b : bool) (step : Detected -> Detected) (d : Detected) : Detected :=
  if b then step d else d.

(** [if (!detected.frameworks.includes(x)) { ... }] and the like, where
    the test reads the current [detected]. *)
Definition unless (test : Detected -> bool) (step : Detected -> Detected)
    (d : Detected) : Detected :=
  if test d then d else step d.

(** [if (detected.techStack.includes(x)) { ... }] *)
Definition provided (test : Detected -> bool) (step : Detected -> Detected)
    (d : Detected) : Detected :=
  if test d then step d else d.

(** [array.includes(x)] on an array of strings *)
Definition arrayIncludes (l : list string) (x : string) : bool :=
  existsb (String.eqb x) l.

(** Own property [key] of a value that is spread into an object literal,
    for a key that is not an index. *)
Definition ownProp (v : value) (key : string) : option value :=
  match v with
  | VObj props => JsMap.get key props
  | _ => None
  end.

(** [{ ...dependencies, ...devDependencies }[key]] *)
Definition allDeps (dependencies devDependencies : value) (key : string) : value :=
  match ownProp devDependencies key with
  | Some v => v
  | None =>
      match ownProp dependencies key with
      | Some v => v
      | None => VUndefined
      end
  end.

Section Scan.

(** [JSON.parse]: [None] when it throws a SyntaxError. *)
Variable JSON_parse : string -> option value.
Variable w : World.

(** ** Helper functions *)

Definition fileExists (relativePath : string) : bool := access w relativePath.

Definition dirExists (relativePath : string) : bool :=
  match stat w relativePath with
  | Some isDir => isDir
  | None => false
  end.

Definition readFile (relativePath : string) : completion string :=
  match readFileText w relativePath with
  | Some text => Normal text
  | None => Throw "readFile failed"
  end.

Definition readJson (relativePath : string) : completion value :=
  content <- readFile relativePath ;;
  match JSON_parse content with
  | Some v => Normal v
  | None => Throw "SyntaxError"
  end.

Definition glob (pattern : string) (limit : nat) : list string :=
  match fastGlob w pattern with
  | Some results => firstn limit results
  | None => []
  end.

(** [await readFile(...).catch(() => '')] *)
Definition readFileOrEmpty (relativePath : string) : string :=
  match readFile relativePath with
  | Normal text => text
  | Throw _ => ""
  end.

Definition initialDetected : Detected :=
  {| name := VStr (basename w);
     languages := []; frameworks := []; databases := []; architecture := [];
     projectType := "general";
     techStack := [];
     hasTests := false; hasDocker := false; hasCI := false; hasApi := false;
     existingClaude := false;
     existingClaudeComponents := {| skills := []; agents := []; hooks := [] |} |}.

(** ** Languages and frameworks *)

(** Node.js / JavaScript / TypeScript *)
Definition detectNode (d : Detected) : completion Detected :=
  if fileExists "package.json" then
    let d := seq [push_languages "javascript"; push_techStack "nodejs"] d in
    pkg <- readJson "package.json" ;;
    pkgName <- getProp pkg "name" ;;
    let d := update_name (fun old => if truthy pkgName then pkgName else old) d in
    dependencies <- getProp pkg "dependencies" ;;
    devDependencies <- getProp pkg "devDependencies" ;;
    let dep key := truthy (allDeps dependencies devDependencies key) in
    Normal (seq
      [ when (dep "@angular/core")
          (seq [push_frameworks "angular"; push_techStack "angular";
                set_projectType "angular-frontend"]);
        when (dep "next")
          (seq [push_frameworks "nextjs"; push_techStack "nextjs";
                set_projectType "react-nextjs"]);
        when (dep "react" && negb (dep "next"))
          (seq [push_frameworks "react"; push_techStack "react";
                set_projectType "react-nextjs"]);
        when (dep "vue")
          (seq [push_frameworks "vue"; push_techStack "vue";
                set_projectType "general"]);
        when (dep "express" || dep "fastify" || dep "koa" || dep "hapi")
          (seq [push_frameworks "node-api"; set_projectType "api-service";
                set_hasApi]);
        when (dep "typescript")
          (seq [push_languages "typescript"; push_techStack "typescript"]);
        when (dep "@nestjs/core")
          (seq [push_frameworks "nestjs"; push_techStack "nestjs";
                set_projectType "api-service"; set_hasApi]);
        when (dep "jest" || dep "mocha" || dep "vitest" || dep "ava") set_hasTests;
        when (dep "pg" || dep "postgres")
          (seq [push_databases "postgresql"; push_techStack "sql"]);
        when (dep "mysql" || dep "mysql2")
          (seq [push_databases "mysql"; push_techStack "sql"]);
        when (dep "mongodb" || dep "mongoose")
          (seq [push_databases "mongodb"; push_techStack "nosql"]);
        when (dep "redis" || dep "ioredis") (push_databases "redis");
        when (dep "prisma" || dep "@prisma/client") (push_frameworks "prisma");
        when (dep "typeorm") (push_frameworks "typeorm");
        when (dep "sequelize") (push_frameworks "sequelize") ] d)
  else Normal d.

(** Body of the loop over the first five .csproj files. *)
Definition scanCsproj (d : Detected) (csproj : string) : completion Detected :=
  content <- readFile csproj ;;
  Normal (seq
    [ when (Str.includes content "Microsoft.EntityFrameworkCore")
        (unless (fun d => arrayIncludes (frameworks d) "ef-core")
           (seq [push_frameworks "ef-core"; push_techStack "ef-core"]));
      when (Str.includes content "Microsoft.AspNetCore")
        (unless (fun d => arrayIncludes (frameworks d) "aspnet")
           (seq [push_frameworks "aspnet"; set_projectType "api-service";
                 set_hasApi]));
      when (Str.includes content "xunit" || Str.includes content "NUnit"
            || Str.includes content "MSTest") set_hasTests;
      when (Str.includes content "Blazor") (push_frameworks "blazor") ] d).

(** .NET / C# *)
Definition detectDotnet (d : Detected) : completion Detected :=
  let csprojFiles := glob "**/*.csproj" 100 in
  if (0 <? List.length csprojFiles)%nat then
    let d := seq [push_languages "csharp"; push_techStack "dotnet"] d in
    d <- foldM scanCsproj (array_slice csprojFiles 0 5) d ;;
    let slnFiles := glob "*.sln" 100 in
    Normal (when ((0 <? List.length slnFiles)%nat && (3 <? List.length csprojFiles)%nat)
              (set_projectType "dotnet-clean-arch") d)
  else Normal d.

(** Python *)
Definition detectPython (d : Detected) : Detected :=
  if fileExists "requirements.txt" || fileExists "pyproject.toml"
     || fileExists "setup.py" || fileExists "Pipfile" then
    let reqContent := readFileOrEmpty "requirements.txt" in
    let pyprojectContent := readFileOrEmpty "pyproject.toml" in
    let combined := (reqContent ++ pyprojectContent)%string in
    seq
      [ push_languages "python"; push_techStack "python";
        when (Str.includes combined "fastapi" || Str.includes combined "FastAPI")
          (seq [push_frameworks "fastapi"; set_projectType "api-service"; set_hasApi]);
        when (Str.includes combined "django" || Str.includes combined "Django")
          (seq [push_frameworks "django"; set_projectType "api-service"; set_hasApi]);
        when (Str.includes combined "flask" || Str.includes combined "Flask")
          (seq [push_frameworks "flask"; set_projectType "api-service"; set_hasApi]);
        when (Str.includes combined "pytest") set_hasTests;
        when (Str.includes combined "sqlalchemy" || Str.includes combined "SQLAlchemy")
          (push_frameworks "sqlalchemy") ] d
  else d.

(** Go *)
Definition detectGo (d : Detected) : Detected :=
  if fileExists "go.mod" then
    let goModContent := readFileOrEmpty "go.mod" in
    seq
      [ push_languages "go"; push_techStack "go";
        when (Str.includes goModContent "gin-gonic")
          (seq [push_frameworks "gin"; set_projectType "api-service"; set_hasApi]);
        when (Str.includes goModContent "echo")
          (seq [push_frameworks "echo"; set_projectType "api-service"; set_hasApi]);
        when (Str.includes goModContent "fiber")
          (seq [push_frameworks "fiber"; set_projectType "api-service"; set_hasApi]) ] d
  else d.

(** Rust *)
Definition detectRust (d : Detected) : Detected :=
  if fileExists "Cargo.toml" then
    let cargoContent := readFileOrEmpty "Cargo.toml" in
    seq
      [ push_languages "rust"; push_techStack "rust";
        when (Str.includes cargoContent "actix-web")
          (seq [push_frameworks "actix"; set_projectType "api-service"; set_hasApi]);
        when (Str.includes cargoContent "axum")
          (seq [push_frameworks "axum"; set_projectType "api-service"; set_hasApi]) ] d
  else d.

(** Java *)
Definition detectJava (d : Detected) : Detected :=
  if fileExists "pom.xml" || fileExists "build.gradle" then
    let pomContent := readFileOrEmpty "pom.xml" in
    let gradleContent := readFileOrEmpty "build.gradle" in
    let combined := (pomContent ++ gradleContent)%string in
    seq
      [ push_languages "java"; push_techStack "java";
        when (Str.includes combined "spring-boot"
              || Str.includes combined "org.springframework.boot")
          (seq [push_frameworks "spring-boot"; set_projectType "api-service";
                set_hasApi]) ] d
  else d.

(** ** Architecture patterns *)

Definition detectArchitecture (d : Detected) : Detected :=
  seq
    [ (* Clean Architecture *)
      when ((dirExists "src/Domain" && dirExists "src/Application")
            || (dirExists "Domain" && dirExists "Application")
            || (dirExists "src/Core" && dirExists "src/Infrastructure"))
        (seq [push_architecture "clean-architecture";
              provided (fun d => arrayIncludes (techStack d) "dotnet")
                (set_projectType "dotnet-clean-arch")]);
      (* Vertical Slice *)
      when (dirExists "src/Features" || dirExists "Features")
        (push_architecture "vertical-slice");
      (* CQRS *)
      when (dirExists "src/Application/Commands" || dirExists "src/Application/Queries"
            || dirExists "Commands" || dirExists "Queries")
        (push_architecture "cqrs");
      (* Repository Pattern *)
      when (dirExists "src/Repositories" || dirExists "Repositories"
            || dirExists "src/Infrastructure/Repositories")
        (push_architecture "repository-pattern");
      (* Microservices *)
      when (dirExists "services" || fileExists "docker-compose.yml")
        (let dockerContent := readFileOrEmpty "docker-compose.yml" in
         when (Str.includes dockerContent "services:"
               && (3 <? Str.count_matches dockerContent "services:")%nat)
           (push_architecture "microservices"));
      (* Monorepo *)
      when (fileExists "pnpm-workspace.yaml" || fileExists "lerna.json"
            || fileExists "nx.json" || dirExists "packages" || dirExists "apps")
        (set_projectType "monorepo") ] d.

(** CLI tool: [pkg.bin || (pkg.keywords && pkg.keywords.includes('cli'))] *)
Definition detectCliTool (d : Detected) : completion Detected :=
  if fileExists "package.json" then
    pkg <- catch (readJson "package.json") (fun _ => Normal (VObj [])) ;;
    bin <- getProp pkg "bin" ;;
    isCli <- (if truthy bin then Normal bin
              else keywords <- getProp pkg "keywords" ;;
                   if truthy keywords then callIncludes keywords "cli"
                   else Normal keywords) ;;
    Normal (when (truthy isCli) (set_projectType "cli-tool") d)
  else Normal d.

(** ** Infrastructure *)

Definition detectInfrastructure (d : Detected) : Detected :=
  seq
    [ (* Docker *)
      when (fileExists "Dockerfile" || fileExists "docker-compose.yml"
            || fileExists "docker-compose.yaml" || fileExists ".dockerignore")
        (seq [set_hasDocker; push_techStack "docker"]);
      (* Kubernetes *)
      when (dirExists "k8s" || dirExists "kubernetes" || dirExists "helm")
        (push_techStack "kubernetes");
      (* CI/CD *)
      when (dirExists ".github/workflows" || fileExists ".gitlab-ci.yml"
            || fileExists "azure-pipelines.yml" || fileExists "Jenkinsfile"
            || fileExists ".circleci/config.yml")
        set_hasCI ] d.

(** A database found in a configuration file, unless already listed. *)
Definition addDatabase (db stack : string) : Detected -> Detected :=
  unless (fun d => arrayIncludes (databases d) db)
    (seq [push_databases db;
          unless (fun d => arrayIncludes (techStack d) stack) (push_techStack stack)]).

(** Body of the loop over the configuration files. *)
Definition scanConfigFile (d : Detected) (file : string) : Detected :=
  let content := readFileOrEmpty file in
  seq
    [ when (Str.includes content "postgres" || Str.includes content "PostgreSQL"
            || Str.includes content "5432")
        (addDatabase "postgresql" "sql");
      when (Str.includes content "SqlServer" || Str.includes content "MSSQL"
            || Str.includes content "1433")
        (addDatabase "sqlserver" "sql");
      when (Str.includes content "mongodb" || Str.includes content "MongoDB"
            || Str.includes content "27017")
        (addDatabase "mongodb" "nosql");
      when (Str.includes content "mysql" || Str.includes content "MySQL"
            || Str.includes content "3306")
        (addDatabase "mysql" "sql") ] d.

Definition detectDatabases (d : Detected) : Detected :=
  let configFiles := glob "**/*.{json,yaml,yml,env,config}" 30 in
  fold_left scanConfigFile configFiles d.

(** ** Existing .claude/ configuration *)

(** The entries of .claude/skills that are directories; nothing when
    [readdir] rejects, a failing [stat] counts as not a directory. *)
Definition existingSkillDirs : list string :=
  match readdir w ".claude/skills" with
  | Some skillDirs =>
      filter (fun d0 => match stat w (".claude/skills/" ++ d0) with
                        | Some isDir => isDir
                        | None => false
                        end) skillDirs
  | None => []
  end.

(** [files.filter(f => f.endsWith(ext)).map(f => f.replace(ext, ''))] *)
Definition stripExtension (ext : string) (files : list string) : list string :=
  map (fun f => Str.replace f ext "") (filter (fun f => Str.endsWith f ext) files).

Definition detectExistingClaude (d : Detected) : Detected :=
  when (dirExists ".claude")
    (seq
      [ set_existingClaude;
        when (dirExists ".claude/skills")
          (update_skills (fun l => l ++ existingSkillDirs));
        when (dirExists ".claude/agents")
          (match readdir w ".claude/agents" with
           | Some agentFiles => update_agents (fun _ => stripExtension ".md" agentFiles)
           | None => fun d => d
           end);
        when (dirExists ".claude/hooks")
          (match readdir w ".claude/hooks" with
           | Some hookFiles => update_hooks (fun _ => stripExtension ".sh" hookFiles)
           | None => fun d => d
           end) ]) d.

(** ** Deduplication, and the whole scan *)

Definition deduplicate (d : Detected) : Detected :=
  seq
    [ update_languages JsSet.of_list;
      update_frameworks JsSet.of_list;
      update_databases JsSet.of_list;
      update_architecture JsSet.of_list;
      update_techStack JsSet.of_list ] d.

Definition scanProject : completion Detected :=
  d <- detectNode initialDetected ;;
  d <- detectDotnet d ;;
  let d := detectPython d in
  let d := detectGo d in
  let d := detectRust d in
  let d := detectJava d in
  let d := detectArchitecture d in
  d <- detectCliTool d ;;
  let d := detectInfrastructure d in
  let d := detectDatabases d in
  let d := detectExistingClaude d in
  Normal (deduplicate d).

End Scan.

(** A directory with nothing in it: no path can be accessed or inspected,
    and the glob package, when it loads, finds no file. *)
Definition emptyDirectory (w : World) : Prop :=
  (forall p, access w p = false) /\
  (forall p, stat w p = None) /\
  (forall pattern, fastGlob w pattern = None \/ fastGlob w pattern = Some []).

End Scanner.

(* ===================================================================== *)
(** * Notions used to state the properties *)
(* ===================================================================== *)

Module Spec.
Import Merger.

(** The component a name denotes in a list of stored components: the last
    one carrying it, the only one when names are distinct. *)
Definition lastNamed (n : string) (l : list StoredComponent)
  : option StoredComponent :=
  find (fun c => String.eqb (name c) n) (rev l).

(** "Whenever a requested name also appears in the existing
    configuration with a non-empty customSections value, the resolved
    entry for that name is marked as an update and carries that value":
    the statement for one existing and one requested configuration. *)
Definition carriesEveryCustomSection (existing : ExistingConfig)
    (newConfig : NewConfig) (k : Kind) : Prop :=
  forall item cs,
    In item (existingOf k existing) ->
    In (name item) (requestedOf k newConfig) ->
    customSections item = Some cs -> cs <> "" ->
    exists resolved,
      mergeConfigurations (Normal None) existing newConfig "merge"
      = Normal (Some resolved)
      /\ In (IsUpdate (name item) cs) (resolvedOf k resolved).

(** [pat] occurs in [s] at position [i]. *)
Definition occursAt (s pat : string) (i : nat) : Prop :=
  exists pre post, s = (pre ++ pat ++ post)%string /\ String.length pre = i.

Definition occursIn (s pat : string) : Prop := exists i, occursAt s pat i.

Definition firstOccurrence (s pat : string) (i : nat) : Prop :=
  occursAt s pat i /\ forall j, (j < i)%nat -> ~ occursAt s pat j.

(** A heading line starts right after position [i] of [s]: a line feed at
    [i], then two hashes, a space, and a character that is not a hash. *)
Definition headingAt (s : string) (i : nat) : Prop :=
  exists pre c post,
    s = (pre ++ Str.nl ++ "## " ++ String c post)%string
    /\ c <> "#"%char /\ String.length pre = i.

(** [span] is the section of [marker] in [content]: it starts at the first
    occurrence of the marker text and stops at the first heading line
    that begins at or after the end of that text, or at the end of the
    content when there is none. *)
Definition sectionOf (content marker span : string) : Prop :=
  exists pre post,
    content = (pre ++ span ++ post)%string
    /\ firstOccurrence content marker (String.length pre)
    /\ (String.length marker <= String.length span)%nat
    /\ (forall j, (String.length pre + String.length marker <= j)%nat ->
                  (j < String.length pre + String.length span)%nat ->
                  ~ headingAt content j)
    /\ (post = "" \/ headingAt content (String.length pre + String.length span)).

(** What one marker adds to the extracted text. *)
Definition contributionOf (content marker piece : string) : Prop :=
  (~ occursIn content marker /\ piece = "")
  \/ (exists span, sectionOf content marker span
                   /\ piece = (span ++ Str.nl ++ Str.nl)%string).

(** All the pieces, one after the other. *)
Definition concatAll (pieces : list string) : string :=
  fold_right String.append "" pieces.

(** ** The extraction as the specification words it: document order *)

(** The section that starts at position [i], where [marker] occurs. *)
Definition sectionFrom (content marker : string) (i : nat) : string :=
  let fromMarker := Str.drop i content in
  match matchNextHeading (Str.drop (String.length marker) fromMarker) with
  | Some k => Str.take (String.length marker + k) fromMarker
  | None => fromMarker
  end.

(** The markers present, each with its position and section. *)
Definition sectionsFound (content : string) : list (nat * string) :=
  flat_map (fun marker =>
              match Str.find content marker with
              | Some i => [(i, sectionFrom content marker i)]
              | None => []
              end) customMarkers.

Fixpoint insertByPosition (x : nat * string) (l : list (nat * string))
  : list (nat * string) :=
  match l with
  | [] => [x]
  | y :: l' =>
      if (fst x <=? fst y)%nat then x :: l else y :: insertByPosition x l'
  end.

Definition inDocumentOrder (l : list (nat * string)) : list (nat * string) :=
  fold_right insertByPosition [] l.

(** The sections in document order, a blank line between two of them. *)
Definition documentOrderSections (content : string) : string :=
  String.concat (Str.nl ++ Str.nl)
    (map snd (inDocumentOrder (sectionsFound content))).

(** "Spans are concatenated in document order": the statement for one
    content. *)
Definition extractsInDocumentOrder (content : string) : Prop :=
  extractCustomSections content = documentOrderSections content.

End Spec.

(** Notions about backups. *)
Module BackupSpec.
Import Backup.

(** The backups among the entries of a directory, in [readdir] order. *)
Definition backupsOf (es : list Dirent) : list Backup :=
  flat_map (fun e => if isBackupEntry e
                     then match birthtime e with
                          | Some t => [backupOf e t]
                          | None => []
                          end
                     else []) es.

(** A directory whose listing succeeds, with distinct entry names, and in
    which every backup directory can be inspected. *)
Definition wellFormed (dir : ProjectDir) : Prop :=
  readable dir = true
  /\ NoDup (map entryName (entries dir))
  /\ forall e, In e (entries dir) -> isBackupEntry e = true -> birthtime e <> None.

(** The paths among [bs] whose removal succeeds. *)
Definition goneAmong (dir : ProjectDir) (bs : list Backup) (p : string) : bool :=
  existsb (fun b => String.eqb (path b) p) bs && removable dir p.

(** Newest first. *)
Definition newestFirst (bs : list Backup) : Prop :=
  StronglySorted (fun a b => (created b <= created a)%Z) bs.

(** "The returned counts are the actual counts achieved": the statement
    for one directory and one keep count. *)
Definition countsAreActual (dir : ProjectDir) (keepCount : Z) : Prop :=
  forall counts dir' before after,
    cleanupBackups dir keepCount = Normal (counts, dir') ->
    listBackups dir = Normal before ->
    listBackups dir' = Normal after ->
    removed counts = (Z.of_nat (List.length before) - Z.of_nat (List.length after))%Z
    /\ kept counts = Z.of_nat (List.length after).

End BackupSpec.

(** Notions about the recommendation engine. *)
Module EngineSpec.
Import Js Analyzer.

(** The condition of the rule returns a truthy value, without throwing. *)
Definition fires (context : value) (rule : Rule) : bool :=
  match run (condition rule) context with
  | Normal v => truthy v
  | Throw _ => false
  end.

(** The rule is one whose reason is reported when it fires. *)
Definition givesReason (rule : Rule) : bool :=
  negb (String.eqb (reason rule) "")
  && negb (String.eqb (source (condition rule)) "() => true").

(** What a rule that fires adds to the accumulator, and the accumulator
    after a list of rules that all fire. *)
Definition extend (recommendations : Recommendations) (rule : Rule)
  : Recommendations :=
  {| rec_skills := fold_left JsSet.add (skills rule) (rec_skills recommendations);
     rec_agents := fold_left JsSet.add (agents rule) (rec_agents recommendations);
     rec_hooks := fold_left JsSet.add (hooks rule) (rec_hooks recommendations);
     rec_reasons := if givesReason rule
                    then rec_reasons recommendations ++ [reason rule]
                    else rec_reasons recommendations |}.

Definition collect (rules : list Rule) (recommendations : Recommendations)
  : Recommendations :=
  fold_left extend rules recommendations.

Definition toResult (recommendations : Recommendations) : Result :=
  {| out_skills := rec_skills recommendations;
     out_agents := rec_agents recommendations;
     out_hooks := rec_hooks recommendations;
     out_reasons := JsSet.of_list (rec_reasons recommendations) |}.

(** "The result includes the contributions (skills, agents, hooks,
    reasons) of all rules whose conditions do not throw and return
    truthy": the statement for one rule table and one context. *)
Definition includesEveryContribution (rules : list Rule) (context : value) : Prop :=
  exists result,
    evaluate rules context = Normal result
    /\ forall rule, In rule rules -> fires context rule = true ->
         incl (skills rule) (out_skills result)
         /\ incl (agents rule) (out_agents result)
         /\ incl (hooks rule) (out_hooks result)
         /\ In (reason rule) (out_reasons result).

(** "The reason of a rule that always returns true and is not written
    [() => true] is appended to the reasons": the statement for one
    rule. *)
Definition reasonReported (rule : Rule) : Prop :=
  (forall context, run (condition rule) context = Normal (VBool true)) ->
  source (condition rule) <> "() => true" ->
  forall rules context, In rule rules ->
    exists result, evaluate rules context = Normal result
                   /\ In (reason rule) (out_reasons result).

End EngineSpec.

(* ===================================================================== *)
(** * Concrete configurations *)
(* ===================================================================== *)

Module Examples.
Import Merger.

Definition lines (l : list string) : string := String.concat Str.nl l.

(** A generated skill file to which the user added a section. *)
Definition reviewerText : string :=
  lines [ "# Code reviewer"; "";
          "## Project-Specific"; "Use tabs."; "";
          "## Usage"; "Run it." ].

Definition noComponents : ExistingConfig :=
  {| path := ".claude"; exists_ := true;
     skills := []; agents := []; hooks := []; custom := [];
     settings := None; claudeMd := None; preservedContext := [] |}.

(** Two skills on disk, A = code-reviewer and B = test-writer. *)
Definition twoSkills : ExistingConfig :=
  {| path := ".claude"; exists_ := true;
     skills := [ loadedSkill "code-reviewer" reviewerText;
                 loadedSkill "test-writer" "# Test writer" ];
     agents := []; hooks := []; custom := [];
     settings := None; claudeMd := None; preservedContext := [] |}.

Definition request (skills agents hooks : list string) : NewConfig :=
  {| components := Some {| c_skills := Some skills; c_agents := Some agents;
                           c_hooks := Some hooks; c_custom := None |};
     otherProperties := [] |}.

(** The directory that holds those two skills, as the loader probes
    it. *)
Definition twoSkillsWorld : Fs.World :=
  {| Fs.basename := "demo";
     Fs.access := fun p => String.eqb p ".claude";
     Fs.stat := fun p =>
       if String.eqb p ".claude/skills/code-reviewer" then Some true
       else if String.eqb p ".claude/skills/test-writer" then Some true
       else None;
     Fs.readFileText := fun p =>
       if String.eqb p ".claude/skills/code-reviewer/SKILL.md" then Some reviewerText
       else if String.eqb p ".claude/skills/test-writer/SKILL.md" then Some "# Test writer"
       else None;
     Fs.readdir := fun p =>
       if String.eqb p ".claude/skills" then Some ["code-reviewer"; "test-writer"]
       else None;
     Fs.fastGlob := fun _ => Some [] |}.

(** Two agent files whose names both lose their first ".md" to give the
    name "a.md"; only the first one has a custom section. *)
Definition shadowedAgents : ExistingConfig :=
  {| path := ".claude"; exists_ := true;
     skills := [];
     agents := [ loadedAgent ".mda.md" (lines ["## Our Rules"; "Keep me."]);
                 loadedAgent "a.md.md" "# Agent" ];
     hooks := []; custom := [];
     settings := None; claudeMd := None; preservedContext := [] |}.

(** The directory those two agent files are in. *)
Definition shadowedAgentsWorld : Fs.World :=
  {| Fs.basename := "demo";
     Fs.access := fun p => String.eqb p ".claude";
     Fs.stat := fun _ => None;
     Fs.readFileText := fun p =>
       if String.eqb p ".claude/agents/.mda.md"
       then Some (lines ["## Our Rules"; "Keep me."])
       else if String.eqb p ".claude/agents/a.md.md" then Some "# Agent"
       else None;
     Fs.readdir := fun p =>
       if String.eqb p ".claude/agents" then Some [".mda.md"; "a.md.md"] else None;
     Fs.fastGlob := fun _ => Some [] |}.

(** A file whose custom sections come in another order than the marker
    list has them. *)
Definition twoSections : string :=
  lines [ "## Custom Rules"; "a"; "## Project-Specific"; "b" ].

(** Five backups, listed oldest first.  In [fiveBackups] all can be
    removed; in [fiveBackupsOneLocked] the one of day 2 cannot. *)
Definition backupDir (day : string) (t : Z) : Backup.Dirent :=
  {| Backup.entryName := ".claude.backup.2024-01-0" ++ day;
     Backup.isDirectory := true;
     Backup.birthtime := Some t |}.

Definition fiveEntries : list Backup.Dirent :=
  [ backupDir "1" 100; backupDir "2" 200;
    {| Backup.entryName := "src"; Backup.isDirectory := true;
       Backup.birthtime := Some 50%Z |};
    backupDir "3" 300; backupDir "4" 400; backupDir "5" 500 ].

Definition fiveBackups : Backup.ProjectDir :=
  {| Backup.readable := true;
     Backup.entries := fiveEntries;
     Backup.removable := fun _ => true |}.

Definition fiveBackupsOneLocked : Backup.ProjectDir :=
  {| Backup.readable := true;
     Backup.entries := fiveEntries;
     Backup.removable :=
       fun p => negb (String.eqb p ".claude.backup.2024-01-02") |}.

(** [JSON.parse] cut down to the two texts used below: "{}" is the empty
    object, "{" is not JSON. *)
Definition parseEmptyObject (text : string) : option Js.value :=
  if String.eqb text "{}" then Some (Js.VObj []) else None.

(** An empty project directory named "demo". *)
Definition emptyWorld : Fs.World :=
  {| Fs.basename := "demo";
     Fs.access := fun _ => false;
     Fs.stat := fun _ => None;
     Fs.readFileText := fun _ => None;
     Fs.readdir := fun _ => None;
     Fs.fastGlob := fun _ => Some [] |}.

(** A project directory holding only a package.json cut short after its
    opening brace. *)
Definition brokenManifestWorld : Fs.World :=
  {| Fs.basename := "demo";
     Fs.access := fun p => String.eqb p "package.json";
     Fs.stat := fun p => if String.eqb p "package.json" then Some false else None;
     Fs.readFileText := fun p => if String.eqb p "package.json" then Some "{" else None;
     Fs.readdir := fun _ => None;
     Fs.fastGlob := fun _ => Some [] |}.

(** A Node project: an Express API on PostgreSQL, tested with Jest,
    written in TypeScript, with a Dockerfile.  [manifestText] stands for
    the text of its package.json, and [parseManifest] for [JSON.parse] on
    that text. *)
Definition manifestText : string := "package.json of shop-api".

Definition parseManifest (text : string) : option Js.value :=
  if String.eqb text manifestText then
    Some (Js.VObj
      [ ("name", Js.VStr "shop-api");
        ("dependencies",
         Js.VObj [("express", Js.VStr "^4.18.2"); ("pg", Js.VStr "^8.11.0")]);
        ("devDependencies",
         Js.VObj [("jest", Js.VStr "^29.7.0"); ("typescript", Js.VStr "^5.4.0")]) ])
  else None.

Definition shopApiWorld : Fs.World :=
  {| Fs.basename := "checkout";
     Fs.access := fun p => String.eqb p "package.json" || String.eqb p "Dockerfile";
     Fs.stat := fun p =>
       if String.eqb p "package.json" || String.eqb p "Dockerfile"
       then Some false else None;
     Fs.readFileText := fun p =>
       if String.eqb p "package.json" then Some manifestText else None;
     Fs.readdir := fun _ => None;
     Fs.fastGlob := fun pattern =>
       if String.eqb pattern "**/*.{json,yaml,yml,env,config}"
       then Some ["package.json"] else Some [] |}.

(** An always-true rule written with a parameter, and with an empty
    reason. *)
Definition silentRule : Analyzer.Rule :=
  {| Analyzer.condition :=
       {| Analyzer.source := "(ctx) => true";
          Analyzer.run := fun _ => Normal (Js.VBool true) |};
     Analyzer.skills := ["code-reviewer"];
     Analyzer.agents := [];
     Analyzer.hooks := [];
     Analyzer.reason := "" |}.

(** The same rule with a reason. *)
Definition spokenRule : Analyzer.Rule :=
  {| Analyzer.condition :=
       {| Analyzer.source := "(ctx) => true";
          Analyzer.run := fun _ => Normal (Js.VBool true) |};
     Analyzer.skills := ["code-reviewer"];
     Analyzer.agents := [];
     Analyzer.hooks := [];
     Analyzer.reason := "Reviews help every project" |}.

(** A rule whose condition reads a nested field without guarding it:
    [(ctx) => ctx.team.size]. *)
Definition fragileRule : Analyzer.Rule :=
  {| Analyzer.condition :=
       {| Analyzer.source := "(ctx) => ctx.team.size";
          Analyzer.run := fun ctx =>
            team <- Js.getProp ctx "team" ;; Js.getProp team "size" |};
     Analyzer.skills := ["onboarding"];
     Analyzer.agents := ["onboarder"];
     Analyzer.hooks := [];
     Analyzer.reason := "Teams need onboarding" |}.

(** The always-apply rule of the production table. *)
Definition essentialRule : Analyzer.Rule :=
  {| Analyzer.condition := Analyzer.alwaysTrue;
     Analyzer.skills := ["code-reviewer"; "commit-msg-generator"; "git-workflow"];
     Analyzer.agents := ["code-reviewer"];
     Analyzer.hooks := ["session-context-loader"];
     Analyzer.reason := "Essential skills for any software project" |}.

End Examples.


(* ===================================================================== *)
(** * merger.js: the flags of a merged entry, and [formatDiffSummary] *)
(* ===================================================================== *)

Module MergerReport.
Import Merger.

(** The properties [isUpdate], [isNew] and [isExisting] of a merged entry,
    read as booleans ([undefined] when the flag was not set). *)
Definition isUpdate (c : MergedComponent) : bool :=
  match c with IsUpdate _ _ => true | _ => false end.

Definition isNew (c : MergedComponent) : bool :=
  match c with IsNew _ => true | _ => false end.

Definition isExisting (c : MergedComponent) : bool :=
  match c with IsExisting _ _ _ => true | _ => false end.

(** A length interpolated into a template literal: its decimal digits. *)
Definition showNat (n : nat) : string := NilEmpty.string_of_uint (Nat.to_uint n).

(** [formatSection(name, section)], on the array [lines] it pushes to. *)
Definition formatSection (lines : list string) (name : string) (section : SectionDiff)
  : list string :=
  let parts := [] in
  let parts :=
    if (0 <? List.length (added section))%nat
    then parts ++ [("+" ++ showNat (List.length (added section)) ++ " new")%string]
    else parts in
  let parts :=
    if (0 <? List.length (kept section))%nat
    then parts ++ [(showNat (List.length (kept section)) ++ " kept")%string]
    else parts in
  let parts :=
    if (0 <? List.length (removed section))%nat
    then parts ++ [("-" ++ showNat (List.length (removed section)) ++ " removed")%string]
    else parts in
  if (0 <? List.length parts)%nat
  then lines ++ [(name ++ ": " ++ String.concat ", " parts)%string]
  else lines.

Definition formatDiffSummary (diff : DiffSummary) : string :=
  let lines := formatSection [] "Skills" (diff_skills diff) in
  let lines := formatSection lines "Agents" (diff_agents diff) in
  let lines := formatSection lines "Hooks" (diff_hooks diff) in
  String.concat Str.nl lines.

End MergerReport.

(* ===================================================================== *)
(** * Objects used as tables, and sorting *)
(* ===================================================================== *)

Module JsObject.

(** The property names every object literal inherits from
    [Object.prototype].  Reading one of them from an object that has no
    own property of that name gives a function (the prototype itself for
    [__proto__]): a value that is truthy, is not a number, and has none
    of the properties this program goes on to read. *)
Definition inheritedKeys : list string :=
  [ "constructor"; "__defineGetter__"; "__defineSetter__"; "hasOwnProperty";
    "__lookupGetter__"; "__lookupSetter__"; "isPrototypeOf";
    "propertyIsEnumerable"; "toString"; "valueOf"; "__proto__";
    "toLocaleString" ].

(** What [table[key]] evaluates to, for an object literal [table] given by
    its own properties. *)
Inductive Lookup (A : Type) : Type :=
| Own (a : A)
| Inherited
| Missing.

Arguments Own {A} a.
Arguments Inherited {A}.
Arguments Missing {A}.

Definition lookup {A} (table : list (string * A)) (key : string) : Lookup A :=
  match JsMap.get key table with
  | Some a => Own a
  | None => if JsSet.has key inheritedKeys then Inherited else Missing
  end.

End JsObject.

Module JsArray.

(** [array.sort(compare)] for a comparator that is a consistent ordering.
    The sort is stable, so its result is the one stable arrangement, which
    insertion from the right computes: an element goes in front of the
    first one it does not have to follow. *)
Section Sort.
Variable A : Type.
Variable compare : A -> A -> Z.

Fixpoint insertSorted (x : A) (l : list A) : list A :=
  match l with
  | [] => [x]
  | y :: l' =>
      if (compare x y <=? 0)%Z then x :: l else y :: insertSorted x l'
  end.

Definition sort (l : list A) : list A := fold_right insertSorted [] l.

End Sort.

(** Every element in turn through a function that may fail. *)
Fixpoint traverse {A B} (f : A -> option B) (l : list A) : option (list B) :=
  match l with
  | [] => Some []
  | x :: l' =>
      match f x, traverse f l' with
      | Some y, Some ys => Some (y :: ys)
      | _, _ => None
      end
  end.

End JsArray.

(* ===================================================================== *)
(** * analyzer.js: defaults, priorities and the order of display *)
(* ===================================================================== *)

Module Ranking.

(** [defaults] *)
Definition defaults_skills : list string :=
  ["code-reviewer"; "test-writer"; "commit-msg-generator"; "git-workflow"].
Definition defaults_agents : list string := ["code-reviewer"; "debugger"].
Definition defaults_hooks : list string := ["session-context-loader"].

(** [officialSkills]: name and description. *)
Definition officialSkills : list (string * string) :=
  [ ("docx", "Process Microsoft Word documents");
    ("pdf", "Process PDF documents");
    ("pptx", "Process PowerPoint presentations");
    ("xlsx", "Process Excel spreadsheets");
    ("skill-creator", "Help create new custom skills");
    ("frontend-design", "Design frontend interfaces") ].

(** The object literal [priorities] of [getPriorityScore]. *)
Definition priorities : list (string * Z) :=
  [ ("code-reviewer", 90%Z);
    ("test-writer", 85%Z);
    ("security-auditor", 80%Z);
    ("git-workflow", 75%Z);
    ("commit-msg-generator", 70%Z);
    ("doc-generator", 65%Z);
    ("quality-gate", 60%Z);
    ("session-context-loader", 55%Z) ].

(** What [getPriorityScore] returns: a number, or the member of
    [Object.prototype] that [priorities[name]] found under an inherited
    name. *)
Inductive Score : Type :=
| Points (n : Z)
| Member (key : string).

(** [priorities[name] || 50] after the test of [recommended]. *)
Definition getPriorityScore (name : string) (recommended : list string) : Score :=
  if Scanner.arrayIncludes recommended name then Points 100
  else
    match JsObject.lookup priorities name with
    | JsObject.Own n => if (n =? 0)%Z then Points 50 else Points n
    | JsObject.Inherited => Member name
    | JsObject.Missing => Points 50
    end.

(** A component with the number its score is, if it is one. *)
Definition scored (recommended : list string) (name : string)
  : option (string * Z) :=
  match getPriorityScore name recommended with
  | Points n => Some (name, n)
  | Member _ => None
  end.

(** [(a, b) => scoreB - scoreA], on components that carry their score. *)
Definition byScore (a b : string * Z) : Z := (snd b - snd a)%Z.

(** [[...components].sort(...)].  When a score is not a number the
    comparator returns NaN, is no consistent ordering, and the order of
    the result is left to the implementation: [None]. *)
Definition sortByPriority (components recommended : list string)
  : option (list string) :=
  match JsArray.traverse (scored recommended) components with
  | Some withScores => Some (map fst (JsArray.sort byScore withScores))
  | None => None
  end.

(** [detectProjectContext(directory)]: the same object for every
    directory. *)
Definition detectProjectContext (directory : string) : Js.value :=
  Js.VObj [ ("projectType", Js.VNull);
            ("techStack", Js.VArr []);
            ("architecture", Js.VArr []);
            ("hasApi", Js.VBool false) ].

End Ranking.

(** Notions about the order of display. *)
Module RankingSpec.
Import Ranking.

(** The score of the component is the number [n]. *)
Definition hasScore (recommended : list string) (n : Z) (name : string) : bool :=
  match getPriorityScore name recommended with
  | Points m => (m =? n)%Z
  | Member _ => false
  end.

(** The first component does not rank below the second. *)
Definition ranksNoLower (recommended : list string) (a b : string) : Prop :=
  exists na nb,
    getPriorityScore a recommended = Points na
    /\ getPriorityScore b recommended = Points nb
    /\ (nb <= na)%Z.

End RankingSpec.

(** Notions about contexts that say little. *)
Module ContextSpec.
Import Js.

(** Reading [field] of the context throws, or gives a falsy value. *)
Definition saysNothing (context : value) (field : string) : Prop :=
  match getProp context field with
  | Throw _ => True
  | Normal v => truthy v = false
  end.

(** Reading [field] of the context throws, or gives a falsy value or the
    empty array. *)
Definition listsNothing (context : value) (field : string) : Prop :=
  match getProp context field with
  | Throw _ => True
  | Normal v => truthy v = false \/ v = VArr []
  end.

(** A context that names no architecture, concern or technology, no kind
    of user or of project, and no API: for instance [undefined], [null],
    [{}], or what [detectProjectContext] returns. *)
Definition blank (context : value) : Prop :=
  listsNothing context "architecture"
  /\ listsNothing context "concerns"
  /\ listsNothing context "techStack"
  /\ saysNothing context "targetUsers"
  /\ saysNothing context "projectType"
  /\ saysNothing context "hasApi".

(** The condition throws on the context, or returns a falsy value. *)
Definition quiet (condition : value -> completion value) (context : value) : Prop :=
  match condition context with
  | Throw _ => True
  | Normal v => truthy v = false
  end.

(** What the always-true rule alone recommends. *)
Definition essentials : Analyzer.Result :=
  {| Analyzer.out_skills := ["code-reviewer"; "commit-msg-generator"; "git-workflow"];
     Analyzer.out_agents := ["code-reviewer"];
     Analyzer.out_hooks := ["session-context-loader"];
     Analyzer.out_reasons := [] |}.

End ContextSpec.

(** index.js, [initCommand]: the context handed to [analyzeProject], made
    of the answers to the prompts (one choice, lists of choices, a
    confirmation). *)
Module Wizard.

(** [projectTypes] and [architectureOptions]: value and label. *)
Definition projectTypes : list (string * string) :=
  [ ("dotnet-clean-arch", ".NET Clean Architecture");
    ("angular-frontend", "Angular Frontend");
    ("react-nextjs", "React / Next.js");
    ("api-service", "API Service");
    ("cli-tool", "CLI Tool");
    ("monorepo", "Monorepo");
    ("general", "General Project") ].

Definition architectureOptions : list (string * string) :=
  [ ("clean-architecture", "Clean Architecture");
    ("vertical-slice", "Vertical Slice");
    ("cqrs", "CQRS");
    ("event-sourcing", "Event Sourcing");
    ("repository-pattern", "Repository Pattern");
    ("microservices", "Microservices");
    ("modular-monolith", "Modular Monolith") ].

(** [projectTypeInitial]: the scanned project type when it is one of the
    choices, 'general' otherwise; [None] stands for the [undefined] of a
    run without scan. *)
Definition projectTypeInitial (prefilledProjectType : option string) : string :=
  match prefilledProjectType with
  | Some t =>
      if existsb (fun choice => String.eqb (fst choice) t) projectTypes
      then t else "general"
  | None => "general"
  end.

Definition context (projectType : string) (techStack architecture concerns : list string)
    (targetUsers : string) (hasApi : bool) : Js.value :=
  Js.VObj [ ("projectType", Js.VStr projectType);
            ("techStack", Js.VArr (map Js.VStr techStack));
            ("architecture", Js.VArr (map Js.VStr architecture));
            ("concerns", Js.VArr (map Js.VStr concerns));
            ("targetUsers", Js.VStr targetUsers);
            ("hasApi", Js.VBool hasApi) ].

End Wizard.

(* ===================================================================== *)
(** * templates: the tables of skills, agents and hooks *)
(* ===================================================================== *)

Module Templates.

Record Skill : Type := {
  skill_name : string;
  skill_description : string;
  skill_content : string
}.

Record Agent : Type := {
  agent_name : string;
  agent_description : string;
  agent_content : string
}.

Record Hook : Type := {
  hook_name : string;
  hook_description : string;
  event : string;
  matcher : string;
  hook_content : string
}.

Section Tables.

(** The text of the template literal of each entry, by key. *)
Variables skillText agentText hookText : string -> string.

Definition skills : list (string * Skill) :=
  [
    ("code-reviewer", {| skill_name := "code-reviewer";
             skill_description := "Review code for quality, security, and best practices";
             skill_content := skillText "code-reviewer" |});
    ("test-writer", {| skill_name := "test-writer";
             skill_description := "Write comprehensive tests following AAA pattern";
             skill_content := skillText "test-writer" |});
    ("security-auditor", {| skill_name := "security-auditor";
             skill_description := "Audit code for security vulnerabilities";
             skill_content := skillText "security-auditor" |});
    ("doc-generator", {| skill_name := "doc-generator";
             skill_description := "Generate documentation from code";
             skill_content := skillText "doc-generator" |});
    ("commit-msg-generator", {| skill_name := "commit-msg-generator";
             skill_description := "Generate conventional commit messages from staged changes";
             skill_content := skillText "commit-msg-generator" |});
    ("refactoring-advisor", {| skill_name := "refactoring-advisor";
             skill_description := "Identify code smells and suggest refactoring patterns";
             skill_content := skillText "refactoring-advisor" |});
    ("api-design-reviewer", {| skill_name := "api-design-reviewer";
             skill_description := "Review API design for REST/GraphQL best practices";
             skill_content := skillText "api-design-reviewer" |});
    ("database-reviewer", {| skill_name := "database-reviewer";
             skill_description := "Review database schema and queries for optimization and safety";
             skill_content := skillText "database-reviewer" |});
    ("accessibility-auditor", {| skill_name := "accessibility-auditor";
             skill_description := "Audit UI for WCAG compliance";
             skill_content := skillText "accessibility-auditor" |});
    ("ux-reviewer", {| skill_name := "ux-reviewer";
             skill_description := "Review UI/UX for usability";
             skill_content := skillText "ux-reviewer" |});
    ("performance-analyzer", {| skill_name := "performance-analyzer";
             skill_description := "Identify performance bottlenecks and optimization opportunities";
             skill_content := skillText "performance-analyzer" |});
    ("dependency-auditor", {| skill_name := "dependency-auditor";
             skill_description := "Audit dependencies for vulnerabilities, outdated packages, license conflicts";
             skill_content := skillText "dependency-auditor" |});
    ("naming-conventions", {| skill_name := "naming-conventions";
             skill_description := "Enforce consistent naming conventions across codebase";
             skill_content := skillText "naming-conventions" |});
    ("error-handling-patterns", {| skill_name := "error-handling-patterns";
             skill_description := "Implement consistent error handling patterns";
             skill_content := skillText "error-handling-patterns" |});
    ("logging-standards", {| skill_name := "logging-standards";
             skill_description := "Implement consistent logging for observability";
             skill_content := skillText "logging-standards" |});
    ("git-workflow", {| skill_name := "git-workflow";
             skill_description := "Follow Git workflow best practices";
             skill_content := skillText "git-workflow" |}) ].

Definition agents : list (string * Agent) :=
  [
    ("architect", {| agent_name := "architect";
             agent_description := "Design review and ADR generation";
             agent_content := agentText "architect" |});
    ("code-reviewer", {| agent_name := "code-reviewer";
             agent_description := "Post-change quality gate with automatic diff analysis";
             agent_content := agentText "code-reviewer" |});
    ("security-auditor", {| agent_name := "security-auditor";
             agent_description := "Pre-deployment security validation and vulnerability scanning";
             agent_content := agentText "security-auditor" |});
    ("test-runner", {| agent_name := "test-runner";
             agent_description := "Auto-run tests on changes and fix failing tests";
             agent_content := agentText "test-runner" |});
    ("doc-engineer", {| agent_name := "doc-engineer";
             agent_description := "Technical documentation specialist";
             agent_content := agentText "doc-engineer" |});
    ("debugger", {| agent_name := "debugger";
             agent_description := "Systematic debugging process specialist";
             agent_content := agentText "debugger" |});
    ("refactorer", {| agent_name := "refactorer";
             agent_description := "Safe refactoring with test verification";
             agent_content := agentText "refactorer" |});
    ("migrator", {| agent_name := "migrator";
             agent_description := "Database and API migration specialist";
             agent_content := agentText "migrator" |});
    ("onboarder", {| agent_name := "onboarder";
             agent_description := "Generate onboarding documentation from codebase analysis";
             agent_content := agentText "onboarder" |});
    ("estimator", {| agent_name := "estimator";
             agent_description := "Task breakdown and estimation specialist";
             agent_content := agentText "estimator" |}) ].

Definition hooks : list (string * Hook) :=
  [
    ("pre-commit-lint", {| hook_name := "pre-commit-lint";
             hook_description := "Run linter before file writes";
             event := "PreToolUse"; matcher := "Write|Edit";
             hook_content := hookText "pre-commit-lint" |});
    ("post-edit-format", {| hook_name := "post-edit-format";
             hook_description := "Auto-format files after editing";
             event := "PostToolUse"; matcher := "Write|Edit";
             hook_content := hookText "post-edit-format" |});
    ("session-context-loader", {| hook_name := "session-context-loader";
             hook_description := "Display available skills and agents at session start";
             event := "SessionStart"; matcher := "*";
             hook_content := hookText "session-context-loader" |});
    ("quality-gate", {| hook_name := "quality-gate";
             hook_description := "Verify tests pass before session completion";
             event := "Stop"; matcher := "*";
             hook_content := hookText "quality-gate" |});
    ("secrets-scanner", {| hook_name := "secrets-scanner";
             hook_description := "Block commits containing secrets";
             event := "PreToolUse"; matcher := "Write";
             hook_content := hookText "secrets-scanner" |});
    ("layer-violation-blocker", {| hook_name := "layer-violation-blocker";
             hook_description := "Block Clean Architecture layer violations";
             event := "PreToolUse"; matcher := "Write";
             hook_content := hookText "layer-violation-blocker" |});
    ("large-file-warning", {| hook_name := "large-file-warning";
             hook_description := "Warn when creating files over 500 lines";
             event := "PreToolUse"; matcher := "Write";
             hook_content := hookText "large-file-warning" |});
    ("branch-protection", {| hook_name := "branch-protection";
             hook_description := "Prevent direct commits to protected branches";
             event := "PreToolUse"; matcher := "Bash";
             hook_content := hookText "branch-protection" |});
    ("changelog-reminder", {| hook_name := "changelog-reminder";
             hook_description := "Remind to update CHANGELOG before completing";
             event := "Stop"; matcher := "*";
             hook_content := hookText "changelog-reminder" |});
    ("todo-collector", {| hook_name := "todo-collector";
             hook_description := "Extract TODOs from code to tracking file";
             event := "PostToolUse"; matcher := "Write|Edit";
             hook_content := hookText "todo-collector" |}) ].

(** [getSkill], [getAgent], [getHook]: [table[name]] *)
Definition getSkill (name : string) : JsObject.Lookup Skill :=
  JsObject.lookup skills name.

Definition getAgent (name : string) : JsObject.Lookup Agent :=
  JsObject.lookup agents name.

Definition getHook (name : string) : JsObject.Lookup Hook :=
  JsObject.lookup hooks name.

(** [Object.keys(table)] *)
Definition getSkillNames : list string := map fst skills.
Definition getAgentNames : list string := map fst agents.
Definition getHookNames : list string := map fst hooks.

End Tables.
End Templates.

(* ===================================================================== *)
(** * generator.js: [generateSettingsJson] *)
(* ===================================================================== *)

Module Generator.
Import Templates.

(** An entry of [settings.hooks[event]]; [matcher] is [undefined] when
    what [getHook] returned is not a hook. *)
Record HookEntry : Type := {
  entry_matcher : option string;
  command : string
}.

(** [settings.hooks.[event].push(entry)], after
    [if (!settings.hooks[event]) settings.hooks[event] = []].  Under an
    inherited name [settings.hooks[event]] is a function, which is truthy
    and has no [push]. *)
Definition pushEntry (settingsHooks : list (string * list HookEntry))
    (event : string) (entry : HookEntry)
  : completion (list (string * list HookEntry)) :=
  match JsObject.lookup settingsHooks event with
  | JsObject.Own entries => Normal (JsMap.set event (entries ++ [entry]) settingsHooks)
  | JsObject.Missing => Normal (JsMap.set event [entry] settingsHooks)
  | JsObject.Inherited => Throw "TypeError: push is not a function"
  end.

Section Generate.
Variable hookText : string -> string.

(** Body of the loop over the selected hooks.  A member of
    [Object.prototype] is truthy like a hook, and its [event] and
    [matcher] are [undefined]; as a property name [undefined] reads
    "undefined". *)
Definition addSelected (settingsHooks : list (string * list HookEntry))
    (hookName : string) : completion (list (string * list HookEntry)) :=
  match getHook hookText hookName with
  | JsObject.Own hook =>
      pushEntry settingsHooks (event hook)
        {| entry_matcher := Some (matcher hook);
           command := ".claude/hooks/" ++ hookName ++ ".sh" |}
  | JsObject.Inherited =>
      pushEntry settingsHooks "undefined"
        {| entry_matcher := None;
           command := ".claude/hooks/" ++ hookName ++ ".sh" |}
  | JsObject.Missing => Normal settingsHooks
  end.

(** Resolves to [settings.hooks]; [selectedHooks] is [None] when
    [config.hooks] is [undefined], which the default [[]] replaces. *)
Definition generateSettingsJson (selectedHooks : option (list string))
  : completion (list (string * list HookEntry)) :=
  foldM addSelected
    (match selectedHooks with Some l => l | None => [] end) [].

End Generate.
End Generator.

(** Notions about the generated settings. *)
Module GeneratorSpec.
Import Templates Generator.

Section Filing.
Variable hookText : string -> string.

(** Where a selected name is filed, and as what entry: under the event
    of its template; under "undefined" and without matcher for a name
    that objects inherit; nowhere for any other unknown name. *)
Definition filed (hookName : string) : option (string * HookEntry) :=
  match getHook hookText hookName with
  | JsObject.Own hook =>
      Some (event hook,
            {| entry_matcher := Some (matcher hook);
               command := ".claude/hooks/" ++ hookName ++ ".sh" |})
  | JsObject.Inherited =>
      Some ("undefined",
            {| entry_matcher := None;
               command := ".claude/hooks/" ++ hookName ++ ".sh" |})
  | JsObject.Missing => None
  end.

(** The entries of the selected names filed under the event [e], in the
    order of the selection. *)
Definition entriesUnder (e : string) (selectedHooks : list string) : list HookEntry :=
  flat_map (fun hookName =>
              match filed hookName with
              | Some (ev, entry) => if String.eqb ev e then [entry] else []
              | None => []
              end) selectedHooks.

(** The events under which something is filed, one after the other. *)
Definition eventsOf (selectedHooks : list string) : list string :=
  flat_map (fun hookName =>
              match filed hookName with
              | Some (ev, _) => [ev]
              | None => []
              end) selectedHooks.

End Filing.
End GeneratorSpec.

(** Notions about the scanner. *)
Module ScannerSpec.
Import Js Fs Scanner.

(** A statement keeps a property of [detected]. *)
Definition preserves (P : Detected -> Prop) (step : Detected -> Detected) : Prop :=
  forall d, P d -> P (step d).

(** The same for a statement that may throw: it keeps the property when
    it completes. *)
Definition preservesM (P : Detected -> Prop)
    (step : Detected -> completion Detected) : Prop :=
  forall d d', P d -> step d = Normal d' -> P d'.

Section Readable.
Variable JSON_parse : string -> option value.
Variable w : World.

(** [keywords] can be asked whether it includes 'cli': it is falsy, so
    that it is not asked, or it is an array or a string. *)
Definition answersIncludes (keywords : value) : Prop :=
  truthy keywords = false
  \/ (exists items, keywords = VArr items)
  \/ (exists s, keywords = VStr s).

(** There is no package.json, or it can be read, is JSON for something
    other than [null], and the test for a command-line tool can be made
    on it. *)
Definition usableManifest : Prop :=
  access w "package.json" = false
  \/ exists text pkg,
       readFileText w "package.json" = Some text
       /\ JSON_parse text = Some pkg
       /\ pkg <> VUndefined /\ pkg <> VNull
       /\ forall bin keywords,
            getProp pkg "bin" = Normal bin ->
            getProp pkg "keywords" = Normal keywords ->
            truthy bin = true \/ answersIncludes keywords.

(** The project files that are looked into (the first five found) can
    all be read. *)
Definition readableProjectFiles : Prop :=
  forall csproj,
    In csproj (array_slice (glob w "**/*.csproj" 100) 0 5) ->
    readFileText w csproj <> None.

End Readable.

(** The values that [projectType] and [architecture] are given. *)
Definition knownKinds (d : Detected) : Prop :=
  In (projectType d) (map fst Wizard.projectTypes)
  /\ incl (architecture d) (map fst Wizard.architectureOptions).

(** A project typed as an API service is recorded as having an API. *)
Definition apiRecorded (d : Detected) : Prop :=
  projectType d = "api-service" -> hasApi d = true.

(** Both at once. *)
Definition consistent (d : Detected) : Prop := knownKinds d /\ apiRecorded d.

(** What is recorded of an existing configuration. *)
Definition claudePart (b : bool) (c : ExistingClaudeComponents) (d : Detected) : Prop :=
  existingClaude d = b /\ existingClaudeComponents d = c.

(** A project with a .claude directory on which the probes agree: the
    directory is there for [access] and for [stat]; a subdirectory that
    can be listed is a directory; and every agent and hook file listed
    can be read. *)
Definition coherentClaude (w : World) : Prop :=
  access w ".claude" = true
  /\ stat w ".claude" = Some true
  /\ (forall sub, In sub ["skills"; "agents"; "hooks"] ->
                  readdir w (".claude/" ++ sub) <> None ->
                  stat w (".claude/" ++ sub) = Some true)
  /\ (forall files file,
        readdir w ".claude/agents" = Some files -> In file files ->
        Str.endsWith file ".md" = true ->
        readFileText w (".claude/agents/" ++ file) <> None)
  /\ (forall files file,
        readdir w ".claude/hooks" = Some files -> In file files ->
        Str.endsWith file ".sh" = true ->
        readFileText w (".claude/hooks/" ++ file) <> None).

End ScannerSpec.

(** A project directory with a configuration in place: one skill (and a
    stray file beside it), one agent (and a text file beside it), one
    hook. *)
Module Configured.

Definition paths (l : list string) (p : string) : bool := existsb (String.eqb p) l.

Definition world : Fs.World :=
  {| Fs.basename := "demo";
     Fs.access := paths [".claude"];
     Fs.stat := fun p =>
       if paths [".claude"; ".claude/skills"; ".claude/agents"; ".claude/hooks";
                 ".claude/skills/code-reviewer"] p then Some true
       else if paths [".claude/skills/notes.txt"] p then Some false
       else None;
     Fs.readFileText := fun p =>
       if String.eqb p ".claude/skills/code-reviewer/SKILL.md" then Some "# Code reviewer"
       else if String.eqb p ".claude/agents/architect.md" then Some "# Architect"
       else if String.eqb p ".claude/hooks/quality-gate.sh" then Some "#!/bin/bash"
       else None;
     Fs.readdir := fun p =>
       if String.eqb p ".claude/skills" then Some ["code-reviewer"; "notes.txt"]
       else if String.eqb p ".claude/agents" then Some ["architect.md"; "README.txt"]
       else if String.eqb p ".claude/hooks" then Some ["quality-gate.sh"]
       else None;
     Fs.fastGlob := fun _ => Some [] |}.

End Configured.

(* ===================================================================== *)
(** * merger.js: [backupExisting], [copyDir] and [restoreFromBackup] *)
(* ===================================================================== *)

(** These three change the file system, and what they leave behind when
    they fail half way is part of what they do.  The file system is a
    tree of plain files and directories in which every operation is
    permitted; a path is the list of its segments; an operation that
    fails throws the code of its error and changes nothing. *)
Module Disk.

#[warnings="-register-all"] Inductive Node : Type :=
| File (text : string)
| Dir (entries : list (string * Node)).

Definition Path : Type := list string.

(** The node at a path; [ENOENT] when a segment is missing, [ENOTDIR]
    when a segment on the way is a file. *)
Fixpoint walk (n : Node) (p : Path) : completion Node :=
  match p with
  | [] => Normal n
  | seg :: rest =>
      match n with
      | File _ => Throw "ENOTDIR"
      | Dir entries =>
          match JsMap.get seg entries with
          | Some child => walk child rest
          | None => Throw "ENOENT"
          end
      end
  end.

(** The tree with [node] at path [p]: under a new name at the end of its
    directory, or in the place of what was there.  The directory has to
    exist. *)
Fixpoint place (n : Node) (p : Path) (node : Node) : completion Node :=
  match p with
  | [] => Normal node
  | seg :: rest =>
      match n with
      | File _ => Throw "ENOTDIR"
      | Dir entries =>
          match JsMap.get seg entries with
          | Some child =>
              child' <- place child rest node ;;
              Normal (Dir (JsMap.set seg child' entries))
          | None =>
              match rest with
              | [] => Normal (Dir (JsMap.set seg node entries))
              | _ :: _ => Throw "ENOENT"
              end
          end
      end
  end.

(** [fs.mkdir(p, { recursive: true })]: the directories that are missing
    are made; a directory that exists is left alone; a file in the way is
    an error. *)
Fixpoint mkdirp (n : Node) (p : Path) : completion Node :=
  match p with
  | [] => match n with
          | Dir _ => Normal n
          | File _ => Throw "EEXIST"
          end
  | seg :: rest =>
      match n with
      | File _ => Throw "ENOTDIR"
      | Dir entries =>
          child' <- mkdirp (match JsMap.get seg entries with
                            | Some child => child
                            | None => Dir []
                            end) rest ;;
          Normal (Dir (JsMap.set seg child' entries))
      end
  end.

(** [fs.rm(p, { recursive: true })]: the file, or the directory with all
    it holds, is taken out of its directory; [force] is not set, so a
    missing path is an error.  The root cannot be removed. *)
Fixpoint remove (n : Node) (p : Path) : completion Node :=
  match p with
  | [] => Throw "EPERM"
  | seg :: rest =>
      match n with
      | File _ => Throw "ENOTDIR"
      | Dir entries =>
          match JsMap.get seg entries with
          | None => Throw "ENOENT"
          | Some child =>
              match rest with
              | [] => Normal (Dir (JsMap.delete seg entries))
              | _ :: _ =>
                  child' <- remove child rest ;;
                  Normal (Dir (JsMap.set seg child' entries))
              end
          end
      end
  end.

Definition isDir (n : Node) : bool :=
  match n with
  | Dir _ => true
  | File _ => false
  end.

(** [fs.readdir(p, { withFileTypes: true })]: the name of each entry, and
    whether it is a directory. *)
Definition listing (n : Node) (p : Path) : completion (list (string * bool)) :=
  node <- walk n p ;;
  match node with
  | Dir entries => Normal (map (fun kv => (fst kv, isDir (snd kv))) entries)
  | File _ => Throw "ENOTDIR"
  end.

(** [fs.copyFile(src, dest)]: the text of the file [src] becomes the text
    of [dest], which is made or overwritten. *)
Definition copied (n : Node) (src dest : Path) : completion Node :=
  node <- walk n src ;;
  match node with
  | Dir _ => Throw "EISDIR"
  | File text =>
      match walk n dest with
      | Normal (Dir _) => Throw "EISDIR"
      | _ => place n dest (File text)
      end
  end.

(** ** Programs on the file system *)

(** A program takes the file system and leaves it changed, together with
    what it returns or throws; [None] when the fuel that bounds the
    depth of recursion runs out. *)
Definition io (A : Type) : Type := Node -> option (completion A * Node).

Definition ret {A} (a : A) : io A := fun fs => Some (Normal a, fs).

Definition throw {A} (error : string) : io A := fun fs => Some (Throw error, fs).

Definition andThen {A B} (m : io A) (k : A -> io B) : io B :=
  fun fs =>
    match m fs with
    | Some (Normal a, fs') => k a fs'
    | Some (Throw error, fs') => Some (Throw error, fs')
    | None => None
    end.

(** [try { body } catch (error) { handler }]: what the body did to the
    file system before it threw stays done. *)
Definition try {A} (body : io A) (handler : string -> io A) : io A :=
  fun fs =>
    match body fs with
    | Some (Normal a, fs') => Some (Normal a, fs')
    | Some (Throw error, fs') => handler error fs'
    | None => None
    end.

Notation "x <~ c ;; k" := (andThen c (fun x => k))
  (at level 61, c at next level, right associativity).

(** An operation that reads. *)
Definition reading {A} (op : Node -> completion A) : io A :=
  fun fs => Some (op fs, fs).

(** An operation that writes, or fails and changes nothing. *)
Definition writing (op : Node -> completion Node) : io unit :=
  fun fs =>
    match op fs with
    | Normal fs' => Some (Normal tt, fs')
    | Throw error => Some (Throw error, fs)
    end.

Definition access (p : Path) : io unit :=
  reading (fun fs => _ <- walk fs p ;; Normal tt).

Definition mkdir (p : Path) : io unit := writing (fun fs => mkdirp fs p).

Definition readdir (p : Path) : io (list (string * bool)) :=
  reading (fun fs => listing fs p).

Definition copyFile (src dest : Path) : io unit :=
  writing (fun fs => copied fs src dest).

Definition rm (p : Path) : io unit := writing (fun fs => remove fs p).

(** [for (const x of l) { await body(x) }] *)
Fixpoint forEach {A} (l : list A) (body : A -> io unit) : io unit :=
  match l with
  | [] => ret tt
  | x :: l' => _ <~ body x ;; forEach l' body
  end.

(** ** The three functions *)

(** [copyDir(src, dest)]; [path.join(src, entry.name)] adds the name of
    the entry as a segment. *)
Fixpoint copyDir (fuel : nat) (src dest : Path) : io unit :=
  match fuel with
  | O => fun _ => None
  | S fuel' =>
      _ <~ mkdir dest ;;
      entries <~ readdir src ;;
      forEach entries
        (fun entry =>
           let srcPath := src ++ [fst entry] in
           let destPath := dest ++ [fst entry] in
           if snd entry
           then copyDir fuel' srcPath destPath
           else copyFile srcPath destPath)
  end.

(** [iso.replace(/[:.]/g, '-')] *)
Fixpoint dashed (iso : string) : string :=
  match iso with
  | EmptyString => EmptyString
  | String c rest =>
      String (if Ascii.eqb c ":" || Ascii.eqb c "." then "-"%char else c)
             (dashed rest)
  end.

(** The name of the backup made at the time whose
    [new Date().toISOString()] is [iso]. *)
Definition backupName (iso : string) : string :=
  ".claude.backup." ++ dashed iso.

(** [backupExisting(projectPath)], at that time.  It resolves to the path
    of the backup, or to [null].  The error thrown again has no [code]:
    what it carries is the message. *)
Definition backupExisting (fuel : nat) (projectPath : Path) (iso : string)
  : io (option Path) :=
  let claudeDir := projectPath ++ [".claude"] in
  let backupDir := projectPath ++ [backupName iso] in
  try (_ <~ access claudeDir ;;
       _ <~ copyDir fuel claudeDir backupDir ;;
       ret (Some backupDir))
      (fun error =>
         if String.eqb error "ENOENT" then ret None
         else throw ("Failed to backup: " ++ error)).

(** [restoreFromBackup(backupPath, projectPath)] *)
Definition restoreFromBackup (fuel : nat) (backupPath projectPath : Path)
  : io unit :=
  let claudeDir := projectPath ++ [".claude"] in
  _ <~ try (rm claudeDir) (fun _ => ret tt) ;;
  copyDir fuel backupPath claudeDir.

End Disk.

(** Notions about the file system. *)
Module DiskSpec.
Import Disk.

(** Two paths part ways: neither leads to or through the other. *)
Fixpoint apart (p q : Path) : Prop :=
  match p, q with
  | x :: p', y :: q' => x <> y \/ apart p' q'
  | _, _ => False
  end.

(** The names in every directory of the tree are distinct. *)
Fixpoint distinctNames (n : Node) : Prop :=
  match n with
  | File _ => True
  | Dir entries =>
      NoDup (map fst entries)
      /\ fold_right (fun kv rest => distinctNames (snd kv) /\ rest) True entries
  end.

(** The number of directories on the longest way down. *)
Fixpoint depth (n : Node) : nat :=
  match n with
  | File _ => O
  | Dir entries =>
      S (fold_right (fun kv d => Nat.max (depth (snd kv)) d) O entries)
  end.

(** The path is free: the directory it is in exists, and has no entry of
    that name. *)
Definition vacant (fs : Node) (parent : Path) (name : string) : Prop :=
  exists entries,
    walk fs parent = Normal (Dir entries) /\ JsMap.get name entries = None.

End DiskSpec.

(** A disk with the project [demo] on it, configured: one skill and the
    settings; and one on which [.claude] is a file. *)
Module Workplace.
Import Disk.

Definition configuration : list (string * Node) :=
  [("skills", Dir [("code-reviewer", Dir [("SKILL.md", File "# Code reviewer")])]);
   ("settings.json", File "{}")].

Definition disk : Node :=
  Dir [("demo", Dir [(".claude", Dir configuration); ("README.md", File "# Demo")])].

Definition oddDisk : Node :=
  Dir [("demo", Dir [(".claude", File "not a directory")])].

Definition iso : string := "2024-01-15T10:30:00.000Z".

End Workplace.

(* ===================================================================== *)
(** * ui.js: [validateConfiguration] *)
(* ===================================================================== *)

Module Validator.

(** What [fs.readFile(p, 'utf-8')] does: it resolves to the text, or
    rejects with a system error, which has a code and a message. *)
Inductive ReadResult : Type :=
| Text (content : string)
| Rejected (code message : string).

(** The file system as the validation probes it:
    - [access p]: [fs.access] resolves;
    - [readFile p]: see above;
    - [readdir p]: the names [fs.readdir] resolves to, [None] when it
      rejects;
    - [mode p]: [stats.mode] when [fs.stat] resolves. *)
Record Probes : Type := {
  access : string -> bool;
  readFile : string -> ReadResult;
  readdir : string -> option (list string);
  mode : string -> option Z
}.

Record Summary : Type := {
  skills : nat;
  agents : nat;
  hooks : nat
}.

Record Results : Type := {
  valid : bool;
  errors : list string;
  warnings : list string;
  summary : Summary
}.

Definition warn (results : Results) (warning : string) : Results :=
  {| valid := valid results;
     errors := errors results;
     warnings := warnings results ++ [warning];
     summary := summary results |}.

Definition withSummary (results : Results) (s : Summary) : Results :=
  {| valid := valid results;
     errors := errors results;
     warnings := warnings results;
     summary := s |}.

Section Validate.

(** [JSON.parse]: [None] when it throws, which it does with a
    [SyntaxError]; that error has no [code], and the message
    [syntaxError text].  [path.join] and [path.dirname] are taken as
    they are. *)
Variable JSON_parse : string -> option Js.value.
Variable syntaxError : string -> string.
Variable join : list string -> string.
Variable dirname : string -> string.
Variable fs : Probes.

(** The check of [settings.json]. *)
Definition checkSettings (results : Results) (settingsPath : string) : Results :=
  let invalid (message : string) :=
    {| valid := false;
       errors := errors results ++ [("Invalid settings.json: " ++ message)%string];
       warnings := warnings results;
       summary := summary results |} in
  match readFile fs settingsPath with
  | Text content =>
      match JSON_parse content with
      | Some _ => results
      | None => invalid (syntaxError content)
      end
  | Rejected code message =>
      if String.eqb code "ENOENT" then warn results "settings.json not found"
      else invalid message
  end.

Definition checkClaudeMd (results : Results) (claudeMdPath : string) : Results :=
  if access fs claudeMdPath then results
  else warn results "CLAUDE.md not found in project root".

(** Body of the loop over the entries of the skills directory. *)
Definition countSkill (skillsDir : string) (results : Results) (dir : string)
  : Results :=
  if access fs (join [skillsDir; dir; "SKILL.md"])
  then withSummary results
         {| skills := S (skills (summary results));
            agents := agents (summary results);
            hooks := hooks (summary results) |}
  else warn results ("Skill directory missing SKILL.md: " ++ dir)%string.

Definition countSkills (results : Results) (outputDir : string) : Results :=
  let skillsDir := join [outputDir; "skills"] in
  match readdir fs skillsDir with
  | Some skillDirs => fold_left (countSkill skillsDir) skillDirs results
  | None => results
  end.

Definition countAgents (results : Results) (outputDir : string) : Results :=
  match readdir fs (join [outputDir; "agents"]) with
  | Some agentFiles =>
      withSummary results
        {| skills := skills (summary results);
           agents := List.length (filter (fun f => Str.endsWith f ".md") agentFiles);
           hooks := hooks (summary results) |}
  | None => results
  end.

(** Body of the loop over the entries of the hooks directory;
    [0o111] is 73. *)
Definition checkHook (hooksDir : string) (results : Results) (hookFile : string)
  : Results :=
  if Str.endsWith hookFile ".sh" then
    match mode fs (join [hooksDir; hookFile]) with
    | Some m =>
        if (Z.land m 73 =? 0)%Z
        then warn results ("Hook not executable: " ++ hookFile)%string
        else results
    | None => results
    end
  else results.

Definition countHooks (results : Results) (outputDir : string) : Results :=
  let hooksDir := join [outputDir; "hooks"] in
  match readdir fs hooksDir with
  | Some hookFiles =>
      fold_left (checkHook hooksDir) hookFiles
        (withSummary results
           {| skills := skills (summary results);
              agents := agents (summary results);
              hooks := List.length (filter (fun f => Str.endsWith f ".sh") hookFiles) |})
  | None => results
  end.

Definition validateConfiguration (outputDir : string) : Results :=
  let results :=
    {| valid := true; errors := []; warnings := [];
       summary := {| skills := 0; agents := 0; hooks := 0 |} |} in
  if access fs outputDir then
    let results := checkSettings results (join [outputDir; "settings.json"]) in
    let results := checkClaudeMd results (join [dirname outputDir; "CLAUDE.md"]) in
    let results := countSkills results outputDir in
    let results := countAgents results outputDir in
    countHooks results outputDir
  else
    {| valid := false;
       errors := errors results ++ [("Directory not found: " ++ outputDir)%string];
       warnings := warnings results;
       summary := summary results |}.

End Validate.

End Validator.

(* ===================================================================== *)
(** * Facts about sets and maps *)
(* ===================================================================== *)

Unset Implicit Arguments.

Section SetFacts.

Lemma has_true_iff (x : string) (s : list string) :
  JsSet.has x s = true <-> In x s.
Proof.
  unfold JsSet.has. rewrite existsb_exists. split.
  - intros [y [Hy Heq]]. apply String.eqb_eq in Heq. now subst.
  - intros H. exists x. split; [assumption | apply String.eqb_refl].
Qed.

Lemma has_false_iff (x : string) (s : list string) :
  JsSet.has x s = false <-> ~ In x s.
Proof.
  rewrite <- has_true_iff. destruct (JsSet.has x s); split; congruence.
Qed.

Lemma in_add (x y : string) (s : list string) :
  In x (JsSet.add s y) <-> In x s \/ x = y.
Proof.
  unfold JsSet.add. destruct (JsSet.has y s) eqn:E.
  - apply has_true_iff in E. split; [auto | intros [H | ->]; assumption].
  - rewrite in_app_iff. simpl. intuition.
Qed.

Lemma NoDup_add (y : string) (s : list string) :
  NoDup s -> NoDup (JsSet.add s y).
Proof.
  intros H. unfold JsSet.add. destruct (JsSet.has y s) eqn:E; [assumption |].
  apply has_false_iff in E.
  apply NoDup_app; [assumption | repeat constructor; simpl; tauto |].
  intros a Ha [<- | []]. contradiction.
Qed.

Lemma in_fold_add (l : list string) : forall (s : list string) (x : string),
  In x (fold_left JsSet.add l s) <-> In x s \/ In x l.
Proof.
  induction l as [| y l IH]; intros s x; simpl.
  - tauto.
  - rewrite IH, in_add. intuition.
Qed.

Lemma NoDup_fold_add (l : list string) : forall s : list string,
  NoDup s -> NoDup (fold_left JsSet.add l s).
Proof.
  induction l as [| y l IH]; intros s H; simpl; [assumption |].
  apply IH, NoDup_add, H.
Qed.

Lemma in_of_list (l : list string) (x : string) :
  In x (JsSet.of_list l) <-> In x l.
Proof. unfold JsSet.of_list. rewrite in_fold_add. simpl. tauto. Qed.

Lemma NoDup_of_list (l : list string) : NoDup (JsSet.of_list l).
Proof. apply NoDup_fold_add. constructor. Qed.

(** A set that is extended keeps what it had, in front. *)
Lemma fold_add_prefix (l : list string) : forall s : list string,
  exists t, fold_left JsSet.add l s = s ++ t.
Proof.
  induction l as [| y l IH]; intros s; simpl.
  - exists []. now rewrite app_nil_r.
  - unfold JsSet.add at 2. destruct (JsSet.has y s).
    + apply IH.
    + destruct (IH (s ++ [y])) as [t Ht]. exists (y :: t).
      now rewrite Ht, <- app_assoc.
Qed.

Lemma NoDup_filter_string (f : string -> bool) (l : list string) :
  NoDup l -> NoDup (filter f l).
Proof.
  induction 1 as [| a l Hn Hd IH]; simpl; [constructor |].
  destruct (f a); [| assumption].
  constructor; [| assumption]. rewrite filter_In. tauto.
Qed.

End SetFacts.

(* ===================================================================== *)
(** * The diff summary *)
(* ===================================================================== *)

Section Diff.
Import Merger.

Variables existingNames newNames : list string.

Lemma in_added (x : string) :
  In x (added (diffSection existingNames newNames))
  <-> In x newNames /\ ~ In x existingNames.
Proof.
  unfold diffSection; simpl.
  rewrite filter_In, in_of_list, negb_true_iff, has_false_iff, in_of_list.
  tauto.
Qed.

Lemma in_removed (x : string) :
  In x (removed (diffSection existingNames newNames))
  <-> In x existingNames /\ ~ In x newNames.
Proof.
  unfold diffSection; simpl.
  rewrite filter_In, in_of_list, negb_true_iff, has_false_iff, in_of_list.
  tauto.
Qed.

Lemma in_kept (x : string) :
  In x (kept (diffSection existingNames newNames))
  <-> In x newNames /\ In x existingNames.
Proof.
  unfold diffSection; simpl.
  rewrite filter_In, in_of_list, has_true_iff, in_of_list.
  tauto.
Qed.

Lemma diff_lists_NoDup :
  NoDup (added (diffSection existingNames newNames))
  /\ NoDup (removed (diffSection existingNames newNames))
  /\ NoDup (kept (diffSection existingNames newNames)).
Proof.
  unfold diffSection; simpl.
  repeat split; apply NoDup_filter_string, NoDup_of_list.
Qed.

Lemma diff_lists_disjoint :
  NoDup (added (diffSection existingNames newNames)
         ++ removed (diffSection existingNames newNames)
         ++ kept (diffSection existingNames newNames)).
Proof.
  destruct diff_lists_NoDup as (Ha & Hr & Hk).
  apply NoDup_app; [assumption | |].
  - apply NoDup_app; [assumption | assumption |].
    intros x Hx Hx'. apply in_removed in Hx. apply in_kept in Hx'. tauto.
  - intros x Hx Hx'. apply in_added in Hx.
    apply in_app_iff in Hx'. destruct Hx' as [Hx' | Hx'].
    + apply in_removed in Hx'. tauto.
    + apply in_kept in Hx'. tauto.
Qed.

Lemma diff_lists_cover (x : string) :
  In x (added (diffSection existingNames newNames)
        ++ removed (diffSection existingNames newNames)
        ++ kept (diffSection existingNames newNames))
  <-> In x existingNames \/ In x newNames.
Proof.
  rewrite !in_app_iff, in_added, in_removed, in_kept.
  destruct (in_dec string_dec x existingNames), (in_dec string_dec x newNames);
    tauto.
Qed.

End Diff.

Lemma diffOf_getDiffSummary existing newConfig k :
  Merger.diffOf k (Merger.getDiffSummary existing newConfig)
  = Merger.diffSection (map Merger.name (Merger.existingOf k existing))
                       (Merger.requestedOf k newConfig).
Proof. destruct k; reflexivity. Qed.

(** C8.  For each component kind, [added] is exactly the requested names
    that are not existing names, [removed] the existing names that are not
    requested, [kept] the names that are both; no name is listed twice in
    or across the three lists, and together they hold exactly the names
    that are existing or requested.  The summary is a function of the two
    configurations alone: it reads them and threads no state. *)
Theorem getDiffSummary_partition :
  forall (existing : Merger.ExistingConfig) (newConfig : Merger.NewConfig)
         (k : Merger.Kind),
    (forall x,
        In x (Merger.added (Merger.diffOf k (Merger.getDiffSummary existing newConfig)))
        <-> In x (Merger.requestedOf k newConfig)
            /\ ~ In x (map Merger.name (Merger.existingOf k existing)))
    /\ (forall x,
        In x (Merger.removed (Merger.diffOf k (Merger.getDiffSummary existing newConfig)))
        <-> In x (map Merger.name (Merger.existingOf k existing))
            /\ ~ In x (Merger.requestedOf k newConfig))
    /\ (forall x,
        In x (Merger.kept (Merger.diffOf k (Merger.getDiffSummary existing newConfig)))
        <-> In x (Merger.requestedOf k newConfig)
            /\ In x (map Merger.name (Merger.existingOf k existing)))
    /\ NoDup (Merger.added (Merger.diffOf k (Merger.getDiffSummary existing newConfig))
              ++ Merger.removed (Merger.diffOf k (Merger.getDiffSummary existing newConfig))
              ++ Merger.kept (Merger.diffOf k (Merger.getDiffSummary existing newConfig)))
    /\ (forall x,
        In x (Merger.added (Merger.diffOf k (Merger.getDiffSummary existing newConfig))
              ++ Merger.removed (Merger.diffOf k (Merger.getDiffSummary existing newConfig))
              ++ Merger.kept (Merger.diffOf k (Merger.getDiffSummary existing newConfig)))
        <-> In x (map Merger.name (Merger.existingOf k existing))
            \/ In x (Merger.requestedOf k newConfig)).
Proof.
  intros existing newConfig k.
  rewrite diffOf_getDiffSummary.
  split; [| split; [| split; [| split]]].
  - apply in_added.
  - apply in_removed.
  - apply in_kept.
  - apply diff_lists_disjoint.
  - apply diff_lists_cover.
Qed.

(* ===================================================================== *)
(** * Merging component lists *)
(* ===================================================================== *)

Section MapFacts.
Variable V : Type.
Implicit Types (m : list (string * V)) (k n : string) (v : V).

Lemma get_set n k v m :
  JsMap.get n (JsMap.set k v m) = if String.eqb n k then Some v else JsMap.get n m.
Proof.
  induction m as [| [k' v'] m IH]; simpl.
  - reflexivity.
  - destruct (String.eqb k k') eqn:Ek; simpl.
    + apply String.eqb_eq in Ek; subst k'.
      destruct (String.eqb n k); reflexivity.
    + destruct (String.eqb n k') eqn:En.
      * apply String.eqb_eq in En; subst k'.
        destruct (String.eqb n k) eqn:E; [| reflexivity].
        apply String.eqb_eq in E; subst. rewrite String.eqb_refl in Ek. discriminate.
      * apply IH.
Qed.

Lemma get_delete_ne n k m :
  n <> k -> JsMap.get n (JsMap.delete k m) = JsMap.get n m.
Proof.
  intros Hne. induction m as [| [k' v'] m IH]; simpl; [reflexivity |].
  destruct (String.eqb k k') eqn:Ek; simpl.
  - apply String.eqb_eq in Ek; subst k'.
    apply String.eqb_neq in Hne. now rewrite Hne.
  - now rewrite IH.
Qed.

Lemma get_In n v m : JsMap.get n m = Some v -> In (n, v) m.
Proof.
  induction m as [| [k' v'] m IH]; simpl; [discriminate |].
  destruct (String.eqb n k') eqn:E.
  - apply String.eqb_eq in E. intros [= ->]. left. now subst.
  - auto.
Qed.

Lemma in_delete n k v m :
  In (n, v) (JsMap.delete k m) <-> In (n, v) m /\ n <> k.
Proof.
  unfold JsMap.delete. rewrite filter_In. simpl.
  rewrite negb_true_iff, String.eqb_neq. intuition.
Qed.

Lemma keys_set k v m :
  NoDup (map fst m) -> NoDup (map fst (JsMap.set k v m)).
Proof.
  induction m as [| [k' v'] m IH]; simpl; intros H.
  - repeat constructor. simpl. tauto.
  - destruct (String.eqb k k') eqn:E.
    + apply String.eqb_eq in E; subst k'. exact H.
    + inversion H as [| ? ? Hn Hd]; subst. simpl. constructor; [| now apply IH].
      intros Hin. apply Hn. clear - Hin E.
      induction m as [| [k2 v2] m IH]; simpl in *.
      * destruct Hin as [<- | []]. now rewrite String.eqb_refl in E.
      * destruct (String.eqb k k2) eqn:E2; simpl in *.
        -- apply String.eqb_eq in E2; subst k2. destruct Hin as [<- | H'].
           ++ now rewrite String.eqb_refl in E.
           ++ now right.
        -- destruct Hin as [<- | H']; [now left | right; now apply IH].
Qed.

Lemma keys_delete k m :
  NoDup (map fst m) -> NoDup (map fst (JsMap.delete k m)).
Proof.
  induction m as [| [k' v'] m IH]; simpl; intros H; [constructor |].
  inversion H as [| ? ? Hn Hd]; subst.
  destruct (negb (String.eqb k k')); simpl; [| now apply IH].
  constructor; [| now apply IH].
  intros Hin. apply Hn. apply in_map_iff in Hin. destruct Hin as [[a b] [<- Hab]].
  apply in_delete in Hab. apply in_map_iff. exists (a, b). tauto.
Qed.

Lemma keys_functional n v v' m :
  NoDup (map fst m) -> In (n, v) m -> In (n, v') m -> v = v'.
Proof.
  induction m as [| [k0 v0] m IH]; simpl; intros H H1 H2; [contradiction |].
  inversion H as [| ? ? Hn Hd]; subst.
  destruct H1 as [[= -> ->] | H1], H2 as [[= E] | H2].
  - now subst.
  - exfalso. apply Hn. apply in_map_iff. now exists (n, v').
  - exfalso. subst. apply Hn. apply in_map_iff. now exists (n, v).
  - now apply IH.
Qed.

End MapFacts.

Section MergeComponents.
Import Merger.
Implicit Types (existing : list StoredComponent) (incoming : list string).

Lemma lastNamed_snoc n existing a :
  Spec.lastNamed n (existing ++ [a])
  = if String.eqb (name a) n then Some a else Spec.lastNamed n existing.
Proof. unfold Spec.lastNamed. now rewrite rev_unit. Qed.

Lemma lastNamed_In n existing item :
  Spec.lastNamed n existing = Some item -> In item existing /\ name item = n.
Proof.
  unfold Spec.lastNamed. intros H. apply find_some in H.
  rewrite <- in_rev, String.eqb_eq in H. exact H.
Qed.

Lemma lastNamed_exists n existing :
  In n (map name existing) -> exists item, Spec.lastNamed n existing = Some item.
Proof.
  intros H. apply in_map_iff in H. destruct H as [c [Hc Hin]].
  destruct (Spec.lastNamed n existing) as [item |] eqn:E; [now exists item |].
  unfold Spec.lastNamed in E. apply in_rev in Hin.
  apply (find_none _ _ E c) in Hin. subst n. now rewrite String.eqb_refl in Hin.
Qed.

(** When names are distinct, a name denotes the one component carrying
    it. *)
Lemma lastNamed_distinct existing item :
  NoDup (map name existing) -> In item existing ->
  Spec.lastNamed (name item) existing = Some item.
Proof.
  intros Hnd Hin.
  destruct (lastNamed_exists (name item) existing) as [item' E].
  { now apply in_map. }
  rewrite E. f_equal. apply lastNamed_In in E. destruct E as [Hin' Hname].
  clear - Hnd Hin Hin' Hname.
  induction existing as [| a l IH]; simpl in *; [contradiction |].
  inversion Hnd as [| ? ? Hn Hd]; subst.
  destruct Hin as [-> | Hin], Hin' as [-> | Hin']; try reflexivity.
  - exfalso. apply Hn. rewrite <- Hname. now apply in_map.
  - exfalso. apply Hn. rewrite Hname. now apply in_map.
  - now apply IH.
Qed.

(** The index maps a name to the component the name denotes. *)
Lemma get_indexExisting n existing :
  JsMap.get n (indexExisting existing) = Spec.lastNamed n existing.
Proof.
  unfold indexExisting.
  induction existing as [| a l IH] using rev_ind; [reflexivity |].
  rewrite fold_left_app, lastNamed_snoc. simpl. rewrite get_set, IH.
  rewrite (String.eqb_sym n). reflexivity.
Qed.

Lemma keys_indexExisting existing : NoDup (map fst (indexExisting existing)).
Proof.
  unfold indexExisting.
  induction existing as [| a l IH] using rev_ind; [constructor |].
  rewrite fold_left_app. simpl. now apply keys_set.
Qed.

(** What is merged stays merged. *)
Lemma processIncoming_keeps incoming : forall m merged e,
  In e merged -> In e (snd (fold_left processIncoming incoming (m, merged))).
Proof.
  induction incoming as [| x l IH]; intros m merged e H; simpl; [assumption |].
  destruct (JsMap.get x m); apply IH, in_app_iff; now left.
Qed.

(** A requested name found in the index is pushed as an update with the
    custom sections of the component found. *)
Lemma processIncoming_update incoming : forall m merged n item,
  In n incoming -> JsMap.get n m = Some item ->
  In (IsUpdate n (or_empty (customSections item)))
     (snd (fold_left processIncoming incoming (m, merged))).
Proof.
  induction incoming as [| x l IH]; intros m merged n item Hin Hget; simpl.
  - contradiction.
  - destruct (string_dec x n) as [-> | Hne].
    + rewrite Hget. apply processIncoming_keeps, in_app_iff. right. now left.
    + destruct Hin as [-> | Hin]; [contradiction |].
      destruct (JsMap.get x m) eqn:Ex.
      * apply IH; [assumption |]. rewrite get_delete_ne; [assumption | congruence].
      * now apply IH.
Qed.

(** An indexed name that is not requested stays in the index. *)
Lemma processIncoming_remaining incoming : forall m merged n item,
  ~ In n incoming -> In (n, item) m ->
  In (n, item) (fst (fold_left processIncoming incoming (m, merged))).
Proof.
  induction incoming as [| x l IH]; intros m merged n item Hnin Hm; simpl.
  - assumption.
  - simpl in Hnin. destruct (JsMap.get x m) eqn:Ex.
    + apply IH; [tauto |]. apply in_delete. split; [assumption | intros ->; tauto].
    + apply IH; [tauto | assumption].
Qed.

Lemma processIncoming_keys incoming : forall m merged,
  NoDup (map fst m) ->
  NoDup (map fst (fst (fold_left processIncoming incoming (m, merged)))).
Proof.
  induction incoming as [| x l IH]; intros m merged H; simpl; [assumption |].
  destruct (JsMap.get x m); apply IH; [now apply keys_delete | assumption].
Qed.

(** Updates and new entries bear requested names only. *)
Lemma processIncoming_names incoming : forall m merged e,
  In e (snd (fold_left processIncoming incoming (m, merged))) ->
  In e merged
  \/ (In (merged_name e) incoming
      /\ match e with IsExisting _ _ _ => False | _ => True end).
Proof.
  induction incoming as [| x l IH]; intros m merged e H; simpl in *; [now left |].
  destruct (JsMap.get x m); apply IH in H;
    (destruct H as [H | [H H']]; [| right; tauto]);
    apply in_app_iff in H; (destruct H as [H | [<- | []]]; [now left | right]);
    simpl; tauto.
Qed.

Lemma mergeComponents_update existing incoming n item :
  In n incoming -> Spec.lastNamed n existing = Some item ->
  In (IsUpdate n (or_empty (customSections item))) (mergeComponents existing incoming).
Proof.
  intros Hin Hlast. unfold mergeComponents.
  pose proof (@processIncoming_update incoming (indexExisting existing) [] n item Hin) as H.
  rewrite get_indexExisting in H. specialize (H Hlast).
  destruct (fold_left processIncoming incoming (indexExisting existing, [])) as [rem merged].
  apply in_app_iff. now left.
Qed.

Lemma mergeComponents_existing existing incoming n item :
  ~ In n incoming -> Spec.lastNamed n existing = Some item ->
  In (IsExisting n (content item) (customSections item)) (mergeComponents existing incoming)
  /\ forall e, In e (mergeComponents existing incoming) -> merged_name e = n ->
               e = IsExisting n (content item) (customSections item).
Proof.
  intros Hnin Hlast. unfold mergeComponents.
  rewrite <- get_indexExisting in Hlast. apply get_In in Hlast.
  pose proof (@processIncoming_remaining incoming (indexExisting existing) [] n item Hnin Hlast) as Hrem.
  pose proof (@processIncoming_keys incoming (indexExisting existing) [] (keys_indexExisting existing)) as Hkeys.
  pose proof (@processIncoming_names incoming (indexExisting existing) []) as Hnames.
  destruct (fold_left processIncoming incoming (indexExisting existing, [])) as [rem merged].
  simpl in *. split.
  - apply in_app_iff. right. apply in_map_iff. now exists (n, item).
  - intros e He Hname. apply in_app_iff in He. destruct He as [He | He].
    + apply Hnames in He. destruct He as [[] | [He _]]. rewrite Hname in He. contradiction.
    + apply in_map_iff in He. destruct He as [[n' item'] [<- Hin']]. simpl in *. subst n'.
      now rewrite (@keys_functional _ n item' item rem Hkeys Hin' Hrem).
Qed.

End MergeComponents.

Section MergeConfigurations.
Import Merger.

Lemma mergeConfigurations_merge backup existing newConfig :
  exists resolved,
    mergeConfigurations backup existing newConfig "merge" = Normal (Some resolved)
    /\ forall k, resolvedOf k resolved
                 = mergeComponents (existingOf k existing) (requestedOf k newConfig).
Proof.
  eexists. split; [reflexivity |]. intros []; reflexivity.
Qed.

End MergeConfigurations.

(** C3.  Under the strategy 'merge', every name of an existing component
    that is not requested is retained: the resolved list of its kind has
    an entry for it marked isExisting, holding unchanged the content (and
    custom sections) of the existing component the name denotes, and has
    no other entry with that name.  The component a name denotes is the
    last one carrying it, which is the only one when the existing names
    are distinct. *)
Theorem merge_retains_unrequested :
  forall (backup : completion (option string))
         (existing : Merger.ExistingConfig) (newConfig : Merger.NewConfig)
         (k : Merger.Kind) (n : string),
    In n (map Merger.name (Merger.existingOf k existing)) ->
    ~ In n (Merger.requestedOf k newConfig) ->
    exists resolved item,
      Merger.mergeConfigurations backup existing newConfig "merge"
      = Normal (Some resolved)
      /\ In item (Merger.existingOf k existing)
      /\ Merger.name item = n
      /\ Spec.lastNamed n (Merger.existingOf k existing) = Some item
      /\ (NoDup (map Merger.name (Merger.existingOf k existing)) ->
          forall item', In item' (Merger.existingOf k existing) ->
                        Merger.name item' = n -> item' = item)
      /\ In (Merger.IsExisting n (Merger.content item) (Merger.customSections item))
            (Merger.resolvedOf k resolved)
      /\ forall e, In e (Merger.resolvedOf k resolved) ->
                   Merger.merged_name e = n ->
                   e = Merger.IsExisting n (Merger.content item)
                                         (Merger.customSections item).
Proof.
  intros backup existing newConfig k n Hex Hnreq.
  destruct (mergeConfigurations_merge backup existing newConfig) as [r [Hr Hk]].
  destruct (lastNamed_exists _ _ Hex) as [item Hlast].
  destruct (lastNamed_In _ _ _ Hlast) as [Hin Hname].
  destruct (mergeComponents_existing _ _ _ _ Hnreq Hlast) as [H1 H2].
  exists r, item. rewrite Hk. repeat split; try assumption.
  intros Hnd item' Hin' Hname'.
  pose proof (lastNamed_distinct _ _ Hnd Hin') as H.
  rewrite Hname', Hlast in H. now injection H.
Qed.

(** With existing components A and B and only A requested, B is still
    there, marked isExisting. *)
Lemma merge_retains_unrequested_witness :
  In "test-writer" (map Merger.name (Merger.existingOf Merger.Skills Examples.twoSkills))
  /\ ~ In "test-writer"
         (Merger.requestedOf Merger.Skills (Examples.request ["code-reviewer"] [] []))
  /\ exists resolved,
      Merger.mergeConfigurations (Normal None) Examples.twoSkills
        (Examples.request ["code-reviewer"] [] []) "merge"
      = Normal (Some resolved)
      /\ In (Merger.IsExisting "test-writer" (Some "# Test writer") (Some ""))
            (Merger.resolvedOf Merger.Skills resolved).
Proof.
  assert (H1 : In "test-writer"
                 (map Merger.name (Merger.existingOf Merger.Skills Examples.twoSkills)))
    by (simpl; auto).
  assert (H2 : ~ In "test-writer"
                 (Merger.requestedOf Merger.Skills (Examples.request ["code-reviewer"] [] []))).
  { simpl. intros [H | []]. discriminate H. }
  split; [exact H1 | split; [exact H2 |]].
  destruct (merge_retains_unrequested (Normal None) Examples.twoSkills
              (Examples.request ["code-reviewer"] [] []) Merger.Skills
              "test-writer" H1 H2)
    as (resolved & item & Hr & _ & _ & Hlast & _ & Hin & _).
  exists resolved. split; [exact Hr |].
  change (Spec.lastNamed "test-writer"
            (Merger.existingOf Merger.Skills Examples.twoSkills))
    with (Some (Merger.loadedSkill "test-writer" "# Test writer")) in Hlast.
  injection Hlast as <-. exact Hin.
Defined.

(* ===================================================================== *)
(** * Strings: prefixes, positions and slices *)
(* ===================================================================== *)

Section StringFacts.
Local Open Scope string_scope.
Implicit Types (s t u p pre post : string) (i j k n : nat).

Lemma sapp_nil_r s : s ++ "" = s.
Proof. induction s as [| c s IH]; simpl; [reflexivity | now rewrite IH]. Qed.

Lemma sapp_assoc s t u : (s ++ t) ++ u = s ++ (t ++ u).
Proof. induction s as [| c s IH]; simpl; [reflexivity | now rewrite IH]. Qed.

Lemma slength_app s t : String.length (s ++ t) = String.length s + String.length t.
Proof. induction s as [| c s IH]; simpl; [reflexivity | now rewrite IH]. Qed.

Lemma sapp_inv pre : forall pre' s s',
  pre ++ s = pre' ++ s' -> String.length pre = String.length pre' ->
  pre = pre' /\ s = s'.
Proof.
  induction pre as [| c pre IH]; intros [| c' pre'] s s' H Hl; simpl in *;
    try discriminate.
  - now split.
  - injection H as -> H. injection Hl as Hl.
    destruct (IH _ _ _ H Hl) as [-> ->]. now split.
Qed.

Lemma startsWith_iff s : forall p,
  Str.startsWith s p = true <-> exists r, s = p ++ r.
Proof.
  induction s as [| c s IH]; intros [| a p]; simpl.
  - split; [now exists "" | reflexivity].
  - split; [discriminate | intros [r H]; discriminate].
  - split; [now exists (String c s) | reflexivity].
  - rewrite andb_true_iff, Ascii.eqb_eq, IH. split.
    + intros [-> [r ->]]. now exists r.
    + intros [r [= -> ->]]. split; [reflexivity | now exists r].
Qed.

Lemma take_drop n : forall s, Str.take n s ++ Str.drop n s = s.
Proof.
  induction n as [| n IH]; intros [| c s]; simpl; try reflexivity.
  now rewrite IH.
Qed.

Lemma length_take n : forall s,
  n <= String.length s -> String.length (Str.take n s) = n.
Proof.
  induction n as [| n IH]; intros [| c s] H; simpl in *; try reflexivity.
  - lia.
  - rewrite IH; [reflexivity | lia].
Qed.

Lemma length_drop n : forall s,
  String.length (Str.drop n s) = String.length s - n.
Proof.
  induction n as [| n IH]; intros [| c s]; simpl; try reflexivity.
  apply IH.
Qed.

Lemma take_all n : forall s, String.length s <= n -> Str.take n s = s.
Proof.
  induction n as [| n IH]; intros [| c s] H; simpl in *; try reflexivity.
  - lia.
  - rewrite IH; [reflexivity | lia].
Qed.

Lemma drop_app pre : forall s, Str.drop (String.length pre) (pre ++ s) = s.
Proof. induction pre as [| c pre IH]; intros s; simpl; [now destruct s | apply IH]. Qed.

Lemma drop_drop a : forall b s, Str.drop a (Str.drop b s) = Str.drop (b + a) s.
Proof.
  intros b. induction b as [| b IH]; intros s; simpl; [reflexivity |].
  destruct s as [| c s]; [now destruct a | apply IH].
Qed.

Lemma drop_nonempty n s : Str.drop n s <> "" -> n < String.length s.
Proof.
  intros H. destruct (Nat.lt_ge_cases n (String.length s)) as [Hlt | Hge]; [assumption |].
  exfalso. apply H. pose proof (length_drop n s) as Hl.
  destruct (Str.drop n s); [reflexivity | simpl in Hl; lia].
Qed.

(** ** The leftmost suffix that passes a test *)

Lemma firstSuffix_eq (test : string -> bool) s :
  Str.firstSuffix test s
  = if test s then Some O
    else match s with
         | EmptyString => None
         | String _ s' => option_map S (Str.firstSuffix test s')
         end.
Proof. destruct s; reflexivity. Qed.

Lemma firstSuffix_Some (test : string -> bool) s : forall i,
  Str.firstSuffix test s = Some i ->
  test (Str.drop i s) = true
  /\ i <= String.length s
  /\ forall j, j < i -> test (Str.drop j s) = false.
Proof.
  induction s as [| c s IH]; intros i; rewrite firstSuffix_eq.
  - destruct (test "") eqn:E; [| discriminate].
    intros [= <-]. simpl. repeat split; [assumption | lia | lia].
  - destruct (test (String c s)) eqn:E.
    + intros [= <-]. simpl. repeat split; [assumption | lia | lia].
    + destruct (Str.firstSuffix test s) as [i' |] eqn:Ef; [| discriminate].
      simpl. intros [= <-]. destruct (IH i' eq_refl) as (H1 & H2 & H3).
      simpl. repeat split; [assumption | lia |].
      intros [| j] Hj; simpl; [assumption | apply H3; lia].
Qed.

Lemma firstSuffix_None (test : string -> bool) s :
  Str.firstSuffix test s = None -> forall j, test (Str.drop j s) = false.
Proof.
  induction s as [| c s IH]; rewrite firstSuffix_eq.
  - destruct (test "") eqn:E; [discriminate |]. intros _ [| j]; assumption.
  - destruct (test (String c s)) eqn:E; [discriminate |].
    destruct (Str.firstSuffix test s) eqn:Ef; [discriminate |].
    intros _ [| j]; simpl; [assumption | now apply IH].
Qed.

(** ** Occurrences *)

Lemma occursAt_iff s p i :
  Spec.occursAt s p i
  <-> i <= String.length s /\ Str.startsWith (Str.drop i s) p = true.
Proof.
  unfold Spec.occursAt. split.
  - intros (pre & post & -> & <-). split.
    + rewrite slength_app. lia.
    + rewrite drop_app. apply startsWith_iff. now exists post.
  - intros [Hi H]. apply startsWith_iff in H. destruct H as [r Hr].
    exists (Str.take i s), r. split.
    + rewrite <- Hr. symmetry. apply take_drop.
    + now apply length_take.
Qed.

Lemma occursAt_bound s p i :
  Spec.occursAt s p i -> i + String.length p <= String.length s.
Proof.
  intros (pre & post & -> & <-). rewrite !slength_app. lia.
Qed.

Lemma find_Some s p i : Str.find s p = Some i -> Spec.firstOccurrence s p i.
Proof.
  intros H. apply firstSuffix_Some in H. destruct H as (H1 & H2 & H3). split.
  - apply occursAt_iff. now split.
  - intros j Hj Hocc. apply occursAt_iff in Hocc. rewrite H3 in Hocc by assumption.
    destruct Hocc; discriminate.
Qed.

Lemma find_None s p : Str.find s p = None -> ~ Spec.occursIn s p.
Proof.
  intros H [i Hocc]. apply occursAt_iff in Hocc.
  rewrite (firstSuffix_None _ _ H i) in Hocc. destruct Hocc; discriminate.
Qed.

Lemma firstOccurrence_unique s p i j :
  Spec.firstOccurrence s p i -> Spec.firstOccurrence s p j -> i = j.
Proof.
  intros [Hi Hi'] [Hj Hj'].
  destruct (Nat.lt_trichotomy i j) as [H | [H | H]]; [| assumption |].
  - now apply Hj' in H.
  - now apply Hi' in H.
Qed.

(** ** Heading lines *)

Lemma headingAt_iff s i :
  Spec.headingAt s i <-> Merger.heading_here (Str.drop i s) = true.
Proof.
  unfold Spec.headingAt, Merger.heading_here. rewrite andb_true_iff. split.
  - intros (pre & c & post & -> & Hc & <-). rewrite drop_app. split.
    + apply startsWith_iff. exists (String c post). reflexivity.
    + simpl. apply negb_true_iff, Ascii.eqb_neq, Hc.
  - intros [H1 H2]. apply startsWith_iff in H1. destruct H1 as [r Hr].
    rewrite Hr in H2. simpl in H2. destruct r as [| c r]; [discriminate |].
    assert (Hi : i < String.length s).
    { apply drop_nonempty. rewrite Hr. discriminate. }
    exists (Str.take i s), c, r. repeat split.
    + rewrite <- (take_drop i s) at 1. now rewrite Hr.
    + apply Ascii.eqb_neq, negb_true_iff, H2.
    + apply length_take. lia.
Qed.

Lemma headingAt_drop s n j :
  Spec.headingAt (Str.drop n s) j <-> Spec.headingAt s (n + j).
Proof. now rewrite !headingAt_iff, drop_drop. Qed.

Lemma headingAt_bound s i : Spec.headingAt s i -> i < String.length s.
Proof.
  intros (pre & c & post & -> & _ & <-). rewrite slength_app. simpl. lia.
Qed.

Lemma matchNextHeading_Some s k :
  Merger.matchNextHeading s = Some k ->
  Spec.headingAt s k /\ forall j, j < k -> ~ Spec.headingAt s j.
Proof.
  intros H. apply firstSuffix_Some in H. destruct H as (H1 & _ & H3). split.
  - now apply headingAt_iff.
  - intros j Hj Hh. apply headingAt_iff in Hh. rewrite H3 in Hh by assumption.
    discriminate.
Qed.

Lemma matchNextHeading_None s :
  Merger.matchNextHeading s = None -> forall j, ~ Spec.headingAt s j.
Proof.
  intros H j Hh. apply headingAt_iff in Hh.
  rewrite (firstSuffix_None _ _ H j) in Hh. discriminate.
Qed.

(** ** Slices *)

Lemma slice_nat s a b :
  a <= b -> b <= String.length s ->
  Str.slice s (Z.of_nat a) (Z.of_nat b) = Str.take (b - a) (Str.drop a s).
Proof.
  intros Hab Hb. unfold Str.slice, clamp_index, Str.len.
  destruct (Z.ltb_spec (Z.of_nat a) 0); [lia |].
  destruct (Z.ltb_spec (Z.of_nat b) 0); [lia |].
  rewrite !Z.min_l by lia. rewrite Nat2Z.id. f_equal. lia.
Qed.

Lemma slice_decompose s a b :
  a <= b -> b <= String.length s ->
  s = Str.take a s ++ Str.slice s (Z.of_nat a) (Z.of_nat b) ++ Str.drop b s.
Proof.
  intros Hab Hb. rewrite slice_nat by assumption.
  replace (Str.drop b s) with (Str.drop (b - a) (Str.drop a s)).
  - now rewrite take_drop, take_drop.
  - rewrite drop_drop. f_equal. lia.
Qed.

Lemma length_slice s a b :
  a <= b -> b <= String.length s ->
  String.length (Str.slice s (Z.of_nat a) (Z.of_nat b)) = b - a.
Proof.
  intros Hab Hb. rewrite slice_nat by assumption.
  apply length_take. rewrite length_drop. lia.
Qed.

End StringFacts.

(* ===================================================================== *)
(** * Extraction of custom sections *)
(* ===================================================================== *)

Section ExtractCustomSections.
Import Merger.
Local Open Scope string_scope.
Implicit Types (content marker acc span : string).

Lemma drop_length s : Str.drop (String.length s) s = "".
Proof.
  pose proof (length_drop (String.length s) s) as H.
  destruct (Str.drop (String.length s) s); [reflexivity | simpl in H; lia].
Qed.

Lemma captureMarker_acc content acc marker :
  captureMarker content acc marker = acc ++ captureMarker content "" marker.
Proof.
  unfold captureMarker.
  destruct (Str.indexOf content marker =? -1)%Z; [now rewrite sapp_nil_r | reflexivity].
Qed.

Lemma fold_captureMarker content (markers : list string) : forall acc,
  fold_left (captureMarker content) markers acc
  = acc ++ Spec.concatAll (map (captureMarker content "") markers).
Proof.
  induction markers as [| m l IH]; intros acc; simpl.
  - now rewrite sapp_nil_r.
  - rewrite IH, captureMarker_acc. apply sapp_assoc.
Qed.

Lemma captureMarker_absent content acc marker :
  ~ Spec.occursIn content marker -> captureMarker content acc marker = acc.
Proof.
  intros H. unfold captureMarker, Str.indexOf.
  destruct (Str.find content marker) as [i |] eqn:E; [| reflexivity].
  exfalso. apply H. exists i. apply find_Some in E. apply E.
Qed.

(** What the loop adds for one marker is what the marker contributes. *)
Lemma captureMarker_contribution content marker :
  Spec.contributionOf content marker (captureMarker content "" marker).
Proof.
  unfold captureMarker, Str.indexOf.
  destruct (Str.find content marker) as [i |] eqn:Ef.
  2:{ left. split; [now apply find_None | reflexivity]. }
  right. apply find_Some in Ef. pose proof (occursAt_bound _ _ _ (proj1 Ef)) as Hb.
  destruct (Z.eqb_spec (Z.of_nat i) (-1)) as [Hneg | _]; [lia |].
  set (a := i + String.length marker) in *.
  assert (Hafter : Str.slice_from content (Z.of_nat i + Str.len marker)
                   = Str.drop a content).
  { unfold Str.slice_from, Str.len. rewrite <- Nat2Z.inj_add. fold a.
    rewrite slice_nat by lia. apply take_all. rewrite length_drop. lia. }
  rewrite Hafter.
  destruct (matchNextHeading (Str.drop a content)) as [k |] eqn:Eh.
  - apply matchNextHeading_Some in Eh. destruct Eh as [Hh Hfirst].
    apply headingAt_drop in Hh. pose proof (headingAt_bound _ _ Hh) as Hlt.
    replace (Z.of_nat i + Str.len marker + Z.of_nat k)%Z with (Z.of_nat (a + k))
      by (unfold Str.len, a; lia).
    exists (Str.slice content (Z.of_nat i) (Z.of_nat (a + k))).
    split; [| reflexivity].
    assert (Hi : i <= a + k) by (unfold a; lia).
    assert (He : a + k <= String.length content) by lia.
    exists (Str.take i content), (Str.drop (a + k) content).
    rewrite length_take by lia. rewrite length_slice by assumption.
    split; [now apply slice_decompose |].
    split; [assumption |].
    split; [unfold a; lia |].
    split.
    + intros j Hj1 Hj2 Hhj. fold a in Hj1.
      apply (Hfirst (j - a)); [lia |].
      apply headingAt_drop. now replace (a + (j - a)) with j by lia.
    + right. now replace (i + (a + k - i)) with (a + k) by lia.
  - pose proof (matchNextHeading_None _ Eh) as Hnone.
    exists (Str.slice content (Z.of_nat i) (Str.len content)).
    split; [| reflexivity].
    unfold Str.len.
    assert (Hi : i <= String.length content) by (unfold a in Hb; lia).
    exists (Str.take i content), (Str.drop (String.length content) content).
    rewrite length_take by lia. rewrite length_slice by lia.
    split; [now apply slice_decompose |].
    split; [assumption |].
    split; [unfold a in Hb; lia |].
    split.
    + intros j Hj1 Hj2 Hhj. fold a in Hj1.
      apply (Hnone (j - a)). apply headingAt_drop.
      now replace (a + (j - a)) with j by lia.
    + left. apply drop_length.
Qed.

(** A content has one section per marker. *)
Lemma sectionOf_unique content marker span span' :
  Spec.sectionOf content marker span -> Spec.sectionOf content marker span' ->
  span = span'.
Proof.
  intros (pre & post & Hc & Hf & Hm & Hno & Hend)
         (pre' & post' & Hc' & Hf' & Hm' & Hno' & Hend').
  pose proof (firstOccurrence_unique _ _ _ _ Hf Hf') as Hpre.
  assert (Hlen : String.length content
                 = String.length pre + String.length span + String.length post).
  { rewrite Hc at 1. rewrite !slength_app. lia. }
  assert (Hlen' : String.length content
                  = String.length pre' + String.length span' + String.length post').
  { rewrite Hc' at 1. rewrite !slength_app. lia. }
  assert (Hspan : String.length span = String.length span').
  { destruct (Nat.lt_trichotomy (String.length span) (String.length span'))
      as [H | [H | H]]; [| assumption |]; exfalso.
    - destruct Hend as [-> | Hh]; [simpl in Hlen; lia |].
      apply (Hno' (String.length pre + String.length span)); [lia | lia | assumption].
    - destruct Hend' as [-> | Hh]; [simpl in Hlen'; lia |].
      apply (Hno (String.length pre' + String.length span')); [lia | lia | assumption]. }
  rewrite Hc' in Hc. destruct (sapp_inv _ _ _ _ Hc) as [_ Hrest]; [now symmetry |].
  destruct (sapp_inv _ _ _ _ Hrest) as [Heq _]; [now symmetry | now symmetry].
Qed.

Lemma Forall2_map_graph {A B} (R : A -> B -> Prop) (f : A -> B) (l : list A) :
  (forall x, R x (f x)) -> Forall2 R l (map f l).
Proof. intros H. induction l; simpl; constructor; auto. Qed.

End ExtractCustomSections.

(** C2, as amended.  The extracted text is made of one piece per marker of
    the fixed list, taken in the order of that list: nothing for a marker
    whose text does not occur in the content, and otherwise its section
    followed by a blank line, where the section starts at the first
    occurrence of the marker text and ends right before the first line
    after it that starts with "## " and a character other than "#", or at
    the end of the content; the pieces are concatenated and the result is
    trimmed.  With no marker present the result is the empty string. *)
Theorem extractCustomSections_sections :
  forall content : string,
    (exists pieces,
        Forall2 (Spec.contributionOf content) Merger.customMarkers pieces
        /\ Merger.extractCustomSections content = Str.trim (Spec.concatAll pieces))
    /\ ((forall marker, In marker Merger.customMarkers ->
                        ~ Spec.occursIn content marker) ->
        Merger.extractCustomSections content = "").
Proof.
  intros content. split.
  - exists (map (Merger.captureMarker content "") Merger.customMarkers). split.
    + apply Forall2_map_graph. intros m. apply captureMarker_contribution.
    + unfold Merger.extractCustomSections.
      destruct (String.eqb_spec content "") as [-> | _]; [reflexivity |].
      now rewrite fold_captureMarker.
  - intros Habsent. unfold Merger.extractCustomSections.
    destruct (String.eqb content ""); [reflexivity |].
    assert (H : forall markers acc,
               (forall m, In m markers -> ~ Spec.occursIn content m) ->
               fold_left (Merger.captureMarker content) markers acc = acc).
    { induction markers as [| m l IH]; intros acc Hl; simpl; [reflexivity |].
      rewrite captureMarker_absent by (apply Hl; now left).
      apply IH. intros m' Hm'. apply Hl. now right. }
    now rewrite H.
Qed.

(** C2 as stated fails on a file whose sections are not in the order of
    the marker list: "## Project-Specific" comes first in the result
    although "## Custom Rules" comes first in the file. *)
Lemma extract_not_in_document_order :
  ~ Spec.extractsInDocumentOrder Examples.twoSections.
Proof.
  unfold Spec.extractsInDocumentOrder.
  assert (H1 : Merger.extractCustomSections Examples.twoSections
               = Examples.lines ["## Project-Specific"; "b"; ""; "## Custom Rules"; "a"])
    by reflexivity.
  assert (H2 : Spec.documentOrderSections Examples.twoSections
               = Examples.lines ["## Custom Rules"; "a"; ""; "## Project-Specific"; "b"])
    by reflexivity.
  rewrite H1, H2. discriminate.
Qed.

(** The marker text need not start a line, and the result is trimmed. *)
Example extract_inside_deeper_heading :
  Merger.extractCustomSections
    (Examples.lines ["### Project-Specific"; "x  "; ""])
  = Examples.lines ["## Project-Specific"; "x"].
Proof. reflexivity. Qed.

(* ===================================================================== *)
(** * Loading, then merging again *)
(* ===================================================================== *)

Section RoundTrip.
Import Merger.
Local Open Scope string_scope.

Lemma startsWith_refl s : Str.startsWith s s = true.
Proof. apply startsWith_iff. exists "". now rewrite sapp_nil_r. Qed.

(** Trimming the end of a longer text keeps what trimming the end of its
    beginning keeps. *)
Lemma trimEnd_prefix s : forall t,
  Str.startsWith (Str.trimEnd (s ++ t)) (Str.trimEnd s) = true.
Proof.
  induction s as [| c s IH]; intros t.
  - simpl. now destruct (Str.trimEnd t).
  - specialize (IH t). simpl.
    destruct (Str.trimEnd s) as [| c1 v] eqn:Es.
    + destruct (Str.is_space c) eqn:Ec.
      * now destruct (match Str.trimEnd (s ++ t) with "" => "" | _ => _ end).
      * destruct (Str.trimEnd (s ++ t)); simpl; now rewrite Ascii.eqb_refl.
    + destruct (Str.trimEnd (s ++ t)) as [| c2 u] eqn:Et; [discriminate IH |].
      simpl. rewrite Ascii.eqb_refl. exact IH.
Qed.

(** The section of the first marker of the list opens the extracted
    text; only white space at its end can go missing. *)
Lemma extract_carries_project_specific text body :
  Spec.sectionOf text "## Project-Specific" ("## Project-Specific" ++ body) ->
  Str.startsWith (extractCustomSections text)
                 (Str.trimEnd ("## Project-Specific" ++ body)) = true.
Proof.
  intros Hsec. unfold extractCustomSections.
  destruct (String.eqb_spec text "") as [-> | _].
  { destruct Hsec as (pre & post & Hc & _). destruct pre; discriminate Hc. }
  rewrite fold_captureMarker.
  unfold customMarkers. rewrite map_cons.
  set (others := map (captureMarker text "") _).
  change (Spec.concatAll (?x :: others)) with (x ++ Spec.concatAll others).
  destruct (captureMarker_contribution text "## Project-Specific")
    as [[Habs _] | (span & Hspan & ->)].
  { exfalso. apply Habs. destruct Hsec as (pre & post & _ & [Hocc _] & _).
    now exists (String.length pre). }
  rewrite (sectionOf_unique _ _ _ _ Hspan Hsec).
  change ("" ++ ?x) with x. rewrite sapp_assoc.
  unfold Str.trim.
  replace (Str.trimStart (("## Project-Specific" ++ body)
                          ++ (Str.nl ++ Str.nl) ++ Spec.concatAll others))
    with (("## Project-Specific" ++ body)
          ++ (Str.nl ++ Str.nl) ++ Spec.concatAll others)
    by reflexivity.
  apply trimEnd_prefix.
Qed.

End RoundTrip.

(* ===================================================================== *)
(** * Loading an existing configuration *)
(* ===================================================================== *)

Section Loading.
Import Merger.

Variable JSON_parse : string -> option Js.value.
Variable w : Fs.World.

Lemma loadSkillDir_names dir :
  map name (loadSkillDir w dir) = [dir] \/ loadSkillDir w dir = [].
Proof.
  unfold loadSkillDir.
  destruct (Fs.stat w (".claude/skills/" ++ dir)) as [[] |]; [| now right ..].
  destruct (Fs.readFileText w _); now left.
Qed.

Lemma loaded_names_sublist (dirs : list string) :
  forall n, In n (map name (flat_map (loadSkillDir w) dirs)) -> In n dirs.
Proof.
  induction dirs as [| d l IH]; simpl; intros n H; [contradiction |].
  rewrite map_app, in_app_iff in H. destruct H as [H | H]; [| right; now apply IH].
  destruct (loadSkillDir_names d) as [E | E]; rewrite E in H.
  - destruct H as [<- | []]. now left.
  - contradiction.
Qed.

(** A directory listing without repetition loads to skills with distinct
    names. *)
Lemma loaded_skills_distinct (dirs : list string) :
  Fs.readdir w ".claude/skills" = Some dirs ->
  Fs.access w ".claude" = true ->
  NoDup dirs ->
  NoDup (map name (skills (loadExistingConfig JSON_parse w))).
Proof.
  intros Hdirs Hacc Hnd. unfold loadExistingConfig. rewrite Hacc. simpl.
  unfold loadSkills. rewrite Hdirs. clear Hdirs.
  induction dirs as [| d l IH]; simpl; [constructor |].
  inversion Hnd as [| ? ? Hn Hd]; subst. rewrite map_app.
  destruct (loadSkillDir_names d) as [E | E]; rewrite E.
  - simpl. constructor; [| now apply IH].
    intros Hin. apply Hn. now apply loaded_names_sublist.
  - simpl. now apply IH.
Qed.

(** A listed skill directory with a readable SKILL.md is loaded with the
    custom sections extracted from that file. *)
Lemma loaded_skill_listed (dirs : list string) (dir text : string) :
  Fs.readdir w ".claude/skills" = Some dirs ->
  Fs.access w ".claude" = true ->
  In dir dirs ->
  Fs.stat w (".claude/skills/" ++ dir) = Some true ->
  Fs.readFileText w (".claude/skills/" ++ dir ++ "/SKILL.md") = Some text ->
  In (loadedSkill dir text) (skills (loadExistingConfig JSON_parse w)).
Proof.
  intros Hdirs Hacc Hin Hstat Hread. unfold loadExistingConfig. rewrite Hacc. simpl.
  unfold loadSkills. rewrite Hdirs. apply in_flat_map. exists dir.
  split; [assumption |]. unfold loadSkillDir. rewrite Hstat, Hread. now left.
Qed.

(** Without a .claude directory nothing is loaded, and nothing fails. *)
Lemma load_without_directory :
  Fs.access w ".claude" = false ->
  loadExistingConfig JSON_parse w = notLoaded.
Proof. intros H. unfold loadExistingConfig. now rewrite H. Qed.

End Loading.

(** The two skills of the running example are what the loader reads from
    their directory. *)
Example twoSkills_loaded :
  Merger.loadExistingConfig Examples.parseEmptyObject Examples.twoSkillsWorld
  = Examples.twoSkills.
Proof. reflexivity. Qed.

(** Two agent files can load under one name: [replace] removes the first
    ".md" of a file name, not its extension. *)
Example shadowedAgents_loaded :
  Merger.loadExistingConfig Examples.parseEmptyObject Examples.shadowedAgentsWorld
  = Examples.shadowedAgents.
Proof. reflexivity. Qed.

Section LoadedSection.
Import Merger.
Local Open Scope string_scope.

Lemma sapp_inv_tail s : forall s' t, s ++ t = s' ++ t -> s = s'.
Proof.
  induction s as [| c s IH]; intros [| c' s'] t H; simpl in *.
  - reflexivity.
  - exfalso. apply (f_equal String.length) in H. simpl in H.
    rewrite slength_app in H. lia.
  - exfalso. apply (f_equal String.length) in H. simpl in H.
    rewrite slength_app in H. lia.
  - injection H as -> H. f_equal. now apply (IH s' t).
Qed.

(** The section of a marker, read off what the loop captures for it. *)
Lemma sectionOf_captured text marker span :
  captureMarker text "" marker = span ++ Str.nl ++ Str.nl ->
  Spec.sectionOf text marker span.
Proof.
  intros Hcap.
  destruct (captureMarker_contribution text marker)
    as [[_ Hempty] | (span' & Hsec & Heq)].
  - rewrite Hempty in Hcap. destruct span; discriminate Hcap.
  - rewrite Hcap in Heq. apply sapp_inv_tail in Heq. now subst.
Qed.

Lemma reviewerText_section :
  Spec.sectionOf Examples.reviewerText "## Project-Specific"
    ("## Project-Specific" ++ Examples.lines [""; "Use tabs."; ""]).
Proof. apply sectionOf_captured. reflexivity. Qed.

End LoadedSection.

(** C1, as amended.  Under the strategy 'merge', a requested name that
    also names an existing component yields an entry marked as an update
    that carries the customSections of the existing component the name
    denotes: the last one with that name, the only one when the names of
    the existing components are distinct.  So for a skill directory
    listed once, whose SKILL.md opens a section with body X at its first
    "## Project-Specific", loading and then merging with the same name
    requested again gives an entry that carries what the loader
    extracted, which starts with that section, X included up to white
    space at its end. *)
Theorem merge_carries_custom_sections :
  (forall (backup : completion (option string))
          (existing : Merger.ExistingConfig) (newConfig : Merger.NewConfig)
          (k : Merger.Kind) (n : string) (item : Merger.StoredComponent)
          (cs : string),
      In n (Merger.requestedOf k newConfig) ->
      Spec.lastNamed n (Merger.existingOf k existing) = Some item ->
      Merger.customSections item = Some cs ->
      exists resolved,
        Merger.mergeConfigurations backup existing newConfig "merge"
        = Normal (Some resolved)
        /\ In (Merger.IsUpdate n cs) (Merger.resolvedOf k resolved))
  /\ (forall (backup : completion (option string))
             (JSON_parse : string -> option Js.value) (w : Fs.World)
             (newConfig : Merger.NewConfig)
             (dirs : list string) (dir text body : string),
      Fs.access w ".claude" = true ->
      Fs.readdir w ".claude/skills" = Some dirs ->
      NoDup dirs ->
      In dir dirs ->
      Fs.stat w (".claude/skills/" ++ dir) = Some true ->
      Fs.readFileText w (".claude/skills/" ++ dir ++ "/SKILL.md") = Some text ->
      In dir (Merger.requestedOf Merger.Skills newConfig) ->
      Spec.sectionOf text "## Project-Specific" ("## Project-Specific" ++ body) ->
      exists resolved,
        Merger.mergeConfigurations backup
          (Merger.loadExistingConfig JSON_parse w) newConfig "merge"
        = Normal (Some resolved)
        /\ In (Merger.IsUpdate dir (Merger.extractCustomSections text))
              (Merger.resolvedOf Merger.Skills resolved)
        /\ Str.startsWith (Merger.extractCustomSections text)
                          (Str.trimEnd ("## Project-Specific" ++ body)) = true).
Proof.
  assert (Hgeneral :
    forall backup existing newConfig k n item cs,
      In n (Merger.requestedOf k newConfig) ->
      Spec.lastNamed n (Merger.existingOf k existing) = Some item ->
      Merger.customSections item = Some cs ->
      exists resolved,
        Merger.mergeConfigurations backup existing newConfig "merge"
        = Normal (Some resolved)
        /\ In (Merger.IsUpdate n cs) (Merger.resolvedOf k resolved)).
  { intros backup existing newConfig k n item cs Hreq Hlast Hcs.
    destruct (mergeConfigurations_merge backup existing newConfig) as [r [Hr Hk]].
    exists r. split; [assumption |]. rewrite Hk.
    pose proof (mergeComponents_update _ _ _ _ Hreq Hlast) as H.
    now rewrite Hcs in H. }
  split; [exact Hgeneral |].
  intros backup JSON_parse w newConfig dirs dir text body
         Hacc Hdirs Hnd Hin Hstat Hread Hreq Hsec.
  destruct (Hgeneral backup (Merger.loadExistingConfig JSON_parse w) newConfig
              Merger.Skills dir
              (Merger.loadedSkill dir text) (Merger.extractCustomSections text)
              Hreq) as [resolved [Hr Hu]].
  - apply (lastNamed_distinct (Merger.skills (Merger.loadExistingConfig JSON_parse w))
             (Merger.loadedSkill dir text)).
    + now apply (loaded_skills_distinct JSON_parse w dirs).
    + now apply (loaded_skill_listed JSON_parse w dirs).
  - reflexivity.
  - exists resolved. repeat split; try assumption.
    now apply extract_carries_project_specific.
Qed.

(** The skill file with a "## Project-Specific" section, loaded and merged
    with its name requested again, still carries the section. *)
Lemma merge_carries_custom_sections_witness :
  In "code-reviewer"
     (Merger.requestedOf Merger.Skills (Examples.request ["code-reviewer"] [] []))
  /\ Spec.lastNamed "code-reviewer" (Merger.existingOf Merger.Skills Examples.twoSkills)
     = Some (Merger.loadedSkill "code-reviewer" Examples.reviewerText)
  /\ Merger.customSections (Merger.loadedSkill "code-reviewer" Examples.reviewerText)
     = Some (Examples.lines ["## Project-Specific"; "Use tabs."])
  /\ (exists resolved,
        Merger.mergeConfigurations (Normal None) Examples.twoSkills
          (Examples.request ["code-reviewer"] [] []) "merge"
        = Normal (Some resolved)
        /\ In (Merger.IsUpdate "code-reviewer"
                 (Examples.lines ["## Project-Specific"; "Use tabs."]))
              (Merger.resolvedOf Merger.Skills resolved))
  /\ Fs.access Examples.twoSkillsWorld ".claude" = true
  /\ Fs.readdir Examples.twoSkillsWorld ".claude/skills"
     = Some ["code-reviewer"; "test-writer"]
  /\ NoDup ["code-reviewer"; "test-writer"]
  /\ In "code-reviewer" ["code-reviewer"; "test-writer"]
  /\ Fs.stat Examples.twoSkillsWorld (".claude/skills/" ++ "code-reviewer") = Some true
  /\ Fs.readFileText Examples.twoSkillsWorld
       (".claude/skills/" ++ "code-reviewer" ++ "/SKILL.md")
     = Some Examples.reviewerText
  /\ Spec.sectionOf Examples.reviewerText "## Project-Specific"
       ("## Project-Specific" ++ Examples.lines [""; "Use tabs."; ""])
  /\ (exists resolved,
        Merger.mergeConfigurations (Normal None)
          (Merger.loadExistingConfig Examples.parseEmptyObject Examples.twoSkillsWorld)
          (Examples.request ["code-reviewer"] [] []) "merge"
        = Normal (Some resolved)
        /\ In (Merger.IsUpdate "code-reviewer"
                 (Merger.extractCustomSections Examples.reviewerText))
              (Merger.resolvedOf Merger.Skills resolved)
        /\ Str.startsWith (Merger.extractCustomSections Examples.reviewerText)
             (Str.trimEnd ("## Project-Specific"
                           ++ Examples.lines [""; "Use tabs."; ""])) = true).
Proof.
  assert (H0 : NoDup ["code-reviewer"; "test-writer"]).
  { repeat constructor; simpl; intuition discriminate. }
  assert (H1 : In "code-reviewer" ["code-reviewer"; "test-writer"])
    by (simpl; auto).
  assert (H2 : In "code-reviewer"
     (Merger.requestedOf Merger.Skills (Examples.request ["code-reviewer"] [] [])))
    by (simpl; auto).
  assert (H3 : Spec.lastNamed "code-reviewer"
                 (Merger.existingOf Merger.Skills Examples.twoSkills)
               = Some (Merger.loadedSkill "code-reviewer" Examples.reviewerText))
    by reflexivity.
  assert (H4 : Merger.customSections
                 (Merger.loadedSkill "code-reviewer" Examples.reviewerText)
               = Some (Examples.lines ["## Project-Specific"; "Use tabs."]))
    by reflexivity.
  split; [exact H2 |]. split; [exact H3 |]. split; [exact H4 |].
  split.
  { exact (proj1 merge_carries_custom_sections (Normal None) Examples.twoSkills
             (Examples.request ["code-reviewer"] [] []) Merger.Skills
             "code-reviewer" _ _ H2 H3 H4). }
  split; [reflexivity |]. split; [reflexivity |]. split; [exact H0 |].
  split; [exact H1 |]. split; [reflexivity |]. split; [reflexivity |].
  split; [exact reviewerText_section |].
  exact (proj2 merge_carries_custom_sections (Normal None) Examples.parseEmptyObject
           Examples.twoSkillsWorld (Examples.request ["code-reviewer"] [] [])
           ["code-reviewer"; "test-writer"] "code-reviewer"
           Examples.reviewerText _ eq_refl eq_refl H0 H1 eq_refl eq_refl H2
           reviewerText_section).
Defined.

(** C1 as stated fails when two existing components share a name: the
    index keeps the last one, and the custom section of the first is not
    carried forward. *)
Lemma merge_drops_shadowed_custom_sections :
  ~ Spec.carriesEveryCustomSection Examples.shadowedAgents
      (Examples.request [] ["a.md"] []) Merger.Agents.
Proof.
  intros H.
  destruct (H (Merger.loadedAgent ".mda.md" (Examples.lines ["## Our Rules"; "Keep me."]))
              (Examples.lines ["## Our Rules"; "Keep me."]))
    as [resolved [Hr Hin]].
  - simpl. auto.
  - simpl. auto.
  - reflexivity.
  - discriminate.
  - vm_compute in Hr. injection Hr as <-. simpl in Hin.
    destruct Hin as [Hin | []]. discriminate Hin.
Qed.

(* ===================================================================== *)
(** * The recommendation engine *)
(* ===================================================================== *)

Section Engine.
Import Js Analyzer EngineSpec.
Implicit Types (context : value) (rule : Rule) (rules : list Rule)
  (recs : Recommendations).

(** One turn of the loop never throws: it extends the accumulator when
    the rule fires and leaves it alone otherwise. *)
Lemma tryRule_eq context recs rule :
  tryRule context recs rule
  = Normal (if fires context rule then extend recs rule else recs).
Proof.
  unfold tryRule, applyRule, fires, extend, givesReason.
  destruct (run (condition rule) context) as [v | e]; simpl; [| reflexivity].
  destruct (truthy v); reflexivity.
Qed.

Lemma foldM_tryRule context rules : forall recs,
  foldM (tryRule context) rules recs
  = Normal (collect (filter (fires context) rules) recs).
Proof.
  induction rules as [| rule rules IH]; intros recs; simpl; [reflexivity |].
  rewrite tryRule_eq. simpl. rewrite IH.
  destruct (fires context rule); reflexivity.
Qed.

Lemma evaluate_eq rules context :
  evaluate rules context
  = Normal (toResult (collect (filter (fires context) rules) noRecommendations)).
Proof. unfold evaluate. now rewrite foldM_tryRule. Qed.

Lemma collect_app rules rules' recs :
  collect (rules ++ rules') recs = collect rules' (collect rules recs).
Proof. apply fold_left_app. Qed.

Lemma collect_skills rules : forall recs,
  rec_skills (collect rules recs)
  = fold_left JsSet.add (flat_map skills rules) (rec_skills recs).
Proof.
  induction rules as [| r l IH]; intros recs; simpl; [reflexivity |].
  unfold collect in IH. now rewrite IH, fold_left_app.
Qed.

Lemma collect_agents rules : forall recs,
  rec_agents (collect rules recs)
  = fold_left JsSet.add (flat_map agents rules) (rec_agents recs).
Proof.
  induction rules as [| r l IH]; intros recs; simpl; [reflexivity |].
  unfold collect in IH. now rewrite IH, fold_left_app.
Qed.

Lemma collect_hooks rules : forall recs,
  rec_hooks (collect rules recs)
  = fold_left JsSet.add (flat_map hooks rules) (rec_hooks recs).
Proof.
  induction rules as [| r l IH]; intros recs; simpl; [reflexivity |].
  unfold collect in IH. now rewrite IH, fold_left_app.
Qed.

Lemma collect_reasons rules : forall recs,
  rec_reasons (collect rules recs)
  = rec_reasons recs ++ map reason (filter givesReason rules).
Proof.
  induction rules as [| r l IH]; intros recs; simpl; [now rewrite app_nil_r |].
  unfold collect in IH. rewrite IH. simpl.
  destruct (givesReason r); simpl; [now rewrite <- app_assoc | reflexivity].
Qed.

(** A rule written [() => true], or with an empty reason, adds nothing to
    the reasons. *)
Lemma collect_reasons_silent rules rules' rule recs :
  givesReason rule = false ->
  rec_reasons (collect (rules ++ rule :: rules') recs)
  = rec_reasons (collect (rules ++ rules') recs).
Proof.
  intros H. rewrite !collect_reasons, !filter_app. simpl. now rewrite H.
Qed.

Lemma in_flat_map_filter {A} (f : Rule -> list A) (p : Rule -> bool) rules x :
  In x (flat_map f (filter p rules))
  <-> exists rule, In rule rules /\ p rule = true /\ In x (f rule).
Proof.
  rewrite in_flat_map. split.
  - intros [r [Hr Hx]]. apply filter_In in Hr. exists r. tauto.
  - intros [r [Hr [Hp Hx]]]. exists r. rewrite filter_In. tauto.
Qed.

(** The result, member by member. *)
Lemma evaluate_members rules context :
  exists result,
    evaluate rules context = Normal result
    /\ (forall s, In s (out_skills result)
                  <-> exists rule, In rule rules /\ fires context rule = true
                                   /\ In s (skills rule))
    /\ (forall a, In a (out_agents result)
                  <-> exists rule, In rule rules /\ fires context rule = true
                                   /\ In a (agents rule))
    /\ (forall h, In h (out_hooks result)
                  <-> exists rule, In rule rules /\ fires context rule = true
                                   /\ In h (hooks rule))
    /\ (forall r, In r (out_reasons result)
                  <-> exists rule, In rule rules /\ fires context rule = true
                                   /\ givesReason rule = true /\ reason rule = r)
    /\ NoDup (out_skills result) /\ NoDup (out_agents result)
    /\ NoDup (out_hooks result) /\ NoDup (out_reasons result).
Proof.
  eexists. split; [apply evaluate_eq |]. unfold toResult. simpl.
  rewrite collect_skills, collect_agents, collect_hooks, collect_reasons. simpl.
  repeat split;
    try (apply NoDup_fold_add; constructor); try apply NoDup_of_list;
    try (rewrite in_fold_add, in_flat_map_filter; simpl; tauto).
  - rewrite in_of_list, in_map_iff. intros [rule [Hr Hin]].
    rewrite !filter_In in Hin. exists rule. tauto.
  - rewrite in_of_list, in_map_iff. intros [rule H]. exists rule.
    rewrite !filter_In. tauto.
Qed.

Lemma filter_fires_idem rules context :
  filter (fires context) (filter (fires context) rules)
  = filter (fires context) rules.
Proof.
  induction rules as [| r l IH]; simpl; [reflexivity |].
  destruct (fires context r) eqn:E; simpl; [rewrite E; now f_equal | assumption].
Qed.

Lemma fires_iff context rule :
  fires context rule = true
  <-> exists v, run (condition rule) context = Normal v /\ truthy v = true.
Proof.
  unfold fires. destruct (run (condition rule) context) as [v | e].
  - split; [intros H; now exists v | intros [v' [[= <-] H]]; assumption].
  - split; [discriminate | intros [v [H _]]; discriminate].
Qed.

Lemma givesReason_true rule :
  givesReason rule = true
  <-> reason rule <> "" /\ source (condition rule) <> "() => true".
Proof.
  unfold givesReason. now rewrite andb_true_iff, !negb_true_iff, !String.eqb_neq.
Qed.

Lemma givesReason_false rule :
  givesReason rule = false
  <-> reason rule = "" \/ source (condition rule) = "() => true".
Proof.
  unfold givesReason. rewrite andb_false_iff, !negb_false_iff, !String.eqb_eq.
  tauto.
Qed.

End Engine.

(** C4, as amended.  For every rule table and every context the
    evaluation returns a result, never an exception.  Rules whose
    condition throws or returns a falsy value are skipped: the result is
    the one the other rules alone produce.  It includes the skills, agents
    and hooks of every rule whose condition returns a truthy value, and
    the reason of each such rule unless the reason is empty or the
    condition is written [() => true]. *)
Theorem evaluate_is_total :
  forall (rules : list Analyzer.Rule) (context : Js.value),
    exists result,
      Analyzer.evaluate rules context = Normal result
      /\ Analyzer.evaluate (filter (EngineSpec.fires context) rules) context
         = Normal result
      /\ forall rule v,
           In rule rules ->
           Analyzer.run (Analyzer.condition rule) context = Normal v ->
           Js.truthy v = true ->
           incl (Analyzer.skills rule) (Analyzer.out_skills result)
           /\ incl (Analyzer.agents rule) (Analyzer.out_agents result)
           /\ incl (Analyzer.hooks rule) (Analyzer.out_hooks result)
           /\ (Analyzer.reason rule <> "" ->
               Analyzer.source (Analyzer.condition rule) <> "() => true" ->
               In (Analyzer.reason rule) (Analyzer.out_reasons result)).
Proof.
  intros rules context.
  destruct (evaluate_members rules context)
    as (result & Hr & Hs & Ha & Hh & Hre & _).
  exists result. split; [assumption |]. split.
  - rewrite evaluate_eq in *. now rewrite filter_fires_idem.
  - intros rule v Hin Hrun Htruthy.
    assert (Hf : EngineSpec.fires context rule = true)
      by (apply fires_iff; now exists v).
    repeat split.
    + intros s Hs'. apply Hs. now exists rule.
    + intros a Ha'. apply Ha. now exists rule.
    + intros h Hh'. apply Hh. now exists rule.
    + intros Hne Hsrc. apply Hre. exists rule. repeat split; try assumption.
      now apply givesReason_true.
Qed.

(** A rule whose condition throws on the context is passed over, and the
    rules after it still count. *)
Example evaluate_skips_throwing_rule :
  Analyzer.run (Analyzer.condition Examples.fragileRule) Analyzer.emptyContext
  = Throw "TypeError: cannot read properties"
  /\ Analyzer.evaluate [Examples.fragileRule; Examples.spokenRule]
       Analyzer.emptyContext
     = Normal {| Analyzer.out_skills := ["code-reviewer"];
                 Analyzer.out_agents := [];
                 Analyzer.out_hooks := [];
                 Analyzer.out_reasons := ["Reviews help every project"] |}.
Proof. split; reflexivity. Qed.

Lemma essentialRule_in_table :
  In Examples.essentialRule Analyzer.recommendationRules.
Proof.
  unfold Analyzer.recommendationRules.
  repeat (first [left; reflexivity | right]).
Qed.

(** C4 as stated fails on the production table with an empty context: the
    always-apply rule returns true, and its reason is not in the
    result. *)
Lemma sentinel_reason_not_included :
  ~ EngineSpec.includesEveryContribution Analyzer.recommendationRules
      Analyzer.emptyContext.
Proof.
  intros (result & Hr & H).
  destruct (H Examples.essentialRule essentialRule_in_table eq_refl)
    as (_ & _ & _ & Hreason).
  vm_compute in Hr. injection Hr as <-. simpl in Hreason. exact Hreason.
Qed.

(** C5.  A rule whose condition is [() => true] contributes its skills,
    agents and hooks whatever the context and whatever the other rules,
    and adds no reason: the reasons are what they are without the rule,
    and its reason is not among them unless another rule reports the same
    text.  Hence the production table on the empty context gives the
    output of its always-apply rule and no reason. *)
Theorem always_true_rule_applies :
  (forall (before after : list Analyzer.Rule) (rule : Analyzer.Rule)
          (context : Js.value),
      Analyzer.condition rule = Analyzer.alwaysTrue ->
      exists result without,
        Analyzer.evaluate (before ++ rule :: after) context = Normal result
        /\ Analyzer.evaluate (before ++ after) context = Normal without
        /\ incl (Analyzer.skills rule) (Analyzer.out_skills result)
        /\ incl (Analyzer.agents rule) (Analyzer.out_agents result)
        /\ incl (Analyzer.hooks rule) (Analyzer.out_hooks result)
        /\ Analyzer.out_reasons result = Analyzer.out_reasons without
        /\ ((forall other, In other (before ++ after) ->
                           EngineSpec.fires context other = true ->
                           EngineSpec.givesReason other = true ->
                           Analyzer.reason other <> Analyzer.reason rule) ->
            ~ In (Analyzer.reason rule) (Analyzer.out_reasons result)))
  /\ Analyzer.analyzeProject Analyzer.emptyContext
     = Normal {| Analyzer.out_skills :=
                   ["code-reviewer"; "commit-msg-generator"; "git-workflow"];
                 Analyzer.out_agents := ["code-reviewer"];
                 Analyzer.out_hooks := ["session-context-loader"];
                 Analyzer.out_reasons := [] |}.
Proof.
  split; [| reflexivity].
  intros before after rule context Hcond.
  destruct (evaluate_members (before ++ rule :: after) context)
    as (result & Hr & Hs & Ha & Hh & Hre & _).
  assert (Hin : In rule (before ++ rule :: after))
    by (apply in_app_iff; right; now left).
  assert (Hf : EngineSpec.fires context rule = true)
    by (unfold EngineSpec.fires; now rewrite Hcond).
  assert (Hsilent : EngineSpec.givesReason rule = false)
    by (apply givesReason_false; right; now rewrite Hcond).
  exists result. eexists. split; [exact Hr |]. split; [apply evaluate_eq |].
  repeat split.
  - intros s Hs'. apply Hs. now exists rule.
  - intros a Ha'. apply Ha. now exists rule.
  - intros h Hh'. apply Hh. now exists rule.
  - rewrite evaluate_eq in Hr. injection Hr as <-. simpl.
    rewrite !filter_app. simpl. rewrite Hf.
    now rewrite collect_reasons_silent.
  - intros Hothers Hreason. apply Hre in Hreason.
    destruct Hreason as (other & Hother & Hfo & Hgo & Heq).
    apply in_app_iff in Hother. destruct Hother as [Hother | [<- | Hother]].
    + apply (Hothers other); [apply in_app_iff; now left | assumption ..].
    + rewrite Hsilent in Hgo. discriminate Hgo.
    + apply (Hothers other); [apply in_app_iff; now right | assumption ..].
Qed.

Lemma always_true_rule_applies_witness :
  Analyzer.condition Examples.essentialRule = Analyzer.alwaysTrue
  /\ exists result without,
      Analyzer.evaluate ([Examples.spokenRule] ++ Examples.essentialRule :: [])
        (Js.VNum 7) = Normal result
      /\ Analyzer.evaluate ([Examples.spokenRule] ++ []) (Js.VNum 7) = Normal without
      /\ incl (Analyzer.skills Examples.essentialRule) (Analyzer.out_skills result)
      /\ incl (Analyzer.agents Examples.essentialRule) (Analyzer.out_agents result)
      /\ incl (Analyzer.hooks Examples.essentialRule) (Analyzer.out_hooks result)
      /\ Analyzer.out_reasons result = Analyzer.out_reasons without
      /\ ~ In (Analyzer.reason Examples.essentialRule) (Analyzer.out_reasons result).
Proof.
  split; [reflexivity |].
  destruct (proj1 always_true_rule_applies [Examples.spokenRule] []
              Examples.essentialRule (Js.VNum 7) eq_refl)
    as (result & without & H1 & H2 & H3 & H4 & H5 & H6 & H7).
  exists result, without. repeat split; try assumption.
  apply H7. intros other [<- | []] _ _. discriminate.
Defined.

(** The scenario of the specification: clean architecture, security as a
    concern, .NET, with an API. *)
Example analyzeProject_scenario :
  exists result,
    Analyzer.analyzeProject
      (Js.VObj [ ("architecture", Js.VArr [Js.VStr "clean-architecture"]);
                 ("concerns", Js.VArr [Js.VStr "security"]);
                 ("techStack", Js.VArr [Js.VStr "dotnet"]);
                 ("hasApi", Js.VBool true) ])
    = Normal result
    /\ incl ["refactoring-advisor"; "naming-conventions"; "security-auditor";
             "dependency-auditor"; "api-design-reviewer"]
            (Analyzer.out_skills result)
    /\ incl ["layer-violation-blocker"; "secrets-scanner"]
            (Analyzer.out_hooks result).
Proof.
  assert (Hincl : forall l l' : list string,
             forallb (fun x => JsSet.has x l') l = true -> incl l l').
  { intros l l' H x Hx. rewrite forallb_forall in H.
    now apply has_true_iff, H. }
  eexists. split; [vm_compute; reflexivity |].
  split; apply Hincl; vm_compute; reflexivity.
Qed.

(** C10, as amended.  The reason of a rule that fires is left out of the
    reasons exactly when the condition is written [() => true] or the
    reason is the empty string: such a rule changes nothing in the
    reasons, whatever its condition does; any other rule whose condition
    returns true, for instance one written [(ctx) => true], has its reason
    in the result. *)
Theorem reason_excluded_by_source_text :
  forall (before after : list Analyzer.Rule) (rule : Analyzer.Rule)
         (context : Js.value),
    Analyzer.run (Analyzer.condition rule) context = Normal (Js.VBool true) ->
    exists result without,
      Analyzer.evaluate (before ++ rule :: after) context = Normal result
      /\ Analyzer.evaluate (before ++ after) context = Normal without
      /\ (Analyzer.source (Analyzer.condition rule) = "() => true"
          \/ Analyzer.reason rule = "" ->
          Analyzer.out_reasons result = Analyzer.out_reasons without)
      /\ (Analyzer.source (Analyzer.condition rule) <> "() => true" ->
          Analyzer.reason rule <> "" ->
          In (Analyzer.reason rule) (Analyzer.out_reasons result)).
Proof.
  intros before after rule context Hrun.
  destruct (evaluate_members (before ++ rule :: after) context)
    as (result & Hr & _ & _ & _ & Hre & _).
  assert (Hin : In rule (before ++ rule :: after))
    by (apply in_app_iff; right; now left).
  assert (Hf : EngineSpec.fires context rule = true)
    by (unfold EngineSpec.fires; now rewrite Hrun).
  exists result. eexists. split; [exact Hr |]. split; [apply evaluate_eq |].
  split.
  - intros Hsilent.
    assert (Hg : EngineSpec.givesReason rule = false)
      by (apply givesReason_false; tauto).
    rewrite evaluate_eq in Hr. injection Hr as <-. simpl.
    rewrite !filter_app. simpl. rewrite Hf.
    now rewrite collect_reasons_silent.
  - intros Hsrc Hreason. apply Hre. exists rule. repeat split; try assumption.
    now apply givesReason_true.
Qed.

Lemma reason_excluded_by_source_text_witness :
  Analyzer.run (Analyzer.condition Examples.spokenRule) Analyzer.emptyContext
  = Normal (Js.VBool true)
  /\ exists result without,
      Analyzer.evaluate ([Examples.essentialRule] ++ Examples.spokenRule :: [])
        Analyzer.emptyContext = Normal result
      /\ Analyzer.evaluate ([Examples.essentialRule] ++ []) Analyzer.emptyContext
         = Normal without
      /\ (Analyzer.source (Analyzer.condition Examples.spokenRule) = "() => true"
          \/ Analyzer.reason Examples.spokenRule = "" ->
          Analyzer.out_reasons result = Analyzer.out_reasons without)
      /\ (Analyzer.source (Analyzer.condition Examples.spokenRule) <> "() => true" ->
          Analyzer.reason Examples.spokenRule <> "" ->
          In (Analyzer.reason Examples.spokenRule) (Analyzer.out_reasons result)).
Proof.
  split; [reflexivity |].
  exact (reason_excluded_by_source_text [Examples.essentialRule] []
           Examples.spokenRule Analyzer.emptyContext eq_refl).
Defined.

(** C10 as stated fails for a rule written [(ctx) => true] whose reason is
    the empty string: the guard on the reason keeps it out of the list. *)
Lemma empty_reason_not_reported :
  ~ EngineSpec.reasonReported Examples.silentRule.
Proof.
  intros H.
  destruct (H (fun _ => eq_refl) ltac:(discriminate) [Examples.silentRule]
              Analyzer.emptyContext (or_introl eq_refl))
    as (result & Hr & Hin).
  vm_compute in Hr. injection Hr as <-. exact Hin.
Qed.

(* ===================================================================== *)
(** * Listing and pruning backups *)
(* ===================================================================== *)

Section Backups.
Import Backup BackupSpec.
Implicit Types (dir : ProjectDir) (es : list Dirent) (bs : list Backup)
  (b x y : Backup) (p : string).

(** ** The stable sort *)

Lemma insertNewestFirst_perm x bs : Permutation (x :: bs) (insertNewestFirst x bs).
Proof.
  induction bs as [| y l IH]; simpl; [reflexivity |].
  destruct (created y <=? created x)%Z; [reflexivity |].
  rewrite perm_swap. now constructor.
Qed.

Lemma sortNewestFirst_perm bs : Permutation bs (sortNewestFirst bs).
Proof.
  induction bs as [| x l IH]; simpl; [reflexivity |].
  rewrite <- insertNewestFirst_perm. now constructor.
Qed.

Lemma insertNewestFirst_sorted x bs :
  newestFirst bs -> newestFirst (insertNewestFirst x bs).
Proof.
  unfold newestFirst. induction 1 as [| y l Hs IH Hall]; simpl.
  - repeat constructor.
  - destruct (Z.leb_spec (created y) (created x)) as [Hle | Hgt].
    + constructor; [now constructor |]. constructor; [assumption |].
      eapply Forall_impl; [| exact Hall]. simpl. intros; lia.
    + constructor; [assumption |].
      apply (Permutation_Forall (insertNewestFirst_perm x l)).
      constructor; [lia | assumption].
Qed.

Lemma sortNewestFirst_sorted bs : newestFirst (sortNewestFirst bs).
Proof.
  induction bs as [| x l IH]; simpl; [constructor |].
  now apply insertNewestFirst_sorted.
Qed.

Lemma insert_at_front x bs :
  Forall (fun b => (created b <= created x)%Z) bs ->
  insertNewestFirst x bs = x :: bs.
Proof.
  intros H. destruct bs as [| y l]; simpl; [reflexivity |].
  inversion H; subst. destruct (Z.leb_spec (created y) (created x)); [reflexivity | lia].
Qed.

(** Filtering commutes with the stable sort. *)
Lemma filter_insertNewestFirst (q : Backup -> bool) x bs :
  newestFirst bs ->
  filter q (insertNewestFirst x bs)
  = if q x then insertNewestFirst x (filter q bs) else filter q bs.
Proof.
  unfold newestFirst. induction 1 as [| y l Hs IH Hall]; simpl.
  - destruct (q x); reflexivity.
  - destruct (Z.leb_spec (created y) (created x)) as [Hle | Hgt]; simpl.
    + destruct (q x) eqn:Ex; [| reflexivity].
      destruct (q y) eqn:Ey; simpl.
      * destruct (Z.leb_spec (created y) (created x)); [reflexivity | lia].
      * symmetry. apply insert_at_front. apply incl_Forall with (l1 := l).
        -- intros b Hb. apply filter_In in Hb. tauto.
        -- eapply Forall_impl; [| exact Hall]. simpl. intros; lia.
    + rewrite IH. destruct (q y) eqn:Ey, (q x) eqn:Ex; simpl; try reflexivity.
      destruct (Z.leb_spec (created y) (created x)); [lia | reflexivity].
Qed.

Lemma filter_sortNewestFirst (q : Backup -> bool) bs :
  filter q (sortNewestFirst bs) = sortNewestFirst (filter q bs).
Proof.
  induction bs as [| x l IH]; simpl; [reflexivity |].
  rewrite filter_insertNewestFirst by apply sortNewestFirst_sorted.
  rewrite IH. destruct (q x); reflexivity.
Qed.

(** ** Listing *)

Lemma foldM_collectBackup es : forall acc,
  (forall e, In e es -> isBackupEntry e = true -> birthtime e <> None) ->
  foldM collectBackup es acc = Normal (acc ++ backupsOf es).
Proof.
  induction es as [| e l IH]; intros acc H; simpl.
  - now rewrite app_nil_r.
  - unfold collectBackup at 1. destruct (isBackupEntry e) eqn:Eb; simpl.
    + destruct (birthtime e) as [t |] eqn:Et.
      * simpl. rewrite IH by (intros e' He' Hb'; apply H; [now right | assumption]).
        now rewrite <- app_assoc.
      * exfalso. apply (H e); [now left | assumption | assumption].
    + apply IH. intros e' He' Hb'. apply H; [now right | assumption].
Qed.

Lemma listBackups_wellFormed dir :
  wellFormed dir ->
  listBackups dir = Normal (sortNewestFirst (backupsOf (entries dir))).
Proof.
  intros (Hr & _ & Hs). unfold listBackups. rewrite Hr.
  now rewrite foldM_collectBackup.
Qed.

Lemma in_backupsOf b es :
  In b (backupsOf es) -> In (path b) (map entryName es).
Proof.
  unfold backupsOf. rewrite in_flat_map. intros [e [He Hb]].
  destruct (isBackupEntry e); [| contradiction].
  destruct (birthtime e); [| contradiction].
  destruct Hb as [<- | []]. simpl. now apply in_map.
Qed.

Lemma NoDup_backupsOf es :
  NoDup (map entryName es) -> NoDup (map path (backupsOf es)).
Proof.
  induction es as [| e l IH]; simpl; intros H; [constructor |].
  inversion H as [| ? ? Hn Hd]; subst.
  destruct (isBackupEntry e); [| now apply IH].
  destruct (birthtime e); [| now apply IH].
  simpl. constructor; [| now apply IH].
  intros Hin. apply Hn. apply in_map_iff in Hin. destruct Hin as [b [Hp Hb]].
  apply in_backupsOf in Hb. now rewrite Hp in Hb.
Qed.

Lemma backupsOf_filter (gone : string -> bool) es :
  backupsOf (filter (fun e => negb (gone (entryName e))) es)
  = filter (fun b => negb (gone (path b))) (backupsOf es).
Proof.
  induction es as [| e l IH]; simpl; [reflexivity |].
  destruct (gone (entryName e)) eqn:Eg; simpl.
  - destruct (isBackupEntry e); [| assumption].
    destruct (birthtime e); [| assumption].
    simpl. now rewrite Eg.
  - destruct (isBackupEntry e); [| assumption].
    destruct (birthtime e); [| assumption].
    simpl. rewrite Eg. simpl. now f_equal.
Qed.

(** ** The removal loop *)

Lemma filter_ext_entries (f g : Dirent -> bool) es :
  (forall e, f e = g e) -> filter f es = filter g es.
Proof.
  intros H. induction es as [| e l IH]; simpl; [reflexivity |].
  rewrite H, IH. reflexivity.
Qed.

Lemma filter_filter_entries (f g : Dirent -> bool) es :
  filter f (filter g es) = filter (fun e => g e && f e) es.
Proof.
  induction es as [| e l IH]; simpl; [reflexivity |].
  destruct (g e); simpl; [destruct (f e); now rewrite IH | assumption].
Qed.

Lemma existsb_entry es p :
  existsb (fun e => String.eqb (entryName e) p) es = true
  <-> In p (map entryName es).
Proof.
  rewrite existsb_exists, in_map_iff. split.
  - intros [e [He Heq]]. apply String.eqb_eq in Heq. now exists e.
  - intros [e [Heq He]]. exists e. split; [assumption | now apply String.eqb_eq].
Qed.

Lemma removal_loop bs : forall dir es n,
  NoDup (map path bs) ->
  (forall b, In b bs -> In (path b) (map entryName es)) ->
  foldM removeOne bs (withEntries dir es, n)
  = Normal (withEntries dir
              (filter (fun e => negb (goneAmong dir bs (entryName e))) es),
            (n + Z.of_nat (List.length (filter (fun b => removable dir (path b)) bs)))%Z).
Proof.
  induction bs as [| b l IH]; intros dir es n Hnd Hin; simpl.
  - rewrite Z.add_0_r. f_equal. f_equal. f_equal.
    induction es as [| e es IHes]; simpl; [reflexivity | now rewrite <- IHes].
  - inversion Hnd as [| ? ? Hn Hd]; subst.
    unfold removeOne at 1. simpl. unfold rm. simpl.
    assert (Hex : existsb (fun e => String.eqb (entryName e) (path b)) es = true)
      by (apply existsb_entry, Hin; now left).
    rewrite Hex. simpl.
    destruct (removable dir (path b)) eqn:Er; simpl.
    + change (withEntries (withEntries dir es) ?x) with (withEntries dir x).
      rewrite IH; [| assumption |].
      * f_equal. f_equal.
        -- f_equal. rewrite filter_filter_entries. apply filter_ext_entries.
           intros e. unfold goneAmong. simpl.
           destruct (String.eqb (path b) (entryName e)) eqn:E1.
           ++ apply String.eqb_eq in E1. rewrite <- E1, String.eqb_refl, Er.
              reflexivity.
           ++ rewrite (String.eqb_sym (entryName e)), E1. reflexivity.
        -- lia.
      * intros b' Hb'. apply in_map_iff.
        specialize (Hin b' (or_intror Hb')). apply in_map_iff in Hin.
        destruct Hin as [e [He Hine]]. exists e. split; [assumption |].
        apply filter_In. split; [assumption |].
        apply negb_true_iff, String.eqb_neq. intros Heq. apply Hn.
        rewrite <- Heq, He. now apply in_map.
    + rewrite IH; [| assumption | intros; apply Hin; now right].
      f_equal. f_equal. f_equal. apply filter_ext_entries.
      intros e. unfold goneAmong. simpl.
      destruct (String.eqb (path b) (entryName e)) eqn:E1; [| reflexivity].
      apply String.eqb_eq in E1. rewrite <- E1, Er. now rewrite !andb_false_r.
Qed.

End Backups.

Section Prune.
Import Backup BackupSpec.
Implicit Types (dir : ProjectDir) (bs : list Backup) (b : Backup).

Lemma NoDup_app_disjoint {A} (l1 l2 : list A) (x : A) :
  NoDup (l1 ++ l2) -> In x l1 -> ~ In x l2.
Proof.
  induction l1 as [| a l IH]; simpl; intros H Hin; [contradiction |].
  inversion H as [| ? ? Hn Hd]; subst. destruct Hin as [-> | Hin].
  - intros Hx. apply Hn. apply in_app_iff. now right.
  - now apply IH.
Qed.

Lemma in_skipn {A} (k : nat) (l : list A) (x : A) : In x (skipn k l) -> In x l.
Proof.
  intros H. rewrite <- (firstn_skipn k l). apply in_app_iff. now right.
Qed.

Lemma withEntries_same dir : withEntries dir (entries dir) = dir.
Proof. now destruct dir. Qed.

Lemma removal_loop_from dir bs n :
  NoDup (map path bs) ->
  (forall b, In b bs -> In (path b) (map entryName (entries dir))) ->
  foldM removeOne bs (dir, n)
  = Normal (withEntries dir
              (filter (fun e => negb (goneAmong dir bs (entryName e))) (entries dir)),
            (n + Z.of_nat (List.length (filter (fun b => removable dir (path b)) bs)))%Z).
Proof.
  intros Hnd Hin. rewrite <- (removal_loop bs dir (entries dir) n Hnd Hin).
  now rewrite withEntries_same.
Qed.

Lemma filter_none {A} (f : A -> bool) (l : list A) :
  (forall x, In x l -> f x = false) -> filter f l = [].
Proof.
  induction l as [| a l IH]; simpl; intros H; [reflexivity |].
  rewrite (H a) by now left. apply IH. intros x Hx. apply H. now right.
Qed.

Lemma filter_every {A} (f : A -> bool) (l : list A) :
  (forall x, In x l -> f x = true) -> filter f l = l.
Proof.
  intros H. apply forallb_filter_id, forallb_forall, H.
Qed.

Lemma array_slice_from_skipn {A} (l : list A) (k : Z) :
  (0 <= k)%Z -> array_slice_from l k = skipn (Z.to_nat k) l.
Proof.
  intros Hk. unfold array_slice_from, array_slice, clamp_index.
  destruct (Z.ltb_spec k 0); [lia |].
  destruct (Z.ltb_spec (Z.of_nat (List.length l)) 0); [lia |].
  rewrite Z.min_id.
  destruct (Z.le_gt_cases k (Z.of_nat (List.length l))) as [Hle | Hgt].
  - rewrite Z.min_l by lia. apply firstn_all2. rewrite length_skipn. lia.
  - rewrite Z.min_r by lia. rewrite Nat2Z.id.
    rewrite skipn_all, (skipn_all2 l) by lia. now destruct (Z.to_nat _).
Qed.

Lemma existsb_path bs p :
  existsb (fun b => String.eqb (path b) p) bs = true <-> In p (map path bs).
Proof.
  rewrite existsb_exists, in_map_iff. split.
  - intros [b [Hb Heq]]. apply String.eqb_eq in Heq. now exists b.
  - intros [b [Heq Hb]]. exists b. split; [assumption | now apply String.eqb_eq].
Qed.

(** What is left of a newest-first list of backups with distinct paths
    once the removable ones beyond the first [k] are gone. *)
Lemma filter_not_gone dir bs k :
  NoDup (map path bs) ->
  filter (fun b => negb (goneAmong dir (skipn k bs) (path b))) bs
  = firstn k bs ++ filter (fun b => negb (removable dir (path b))) (skipn k bs).
Proof.
  intros Hnd.
  transitivity (filter (fun b => negb (goneAmong dir (skipn k bs) (path b)))
                       (firstn k bs ++ skipn k bs));
    [now rewrite firstn_skipn |].
  rewrite filter_app.
  rewrite <- (firstn_skipn k bs), map_app in Hnd. f_equal.
  - apply forallb_filter_id, forallb_forall. intros b Hb.
    unfold goneAmong.
    destruct (existsb (fun b0 => String.eqb (path b0) (path b)) (skipn k bs)) eqn:E;
      [| reflexivity].
    exfalso. apply existsb_path in E.
    apply (NoDup_app_disjoint _ _ (path b) Hnd); [now apply in_map | assumption].
  - apply filter_ext_in. intros b Hb. unfold goneAmong.
    replace (existsb (fun b0 => String.eqb (path b0) (path b)) (skipn k bs))
      with true; [reflexivity |].
    symmetry. apply existsb_path. now apply in_map.
Qed.

Lemma wellFormed_filter dir (q : Dirent -> bool) :
  wellFormed dir -> wellFormed (withEntries dir (filter q (entries dir))).
Proof.
  intros (Hr & Hnd & Hs). unfold wellFormed. simpl. repeat split.
  - assumption.
  - clear - Hnd. induction (entries dir) as [| e l IH]; simpl; [constructor |].
    inversion Hnd as [| ? ? Hn Hd]; subst.
    destruct (q e); simpl; [| now apply IH].
    constructor; [| now apply IH].
    intros Hin. apply Hn. apply in_map_iff in Hin. destruct Hin as [e' [He' Hin]].
    apply filter_In in Hin. apply in_map_iff. exists e'. tauto.
  - intros e He. apply filter_In in He. apply Hs, He.
Qed.

Lemma newestFirst_split bs k b b' :
  newestFirst bs -> In b (firstn k bs) -> In b' (skipn k bs) ->
  (created b' <= created b)%Z.
Proof.
  unfold newestFirst. intros H. revert k.
  induction H as [| x l Hs IH Hall]; intros k Hb Hb'.
  - now destruct k.
  - destruct k as [| k]; simpl in *; [contradiction |].
    destruct Hb as [<- | Hb].
    + rewrite Forall_forall in Hall. apply Hall.
      apply (in_skipn k l b' Hb').
    + now apply (IH k).
Qed.

End Prune.

(** C9, as amended.  In a project directory that can be listed, with [bs]
    its backups newest first, and for a keep count that is not negative:
    pruning attempts every backup beyond the first [keepCount], whether
    or not an earlier removal failed; afterwards the backups are the
    [keepCount] most recent ones followed by those whose removal failed;
    [removed] is the number actually removed; [kept] is [keepCount], or the
    number of backups when there are no more than that.  When no removal
    fails, exactly the [keepCount] most recent backups remain, so that
    with 5 backups and [keepCount = 2] the 2 most recent remain and
    [removed] is 3. *)
Theorem cleanupBackups_prunes :
  forall (dir : Backup.ProjectDir) (keepCount : Z) (bs : list Backup.Backup),
    BackupSpec.wellFormed dir ->
    (0 <= keepCount)%Z ->
    Backup.listBackups dir = Normal bs ->
    exists counts dir',
      Backup.cleanupBackups dir keepCount = Normal (counts, dir')
      /\ Backup.listBackups dir'
         = Normal (firstn (Z.to_nat keepCount) bs
                   ++ filter (fun b => negb (Backup.removable dir (Backup.path b)))
                             (skipn (Z.to_nat keepCount) bs))
      /\ Backup.removed counts
         = Z.of_nat (List.length
                       (filter (fun b => Backup.removable dir (Backup.path b))
                               (skipn (Z.to_nat keepCount) bs)))
      /\ Backup.kept counts = Z.min keepCount (Z.of_nat (List.length bs))
      /\ (forall b b', In b (firstn (Z.to_nat keepCount) bs) ->
                       In b' (skipn (Z.to_nat keepCount) bs) ->
                       (Backup.created b' <= Backup.created b)%Z)
      /\ ((forall b, In b bs -> Backup.removable dir (Backup.path b) = true) ->
          Backup.listBackups dir' = Normal (firstn (Z.to_nat keepCount) bs)
          /\ Backup.removed counts
             = Z.max 0 (Z.of_nat (List.length bs) - keepCount)).
Proof.
  intros dir keepCount bs Hwf Hk Hlist.
  pose proof (listBackups_wellFormed dir Hwf) as Hbs.
  rewrite Hlist in Hbs. injection Hbs as Hbs.
  assert (Hnd : NoDup (map Backup.path bs)).
  { rewrite Hbs.
    apply (Permutation_NoDup
             (Permutation_map Backup.path
                (sortNewestFirst_perm (BackupSpec.backupsOf (Backup.entries dir))))).
    apply NoDup_backupsOf, Hwf. }
  assert (Hsorted : BackupSpec.newestFirst bs)
    by (rewrite Hbs; apply sortNewestFirst_sorted).
  set (k := Z.to_nat keepCount).
  assert (Hmain : exists counts dir',
    Backup.cleanupBackups dir keepCount = Normal (counts, dir')
    /\ Backup.listBackups dir'
       = Normal (firstn k bs
                 ++ filter (fun b => negb (Backup.removable dir (Backup.path b)))
                           (skipn k bs))
    /\ Backup.removed counts
       = Z.of_nat (List.length
                     (filter (fun b => Backup.removable dir (Backup.path b))
                             (skipn k bs)))
    /\ Backup.kept counts = Z.min keepCount (Z.of_nat (List.length bs))).
  { unfold Backup.cleanupBackups. rewrite Hlist. simpl.
    destruct (Z.leb_spec (Z.of_nat (List.length bs)) keepCount) as [Hle | Hgt].
    - eexists. eexists. split; [reflexivity |]. simpl.
      rewrite (skipn_all2 bs) by (unfold k; lia).
      rewrite (firstn_all2 bs) by (unfold k; lia).
      simpl. rewrite app_nil_r. repeat split; [assumption | lia].
    - rewrite array_slice_from_skipn by assumption. fold k.
      rewrite removal_loop_from.
      + simpl. eexists. eexists. split; [reflexivity |]. simpl.
        split; [| split; [reflexivity | lia]].
        rewrite listBackups_wellFormed by (now apply wellFormed_filter).
        simpl. rewrite backupsOf_filter, <- filter_sortNewestFirst, <- Hbs.
        f_equal. now apply filter_not_gone.
      + rewrite <- (firstn_skipn k bs), map_app in Hnd.
        now apply NoDup_app_remove_l in Hnd.
      + intros b Hb. apply in_skipn in Hb. rewrite Hbs in Hb.
        apply in_backupsOf.
        now apply (Permutation_in _ (Permutation_sym (sortNewestFirst_perm _))). }
  destruct Hmain as (counts & dir' & Hc & Hl & Hrem & Hkept).
  exists counts, dir'. repeat split; try assumption.
  - intros b b'. now apply newestFirst_split.
  - rewrite Hl. f_equal. rewrite filter_none; [apply app_nil_r |].
    intros b Hb. apply negb_false_iff, H. now apply in_skipn in Hb.
  - rewrite Hrem, filter_every.
    + rewrite length_skipn. lia.
    + intros b Hb. apply H. now apply in_skipn in Hb.
Qed.

Lemma fiveBackups_wellFormed : BackupSpec.wellFormed Examples.fiveBackups.
Proof.
  unfold BackupSpec.wellFormed. simpl. repeat split.
  - repeat constructor; simpl; intuition discriminate.
  - intros e He Hb.
    repeat (destruct He as [<- | He]; [discriminate |]). contradiction.
Qed.

(** Five backups and [keepCount = 2]: the two most recent remain and
    three are removed. *)
Lemma cleanupBackups_prunes_witness :
  BackupSpec.wellFormed Examples.fiveBackups
  /\ (0 <= 2)%Z
  /\ Backup.listBackups Examples.fiveBackups
     = Normal (map (fun e => Backup.backupOf (fst e) (snd e))
                 [ (Examples.backupDir "5" 500, 500%Z);
                   (Examples.backupDir "4" 400, 400%Z);
                   (Examples.backupDir "3" 300, 300%Z);
                   (Examples.backupDir "2" 200, 200%Z);
                   (Examples.backupDir "1" 100, 100%Z) ])
  /\ exists counts dir',
      Backup.cleanupBackups Examples.fiveBackups 2 = Normal (counts, dir')
      /\ Backup.listBackups dir'
         = Normal [ Backup.backupOf (Examples.backupDir "5" 500) 500;
                    Backup.backupOf (Examples.backupDir "4" 400) 400 ]
      /\ Backup.removed counts = 3%Z
      /\ Backup.kept counts = 2%Z.
Proof.
  assert (Hl : Backup.listBackups Examples.fiveBackups
     = Normal (map (fun e => Backup.backupOf (fst e) (snd e))
                 [ (Examples.backupDir "5" 500, 500%Z);
                   (Examples.backupDir "4" 400, 400%Z);
                   (Examples.backupDir "3" 300, 300%Z);
                   (Examples.backupDir "2" 200, 200%Z);
                   (Examples.backupDir "1" 100, 100%Z) ]))
    by reflexivity.
  assert (Hk : (0 <= 2)%Z) by lia.
  split; [exact fiveBackups_wellFormed | split; [exact Hk | split; [exact Hl |]]].
  destruct (cleanupBackups_prunes Examples.fiveBackups 2 _
              fiveBackups_wellFormed Hk Hl)
    as (counts & dir' & Hc & _ & _ & Hkept & _ & Hall).
  destruct (Hall (fun _ _ => eq_refl)) as [Hrest Hremoved].
  exists counts, dir'. repeat split; assumption.
Defined.

(** C9 as stated fails when a removal fails: of five backups with the one
    of day 2 locked and [keepCount = 2], three remain, while the call
    returns [kept = 2]. *)
Lemma kept_count_ignores_failed_removals :
  ~ BackupSpec.countsAreActual Examples.fiveBackupsOneLocked 2.
Proof.
  intros H.
  destruct (H _ _ _ _ eq_refl eq_refl eq_refl) as [_ Hk].
  vm_compute in Hk. discriminate Hk.
Qed.

(** A negative keep count counts from the oldest end: with [-1] only the
    oldest backup is removed, and [kept] comes back as [-1]. *)
Example cleanupBackups_negative_keep :
  exists dir',
    Backup.cleanupBackups Examples.fiveBackups (-1)
    = Normal ({| Backup.removed := 1; Backup.kept := -1 |}, dir')
    /\ List.length (Backup.entries dir') = 5.
Proof. eexists. split; reflexivity. Qed.

(* ===================================================================== *)
(** * The project scanner *)
(* ===================================================================== *)

Section ScanEmpty.
Import Fs Scanner.

Variable JSON_parse : string -> option Js.value.
Variable w : World.
Hypothesis Hempty : emptyDirectory w.

Lemma fileExists_empty p : fileExists w p = false.
Proof. apply Hempty. Qed.

Lemma dirExists_empty p : dirExists w p = false.
Proof. unfold dirExists. destruct Hempty as (_ & H & _). now rewrite H. Qed.

Lemma glob_empty pattern limit : glob w pattern limit = [].
Proof.
  unfold glob. destruct Hempty as (_ & _ & H).
  destruct (H pattern) as [-> | ->]; [reflexivity | now destruct limit].
Qed.

(** In an empty directory every detection step leaves [detected] as it
    is. *)
Lemma detectNode_empty d : detectNode JSON_parse w d = Normal d.
Proof. unfold detectNode. now rewrite fileExists_empty. Qed.

Lemma detectDotnet_empty d : detectDotnet w d = Normal d.
Proof. unfold detectDotnet. now rewrite glob_empty. Qed.

Lemma detectPython_empty d : detectPython w d = d.
Proof. unfold detectPython. now rewrite !fileExists_empty. Qed.

Lemma detectGo_empty d : detectGo w d = d.
Proof. unfold detectGo. now rewrite fileExists_empty. Qed.

Lemma detectRust_empty d : detectRust w d = d.
Proof. unfold detectRust. now rewrite fileExists_empty. Qed.

Lemma detectJava_empty d : detectJava w d = d.
Proof. unfold detectJava. now rewrite !fileExists_empty. Qed.

Lemma detectArchitecture_empty d : detectArchitecture w d = d.
Proof.
  unfold detectArchitecture. now rewrite !dirExists_empty, !fileExists_empty.
Qed.

Lemma detectCliTool_empty d : detectCliTool JSON_parse w d = Normal d.
Proof. unfold detectCliTool. now rewrite fileExists_empty. Qed.

Lemma detectInfrastructure_empty d : detectInfrastructure w d = d.
Proof.
  unfold detectInfrastructure. now rewrite !dirExists_empty, !fileExists_empty.
Qed.

Lemma detectDatabases_empty d : detectDatabases w d = d.
Proof. unfold detectDatabases. now rewrite glob_empty. Qed.

Lemma detectExistingClaude_empty d : detectExistingClaude w d = d.
Proof. unfold detectExistingClaude. now rewrite dirExists_empty. Qed.

Lemma scanProject_empty :
  scanProject JSON_parse w = Normal (deduplicate (initialDetected w)).
Proof.
  unfold scanProject.
  rewrite detectNode_empty. simpl. rewrite detectDotnet_empty. simpl.
  rewrite detectPython_empty, detectGo_empty, detectRust_empty, detectJava_empty,
    detectArchitecture_empty, detectCliTool_empty.
  simpl.
  now rewrite detectInfrastructure_empty, detectDatabases_empty,
    detectExistingClaude_empty.
Qed.

End ScanEmpty.

(** C7.  The scan of an empty directory returns, without raising, a result
    whose project type is 'general', whose lists (languages, frameworks,
    databases, architecture, techStack and the three lists of existing
    components) are empty and whose flags (hasTests, hasDocker, hasCI,
    hasApi, existingClaude) are false; its name is the directory's. *)
Theorem scanProject_empty_directory :
  forall (JSON_parse : string -> option Js.value) (w : Fs.World),
    Scanner.emptyDirectory w ->
    Scanner.scanProject JSON_parse w
    = Normal {| Scanner.name := Js.VStr (Fs.basename w);
                Scanner.languages := [];
                Scanner.frameworks := [];
                Scanner.databases := [];
                Scanner.architecture := [];
                Scanner.projectType := "general";
                Scanner.techStack := [];
                Scanner.hasTests := false;
                Scanner.hasDocker := false;
                Scanner.hasCI := false;
                Scanner.hasApi := false;
                Scanner.existingClaude := false;
                Scanner.existingClaudeComponents :=
                  {| Scanner.skills := []; Scanner.agents := [];
                     Scanner.hooks := [] |} |}.
Proof.
  intros JSON_parse w Hempty. now rewrite scanProject_empty.
Qed.

Lemma emptyWorld_is_empty : Scanner.emptyDirectory Examples.emptyWorld.
Proof. repeat split. intros pattern. now right. Qed.

Lemma scanProject_empty_directory_witness :
  Scanner.emptyDirectory Examples.emptyWorld
  /\ Scanner.scanProject Examples.parseEmptyObject Examples.emptyWorld
     = Normal {| Scanner.name := Js.VStr "demo";
                 Scanner.languages := [];
                 Scanner.frameworks := [];
                 Scanner.databases := [];
                 Scanner.architecture := [];
                 Scanner.projectType := "general";
                 Scanner.techStack := [];
                 Scanner.hasTests := false;
                 Scanner.hasDocker := false;
                 Scanner.hasCI := false;
                 Scanner.hasApi := false;
                 Scanner.existingClaude := false;
                 Scanner.existingClaudeComponents :=
                   {| Scanner.skills := []; Scanner.agents := [];
                      Scanner.hooks := [] |} |}.
Proof.
  split; [exact emptyWorld_is_empty |].
  exact (scanProject_empty_directory Examples.parseEmptyObject Examples.emptyWorld
           emptyWorld_is_empty).
Defined.

(** C6 does not hold of the code.  When package.json exists and its text
    is not JSON, the first detection step reads it with [readJson] and no
    [catch], and the whole scan rejects with the SyntaxError; the later
    step that looks for a CLI tool reads the same file with a [catch] and
    goes on with an empty object. *)
Theorem scanProject_throws_on_unparsable_manifest :
  forall (JSON_parse : string -> option Js.value) (w : Fs.World)
         (text : string),
    Fs.access w "package.json" = true ->
    Fs.readFileText w "package.json" = Some text ->
    JSON_parse text = None ->
    Scanner.scanProject JSON_parse w = Throw "SyntaxError"
    /\ forall d, Scanner.detectCliTool JSON_parse w d = Normal d.
Proof.
  intros JSON_parse w text Hacc Hread Hparse. split.
  - unfold Scanner.scanProject, Scanner.detectNode, Scanner.fileExists.
    rewrite Hacc. unfold Scanner.readJson, Scanner.readFile.
    rewrite Hread. simpl. now rewrite Hparse.
  - intros d. unfold Scanner.detectCliTool, Scanner.fileExists.
    rewrite Hacc. unfold Scanner.readJson, Scanner.readFile.
    rewrite Hread. simpl. now rewrite Hparse.
Qed.

Lemma scanProject_throws_on_unparsable_manifest_witness :
  Fs.access Examples.brokenManifestWorld "package.json" = true
  /\ Fs.readFileText Examples.brokenManifestWorld "package.json" = Some "{"
  /\ Examples.parseEmptyObject "{" = None
  /\ Scanner.scanProject Examples.parseEmptyObject Examples.brokenManifestWorld
     = Throw "SyntaxError"
  /\ forall d, Scanner.detectCliTool Examples.parseEmptyObject
                 Examples.brokenManifestWorld d = Normal d.
Proof.
  split; [reflexivity | split; [reflexivity | split; [reflexivity |]]].
  exact (scanProject_throws_on_unparsable_manifest Examples.parseEmptyObject
           Examples.brokenManifestWorld "{" eq_refl eq_refl eq_refl).
Defined.

(** The scan of a Node project. *)
Example scanProject_express_api :
  Scanner.scanProject Examples.parseManifest Examples.shopApiWorld
  = Normal {| Scanner.name := Js.VStr "shop-api";
              Scanner.languages := ["javascript"; "typescript"];
              Scanner.frameworks := ["node-api"];
              Scanner.databases := ["postgresql"];
              Scanner.architecture := [];
              Scanner.projectType := "api-service";
              Scanner.techStack := ["nodejs"; "typescript"; "sql"; "docker"];
              Scanner.hasTests := true;
              Scanner.hasDocker := true;
              Scanner.hasCI := false;
              Scanner.hasApi := true;
              Scanner.existingClaude := false;
              Scanner.existingClaudeComponents :=
                {| Scanner.skills := []; Scanner.agents := [];
                   Scanner.hooks := [] |} |}.
Proof. reflexivity. Qed.

(* ===================================================================== *)
(** * merger.js: how the merge and the diff summary fit together *)
(* ===================================================================== *)

Section SetsAsLists.

Lemma has_of_list (x : string) (l : list string) :
  JsSet.has x (JsSet.of_list l) = JsSet.has x l.
Proof.
  destruct (JsSet.has x l) eqn:E.
  - apply has_true_iff, in_of_list. now apply has_true_iff.
  - apply has_false_iff. rewrite in_of_list. now apply has_false_iff.
Qed.

Lemma has_cons (x y : string) (l : list string) :
  JsSet.has x (y :: l) = String.eqb x y || JsSet.has x l.
Proof. reflexivity. Qed.

Lemma filter_filter_string (f g : string -> bool) (l : list string) :
  filter f (filter g l) = filter (fun x => g x && f x) l.
Proof.
  induction l as [| a l IH]; simpl; [reflexivity |].
  destruct (g a); simpl; [destruct (f a) |]; now rewrite IH.
Qed.

Lemma filter_ext_string (f g : string -> bool) (l : list string) :
  (forall x, In x l -> f x = g x) -> filter f l = filter g l.
Proof.
  induction l as [| a l IH]; simpl; intros H; [reflexivity |].
  rewrite (H a) by now left. rewrite IH by auto. reflexivity.
Qed.

(** Adding to a set that already has members: they stay in front, and
    the new members follow in the order of their first appearance. *)
Lemma fold_add_filter (l : list string) : forall s : list string,
  fold_left JsSet.add l s
  = s ++ filter (fun y => negb (JsSet.has y s)) (JsSet.of_list l).
Proof.
  induction l as [| a l IH] using rev_ind; intros s.
  - simpl. now rewrite app_nil_r.
  - unfold JsSet.of_list. rewrite !fold_left_app. simpl.
    fold (JsSet.of_list l). rewrite IH.
    set (t := filter (fun y => negb (JsSet.has y s)) (JsSet.of_list l)).
    assert (Ht : forall y, In y t <-> In y (JsSet.of_list l) /\ ~ In y s).
    { intros y. unfold t. rewrite filter_In, negb_true_iff, has_false_iff. tauto. }
    unfold JsSet.add.
    destruct (JsSet.has a (JsSet.of_list l)) eqn:El.
    + replace (JsSet.has a (s ++ t)) with true; [reflexivity |].
      symmetry. apply has_true_iff, in_app_iff. apply has_true_iff in El.
      destruct (in_dec string_dec a s); [now left | right; apply Ht; tauto].
    + rewrite filter_app. simpl. fold t. apply has_false_iff in El.
      destruct (JsSet.has a s) eqn:Es; simpl.
      * replace (JsSet.has a (s ++ t)) with true; [now rewrite app_nil_r |].
        symmetry. apply has_true_iff, in_app_iff. left. now apply has_true_iff.
      * replace (JsSet.has a (s ++ t)) with false; [now rewrite app_assoc |].
        symmetry. apply has_false_iff. rewrite in_app_iff, Ht.
        apply has_false_iff in Es. tauto.
Qed.

Lemma of_list_cons (x : string) (l : list string) :
  JsSet.of_list (x :: l)
  = x :: filter (fun y => negb (String.eqb y x)) (JsSet.of_list l).
Proof.
  unfold JsSet.of_list at 1. simpl. unfold JsSet.add at 2. simpl.
  rewrite fold_add_filter. simpl. f_equal.
  apply filter_ext_string. intros y _. unfold JsSet.has. simpl.
  now rewrite orb_false_r.
Qed.

(** Spreading a set made from a list without repetition gives the list
    back. *)
Lemma of_list_NoDup (l : list string) : NoDup l -> JsSet.of_list l = l.
Proof.
  induction 1 as [| x l Hn Hd IH]; [reflexivity |].
  rewrite of_list_cons, IH. f_equal.
  rewrite <- (filter_every (fun y => negb (String.eqb y x)) l) at 2;
    [reflexivity |].
  intros y Hy. apply negb_true_iff, String.eqb_neq. intros ->. contradiction.
Qed.

Lemma length_filter_split (f : string -> bool) (l : list string) :
  (List.length (filter f l) + List.length (filter (fun x => negb (f x)) l)
   = List.length l)%nat.
Proof.
  induction l as [| a l IH]; simpl; [reflexivity |].
  destruct (f a); simpl; lia.
Qed.

End SetsAsLists.

Section MergeOrder.
Import Merger MergerReport.
Implicit Types (existing : list StoredComponent) (incoming : list string).
Implicit Types (m : list (string * StoredComponent)) (merged : list MergedComponent).

Lemma keys_set_add (k : string) (v : StoredComponent) m :
  map fst (JsMap.set k v m) = JsSet.add (map fst m) k.
Proof.
  unfold JsSet.add, JsSet.has.
  induction m as [| [k' v'] m IH]; simpl; [reflexivity |].
  destruct (String.eqb k k') eqn:E; simpl.
  - apply String.eqb_eq in E. now subst.
  - rewrite IH. now destruct (existsb (String.eqb k) (map fst m)).
Qed.

(** The index lists the existing names as a set does: each once, in the
    order of first appearance. *)
Lemma keys_indexExisting_set existing :
  map fst (indexExisting existing) = JsSet.of_list (map name existing).
Proof.
  unfold indexExisting, JsSet.of_list.
  induction existing as [| a l IH] using rev_ind; [reflexivity |].
  rewrite map_app, !fold_left_app. simpl. now rewrite keys_set_add, IH.
Qed.

Lemma keys_delete_filter (k : string) m :
  map fst (JsMap.delete k m)
  = filter (fun n => negb (String.eqb k n)) (map fst m).
Proof.
  unfold JsMap.delete.
  induction m as [| [k' v'] m IH]; simpl; [reflexivity |].
  destruct (String.eqb k k'); simpl; now rewrite IH.
Qed.

Lemma get_None_keys (k : string) m :
  JsMap.get k m = None <-> ~ In k (map fst m).
Proof.
  induction m as [| [k' v'] m IH]; simpl; [tauto |].
  destruct (String.eqb k k') eqn:E.
  - apply String.eqb_eq in E. subst. split; [discriminate | tauto].
  - apply String.eqb_neq in E. rewrite IH. intuition congruence.
Qed.

Lemma get_delete_eq (k : string) m : JsMap.get k (JsMap.delete k m) = None.
Proof.
  apply get_None_keys. rewrite keys_delete_filter, filter_In.
  rewrite String.eqb_refl. simpl. intuition congruence.
Qed.

Lemma processIncoming_cons (x : string) incoming m merged :
  fold_left processIncoming (x :: incoming) (m, merged)
  = fold_left processIncoming incoming
      match JsMap.get x m with
      | Some existingItem =>
          (JsMap.delete x m,
           merged ++ [IsUpdate x (or_empty (customSections existingItem))])
      | None => (m, merged ++ [IsNew x])
      end.
Proof. reflexivity. Qed.

(** The second loop pushes one entry per requested name, in order. *)
Lemma processIncoming_order incoming : forall m merged,
  map merged_name (snd (fold_left processIncoming incoming (m, merged)))
  = map merged_name merged ++ incoming.
Proof.
  induction incoming as [| x l IH]; intros m merged; simpl.
  - now rewrite app_nil_r.
  - destruct (JsMap.get x m); rewrite IH, map_app, <- app_assoc; reflexivity.
Qed.

(** What the second loop leaves in the index: the names not requested. *)
Lemma processIncoming_left incoming : forall m merged,
  map fst (fst (fold_left processIncoming incoming (m, merged)))
  = filter (fun n => negb (JsSet.has n incoming)) (map fst m).
Proof.
  induction incoming as [| x l IH]; intros m merged.
  - simpl. symmetry. now apply filter_every.
  - rewrite processIncoming_cons.
    destruct (JsMap.get x m) eqn:E; rewrite IH; cbn [fst].
    + rewrite keys_delete_filter, filter_filter_string.
      apply filter_ext_string. intros n _. rewrite has_cons, negb_orb.
      now rewrite (String.eqb_sym x n).
    + apply filter_ext_string. intros n Hn. rewrite has_cons.
      replace (String.eqb n x) with false; [reflexivity |].
      symmetry. apply String.eqb_neq. intros ->.
      now apply get_None_keys in E.
Qed.

Lemma processIncoming_prefix incoming : forall m merged,
  exists t, snd (fold_left processIncoming incoming (m, merged)) = merged ++ t.
Proof.
  induction incoming as [| x l IH]; intros m merged; simpl.
  - exists []. now rewrite app_nil_r.
  - destruct (JsMap.get x m);
      match goal with
      | |- context [fold_left _ _ (?m', merged ++ [?e])] =>
          destruct (IH m' (merged ++ [e])) as [t Ht]; exists (e :: t);
          now rewrite Ht, <- app_assoc
      end.
Qed.

Lemma processIncoming_length incoming : forall m merged,
  List.length (snd (fold_left processIncoming incoming (m, merged)))
  = (List.length merged + List.length incoming)%nat.
Proof.
  intros m merged.
  rewrite <- (length_map merged_name), processIncoming_order.
  now rewrite length_app, length_map.
Qed.

(** A name is still in the index after the loop went over [incoming]
    exactly when it was there and has not been requested. *)
Lemma processIncoming_get incoming : forall m merged (n : string),
  JsMap.get n (fst (fold_left processIncoming incoming (m, merged)))
  = if JsSet.has n incoming then None else JsMap.get n m.
Proof.
  induction incoming as [| x l IH]; intros m merged n; [reflexivity |].
  rewrite processIncoming_cons, has_cons.
  destruct (JsMap.get x m) eqn:E; rewrite IH; cbn [fst].
  - destruct (JsSet.has n l); [now rewrite orb_true_r |].
    rewrite orb_false_r. destruct (String.eqb n x) eqn:En.
    + apply String.eqb_eq in En. subst. apply get_delete_eq.
    + apply String.eqb_neq in En. now apply get_delete_ne.
  - destruct (JsSet.has n l); [now rewrite orb_true_r |].
    rewrite orb_false_r. destruct (String.eqb n x) eqn:En; [| reflexivity].
    apply String.eqb_eq in En. now subst.
Qed.

Lemma filter_flag_app (f : MergedComponent -> bool) merged merged' :
  map merged_name (filter f (merged ++ merged'))
  = map merged_name (filter f merged) ++ map merged_name (filter f merged').
Proof. now rewrite filter_app, map_app. Qed.

(** The updates pushed by the loop: the requested names found in the
    index, each at its first request. *)
Lemma processIncoming_updates incoming : forall m merged,
  map merged_name (filter isUpdate (snd (fold_left processIncoming incoming (m, merged))))
  = map merged_name (filter isUpdate merged)
    ++ filter (fun n => JsSet.has n (map fst m)) (JsSet.of_list incoming).
Proof.
  induction incoming as [| x l IH]; intros m merged.
  - simpl. now rewrite app_nil_r.
  - rewrite processIncoming_cons, of_list_cons. cbn [filter].
    destruct (JsMap.get x m) eqn:E; rewrite IH, filter_flag_app;
      cbn [fst filter isUpdate map app].
    + assert (Hx : JsSet.has x (map fst m) = true).
      { apply has_true_iff.
        destruct (in_dec string_dec x (map fst m)) as [H | H]; [assumption |].
        apply get_None_keys in H. congruence. }
      rewrite Hx, <- app_assoc. cbn [app merged_name]. do 2 f_equal.
      rewrite keys_delete_filter, filter_filter_string.
      apply filter_ext_string. intros n _.
      destruct (String.eqb n x) eqn:En; cbn [negb andb].
      * apply String.eqb_eq in En. subst. apply has_false_iff.
        rewrite filter_In, String.eqb_refl. simpl. intuition congruence.
      * destruct (JsSet.has n (map fst m)) eqn:Em.
        -- apply has_true_iff, filter_In. split; [now apply has_true_iff |].
           now rewrite String.eqb_sym, En.
        -- apply has_false_iff. rewrite filter_In.
           apply has_false_iff in Em. tauto.
    + assert (Hx : JsSet.has x (map fst m) = false)
        by (apply has_false_iff; now apply get_None_keys).
      rewrite app_nil_r, Hx, filter_filter_string. f_equal.
      apply filter_ext_string. intros n _.
      destruct (String.eqb n x) eqn:En; [| reflexivity]. cbn [negb andb].
      apply String.eqb_eq in En. now subst.
Qed.

(** The entries pushed as new when no name is requested twice: the
    requested names that are not in the index. *)
Lemma processIncoming_news incoming : forall m merged,
  NoDup incoming ->
  map merged_name (filter isNew (snd (fold_left processIncoming incoming (m, merged))))
  = map merged_name (filter isNew merged)
    ++ filter (fun n => negb (JsSet.has n (map fst m))) incoming.
Proof.
  induction incoming as [| x l IH]; intros m merged Hnd.
  - simpl. now rewrite app_nil_r.
  - inversion Hnd as [| ? ? Hx Hl]; subst.
    rewrite processIncoming_cons. cbn [filter].
    destruct (JsMap.get x m) eqn:E; rewrite IH by assumption;
      rewrite filter_flag_app; cbn [fst filter isNew map app].
    + assert (Hm : JsSet.has x (map fst m) = true).
      { apply has_true_iff.
        destruct (in_dec string_dec x (map fst m)) as [H | H]; [assumption |].
        apply get_None_keys in H. congruence. }
      rewrite Hm, app_nil_r. cbn [negb]. f_equal. apply filter_ext_string.
      intros n Hn. f_equal.
      destruct (JsSet.has n (map fst m)) eqn:Em.
      * apply has_true_iff. rewrite keys_delete_filter, filter_In.
        split; [now apply has_true_iff |].
        apply negb_true_iff, String.eqb_neq. intros ->. contradiction.
      * apply has_false_iff. rewrite keys_delete_filter, filter_In.
        apply has_false_iff in Em. tauto.
    + assert (Hm : JsSet.has x (map fst m) = false)
        by (apply has_false_iff; now apply get_None_keys).
      rewrite Hm. cbn [negb merged_name]. now rewrite <- app_assoc.
Qed.

Lemma processIncoming_flags incoming : forall m merged,
  filter isExisting merged = [] ->
  filter isExisting (snd (fold_left processIncoming incoming (m, merged))) = [].
Proof.
  induction incoming as [| x l IH]; intros m merged H; simpl; [assumption |].
  destruct (JsMap.get x m); apply IH; rewrite filter_app, H; reflexivity.
Qed.

End MergeOrder.

Section MergeAndDiff.
Import Merger MergerReport.

Lemma mergeComponents_names existing incoming :
  map merged_name (mergeComponents existing incoming)
  = incoming ++ removed (diffSection (map name existing) incoming).
Proof.
  unfold mergeComponents.
  pose proof (processIncoming_order incoming (indexExisting existing) []) as Ho.
  pose proof (processIncoming_left incoming (indexExisting existing) []) as Hl.
  destruct (fold_left processIncoming incoming (indexExisting existing, []))
    as [remaining merged].
  cbn [fst snd] in *. rewrite map_app, Ho, map_map. cbn [map app merged_name].
  f_equal. change (map (fun x => fst x) remaining) with (map fst remaining).
  rewrite Hl, keys_indexExisting_set. unfold diffSection. cbn [removed].
  apply filter_ext_string. intros n _. now rewrite has_of_list.
Qed.

Lemma mergeComponents_flags existing incoming :
  map merged_name (filter isUpdate (mergeComponents existing incoming))
  = kept (diffSection (map name existing) incoming)
  /\ map merged_name (filter isExisting (mergeComponents existing incoming))
     = removed (diffSection (map name existing) incoming)
  /\ (NoDup incoming ->
      map merged_name (filter isNew (mergeComponents existing incoming))
      = added (diffSection (map name existing) incoming)).
Proof.
  unfold mergeComponents.
  pose proof (processIncoming_updates incoming (indexExisting existing) []) as Hu.
  pose proof (processIncoming_news incoming (indexExisting existing) []) as Hn.
  pose proof (processIncoming_left incoming (indexExisting existing) []) as Hl.
  pose proof (processIncoming_flags incoming (indexExisting existing) [] eq_refl) as He.
  destruct (fold_left processIncoming incoming (indexExisting existing, []))
    as [remaining merged].
  cbn [fst snd] in *.
  assert (Hrem : forall f : MergedComponent -> bool,
             (forall n c cs, f (IsExisting n c cs) = false) ->
             filter f (map (fun kv => IsExisting (fst kv) (content (snd kv))
                                        (customSections (snd kv))) remaining) = []).
  { intros f Hf. clear - Hf. induction remaining as [| kv r IH]; [reflexivity |].
    cbn [map filter]. rewrite Hf. exact IH. }
  assert (Hall : filter isExisting
                   (map (fun kv => IsExisting (fst kv) (content (snd kv))
                                     (customSections (snd kv))) remaining)
                 = map (fun kv => IsExisting (fst kv) (content (snd kv))
                                    (customSections (snd kv))) remaining).
  { apply filter_every. intros e He'. apply in_map_iff in He'.
    now destruct He' as [kv [<- _]]. }
  rewrite !filter_app, !map_app, Hu, He, Hall, !Hrem by reflexivity.
  rewrite keys_indexExisting_set in *. unfold diffSection. cbn [kept removed added].
  repeat split.
  - cbn [map filter app]. rewrite app_nil_r.
    apply filter_ext_string. intros n _. now rewrite has_of_list.
  - cbn [map app]. rewrite map_map. cbn [merged_name].
    change (map (fun x => fst x) remaining) with (map fst remaining).
    rewrite Hl. apply filter_ext_string. intros n _. now rewrite has_of_list.
  - intros Hnd. rewrite (Hn Hnd), (of_list_NoDup incoming Hnd).
    cbn [map filter app]. now rewrite app_nil_r.
Qed.

Lemma mergeComponents_nth existing (l1 : list string) (n : string) (l2 : list string) :
  nth_error (mergeComponents existing (l1 ++ n :: l2)) (List.length l1)
  = Some (if JsSet.has n l1 then IsNew n
          else match Spec.lastNamed n existing with
               | Some item => IsUpdate n (or_empty (customSections item))
               | None => IsNew n
               end).
Proof.
  unfold mergeComponents. rewrite fold_left_app.
  pose proof (processIncoming_get l1 (indexExisting existing) [] n) as Hget.
  pose proof (processIncoming_length l1 (indexExisting existing) []) as Hlen.
  destruct (fold_left processIncoming l1 (indexExisting existing, []))
    as [m1 merged1].
  cbn [fst snd] in *. rewrite processIncoming_cons, get_indexExisting in *.
  match goal with
  | |- context [fold_left processIncoming l2 ?st] =>
      destruct (processIncoming_prefix l2 (fst st) (snd st)) as [t Ht];
      replace st with (fst st, snd st) by (now destruct st);
      destruct (fold_left processIncoming l2 (fst st, snd st)) as [rem out]
  end.
  cbn [snd] in Ht. subst out. rewrite Hget.
  destruct (JsSet.has n l1); [| destruct (Spec.lastNamed n existing)];
    cbn [fst snd]; rewrite <- !app_assoc, nth_error_app2 by (simpl in Hlen; lia);
    replace (List.length l1 - List.length merged1)%nat with O
      by (simpl in Hlen; lia);
    reflexivity.
Qed.

Lemma diffSection_counts (existingNames newNames : list string) :
  (List.length (added (diffSection existingNames newNames))
   + List.length (kept (diffSection existingNames newNames))
   = List.length (JsSet.of_list newNames))%nat
  /\ (List.length (removed (diffSection existingNames newNames))
      + List.length (kept (diffSection existingNames newNames))
      = List.length (JsSet.of_list existingNames))%nat.
Proof.
  unfold diffSection. cbn [added kept removed]. split.
  - rewrite Nat.add_comm. apply length_filter_split.
  - rewrite <- (length_filter_split
                  (fun s => JsSet.has s (JsSet.of_list newNames))
                  (JsSet.of_list existingNames)).
    rewrite Nat.add_comm. f_equal.
    apply Permutation_length, NoDup_Permutation;
      try (apply NoDup_filter_string, NoDup_of_list).
    intros x. rewrite !filter_In, !has_true_iff. tauto.
Qed.

End MergeAndDiff.

Section FormatDiff.
Import Merger MergerReport.

(** A section with no name adds no line; any other adds one line, which
    starts with the name of the section. *)
Lemma formatSection_cases lines (name : string) (section : SectionDiff) :
  (added section ++ kept section ++ removed section = []
   /\ formatSection lines name section = lines)
  \/ (added section ++ kept section ++ removed section <> []
      /\ exists rest, formatSection lines name section
                      = lines ++ [(name ++ ": " ++ rest)%string]).
Proof.
  unfold formatSection.
  destruct (added section) as [| a la], (kept section) as [| k lk],
           (removed section) as [| r lr]; cbn [List.length Nat.ltb Nat.leb app];
    try (left; split; reflexivity);
    right; (split; [discriminate | eexists; reflexivity]).
Qed.

Lemma concat_starts (sep : string) (c : ascii) (s : string) (l : list string) :
  String.concat sep (String c s :: l) <> ""%string.
Proof. destruct l; simpl; discriminate. Qed.

Lemma formatSection_app lines (name : string) (section : SectionDiff) :
  formatSection lines name section = lines ++ formatSection [] name section.
Proof.
  unfold formatSection.
  destruct (added section), (kept section), (removed section);
    cbn [List.length Nat.ltb Nat.leb app]; now rewrite ?app_nil_r.
Qed.

(** The summary is the empty string exactly when no section has a name
    to show. *)
Lemma formatDiffSummary_blank (diff : DiffSummary) :
  formatDiffSummary diff = ""%string
  <-> forall k, added (diffOf k diff) ++ kept (diffOf k diff)
                ++ removed (diffOf k diff) = [].
Proof.
  unfold formatDiffSummary.
  rewrite (formatSection_app _ "Hooks"), (formatSection_app _ "Agents").
  destruct (formatSection_cases [] "Skills" (diff_skills diff))
    as [[E1 ->] | [N1 [r1 ->]]];
  destruct (formatSection_cases [] "Agents" (diff_agents diff))
    as [[E2 ->] | [N2 [r2 ->]]];
  destruct (formatSection_cases [] "Hooks" (diff_hooks diff))
    as [[E3 ->] | [N3 [r3 ->]]];
  cbn [app];
  (split;
   [ try (intros H; exfalso; revert H; apply concat_starts);
     intros _ []; assumption
   | intros H; try reflexivity;
     pose proof (H Skills); pose proof (H Agents); pose proof (H Hooks);
     contradiction ]).
Qed.

End FormatDiff.

Lemma getDiffSummary_cover existing newConfig (k : Merger.Kind) :
  forall x,
    In x (Merger.added (Merger.diffOf k (Merger.getDiffSummary existing newConfig))
          ++ Merger.kept (Merger.diffOf k (Merger.getDiffSummary existing newConfig))
          ++ Merger.removed (Merger.diffOf k (Merger.getDiffSummary existing newConfig)))
    <-> In x (map Merger.name (Merger.existingOf k existing))
        \/ In x (Merger.requestedOf k newConfig).
Proof.
  intros x. rewrite diffOf_getDiffSummary, !in_app_iff, in_added, in_removed, in_kept.
  destruct (in_dec string_dec x (map Merger.name (Merger.existingOf k existing))),
           (in_dec string_dec x (Merger.requestedOf k newConfig)); tauto.
Qed.

Lemma nil_iff_no_member {A} (l : list A) : l = [] <-> forall x, ~ In x l.
Proof.
  split; [intros -> x [] |].
  destruct l as [| a l]; [reflexivity |]. intros H. destruct (H a). now left.
Qed.

(** X1.  Under the strategy 'merge' the resolved list of each kind names the
    requested components first, in the order and with the repetitions of
    the request, and after them the existing components that were not
    requested, in the very order in which the diff summary lists them as
    removed.  The merge therefore keeps what the summary calls removed. *)
Theorem merge_lists_requested_then_unrequested :
  forall (backup : completion (option string))
         (existing : Merger.ExistingConfig) (newConfig : Merger.NewConfig)
         (k : Merger.Kind),
    exists resolved,
      Merger.mergeConfigurations backup existing newConfig "merge"
      = Normal (Some resolved)
      /\ map Merger.merged_name (Merger.resolvedOf k resolved)
         = Merger.requestedOf k newConfig
           ++ Merger.removed (Merger.diffOf k (Merger.getDiffSummary existing newConfig)).
Proof.
  intros backup existing newConfig k.
  destruct (mergeConfigurations_merge backup existing newConfig) as [r [Hr Hk]].
  exists r. split; [assumption |].
  rewrite Hk, diffOf_getDiffSummary. apply mergeComponents_names.
Qed.

(** X2.  The flags of the merged entries agree with the diff summary: the
    entries marked isUpdate are, in order, the names the summary lists as
    kept; those marked isExisting are the names it lists as removed; and
    when no name is requested twice, those marked isNew are the names it
    lists as added. *)
Theorem merge_flags_agree_with_diff :
  forall (backup : completion (option string))
         (existing : Merger.ExistingConfig) (newConfig : Merger.NewConfig)
         (k : Merger.Kind),
    exists resolved,
      Merger.mergeConfigurations backup existing newConfig "merge"
      = Normal (Some resolved)
      /\ map Merger.merged_name
             (filter MergerReport.isUpdate (Merger.resolvedOf k resolved))
         = Merger.kept (Merger.diffOf k (Merger.getDiffSummary existing newConfig))
      /\ map Merger.merged_name
             (filter MergerReport.isExisting (Merger.resolvedOf k resolved))
         = Merger.removed (Merger.diffOf k (Merger.getDiffSummary existing newConfig))
      /\ (NoDup (Merger.requestedOf k newConfig) ->
          map Merger.merged_name
              (filter MergerReport.isNew (Merger.resolvedOf k resolved))
          = Merger.added (Merger.diffOf k (Merger.getDiffSummary existing newConfig))).
Proof.
  intros backup existing newConfig k.
  destruct (mergeConfigurations_merge backup existing newConfig) as [r [Hr Hk]].
  exists r. split; [assumption |].
  rewrite Hk, diffOf_getDiffSummary. apply mergeComponents_flags.
Qed.

(** X3.  Entry by entry: the merged list has, at the position of each requested
    name, an entry for that name.  It is marked isUpdate, with the custom
    sections of the existing component the name denotes, when such a
    component exists and the name was not requested earlier in the list;
    otherwise it is marked isNew.  A name requested a second time is
    therefore new even when it exists on disk. *)
Theorem merge_classifies_each_request :
  forall (existing : list Merger.StoredComponent)
         (before : list string) (n : string) (after : list string),
    nth_error (Merger.mergeComponents existing (before ++ n :: after))
              (List.length before)
    = Some (if JsSet.has n before then Merger.IsNew n
            else match Spec.lastNamed n existing with
                 | Some item =>
                     Merger.IsUpdate n (Merger.or_empty (Merger.customSections item))
                 | None => Merger.IsNew n
                 end).
Proof. exact mergeComponents_nth. Qed.

(** X4.  The counts of a section of the diff summary add up: added and kept
    together are the distinct requested names, removed and kept together
    the distinct existing names. *)
Theorem diff_counts_add_up :
  forall (existing : Merger.ExistingConfig) (newConfig : Merger.NewConfig)
         (k : Merger.Kind),
    (List.length (Merger.added (Merger.diffOf k (Merger.getDiffSummary existing newConfig)))
     + List.length (Merger.kept (Merger.diffOf k (Merger.getDiffSummary existing newConfig)))
     = List.length (JsSet.of_list (Merger.requestedOf k newConfig)))%nat
    /\ (List.length (Merger.removed (Merger.diffOf k (Merger.getDiffSummary existing newConfig)))
        + List.length (Merger.kept (Merger.diffOf k (Merger.getDiffSummary existing newConfig)))
        = List.length (JsSet.of_list (map Merger.name (Merger.existingOf k existing))))%nat.
Proof.
  intros existing newConfig k. rewrite diffOf_getDiffSummary.
  apply diffSection_counts.
Qed.

(** X5.  The formatted diff summary is the empty string exactly when there is
    no existing skill, agent or hook and none is requested; as soon as
    one name is on either side, a line reports it. *)
Theorem formatDiffSummary_empty_iff :
  forall (existing : Merger.ExistingConfig) (newConfig : Merger.NewConfig),
    MergerReport.formatDiffSummary (Merger.getDiffSummary existing newConfig)
    = ""%string
    <-> forall k, Merger.existingOf k existing = []
                  /\ Merger.requestedOf k newConfig = [].
Proof.
  intros existing newConfig. rewrite formatDiffSummary_blank.
  split; intros H k; specialize (H k);
    pose proof (getDiffSummary_cover existing newConfig k) as Hc.
  - rewrite nil_iff_no_member in H.
    split; [apply map_eq_nil with (f := Merger.name) |];
      apply nil_iff_no_member; intros x Hx; apply (H x), Hc; tauto.
  - destruct H as [He Hn]. rewrite He, Hn in Hc.
    apply nil_iff_no_member. intros x Hx. apply Hc in Hx. simpl in Hx. tauto.
Qed.

(* ===================================================================== *)
(** * analyzer.js: priorities and the order of display *)
(* ===================================================================== *)

Section StableSort.
Variable A : Type.
Variable key : A -> Z.

(** A comparator [(a, b) => key(b) - key(a)]: largest key first. *)
Variable descending : A -> A -> Z.
Hypothesis descending_key : forall a b, descending a b = (key b - key a)%Z.

Lemma insertSorted_perm (x : A) (l : list A) :
  Permutation (x :: l) (JsArray.insertSorted descending x l).
Proof.
  induction l as [| y l IH]; simpl; [constructor; constructor |].
  destruct (descending x y <=? 0)%Z; [apply Permutation_refl |].
  eapply perm_trans; [apply perm_swap | now constructor].
Qed.

Lemma sort_perm (l : list A) : Permutation l (JsArray.sort descending l).
Proof.
  induction l as [| x l IH]; simpl; [constructor |].
  eapply perm_trans; [| apply insertSorted_perm]. now constructor.
Qed.

Lemma insertSorted_sorted (x : A) (l : list A) :
  StronglySorted (fun a b => (key b <= key a)%Z) l ->
  StronglySorted (fun a b => (key b <= key a)%Z) (JsArray.insertSorted descending x l).
Proof.
  induction 1 as [| y l Hs IH Hall]; simpl.
  - repeat constructor.
  - rewrite descending_key. destruct (Z.leb_spec (key y - key x) 0) as [Hle | Hgt].
    + constructor; [now constructor |].
      constructor; [lia |].
      eapply Forall_impl; [| exact Hall]. simpl. intros; lia.
    + constructor; [assumption |].
      apply (Permutation_Forall (insertSorted_perm x l)).
      constructor; [lia | assumption].
Qed.

Lemma sort_sorted (l : list A) :
  StronglySorted (fun a b => (key b <= key a)%Z) (JsArray.sort descending l).
Proof.
  induction l as [| x l IH]; simpl; [constructor |].
  now apply insertSorted_sorted.
Qed.

(** An element that does not rank below any of a list goes in front. *)
Lemma insertSorted_front (x : A) (l : list A) :
  Forall (fun y => (key y <= key x)%Z) l ->
  JsArray.insertSorted descending x l = x :: l.
Proof.
  destruct 1 as [| y l Hy Hl]; simpl; [reflexivity |].
  rewrite descending_key. destruct (Z.leb_spec (key y - key x) 0); [reflexivity | lia].
Qed.

(** Stability: the elements that pass a test which depends on the key
    alone come out in the order they went in. *)
Lemma filter_insertSorted (q : A -> bool) (x : A) (l : list A) :
  (forall y, In y l -> q y = true -> q x = true -> key y = key x) ->
  filter q (JsArray.insertSorted descending x l) = filter q (x :: l).
Proof.
  induction l as [| y l IH]; intros H; simpl; [reflexivity |].
  destruct (descending x y <=? 0)%Z eqn:E; [reflexivity |].
  simpl. rewrite IH by (intros; apply H; simpl; auto). simpl.
  destruct (q x) eqn:Ex, (q y) eqn:Ey; try reflexivity.
  exfalso. rewrite descending_key in E. apply Z.leb_gt in E.
  rewrite (H y) in E by (simpl; auto). lia.
Qed.

Lemma filter_sort (q : A -> bool) (l : list A) :
  (forall x y, q x = true -> q y = true -> key x = key y) ->
  filter q (JsArray.sort descending l) = filter q l.
Proof.
  intros H. induction l as [| x l IH]; simpl; [reflexivity |].
  rewrite filter_insertSorted by (intros; now apply H). simpl. now rewrite IH.
Qed.

End StableSort.

Section Priorities.
Import Ranking RankingSpec.

Lemma arrayIncludes_iff (l : list string) (x : string) :
  Scanner.arrayIncludes l x = true <-> In x l.
Proof. apply has_true_iff. Qed.

(** The three kinds of score. *)
Lemma getPriorityScore_cases (name : string) (recommended : list string) :
  (In name recommended /\ getPriorityScore name recommended = Points 100)
  \/ (~ In name recommended /\ ~ In name JsObject.inheritedKeys
      /\ exists n, getPriorityScore name recommended = Points n
                   /\ (50 <= n <= 90)%Z
                   /\ (~ In name (map fst priorities) -> n = 50%Z))
  \/ (~ In name recommended /\ In name JsObject.inheritedKeys
      /\ getPriorityScore name recommended = Member name).
Proof.
  unfold getPriorityScore.
  destruct (Scanner.arrayIncludes recommended name) eqn:E.
  - left. split; [now apply arrayIncludes_iff | reflexivity].
  - right. assert (Hn : ~ In name recommended).
    { intros H. apply arrayIncludes_iff in H. congruence. }
    unfold JsObject.lookup, priorities. cbn [JsMap.get].
    repeat match goal with
           | |- context [String.eqb name ?k] =>
               let Ek := fresh "Ek" in
               destruct (String.eqb name k) eqn:Ek;
               [ apply String.eqb_eq in Ek; subst name; left;
                 split; [assumption |];
                 split; [apply has_false_iff; reflexivity |];
                 eexists; split; [reflexivity |];
                 split; [lia |];
                 intros Hk; exfalso; apply Hk; simpl; tauto
               | ]
           end.
    destruct (JsSet.has name JsObject.inheritedKeys) eqn:Ei.
    + right. apply has_true_iff in Ei. auto.
    + left. apply has_false_iff in Ei.
      split; [assumption |]. split; [assumption |].
      eexists; split; [reflexivity |]. split; [lia | reflexivity].
Qed.

Lemma hasScore_100 (recommended : list string) (name : string) :
  hasScore recommended 100 name = Scanner.arrayIncludes recommended name.
Proof.
  unfold hasScore.
  destruct (getPriorityScore_cases name recommended)
    as [[Hin ->] | [[Hn [_ [n [-> [Hb _]]]]] | [Hn [_ ->]]]].
  - symmetry. now apply arrayIncludes_iff.
  - replace (Scanner.arrayIncludes recommended name) with false.
    + apply Z.eqb_neq. lia.
    + symmetry. apply has_false_iff. exact Hn.
  - symmetry. apply has_false_iff. exact Hn.
Qed.

(** The components paired with their scores, when every score is a
    number. *)
Lemma traverse_scored (recommended components : list string) :
  (forall c, In c components -> exists n, getPriorityScore c recommended = Points n) ->
  exists withScores,
    JsArray.traverse (scored recommended) components = Some withScores
    /\ map fst withScores = components
    /\ Forall (fun p => getPriorityScore (fst p) recommended = Points (snd p))
              withScores.
Proof.
  induction components as [| c l IH]; intros H.
  - exists []. repeat split. constructor.
  - destruct IH as (ws & Ht & Hm & Hf); [intros; apply H; now right |].
    destruct (H c) as [n Hn]; [now left |].
    exists ((c, n) :: ws). simpl. unfold scored at 1. rewrite Hn, Ht. simpl.
    repeat split; [now rewrite Hm | now constructor].
Qed.

Lemma traverse_scored_None (recommended components : list string) (c key : string) :
  In c components -> getPriorityScore c recommended = Member key ->
  JsArray.traverse (scored recommended) components = None.
Proof.
  induction components as [| x l IH]; intros Hin Hc; [contradiction |].
  simpl. destruct Hin as [-> | Hin].
  - unfold scored. now rewrite Hc.
  - rewrite IH by assumption. now destruct (scored recommended x).
Qed.

Lemma filter_hasScore (recommended : list string) (n : Z) (ws : list (string * Z)) :
  Forall (fun p => getPriorityScore (fst p) recommended = Points (snd p)) ws ->
  filter (hasScore recommended n) (map fst ws)
  = map fst (filter (fun p => (snd p =? n)%Z) ws).
Proof.
  induction 1 as [| p ws Hp Hf IH]; simpl; [reflexivity |].
  unfold hasScore at 1. rewrite Hp, IH.
  now destruct (snd p =? n)%Z.
Qed.

Lemma sorted_names (recommended : list string) (ws : list (string * Z)) :
  Forall (fun p => getPriorityScore (fst p) recommended = Points (snd p)) ws ->
  StronglySorted (fun a b => (snd b <= snd a)%Z) ws ->
  StronglySorted (ranksNoLower recommended) (map fst ws).
Proof.
  intros Hf Hs. induction Hs as [| p ws Hs IH Hall]; simpl; [constructor |].
  inversion Hf as [| ? ? Hp Hf']; subst.
  constructor; [now apply IH |].
  apply Forall_forall. intros b Hb. apply in_map_iff in Hb.
  destruct Hb as [q [<- Hq]].
  rewrite Forall_forall in Hall, Hf'.
  exists (snd p), (snd q). repeat split; [assumption | now apply Hf' | now apply Hall].
Qed.

(** In a list sorted by rank the components of the highest score come
    first. *)
Lemma sorted_top_first (recommended : list string) (l : list string) :
  StronglySorted (ranksNoLower recommended) l ->
  l = filter (hasScore recommended 100) l
      ++ filter (fun c => negb (hasScore recommended 100 c)) l.
Proof.
  induction 1 as [| a l Hs IH Hall]; simpl; [reflexivity |].
  destruct (hasScore recommended 100 a) eqn:Ea; simpl.
  - now rewrite <- IH.
  - assert (Hnone : filter (hasScore recommended 100) l = []).
    { apply filter_none. intros b Hb. rewrite Forall_forall in Hall.
      destruct (Hall b Hb) as (na & nb & Ha & Hb' & Hle).
      unfold hasScore in *. rewrite Ha in Ea. rewrite Hb'.
      apply Z.eqb_neq in Ea. apply Z.eqb_neq.
      destruct (getPriorityScore_cases a recommended)
        as [[_ H1] | [[_ [_ [n [H1 [Hn _]]]]] | [_ [_ H1]]]];
        rewrite Ha in H1; try discriminate; injection H1 as ->; [congruence |].
      lia. }
    rewrite Hnone. simpl. f_equal.
    rewrite filter_every; [reflexivity |].
    intros b Hb. apply negb_true_iff.
    destruct (hasScore recommended 100 b) eqn:Eb; [| reflexivity].
    assert (In b (filter (hasScore recommended 100) l)) by (apply filter_In; auto).
    rewrite Hnone in *. contradiction.
Qed.

End Priorities.

(** X6.  A recommended component scores 100.  One that is not recommended
    scores its entry of the priority table, or 50 when it has none, which
    is never more than 90: the recommended components always outrank the
    others.  The one exception is a name that objects inherit, such as
    "constructor" or "toString": its score is not a number at all. *)
Theorem recommended_components_score_highest :
  forall (name : string) (recommended : list string),
    (In name recommended ->
     Ranking.getPriorityScore name recommended = Ranking.Points 100)
    /\ (~ In name recommended -> ~ In name JsObject.inheritedKeys ->
        exists n, Ranking.getPriorityScore name recommended = Ranking.Points n
                  /\ (50 <= n <= 90)%Z
                  /\ (~ In name (map fst Ranking.priorities) -> n = 50%Z))
    /\ (~ In name recommended -> In name JsObject.inheritedKeys ->
        Ranking.getPriorityScore name recommended = Ranking.Member name).
Proof.
  intros name recommended.
  destruct (getPriorityScore_cases name recommended)
    as [[Hin H] | [[Hn [Hi H]] | [Hn [Hi H]]]];
    repeat split; intros; try contradiction; assumption.
Qed.

(** X7.  When no component has an inherited name for which it is not
    recommended, the components come back rearranged, none lost and none
    added, from the highest score to the lowest, components of equal
    score in the order they were given.  The recommended ones therefore
    come first, in their original order, before all the others. *)
Theorem sortByPriority_ranks_recommended_first :
  forall (components recommended : list string),
    (forall c, In c components ->
               In c recommended \/ ~ In c JsObject.inheritedKeys) ->
    exists sorted rest,
      Ranking.sortByPriority components recommended = Some sorted
      /\ Permutation components sorted
      /\ StronglySorted (RankingSpec.ranksNoLower recommended) sorted
      /\ (forall n, filter (RankingSpec.hasScore recommended n) sorted
                    = filter (RankingSpec.hasScore recommended n) components)
      /\ sorted = filter (Scanner.arrayIncludes recommended) components ++ rest
      /\ (forall c, In c rest -> ~ In c recommended).
Proof.
  intros components recommended H.
  destruct (traverse_scored recommended components) as (ws & Ht & Hm & Hf).
  { intros c Hc.
    destruct (getPriorityScore_cases c recommended)
      as [[_ E] | [[_ [_ [n [E _]]]] | [Hn [Hi _]]]]; eauto.
    destruct (H c Hc); contradiction. }
  assert (Hkey : forall a b : string * Z, Ranking.byScore a b = (snd b - snd a)%Z)
    by reflexivity.
  set (sorted := map fst (JsArray.sort Ranking.byScore ws)).
  assert (Hperm : Permutation ws (JsArray.sort Ranking.byScore ws))
    by apply sort_perm.
  assert (Hf' : Forall (fun p => Ranking.getPriorityScore (fst p) recommended
                                 = Ranking.Points (snd p))
                       (JsArray.sort Ranking.byScore ws))
    by exact (Permutation_Forall Hperm Hf).
  assert (Hsorted : StronglySorted (RankingSpec.ranksNoLower recommended) sorted).
  { apply sorted_names; [assumption |]. now apply (sort_sorted _ snd). }
  assert (Hstable : forall n, filter (RankingSpec.hasScore recommended n) sorted
                              = filter (RankingSpec.hasScore recommended n) components).
  { intros n. unfold sorted. rewrite <- Hm, !filter_hasScore by assumption.
    f_equal. apply (filter_sort _ snd); [assumption |].
    intros x y Hx Hy. apply Z.eqb_eq in Hx, Hy. congruence. }
  exists sorted, (filter (fun c => negb (RankingSpec.hasScore recommended 100 c)) sorted).
  split; [unfold Ranking.sortByPriority; now rewrite Ht |].
  split; [rewrite <- Hm; unfold sorted; now apply Permutation_map |].
  split; [assumption |]. split; [assumption |]. split.
  - rewrite (sorted_top_first recommended sorted Hsorted) at 1. f_equal.
    rewrite Hstable. apply filter_ext_string. intros c _. apply hasScore_100.
  - intros c Hc Hin. apply filter_In in Hc. destruct Hc as [_ Hc].
    rewrite hasScore_100 in Hc. apply arrayIncludes_iff in Hin.
    rewrite Hin in Hc. discriminate.
Qed.

(** Four components, one of them recommended and one unknown to the
    priority table. *)
Lemma sortByPriority_ranks_recommended_first_witness :
  (forall c, In c ["doc-generator"; "my-own-skill"; "code-reviewer"; "test-writer"] ->
             In c ["test-writer"] \/ ~ In c JsObject.inheritedKeys)
  /\ Ranking.sortByPriority
       ["doc-generator"; "my-own-skill"; "code-reviewer"; "test-writer"]
       ["test-writer"]
     = Some ["test-writer"; "code-reviewer"; "doc-generator"; "my-own-skill"].
Proof.
  assert (H : forall c,
             In c ["doc-generator"; "my-own-skill"; "code-reviewer"; "test-writer"] ->
             In c ["test-writer"] \/ ~ In c JsObject.inheritedKeys).
  { intros c Hc. right. apply has_false_iff.
    simpl in Hc. decompose [or] Hc; subst; try contradiction; reflexivity. }
  split; [exact H |].
  destruct (sortByPriority_ranks_recommended_first _ _ H)
    as (sorted & rest & Hs & _).
  rewrite Hs. vm_compute in Hs. symmetry. exact Hs.
Defined.

(* ===================================================================== *)
(** * analyzer.js: what the recommendations are made of *)
(* ===================================================================== *)

(** X8.  Nothing is recommended without a rule to account for it, and nothing
    is recommended twice: for every context, each skill, agent and hook of
    the result belongs to a rule of the table whose condition returned a
    truthy value on that context, each reason is the reason of such a
    rule, and none of the four lists holds the same text twice. *)
Theorem analyzeProject_sound_without_duplicates :
  forall context : Js.value,
    exists result,
      Analyzer.analyzeProject context = Normal result
      /\ NoDup (Analyzer.out_skills result)
      /\ NoDup (Analyzer.out_agents result)
      /\ NoDup (Analyzer.out_hooks result)
      /\ NoDup (Analyzer.out_reasons result)
      /\ (forall s, In s (Analyzer.out_skills result) ->
            exists rule v,
              In rule Analyzer.recommendationRules
              /\ Analyzer.run (Analyzer.condition rule) context = Normal v
              /\ Js.truthy v = true /\ In s (Analyzer.skills rule))
      /\ (forall a, In a (Analyzer.out_agents result) ->
            exists rule v,
              In rule Analyzer.recommendationRules
              /\ Analyzer.run (Analyzer.condition rule) context = Normal v
              /\ Js.truthy v = true /\ In a (Analyzer.agents rule))
      /\ (forall h, In h (Analyzer.out_hooks result) ->
            exists rule v,
              In rule Analyzer.recommendationRules
              /\ Analyzer.run (Analyzer.condition rule) context = Normal v
              /\ Js.truthy v = true /\ In h (Analyzer.hooks rule))
      /\ (forall r, In r (Analyzer.out_reasons result) ->
            exists rule v,
              In rule Analyzer.recommendationRules
              /\ Analyzer.run (Analyzer.condition rule) context = Normal v
              /\ Js.truthy v = true /\ Analyzer.reason rule = r).
Proof.
  intros context.
  destruct (evaluate_members Analyzer.recommendationRules context)
    as (result & Hr & Hs & Ha & Hh & Hre & N1 & N2 & N3 & N4).
  exists result. repeat split; try assumption.
  - intros s H. apply Hs in H. destruct H as (rule & Hin & Hf & Hm).
    apply fires_iff in Hf. destruct Hf as [v [Hv Ht]]. now exists rule, v.
  - intros a H. apply Ha in H. destruct H as (rule & Hin & Hf & Hm).
    apply fires_iff in Hf. destruct Hf as [v [Hv Ht]]. now exists rule, v.
  - intros h H. apply Hh in H. destruct H as (rule & Hin & Hf & Hm).
    apply fires_iff in Hf. destruct Hf as [v [Hv Ht]]. now exists rule, v.
  - intros r H. apply Hre in H. destruct H as (rule & Hin & Hf & _ & Hm).
    apply fires_iff in Hf. destruct Hf as [v [Hv Ht]]. now exists rule, v.
Qed.

Section TemplatesCoverRules.
Import Templates.
Variables skillText agentText hookText : string -> string.

Lemma rule_skills_have_templates :
  Forall (fun s => exists t, getSkill skillText s = JsObject.Own t /\ skill_name t = s)
         (flat_map Analyzer.skills Analyzer.recommendationRules).
Proof. repeat (constructor; [eexists; split; reflexivity |]). constructor. Qed.

Lemma rule_agents_have_templates :
  Forall (fun a => exists t, getAgent agentText a = JsObject.Own t /\ agent_name t = a)
         (flat_map Analyzer.agents Analyzer.recommendationRules).
Proof. repeat (constructor; [eexists; split; reflexivity |]). constructor. Qed.

Lemma rule_hooks_have_templates :
  Forall (fun h => exists t, getHook hookText h = JsObject.Own t /\ hook_name t = h)
         (flat_map Analyzer.hooks Analyzer.recommendationRules).
Proof. repeat (constructor; [eexists; split; reflexivity |]). constructor. Qed.

End TemplatesCoverRules.

(** X9.  Whatever the context, every skill, agent and hook that
    [analyzeProject] recommends has a template: [getSkill], [getAgent] and
    [getHook] find an entry of that very name.  So do the defaults. *)
Theorem recommended_components_have_templates :
  forall (skillText agentText hookText : string -> string) (context : Js.value),
    exists result,
      Analyzer.analyzeProject context = Normal result
      /\ (forall s, In s (Analyzer.out_skills result ++ Ranking.defaults_skills) ->
            exists t, Templates.getSkill skillText s = JsObject.Own t
                      /\ Templates.skill_name t = s)
      /\ (forall a, In a (Analyzer.out_agents result ++ Ranking.defaults_agents) ->
            exists t, Templates.getAgent agentText a = JsObject.Own t
                      /\ Templates.agent_name t = a)
      /\ (forall h, In h (Analyzer.out_hooks result ++ Ranking.defaults_hooks) ->
            exists t, Templates.getHook hookText h = JsObject.Own t
                      /\ Templates.hook_name t = h).
Proof.
  intros skillText agentText hookText context.
  destruct (evaluate_members Analyzer.recommendationRules context)
    as (result & Hr & Hs & Ha & Hh & _).
  exists result. split; [exact Hr |].
  repeat split; intros x Hx; apply in_app_iff in Hx; destruct Hx as [Hx | Hx].
  - apply Hs in Hx. destruct Hx as (rule & Hin & _ & Hm).
    pose proof (rule_skills_have_templates skillText) as H.
    rewrite Forall_forall in H. apply H, in_flat_map. now exists rule.
  - simpl in Hx. decompose [or] Hx; subst; try contradiction;
      eexists; split; reflexivity.
  - apply Ha in Hx. destruct Hx as (rule & Hin & _ & Hm).
    pose proof (rule_agents_have_templates agentText) as H.
    rewrite Forall_forall in H. apply H, in_flat_map. now exists rule.
  - simpl in Hx. decompose [or] Hx; subst; try contradiction;
      eexists; split; reflexivity.
  - apply Hh in Hx. destruct Hx as (rule & Hin & _ & Hm).
    pose proof (rule_hooks_have_templates hookText) as H.
    rewrite Forall_forall in H. apply H, in_flat_map. now exists rule.
  - simpl in Hx. decompose [or] Hx; subst; try contradiction;
      eexists; split; reflexivity.
Qed.

(* ===================================================================== *)
(** * analyzer.js: contexts that say little, contexts that say more *)
(* ===================================================================== *)

Section BlankContext.
Import Js Analyzer EngineSpec ContextSpec.
Variable context : value.

Lemma includes_nothing (item : string) :
  item <> ""%string -> Str.includes "" item = false.
Proof. destruct item; [congruence | reflexivity]. Qed.

Lemma fieldIncludes_quiet (field item : string) :
  listsNothing context field -> item <> ""%string ->
  quiet (fieldIncludes field item) context.
Proof.
  unfold listsNothing, quiet, fieldIncludes. intros H Hitem.
  destruct (getProp context field) as [v | e]; simpl; [| exact I].
  destruct H as [H | ->]; [| reflexivity].
  destruct v as [| | b | n | s | items | props]; simpl in *; try exact I;
    try reflexivity; try discriminate.
  apply negb_false_iff, String.eqb_eq in H. subst s.
  now rewrite includes_nothing.
Qed.

Lemma fieldEquals_quiet (field text : string) :
  saysNothing context field -> text <> ""%string ->
  quiet (fieldEquals field text) context.
Proof.
  unfold saysNothing, quiet, fieldEquals. intros H Htext.
  destruct (getProp context field) as [v | e]; simpl; [| exact I].
  destruct v as [| | b | n | s | items | props]; simpl in *; try reflexivity.
  apply negb_false_iff, String.eqb_eq in H. subst s.
  apply String.eqb_neq. congruence.
Qed.

Lemma orElse_quiet (a b : value -> completion value) :
  quiet a context -> quiet b context -> quiet (orElse a b) context.
Proof.
  unfold quiet, orElse. intros Ha Hb.
  destruct (a context) as [x | e]; simpl; [| exact I].
  now rewrite Ha.
Qed.

Lemma quiet_fires (rule : Rule) :
  quiet (run (condition rule)) context -> fires context rule = false.
Proof.
  unfold quiet, fires. now destruct (run (condition rule) context).
Qed.

Hypothesis context_blank : blank context.

Lemma blank_rules_quiet :
  Forall (fun rule => fires context rule = false)
         (removelast recommendationRules).
Proof.
  destruct context_blank as (Har & Hco & Hts & Htu & Hpt & Hapi).
  unfold recommendationRules. cbn [removelast].
  repeat (constructor;
          [ apply quiet_fires;
            cbn [run condition includesCondition equalsCondition];
            repeat first
              [ apply orElse_quiet
              | apply fieldIncludes_quiet; [assumption | discriminate]
              | apply fieldEquals_quiet; [assumption | discriminate]
              | exact Hapi ]
          | ]).
  constructor.
Qed.

Lemma blank_fires :
  filter (fires context) recommendationRules = [Examples.essentialRule].
Proof.
  change recommendationRules
    with (removelast recommendationRules ++ [Examples.essentialRule]).
  rewrite filter_app, filter_none; [reflexivity |].
  apply Forall_forall, blank_rules_quiet.
Qed.

End BlankContext.

(** X10.  A context that says nothing gets the essentials and only them.  When
    each of the six properties the rules read is missing or falsy (or, for
    the three lists, empty), or cannot be read at all because the context
    is [undefined] or [null], [analyzeProject] returns the three skills,
    the agent and the hook of the always-true rule, and no reason. *)
Theorem analyzeProject_blank_context :
  forall context : Js.value,
    ContextSpec.blank context ->
    Analyzer.analyzeProject context = Normal ContextSpec.essentials.
Proof.
  intros context H. unfold Analyzer.analyzeProject.
  rewrite evaluate_eq, blank_fires by assumption. reflexivity.
Qed.

(** The context that [detectProjectContext] returns for any directory
    is such a context, and so is [undefined]. *)
Lemma analyzeProject_blank_context_witness :
  ContextSpec.blank (Ranking.detectProjectContext "/home/dev/shop")
  /\ Analyzer.analyzeProject (Ranking.detectProjectContext "/home/dev/shop")
     = Normal ContextSpec.essentials
  /\ Analyzer.analyzeProject Js.VUndefined = Normal ContextSpec.essentials.
Proof.
  assert (H : ContextSpec.blank (Ranking.detectProjectContext "/home/dev/shop")).
  { unfold ContextSpec.blank, ContextSpec.listsNothing, ContextSpec.saysNothing.
    simpl. tauto. }
  split; [exact H |]. split.
  - exact (analyzeProject_blank_context _ H).
  - apply analyzeProject_blank_context.
    unfold ContextSpec.blank, ContextSpec.listsNothing, ContextSpec.saysNothing.
    simpl. tauto.
Defined.

Section WizardContexts.
Import Js Analyzer EngineSpec.

Variables (projectType targetUsers : string) (hasApi : bool).
Variables techStack techStack' architecture architecture' concerns concerns'
  : list string.

Hypothesis techStack_grows : incl techStack techStack'.
Hypothesis architecture_grows : incl architecture architecture'.
Hypothesis concerns_grow : incl concerns concerns'.

Lemma existsb_isString (item : string) (l : list string) :
  existsb (isString item) (map VStr l) = JsSet.has item l.
Proof.
  unfold JsSet.has. induction l as [| x l IH]; simpl; [reflexivity |].
  now rewrite IH, String.eqb_sym.
Qed.

Lemma has_incl (item : string) (l l' : list string) :
  incl l l' -> JsSet.has item l = true -> JsSet.has item l' = true.
Proof. intros H Hin. apply has_true_iff, H. now apply has_true_iff. Qed.

(** A condition answers both contexts with a boolean, and says yes to
    the larger context whenever it says yes to the smaller. *)
Lemma includes_grows (field item : string) :
  In field ["techStack"; "architecture"; "concerns"] ->
  exists b b',
    fieldIncludes field item
      (Wizard.context projectType techStack architecture concerns targetUsers hasApi)
    = Normal (VBool b)
    /\ fieldIncludes field item
         (Wizard.context projectType techStack' architecture' concerns' targetUsers hasApi)
       = Normal (VBool b')
    /\ (b = true -> b' = true).
Proof.
  intros [<- | [<- | [<- | []]]]; do 2 eexists;
    (split; [reflexivity | split; [reflexivity |]]);
    rewrite !existsb_isString; now apply has_incl.
Qed.

Lemma equals_same (field text : string) :
  exists b b',
    fieldEquals field text
      (Wizard.context projectType techStack architecture concerns targetUsers hasApi)
    = Normal (VBool b)
    /\ fieldEquals field text
         (Wizard.context projectType techStack' architecture' concerns' targetUsers hasApi)
       = Normal (VBool b')
    /\ (b = true -> b' = true).
Proof.
  unfold fieldEquals, Wizard.context, getProp. cbn [JsMap.get].
  repeat match goal with
         | |- context [String.eqb field ?k] => destruct (String.eqb field k)
         end;
    do 2 eexists; (split; [reflexivity | split; [reflexivity |]]);
    try (intros H; exact H); simpl; discriminate.
Qed.

Lemma orElse_grows (a b : value -> completion value) (ctx ctx' : value) :
  (exists x x', a ctx = Normal (VBool x) /\ a ctx' = Normal (VBool x')
                /\ (x = true -> x' = true)) ->
  (exists y y', b ctx = Normal (VBool y) /\ b ctx' = Normal (VBool y')
                /\ (y = true -> y' = true)) ->
  exists z z', orElse a b ctx = Normal (VBool z)
               /\ orElse a b ctx' = Normal (VBool z')
               /\ (z = true -> z' = true).
Proof.
  intros (x & x' & Ha & Ha' & Hx) (y & y' & Hb & Hb' & Hy).
  unfold orElse. rewrite Ha, Ha', Hb, Hb'. cbn [bind truthy].
  exists (x || y), (x' || y').
  destruct x, x', y, y'; simpl; repeat split; auto; try (now discriminate Hx);
    try (now discriminate Hy); intros; try (now apply Hx); now apply Hy.
Qed.

Lemma hasApi_same :
  exists b b',
    getProp (Wizard.context projectType techStack architecture concerns targetUsers hasApi)
            "hasApi"
    = Normal (VBool b)
    /\ getProp (Wizard.context projectType techStack' architecture' concerns' targetUsers hasApi)
               "hasApi"
       = Normal (VBool b')
    /\ (b = true -> b' = true).
Proof. exists hasApi, hasApi. repeat split. auto. Qed.

Lemma rules_grow :
  Forall (fun rule =>
            fires (Wizard.context projectType techStack architecture concerns
                     targetUsers hasApi) rule = true ->
            fires (Wizard.context projectType techStack' architecture' concerns'
                     targetUsers hasApi) rule = true)
         recommendationRules.
Proof.
  assert (Hstep : forall f : value -> completion value,
    (exists b b',
        f (Wizard.context projectType techStack architecture concerns targetUsers hasApi)
        = Normal (VBool b)
        /\ f (Wizard.context projectType techStack' architecture' concerns' targetUsers hasApi)
           = Normal (VBool b')
        /\ (b = true -> b' = true)) ->
    forall rule, run (condition rule) = f ->
    fires (Wizard.context projectType techStack architecture concerns targetUsers hasApi) rule = true ->
    fires (Wizard.context projectType techStack' architecture' concerns' targetUsers hasApi) rule = true).
  { intros f (b & b' & H1 & H2 & Hb) rule <-. unfold fires. rewrite H1, H2. exact Hb. }
  unfold recommendationRules.
  repeat (constructor;
          [ eapply Hstep; [| reflexivity];
            repeat first
              [ apply orElse_grows
              | apply includes_grows; simpl; tauto
              | apply equals_same
              | apply hasApi_same
              | now exists true, true ]
          | ]).
  constructor.
Qed.

End WizardContexts.

(** X11.  Answering more never recommends less.  Take two runs of the wizard
    with the same project type, target users and API answer, the second
    with every technology, architecture and concern of the first and
    possibly more: every skill, agent, hook and reason recommended in the
    first run is recommended in the second. *)
Theorem more_answers_never_fewer_recommendations :
  forall (projectType targetUsers : string) (hasApi : bool)
         (techStack techStack' architecture architecture' concerns concerns'
          : list string),
    incl techStack techStack' ->
    incl architecture architecture' ->
    incl concerns concerns' ->
    exists result result',
      Analyzer.analyzeProject
        (Wizard.context projectType techStack architecture concerns targetUsers hasApi)
      = Normal result
      /\ Analyzer.analyzeProject
           (Wizard.context projectType techStack' architecture' concerns' targetUsers hasApi)
         = Normal result'
      /\ incl (Analyzer.out_skills result) (Analyzer.out_skills result')
      /\ incl (Analyzer.out_agents result) (Analyzer.out_agents result')
      /\ incl (Analyzer.out_hooks result) (Analyzer.out_hooks result')
      /\ incl (Analyzer.out_reasons result) (Analyzer.out_reasons result').
Proof.
  intros projectType targetUsers hasApi ts ts' ar ar' co co' Hts Har Hco.
  pose proof (rules_grow projectType targetUsers hasApi ts ts' ar ar' co co'
                Hts Har Hco) as Hgrow.
  rewrite Forall_forall in Hgrow.
  destruct (evaluate_members Analyzer.recommendationRules
              (Wizard.context projectType ts ar co targetUsers hasApi))
    as (r & Hr & Hs & Ha & Hh & Hre & _).
  destruct (evaluate_members Analyzer.recommendationRules
              (Wizard.context projectType ts' ar' co' targetUsers hasApi))
    as (r' & Hr' & Hs' & Ha' & Hh' & Hre' & _).
  exists r, r'. split; [exact Hr |]. split; [exact Hr' |].
  repeat split; intros x Hx.
  - apply Hs'. apply Hs in Hx. destruct Hx as (rule & Hin & Hf & Hm).
    exists rule. auto.
  - apply Ha'. apply Ha in Hx. destruct Hx as (rule & Hin & Hf & Hm).
    exists rule. auto.
  - apply Hh'. apply Hh in Hx. destruct Hx as (rule & Hin & Hf & Hm).
    exists rule. auto.
  - apply Hre'. apply Hre in Hx. destruct Hx as (rule & Hin & Hf & Hg & Hm).
    exists rule. auto.
Qed.

(** A React project, then the same project with TypeScript as well: the
    skills of the first run are among those of the second, which has
    gained naming-conventions. *)
Lemma more_answers_never_fewer_recommendations_witness :
  incl ["react"] ["react"; "typescript"]
  /\ exists result result',
      Analyzer.analyzeProject
        (Wizard.context "react-nextjs" ["react"] [] ["security"] "developers" false)
      = Normal result
      /\ Analyzer.analyzeProject
           (Wizard.context "react-nextjs" ["react"; "typescript"] [] ["security"]
              "developers" false)
         = Normal result'
      /\ incl (Analyzer.out_skills result) (Analyzer.out_skills result')
      /\ In "naming-conventions" (Analyzer.out_skills result')
      /\ ~ In "naming-conventions" (Analyzer.out_skills result).
Proof.
  assert (H : incl ["react"] ["react"; "typescript"])
    by (intros x [<- | []]; simpl; auto).
  split; [exact H |].
  destruct (more_answers_never_fewer_recommendations
              "react-nextjs" "developers" false
              ["react"] ["react"; "typescript"] [] [] ["security"] ["security"]
              H (incl_refl _) (incl_refl _))
    as (r & r' & Hr & Hr' & Hs & _).
  exists r, r'. split; [exact Hr |]. split; [exact Hr' |]. split; [exact Hs |].
  vm_compute in Hr, Hr'. injection Hr as <-. injection Hr' as <-.
  split.
  - apply has_true_iff. reflexivity.
  - apply has_false_iff. reflexivity.
Defined.

(** X12.  Only which answers were given counts, not their order or their
    repetition: two runs of the wizard whose technologies, architectures
    and concerns have the same members, with the same project type, target
    users and API answer, get the very same result, list by list and in
    the same order. *)
Theorem recommendations_ignore_order_of_answers :
  forall (projectType targetUsers : string) (hasApi : bool)
         (techStack techStack' architecture architecture' concerns concerns'
          : list string),
    (forall x, In x techStack <-> In x techStack') ->
    (forall x, In x architecture <-> In x architecture') ->
    (forall x, In x concerns <-> In x concerns') ->
    Analyzer.analyzeProject
      (Wizard.context projectType techStack architecture concerns targetUsers hasApi)
    = Analyzer.analyzeProject
        (Wizard.context projectType techStack' architecture' concerns' targetUsers hasApi).
Proof.
  intros projectType targetUsers hasApi ts ts' ar ar' co co' Hts Har Hco.
  assert (H1 : incl ts ts' /\ incl ar ar' /\ incl co co').
  { repeat split; intros x Hx; [apply Hts | apply Har | apply Hco]; exact Hx. }
  assert (H2 : incl ts' ts /\ incl ar' ar /\ incl co' co).
  { repeat split; intros x Hx; [apply Hts | apply Har | apply Hco]; exact Hx. }
  destruct H1 as (A1 & A2 & A3), H2 as (B1 & B2 & B3).
  pose proof (rules_grow projectType targetUsers hasApi ts ts' ar ar' co co'
                A1 A2 A3) as G1.
  pose proof (rules_grow projectType targetUsers hasApi ts' ts ar' ar co' co
                B1 B2 B3) as G2.
  rewrite Forall_forall in G1, G2.
  unfold Analyzer.analyzeProject. rewrite !evaluate_eq. do 3 f_equal.
  apply filter_ext_in. intros rule Hin.
  specialize (G1 rule Hin). specialize (G2 rule Hin).
  destruct (EngineSpec.fires (Wizard.context projectType ts ar co targetUsers hasApi) rule),
           (EngineSpec.fires (Wizard.context projectType ts' ar' co' targetUsers hasApi) rule);
    try reflexivity; [symmetry; now apply G1 | now apply G2].
Qed.

(** The same answers ticked in another order, one of them twice. *)
Lemma recommendations_ignore_order_of_answers_witness :
  (forall x, In x ["react"; "typescript"] <-> In x ["typescript"; "react"; "typescript"])
  /\ Analyzer.analyzeProject
       (Wizard.context "general" ["react"; "typescript"] [] [] "developers" true)
     = Analyzer.analyzeProject
         (Wizard.context "general" ["typescript"; "react"; "typescript"] [] []
            "developers" true).
Proof.
  assert (H : forall x, In x ["react"; "typescript"]
                        <-> In x ["typescript"; "react"; "typescript"])
    by (intros x; simpl; tauto).
  split; [exact H |].
  apply recommendations_ignore_order_of_answers;
    [exact H | intros x; tauto | intros x; tauto].
Defined.

(* ===================================================================== *)
(** * generator.js: the hooks of settings.json *)
(* ===================================================================== *)

Section SettingsHooks.
Import Templates Generator GeneratorSpec.
Variable hookText : string -> string.

(** No event of the table is a name that objects inherit. *)
Lemma filed_event_not_inherited (hookName ev : string) (entry : HookEntry) :
  filed hookText hookName = Some (ev, entry) ->
  JsSet.has ev JsObject.inheritedKeys = false.
Proof.
  unfold filed, getHook, JsObject.lookup, hooks. cbn [JsMap.get].
  repeat match goal with
         | |- context [String.eqb hookName ?k] =>
             destruct (String.eqb hookName k);
             [intros [= <- _]; reflexivity |]
         end.
  destruct (JsSet.has hookName JsObject.inheritedKeys);
    [intros [= <- _]; reflexivity | discriminate].
Qed.

Lemma pushEntry_files (settingsHooks : list (string * list HookEntry))
    (ev : string) (entry : HookEntry) :
  JsSet.has ev JsObject.inheritedKeys = false ->
  pushEntry settingsHooks ev entry
  = Normal (JsMap.set ev
              (match JsMap.get ev settingsHooks with
               | Some entries => entries ++ [entry]
               | None => [entry]
               end) settingsHooks).
Proof.
  intros H. unfold pushEntry, JsObject.lookup. rewrite H.
  now destruct (JsMap.get ev settingsHooks).
Qed.

Lemma addSelected_files (settingsHooks : list (string * list HookEntry))
    (hookName : string) :
  addSelected hookText settingsHooks hookName
  = Normal (match filed hookText hookName with
            | Some (ev, entry) =>
                JsMap.set ev
                  (match JsMap.get ev settingsHooks with
                   | Some entries => entries ++ [entry]
                   | None => [entry]
                   end) settingsHooks
            | None => settingsHooks
            end).
Proof.
  pose proof (filed_event_not_inherited hookName) as H.
  unfold addSelected, filed in *.
  destruct (getHook hookText hookName) as [hook | |];
    [apply pushEntry_files, (H _ _ eq_refl)
    | apply pushEntry_files, (H _ _ eq_refl)
    | reflexivity].
Qed.


Lemma keys_set_any {V} (k : string) (v : V) (m : list (string * V)) :
  map fst (JsMap.set k v m) = JsSet.add (map fst m) k.
Proof.
  unfold JsSet.add, JsSet.has.
  induction m as [| [k' v'] m IH]; simpl; [reflexivity |].
  destruct (String.eqb k k') eqn:E; simpl.
  - apply String.eqb_eq in E. now subst.
  - rewrite IH. now destruct (existsb (String.eqb k) (map fst m)).
Qed.

(** Filing an entry adds it to what is filed, whatever the event. *)
Lemma filed_entries_set (m : list (string * list HookEntry)) (ev : string)
    (entry : HookEntry) :
  Permutation
    (flat_map snd (JsMap.set ev (match JsMap.get ev m with
                                 | Some entries => entries ++ [entry]
                                 | None => [entry]
                                 end) m))
    (flat_map snd m ++ [entry]).
Proof.
  induction m as [| [k v] m IH]; simpl; [reflexivity |].
  destruct (String.eqb ev k); simpl.
  - rewrite <- !app_assoc. apply Permutation_app_head, Permutation_app_comm.
  - rewrite <- app_assoc. now apply Permutation_app_head.
Qed.

Lemma foldM_addSelected (selectedHooks : list string) :
  forall settingsHooks : list (string * list HookEntry),
    exists final,
      foldM (addSelected hookText) selectedHooks settingsHooks = Normal final
      /\ (forall e,
            JsMap.get e final
            = match JsMap.get e settingsHooks, entriesUnder hookText e selectedHooks with
              | Some entries, es => Some (entries ++ es)
              | None, [] => None
              | None, es => Some es
              end)
      /\ map fst final
         = fold_left JsSet.add (eventsOf hookText selectedHooks) (map fst settingsHooks)
      /\ Permutation (flat_map snd final)
           (flat_map snd settingsHooks
            ++ flat_map (fun hookName => match filed hookText hookName with
                                         | Some (_, entry) => [entry]
                                         | None => []
                                         end) selectedHooks).
Proof.
  induction selectedHooks as [| hookName l IH]; intros m.
  - exists m. simpl. repeat split.
    + intros e. destruct (JsMap.get e m); [now rewrite app_nil_r | reflexivity].
    + now rewrite app_nil_r.
  - cbn [foldM]. rewrite addSelected_files. cbn [bind].
    unfold entriesUnder, eventsOf. cbn [flat_map].
    fold (entriesUnder hookText) (eventsOf hookText).
    destruct (filed hookText hookName) as [[ev entry] |] eqn:Ef.
    + destruct (IH (JsMap.set ev match JsMap.get ev m with
                                 | Some entries => entries ++ [entry]
                                 | None => [entry]
                                 end m))
        as (final & Hrun & Hget & Hkeys & Hperm).
      exists final. split; [exact Hrun |]. repeat split.
      * intros e. rewrite Hget, get_set.
        destruct (String.eqb e ev) eqn:Ee.
        -- apply String.eqb_eq in Ee. subst e. rewrite String.eqb_refl.
           destruct (JsMap.get ev m); cbn [app]; [now rewrite <- app_assoc |].
           reflexivity.
        -- rewrite String.eqb_sym, Ee. cbn [app]. reflexivity.
      * rewrite Hkeys, keys_set_any. reflexivity.
      * eapply perm_trans; [exact Hperm |].
        rewrite (app_assoc _ [entry]).
        apply Permutation_app_tail, filed_entries_set.
    + destruct (IH m) as (final & Hrun & Hget & Hkeys & Hperm).
      exists final. repeat split; assumption.
Qed.

End SettingsHooks.

Lemma generateSettingsJson_groups (hookText : string -> string)
    (selectedHooks : list string) :
  Generator.generateSettingsJson hookText None = Normal []
  /\ exists settingsHooks,
       Generator.generateSettingsJson hookText (Some selectedHooks)
       = Normal settingsHooks
       /\ (forall e,
             JsMap.get e settingsHooks
             = match GeneratorSpec.entriesUnder hookText e selectedHooks with
               | [] => None
               | entries => Some entries
               end)
       /\ map fst settingsHooks
          = JsSet.of_list (GeneratorSpec.eventsOf hookText selectedHooks)
       /\ Permutation
            (flat_map snd settingsHooks)
            (flat_map (fun hookName =>
                         match GeneratorSpec.filed hookText hookName with
                         | Some (_, entry) => [entry]
                         | None => []
                         end) selectedHooks).
Proof.
  split; [reflexivity |].
  destruct (foldM_addSelected hookText selectedHooks [])
    as (final & Hrun & Hget & Hkeys & Hperm).
  exists final. repeat split; assumption.
Qed.

(** X13.  The hooks of the generated settings are the selected hooks grouped by
    event.  For every selection the function returns, never throwing.
    Under each event are the entries of the selected names filed there,
    in the order of the selection, and an event with no entry is absent;
    the events come in the order in which a hook of each was first
    selected; nothing is filed twice or lost.  A name without template is
    passed over, except a name that objects inherit, which is filed under
    "undefined" without matcher.  Without any selection there is no
    event. *)
Theorem generateSettingsJson_groups_by_event :
  forall (hookText : string -> string) (selectedHooks : list string),
    Generator.generateSettingsJson hookText None = Normal []
    /\ exists settingsHooks,
         Generator.generateSettingsJson hookText (Some selectedHooks)
         = Normal settingsHooks
         /\ (forall e,
               JsMap.get e settingsHooks
               = match GeneratorSpec.entriesUnder hookText e selectedHooks with
                 | [] => None
                 | entries => Some entries
                 end)
         /\ map fst settingsHooks
            = JsSet.of_list (GeneratorSpec.eventsOf hookText selectedHooks)
         /\ Permutation
              (flat_map snd settingsHooks)
              (flat_map (fun hookName =>
                           match GeneratorSpec.filed hookText hookName with
                           | Some (_, entry) => [entry]
                           | None => []
                           end) selectedHooks).
Proof. exact generateSettingsJson_groups. Qed.

Lemma script_path_injective (a b : string) :
  (".claude/hooks/" ++ a ++ ".sh")%string = (".claude/hooks/" ++ b ++ ".sh")%string ->
  a = b.
Proof.
  intros H. simpl in H. injection H as H. now apply sapp_inv_tail in H.
Qed.

Lemma NoDup_map_injective {A B} (f : A -> B) (l : list A) :
  (forall a b, f a = f b -> a = b) -> NoDup l -> NoDup (map f l).
Proof.
  intros Hf. induction 1 as [| x l Hx Hl IH]; simpl; constructor; [| assumption].
  intros H. apply in_map_iff in H. destruct H as [y [Hy Hin]].
  apply Hf in Hy. now subst.
Qed.

Section RecommendedHooks.
Import Templates Generator GeneratorSpec.
Variable hookText : string -> string.

Lemma filed_known (h : string) (t : Hook) :
  getHook hookText h = JsObject.Own t ->
  filed hookText h
  = Some (event t, {| entry_matcher := Some (matcher t);
                      command := ".claude/hooks/" ++ h ++ ".sh" |}).
Proof. unfold filed. now intros ->. Qed.

Lemma known_event (h : string) (t : Hook) :
  getHook hookText h = JsObject.Own t ->
  In (event t) ["PreToolUse"; "PostToolUse"; "SessionStart"; "Stop"].
Proof.
  unfold getHook, JsObject.lookup, hooks. cbn [JsMap.get].
  repeat match goal with
         | |- context [String.eqb h ?k] =>
             destruct (String.eqb h k); [intros [= <-]; simpl; tauto |]
         end.
  destruct (JsSet.has h JsObject.inheritedKeys); discriminate.
Qed.

Lemma known_hooks_filed (l : list string) :
  Forall (fun h => exists t, getHook hookText h = JsObject.Own t /\ hook_name t = h) l ->
  map command
      (flat_map (fun hookName => match filed hookText hookName with
                                 | Some (_, entry) => [entry]
                                 | None => []
                                 end) l)
  = map (fun h => (".claude/hooks/" ++ h ++ ".sh")%string) l
  /\ Forall (fun entry => entry_matcher entry <> None)
            (flat_map (fun hookName => match filed hookText hookName with
                                       | Some (_, entry) => [entry]
                                       | None => []
                                       end) l)
  /\ incl (eventsOf hookText l) ["PreToolUse"; "PostToolUse"; "SessionStart"; "Stop"].
Proof.
  induction 1 as [| h l [t [Ht _]] Hl (IH1 & IH2 & IH3)]; simpl.
  - repeat split; [constructor | intros x []].
  - unfold eventsOf. cbn [flat_map]. rewrite (filed_known h t Ht). simpl.
    repeat split.
    + now rewrite IH1.
    + constructor; [discriminate | assumption].
    + intros e [<- | He]; [now apply (known_event h) | now apply IH3].
Qed.

End RecommendedHooks.

(** X14.  From the recommendations to the settings, no hook is lost or
    misfiled.  For every context, generating the settings from the hooks
    that [analyzeProject] recommends succeeds; the commands of the
    entries are the script paths of the recommended hooks, each once;
    every entry has the matcher of its template; and the only events are
    the four of the templates. *)
Theorem recommended_hooks_all_reach_settings :
  forall (hookText : string -> string) (context : Js.value),
    exists result settingsHooks,
      Analyzer.analyzeProject context = Normal result
      /\ Generator.generateSettingsJson hookText (Some (Analyzer.out_hooks result))
         = Normal settingsHooks
      /\ Permutation
           (map Generator.command (flat_map snd settingsHooks))
           (map (fun h => (".claude/hooks/" ++ h ++ ".sh")%string)
                (Analyzer.out_hooks result))
      /\ NoDup (map Generator.command (flat_map snd settingsHooks))
      /\ Forall (fun entry => Generator.entry_matcher entry <> None)
                (flat_map snd settingsHooks)
      /\ incl (map fst settingsHooks)
              ["PreToolUse"; "PostToolUse"; "SessionStart"; "Stop"].
Proof.
  intros hookText context.
  destruct (evaluate_members Analyzer.recommendationRules context)
    as (result & Hr & _ & _ & Hh & _ & _ & _ & Hnd & _).
  destruct (proj2 (generateSettingsJson_groups hookText (Analyzer.out_hooks result)))
    as (settingsHooks & Hgen & _ & Hkeys & Hperm).
  assert (Hknown : Forall (fun h => exists t, Templates.getHook hookText h = JsObject.Own t
                                              /\ Templates.hook_name t = h)
                          (Analyzer.out_hooks result)).
  { apply Forall_forall. intros h Hin. apply Hh in Hin.
    destruct Hin as (rule & Hin & _ & Hm).
    pose proof (rule_hooks_have_templates hookText) as H.
    rewrite Forall_forall in H. apply H, in_flat_map. now exists rule. }
  destruct (known_hooks_filed hookText _ Hknown) as (Hcmd & Hmatch & Hev).
  assert (Hp : Permutation
                 (map Generator.command (flat_map snd settingsHooks))
                 (map (fun h => (".claude/hooks/" ++ h ++ ".sh")%string)
                      (Analyzer.out_hooks result))).
  { rewrite <- Hcmd. now apply Permutation_map. }
  exists result, settingsHooks. repeat split; try assumption.
  - apply (Permutation_NoDup (Permutation_sym Hp)).
    apply NoDup_map_injective; [| assumption].
    intros a b H. apply script_path_injective in H. exact H.
  - apply (Permutation_Forall (Permutation_sym Hperm)), Hmatch.
  - rewrite Hkeys. intros e He. apply (proj1 (in_of_list _ _)) in He.
    now apply Hev.
Qed.

(* ===================================================================== *)
(** * scanner.js: when the scan returns, and what it returns *)
(* ===================================================================== *)

Section ScanReturns.
Import Js Fs Scanner ScannerSpec.
Variable JSON_parse : string -> option value.
Variable w : World.

Lemma getProp_returns (v : value) (key : string) :
  (exists x, getProp v key = Normal x) <-> v <> VUndefined /\ v <> VNull.
Proof.
  destruct v as [| | b | n | s | items | props]; simpl;
    try (split; [intros [x H]; discriminate | intros [H1 H2]; congruence]);
    try (split; [intros _; split; discriminate | intros _; eexists; reflexivity]).
  split; [intros _; split; discriminate |].
  intros _. destruct (JsMap.get key props); eexists; reflexivity.
Qed.

Lemma getProp_throws (v : value) (key : string) (e : string) :
  getProp v key = Throw e -> v = VUndefined \/ v = VNull.
Proof.
  destruct v as [| | b | n | s | items | props]; simpl; auto; try discriminate.
  destruct (JsMap.get key props); discriminate.
Qed.

(** The manifest as [readJson] gives it. *)
Lemma readJson_Normal (pkg : value) :
  readJson JSON_parse w "package.json" = Normal pkg
  <-> exists text, readFileText w "package.json" = Some text
                   /\ JSON_parse text = Some pkg.
Proof.
  unfold readJson, readFile.
  destruct (readFileText w "package.json") as [text |]; cbn [bind].
  - destruct (JSON_parse text) as [v |] eqn:Ep; split.
    + intros [= ->]. now exists text.
    + intros [t [[= <-] H]]. congruence.
    + discriminate.
    + intros [t [[= <-] H]]. congruence.
  - split; [discriminate | intros [t [H _]]; discriminate].
Qed.

Lemma detectNode_returns (d : Detected) :
  (exists d', detectNode JSON_parse w d = Normal d')
  <-> access w "package.json" = false
      \/ exists text pkg,
           readFileText w "package.json" = Some text
           /\ JSON_parse text = Some pkg
           /\ pkg <> VUndefined /\ pkg <> VNull.
Proof.
  unfold detectNode, fileExists.
  destruct (access w "package.json"); [| split; [auto | intros _; now eexists]].
  destruct (readJson JSON_parse w "package.json") as [pkg | e] eqn:Er; cbn [bind].
  - apply readJson_Normal in Er. destruct Er as [text [Hread Hparse]].
    split.
    + intros [d' H]. right. exists text, pkg.
      repeat split; try assumption; intros ->; discriminate.
    + intros [H | (text' & pkg' & Hread' & Hparse' & Hu & Hn)]; [discriminate |].
      assert (pkg' = pkg) by congruence. subst pkg'.
      destruct (proj2 (getProp_returns pkg "name") (conj Hu Hn)) as [x1 ->].
      destruct (proj2 (getProp_returns pkg "dependencies") (conj Hu Hn)) as [x2 ->].
      destruct (proj2 (getProp_returns pkg "devDependencies") (conj Hu Hn)) as [x3 ->].
      cbn [bind]. now eexists.
  - split; [intros [d' H]; discriminate |].
    intros [H | (text & pkg & Hread & Hparse & _)]; [discriminate |].
    assert (H : readJson JSON_parse w "package.json" = Normal pkg)
      by (apply readJson_Normal; now exists text).
    congruence.
Qed.

Lemma scanCsproj_loop (files : list string) : forall d : Detected,
  (exists d', foldM (scanCsproj w) files d = Normal d')
  <-> forall csproj, In csproj files -> readFileText w csproj <> None.
Proof.
  induction files as [| f files IH]; intros d; cbn [foldM].
  - split; [intros _ x [] | intros _; now eexists].
  - unfold scanCsproj at 1, readFile.
    destruct (readFileText w f) as [text |] eqn:Ef; cbn [bind].
    + rewrite IH. split.
      * intros H x [<- | Hx]; [congruence | now apply H].
      * intros H x Hx. apply H. now right.
    + split; [intros [d' H]; discriminate |].
      intros H. exfalso. apply (H f); [now left | assumption].
Qed.

Lemma detectDotnet_returns (d : Detected) :
  (exists d', detectDotnet w d = Normal d') <-> readableProjectFiles w.
Proof.
  unfold detectDotnet, readableProjectFiles.
  destruct (glob w "**/*.csproj" 100) as [| f files] eqn:Eg.
  - cbn. split; [intros _ x [] | intros _; now eexists].
  - cbn [List.length Nat.ltb Nat.leb].
    rewrite <- (scanCsproj_loop (array_slice (f :: files) 0 5)
                  (seq [push_languages "csharp"; push_techStack "dotnet"] d)).
    destruct (foldM (scanCsproj w) (array_slice (f :: files) 0 5)
                (seq [push_languages "csharp"; push_techStack "dotnet"] d));
      cbn [bind]; split; intros [d' H]; try discriminate; now eexists.
Qed.

Lemma callIncludes_returns (v : value) (item : string) :
  (exists x, callIncludes v item = Normal x)
  <-> (exists items, v = VArr items) \/ (exists s, v = VStr s).
Proof.
  destruct v as [| | b | n | s | items | props]; simpl;
    try (split; [intros [x H]; discriminate
                | intros [[i H] | [i H]]; discriminate]).
  - split; [intros _; right; now exists s | intros _; now eexists].
  - split; [intros _; left; now exists items | intros _; now eexists].
Qed.

Lemma detectCliTool_returns (d : Detected) :
  (exists d', detectCliTool JSON_parse w d = Normal d')
  <-> access w "package.json" = false
      \/ forall pkg,
           catch (readJson JSON_parse w "package.json") (fun _ => Normal (VObj []))
           = Normal pkg ->
           pkg <> VUndefined /\ pkg <> VNull
           /\ forall bin keywords,
                getProp pkg "bin" = Normal bin ->
                getProp pkg "keywords" = Normal keywords ->
                truthy bin = true \/ answersIncludes keywords.
Proof.
  unfold detectCliTool, fileExists, answersIncludes.
  destruct (access w "package.json"); [| split; [auto | intros _; now eexists]].
  assert (Hpkg : exists pkg,
             catch (readJson JSON_parse w "package.json") (fun _ => Normal (VObj []))
             = Normal pkg).
  { destruct (readJson JSON_parse w "package.json"); simpl; now eexists. }
  destruct Hpkg as [pkg Hpkg]. rewrite Hpkg. cbn [bind].
  split.
  - intros [d' H]. right. intros pkg' [= <-].
    destruct (getProp pkg "bin") as [bin | e] eqn:Ebin; [| discriminate].
    assert (Hret : exists x, getProp pkg "bin" = Normal x) by now exists bin.
    apply getProp_returns in Hret. destruct Hret as [Hu Hn].
    repeat split; try assumption.
    intros bin' keywords [= <-] Hk. cbn [bind] in H.
    destruct (truthy bin); [now left | right].
    rewrite Hk in H. cbn [bind] in H.
    destruct (truthy keywords) eqn:Et; [| now left]. right.
    apply (callIncludes_returns keywords "cli").
    destruct (callIncludes keywords "cli"); [now eexists | discriminate].
  - intros [H | H]; [discriminate |].
    destruct (H pkg eq_refl) as (Hu & Hn & Hcli).
    destruct (proj2 (getProp_returns pkg "bin") (conj Hu Hn)) as [bin Hbin].
    destruct (proj2 (getProp_returns pkg "keywords") (conj Hu Hn)) as [keywords Hk].
    rewrite Hbin. cbn [bind].
    destruct (truthy bin) eqn:Eb; cbn [bind]; [now eexists |].
    rewrite Hk. cbn [bind].
    destruct (Hcli bin keywords Hbin Hk) as [Hb | [Hf | Hinc]]; [congruence | |].
    + rewrite Hf. cbn [bind]. now eexists.
    + destruct (truthy keywords); cbn [bind]; [| now eexists].
      apply (callIncludes_returns keywords "cli") in Hinc.
      destruct Hinc as [x ->]. cbn [bind]. now eexists.
Qed.

End ScanReturns.

(** X15.  When the scan returns and when it throws.  [scanProject] returns a
    result exactly when two things hold.  First, there is no package.json,
    or package.json can be read, is JSON, is not [null], and its
    [keywords], unless [bin] already marks a command-line tool, is falsy,
    an array or a string.  Second, each of the first five .csproj files
    found can be read.  In every other case the scan throws. *)
Theorem scanProject_returns_iff :
  forall (JSON_parse : string -> option Js.value) (w : Fs.World),
    (exists d, Scanner.scanProject JSON_parse w = Normal d)
    <-> ScannerSpec.usableManifest JSON_parse w
        /\ ScannerSpec.readableProjectFiles w.
Proof.
  intros JSON_parse w. unfold Scanner.scanProject, ScannerSpec.usableManifest.
  split.
  - intros [d H].
    destruct (Scanner.detectNode JSON_parse w (Scanner.initialDetected w))
      as [d1 | e] eqn:E1; [| discriminate].
    cbn [bind] in H.
    destruct (Scanner.detectDotnet w d1) as [d2 | e] eqn:E2; [| discriminate].
    cbn [bind] in H.
    match type of H with
    | bind (Scanner.detectCliTool _ _ ?dx) _ = _ =>
        destruct (Scanner.detectCliTool JSON_parse w dx) as [d3 | e] eqn:E3;
        [| discriminate];
        assert (H3 : exists d', Scanner.detectCliTool JSON_parse w dx = Normal d')
          by now exists d3
    end.
    split; [| apply (detectDotnet_returns w d1); now exists d2].
    destruct (Fs.access w "package.json") eqn:Ea; [right | now left].
    assert (H1 : exists d', Scanner.detectNode JSON_parse w (Scanner.initialDetected w)
                            = Normal d') by now exists d1.
    apply detectNode_returns in H1. apply detectCliTool_returns in H3.
    destruct H1 as [H1 | (text & pkg & Hread & Hparse & Hu & Hn)]; [congruence |].
    destruct H3 as [H3 | H3]; [congruence |].
    exists text, pkg. repeat split; try assumption.
    apply (H3 pkg).
    replace (Scanner.readJson JSON_parse w "package.json") with (Normal pkg);
      [reflexivity |].
    symmetry. apply readJson_Normal. now exists text.
  - intros [Hm Hfiles].
    assert (H1 : exists d', Scanner.detectNode JSON_parse w (Scanner.initialDetected w)
                            = Normal d').
    { apply detectNode_returns.
      destruct Hm as [Hm | (text & pkg & Hread & Hparse & Hu & Hn & _)];
        [now left | right; now exists text, pkg]. }
    destruct H1 as [d1 ->]. cbn [bind].
    destruct (proj2 (detectDotnet_returns w d1) Hfiles) as [d2 ->]. cbn [bind].
    match goal with
    | |- exists d, bind (Scanner.detectCliTool _ _ ?dx) _ = _ =>
        assert (H3 : exists d', Scanner.detectCliTool JSON_parse w dx = Normal d')
    end.
    { apply detectCliTool_returns.
      destruct Hm as [Hm | (text & pkg & Hread & Hparse & Hu & Hn & Hcli)];
        [now left | right].
      intros pkg' Hpkg'.
      assert (Hr : Scanner.readJson JSON_parse w "package.json" = Normal pkg)
        by (apply readJson_Normal; now exists text).
      rewrite Hr in Hpkg'. injection Hpkg' as <-. auto. }
    destruct H3 as [d3 ->]. cbn [bind]. now eexists.
Qed.

Section Invariants.
Import Js Fs Scanner ScannerSpec.

Variable P : Detected -> Prop.

Lemma seq_preserves (steps : list (Detected -> Detected)) :
  Forall (preserves P) steps -> preserves P (seq steps).
Proof.
  unfold seq. induction 1 as [| step steps Hs Hf IH]; intros d Hd; simpl.
  - assumption.
  - apply IH, Hs, Hd.
Qed.

Lemma when_preserves (b : bool) (step : Detected -> Detected) :
  preserves P step -> preserves P (when b step).
Proof. intros H d Hd. unfold when. destruct b; auto. Qed.

Lemma unless_preserves (test : Detected -> bool) (step : Detected -> Detected) :
  preserves P step -> preserves P (unless test step).
Proof. intros H d Hd. unfold unless. destruct (test d); auto. Qed.

Lemma provided_preserves (test : Detected -> bool) (step : Detected -> Detected) :
  preserves P step -> preserves P (provided test step).
Proof. intros H d Hd. unfold provided. destruct (test d); auto. Qed.

Lemma fold_preserves {A} (f : Detected -> A -> Detected) (l : list A) :
  (forall x, preserves P (fun d => f d x)) -> preserves P (fold_left f l).
Proof.
  intros H. induction l as [| x l IH]; intros d Hd; simpl; [assumption |].
  apply IH, (H x), Hd.
Qed.

Lemma foldM_preserves {A} (f : Detected -> A -> completion Detected) (l : list A) :
  (forall x, preservesM P (fun d => f d x)) -> preservesM P (foldM f l).
Proof.
  intros H. induction l as [| x l IH]; intros d d' Hd; simpl.
  - now intros [= <-].
  - destruct (f d x) as [d1 |] eqn:E; [| discriminate]. simpl.
    apply IH. exact (H x d d1 Hd E).
Qed.

End Invariants.

(** Taking a statement of the scan apart down to single assignments. *)
Ltac scan_steps atom :=
  first
    [ solve [atom]
    | apply seq_preserves; repeat (constructor; [solve [scan_steps atom] |]);
      solve [constructor]
    | apply when_preserves; scan_steps atom
    | apply unless_preserves; scan_steps atom
    | apply provided_preserves; scan_steps atom ].

(** The same for the state a run of statements ends in. *)
Ltac scan_goal atom :=
  repeat match goal with
         | |- ?P (?step ?x) =>
             let H := fresh "Hstep" in
             assert (H : ScannerSpec.preserves P step) by (scan_steps atom);
             apply H; clear H
         end.

Lemma Normal_inj {A} (a b : A) : Normal a = Normal b -> a = b.
Proof. now intros [= ->]. Qed.

(** The stages of the scan keep whatever their assignments keep; [atom]
    proves that a run of assignments keeps the property at hand. *)
Ltac stage_detectNode atom :=
  let d := fresh "d" in
  let d' := fresh "d'" in
  let Hd := fresh "Hd" in
  let H := fresh "H" in
  intros d d' Hd; unfold Scanner.detectNode;
  match goal with |- (if ?b then _ else _) = _ -> _ => destruct b end;
  [| intros H; apply Normal_inj in H; subst d'; exact Hd];
  match goal with |- bind ?c _ = _ -> _ => destruct c; [| discriminate] end;
  cbn [bind];
  match goal with |- bind ?c _ = _ -> _ => destruct c; [| discriminate] end;
  cbn [bind];
  match goal with |- bind ?c _ = _ -> _ => destruct c; [| discriminate] end;
  cbn [bind];
  match goal with |- bind ?c _ = _ -> _ => destruct c; [| discriminate] end;
  cbn [bind];
  intros H; apply Normal_inj in H; subst d';
  scan_goal atom; exact Hd.

Ltac stage_scanCsproj atom :=
  let d := fresh "d" in
  let d' := fresh "d'" in
  let Hd := fresh "Hd" in
  let H := fresh "H" in
  intros d d' Hd; unfold Scanner.scanCsproj;
  match goal with |- bind ?c _ = _ -> _ => destruct c; [| discriminate] end;
  cbn [bind];
  intros H; apply Normal_inj in H; subst d';
  scan_goal atom; exact Hd.

Ltac stage_detectDotnet atom Hcsproj :=
  let d := fresh "d" in
  let d' := fresh "d'" in
  let Hd := fresh "Hd" in
  let H := fresh "H" in
  let E := fresh "E" in
  intros d d' Hd; unfold Scanner.detectDotnet;
  match goal with |- (if ?b then _ else _) = _ -> _ => destruct b end;
  [| intros H; apply Normal_inj in H; subst d'; exact Hd];
  match goal with
  | |- bind ?c _ = _ -> _ => destruct c eqn:E; [| discriminate]
  end;
  cbn [bind];
  intros H; apply Normal_inj in H; subst d';
  scan_goal atom;
  apply (foldM_preserves _ _ _ Hcsproj _ _) in E; [exact E |];
  scan_goal atom; exact Hd.

Ltac stage_detectCliTool atom :=
  let d := fresh "d" in
  let d' := fresh "d'" in
  let Hd := fresh "Hd" in
  let H := fresh "H" in
  intros d d' Hd; unfold Scanner.detectCliTool;
  match goal with |- (if ?b then _ else _) = _ -> _ => destruct b end;
  [| intros H; apply Normal_inj in H; subst d'; exact Hd];
  match goal with |- bind ?c _ = _ -> _ => destruct c; [| discriminate] end;
  cbn [bind];
  match goal with |- bind ?c _ = _ -> _ => destruct c; [| discriminate] end;
  cbn [bind];
  match goal with |- bind ?c _ = _ -> _ => destruct c; [| discriminate] end;
  cbn [bind];
  intros H; apply Normal_inj in H; subst d';
  scan_goal atom; exact Hd.

(** A stage of the form [if found then assignments else nothing]. *)
Ltac stage_guarded atom :=
  let d := fresh "d" in
  let Hd := fresh "Hd" in
  intros d Hd;
  match goal with |- _ (?stage _ d) => unfold stage end;
  match goal with |- _ (if ?b then _ else _) => destruct b end;
  [scan_goal atom |]; exact Hd.

Ltac stage_plain atom :=
  let d := fresh "d" in
  let Hd := fresh "Hd" in
  intros d Hd;
  match goal with |- _ (?stage _ d) => unfold stage end;
  scan_goal atom; exact Hd.

Ltac stage_detectDatabases atom :=
  unfold Scanner.detectDatabases; apply fold_preserves;
  let file := fresh "file" in
  let d := fresh "d" in
  let Hd := fresh "Hd" in
  intros file d Hd; unfold Scanner.scanConfigFile, Scanner.addDatabase;
  scan_goal atom; exact Hd.

Section Consistent.
Import Js Fs Scanner ScannerSpec.
Variable JSON_parse : string -> option value.
Variable w : World.

Ltac consistent_atom :=
  idtac;
  let d := fresh "d" in
  let H1 := fresh "H" in
  let H2 := fresh "H" in
  let H3 := fresh "H" in
  intros d [[H1 H2] H3]; split;
  [ split;
    [ first [exact H1 | simpl; tauto]
    | first [exact H2
            | simpl; apply incl_app; [exact H2 |];
              let y := fresh "y" in intros y [<- | []]; simpl; tauto] ]
  | unfold apiRecorded in *; simpl;
    first [ exact H3
          | intros _; reflexivity
          | let Hc := fresh "Hc" in intros Hc; discriminate Hc ] ].

Lemma detectNode_consistent : preservesM consistent (detectNode JSON_parse w).
Proof. stage_detectNode consistent_atom. Qed.

Lemma scanCsproj_consistent (csproj : string) :
  preservesM consistent (fun d => scanCsproj w d csproj).
Proof. stage_scanCsproj consistent_atom. Qed.

Lemma detectDotnet_consistent : preservesM consistent (detectDotnet w).
Proof. stage_detectDotnet consistent_atom scanCsproj_consistent. Qed.

Lemma detectCliTool_consistent : preservesM consistent (detectCliTool JSON_parse w).
Proof. stage_detectCliTool consistent_atom. Qed.

Lemma detectPython_consistent : preserves consistent (detectPython w).
Proof. stage_guarded consistent_atom. Qed.

Lemma detectGo_consistent : preserves consistent (detectGo w).
Proof. stage_guarded consistent_atom. Qed.

Lemma detectRust_consistent : preserves consistent (detectRust w).
Proof. stage_guarded consistent_atom. Qed.

Lemma detectJava_consistent : preserves consistent (detectJava w).
Proof. stage_guarded consistent_atom. Qed.

Lemma detectArchitecture_consistent : preserves consistent (detectArchitecture w).
Proof. stage_plain consistent_atom. Qed.

Lemma detectInfrastructure_consistent : preserves consistent (detectInfrastructure w).
Proof. stage_plain consistent_atom. Qed.

Lemma detectDatabases_consistent : preserves consistent (detectDatabases w).
Proof. stage_detectDatabases consistent_atom. Qed.

Lemma detectExistingClaude_consistent : preserves consistent (detectExistingClaude w).
Proof.
  unfold detectExistingClaude. apply when_preserves, seq_preserves.
  repeat (constructor;
          [ first [ solve [consistent_atom]
                  | apply when_preserves;
                    first [ solve [consistent_atom]
                          | destruct (readdir w ".claude/agents"); consistent_atom
                          | destruct (readdir w ".claude/hooks"); consistent_atom ] ]
          | ]).
  constructor.
Qed.

Lemma deduplicate_consistent : preserves consistent deduplicate.
Proof.
  intros d [[H1 H2] H3]. unfold deduplicate. repeat split; simpl.
  - exact H1.
  - intros x Hx. apply H2. exact (proj1 (in_of_list _ _) Hx).
  - exact H3.
Qed.

Lemma scanProject_consistent (d : Detected) :
  scanProject JSON_parse w = Normal d -> consistent d.
Proof.
  unfold scanProject.
  destruct (detectNode JSON_parse w (initialDetected w)) as [d1 |] eqn:E1;
    [| discriminate]. cbn [bind].
  destruct (detectDotnet w d1) as [d2 |] eqn:E2; [| discriminate]. cbn [bind].
  match goal with
  | |- bind ?c _ = _ -> _ => destruct c as [d3 |] eqn:E3; [| discriminate]
  end.
  cbn [bind]. intros H. apply Normal_inj in H. subst d.
  apply deduplicate_consistent, detectExistingClaude_consistent,
    detectDatabases_consistent, detectInfrastructure_consistent.
  apply (detectCliTool_consistent _ _) in E3; [exact E3 |].
  apply detectArchitecture_consistent, detectJava_consistent, detectRust_consistent,
    detectGo_consistent, detectPython_consistent.
  apply (detectDotnet_consistent _ _) in E2; [exact E2 |].
  apply (detectNode_consistent _ _) in E1; [exact E1 |].
  repeat split; simpl; [tauto | intros x [] | discriminate].
Qed.

End Consistent.

Section ClaudePart.
Import Js Fs Scanner ScannerSpec.
Variable JSON_parse : string -> option value.
Variable w : World.
Variable b : bool.
Variable c : ExistingClaudeComponents.

Ltac claude_atom :=
  idtac;
  let d := fresh "d" in
  let H1 := fresh "H" in
  let H2 := fresh "H" in
  intros d [H1 H2]; split; simpl; assumption.

Lemma detectNode_claude : preservesM (claudePart b c) (detectNode JSON_parse w).
Proof. stage_detectNode claude_atom. Qed.

Lemma scanCsproj_claude (csproj : string) :
  preservesM (claudePart b c) (fun d => scanCsproj w d csproj).
Proof. stage_scanCsproj claude_atom. Qed.

Lemma detectDotnet_claude : preservesM (claudePart b c) (detectDotnet w).
Proof. stage_detectDotnet claude_atom scanCsproj_claude. Qed.

Lemma detectCliTool_claude : preservesM (claudePart b c) (detectCliTool JSON_parse w).
Proof. stage_detectCliTool claude_atom. Qed.

Lemma detectPython_claude : preserves (claudePart b c) (detectPython w).
Proof. stage_guarded claude_atom. Qed.

Lemma detectGo_claude : preserves (claudePart b c) (detectGo w).
Proof. stage_guarded claude_atom. Qed.

Lemma detectRust_claude : preserves (claudePart b c) (detectRust w).
Proof. stage_guarded claude_atom. Qed.

Lemma detectJava_claude : preserves (claudePart b c) (detectJava w).
Proof. stage_guarded claude_atom. Qed.

Lemma detectArchitecture_claude : preserves (claudePart b c) (detectArchitecture w).
Proof. stage_plain claude_atom. Qed.

Lemma detectInfrastructure_claude : preserves (claudePart b c) (detectInfrastructure w).
Proof. stage_plain claude_atom. Qed.

Lemma detectDatabases_claude : preserves (claudePart b c) (detectDatabases w).
Proof. stage_detectDatabases claude_atom. Qed.

Lemma deduplicate_claude : preserves (claudePart b c) deduplicate.
Proof. claude_atom. Qed.

End ClaudePart.

Section ExistingConfiguration.
Import Js Fs Scanner ScannerSpec.
Variable JSON_parse : string -> option value.
Variable w : World.

(** What the scan records of .claude/, whatever else it found. *)
Lemma scanProject_claude (d : Detected) :
  scanProject JSON_parse w = Normal d ->
  existingClaude d = dirExists w ".claude"
  /\ existingClaudeComponents d
     = if dirExists w ".claude" then
         {| skills := if dirExists w ".claude/skills"
                      then existingSkillDirs w else [];
            agents := if dirExists w ".claude/agents"
                      then match readdir w ".claude/agents" with
                           | Some agentFiles => stripExtension ".md" agentFiles
                           | None => []
                           end
                      else [];
            hooks := if dirExists w ".claude/hooks"
                     then match readdir w ".claude/hooks" with
                          | Some hookFiles => stripExtension ".sh" hookFiles
                          | None => []
                          end
                     else [] |}
       else {| skills := []; agents := []; hooks := [] |}.
Proof.
  unfold scanProject.
  destruct (detectNode JSON_parse w (initialDetected w)) as [d1 |] eqn:E1;
    [| discriminate]. cbn [bind].
  destruct (detectDotnet w d1) as [d2 |] eqn:E2; [| discriminate]. cbn [bind].
  match goal with
  | |- bind ?c _ = _ -> _ => destruct c as [d3 |] eqn:E3; [| discriminate]
  end.
  cbn [bind]. intros H. apply Normal_inj in H. subst d.
  set (c0 := {| skills := []; agents := []; hooks := [] |}).
  assert (H3 : claudePart false c0 (detectDatabases w (detectInfrastructure w d3))).
  { apply detectDatabases_claude, detectInfrastructure_claude.
    apply (detectCliTool_claude JSON_parse w false c0 _ _) in E3; [exact E3 |].
    apply detectArchitecture_claude, detectJava_claude, detectRust_claude,
      detectGo_claude, detectPython_claude.
    apply (detectDotnet_claude w false c0 _ _) in E2; [exact E2 |].
    apply (detectNode_claude JSON_parse w false c0 _ _) in E1; [exact E1 |].
    split; reflexivity. }
  destruct H3 as [Hb Hc].
  set (dx := detectDatabases w (detectInfrastructure w d3)) in *.
  unfold detectExistingClaude, when.
  destruct (dirExists w ".claude").
  - unfold seq. cbn [fold_left].
    destruct (dirExists w ".claude/skills"), (dirExists w ".claude/agents"),
             (dirExists w ".claude/hooks");
      destruct (readdir w ".claude/agents"), (readdir w ".claude/hooks");
      simpl; rewrite Hc; split; reflexivity.
  - simpl. split; assumption.
Qed.

End ExistingConfiguration.

Section ScanAndLoad.
Import Js Fs Scanner ScannerSpec.
Variable JSON_parse : string -> option value.
Variable w : World.

Lemma loadSkills_names (skillDirs : list string) :
  map Merger.name (flat_map (Merger.loadSkillDir w) skillDirs)
  = filter (fun d0 => match stat w (".claude/skills/" ++ d0) with
                      | Some isDir => isDir
                      | None => false
                      end) skillDirs.
Proof.
  induction skillDirs as [| dir l IH]; [reflexivity |].
  cbn [flat_map filter]. rewrite map_app, IH. unfold Merger.loadSkillDir.
  destruct (stat w (".claude/skills/" ++ dir)) as [[|] |]; try reflexivity.
  now destruct (readFileText w (".claude/skills/" ++ dir ++ "/SKILL.md")).
Qed.

Lemma loadFiles_names (dir ext : string)
    (make : string -> string -> Merger.StoredComponent) (files : list string) :
  (forall file text, Merger.name (make file text) = Str.replace file ext "") ->
  (forall file, In file files -> Str.endsWith file ext = true ->
                readFileText w (dir ++ "/" ++ file) <> None) ->
  map Merger.name (Merger.loadFiles w dir ext make files) = stripExtension ext files.
Proof.
  intros Hname. unfold stripExtension.
  induction files as [| file l IH]; intros Hread; [reflexivity |].
  cbn [Merger.loadFiles filter].
  destruct (Str.endsWith file ext) eqn:E.
  - destruct (readFileText w (dir ++ "/" ++ file)) as [text |] eqn:Er.
    + cbn [map]. rewrite Hname, IH; [reflexivity |].
      intros f Hf. apply Hread. now right.
    + exfalso. apply (Hread file); [now left | assumption | assumption].
  - apply IH. intros f Hf. apply Hread. now right.
Qed.

End ScanAndLoad.

(** X16.  What every result of the scan satisfies: none of its five lists
    holds a value twice; its project type is one of the seven project
    types of the wizard, which therefore preselects it; each architecture
    it reports is one of the wizard's choices; and a project typed as an
    API service is always recorded as having an API. *)
Theorem scanProject_result_is_consistent :
  forall (JSON_parse : string -> option Js.value) (w : Fs.World) (d : Scanner.Detected),
    Scanner.scanProject JSON_parse w = Normal d ->
    NoDup (Scanner.languages d) /\ NoDup (Scanner.frameworks d)
    /\ NoDup (Scanner.databases d) /\ NoDup (Scanner.architecture d)
    /\ NoDup (Scanner.techStack d)
    /\ In (Scanner.projectType d) (map fst Wizard.projectTypes)
    /\ Wizard.projectTypeInitial (Some (Scanner.projectType d)) = Scanner.projectType d
    /\ incl (Scanner.architecture d) (map fst Wizard.architectureOptions)
    /\ (Scanner.projectType d = "api-service" -> Scanner.hasApi d = true).
Proof.
  intros JSON_parse w d H.
  destruct (scanProject_consistent JSON_parse w d H) as [[Hk Ha] Hapi].
  assert (Hd : exists d0, d = Scanner.deduplicate d0).
  { revert H. unfold Scanner.scanProject.
    destruct (Scanner.detectNode JSON_parse w (Scanner.initialDetected w));
      [| discriminate]. cbn [bind].
    match goal with |- bind ?c _ = _ -> _ => destruct c; [| discriminate] end.
    cbn [bind].
    match goal with |- bind ?c _ = _ -> _ => destruct c; [| discriminate] end.
    cbn [bind]. intros H. apply Normal_inj in H. eexists. symmetry. exact H. }
  destruct Hd as [d0 ->].
  repeat split; try (simpl; apply NoDup_of_list); try assumption.
  unfold Wizard.projectTypeInitial.
  replace (existsb _ Wizard.projectTypes) with true; [reflexivity |].
  symmetry. apply existsb_exists.
  apply in_map_iff in Hk. destruct Hk as [[v l] [Hv Hin]].
  exists (v, l). split; [assumption |]. simpl in *. subst. apply String.eqb_refl.
Qed.

(** The scan of the Express project: an API service, recorded as having
    an API. *)
Lemma scanProject_result_is_consistent_witness :
  exists d,
    Scanner.scanProject Examples.parseManifest Examples.shopApiWorld = Normal d
    /\ Scanner.projectType d = "api-service"
    /\ Scanner.hasApi d = true
    /\ Wizard.projectTypeInitial (Some (Scanner.projectType d)) = "api-service".
Proof.
  destruct (Scanner.scanProject Examples.parseManifest Examples.shopApiWorld)
    as [d |] eqn:E; [| vm_compute in E; discriminate E].
  exists d. split; [reflexivity |].
  destruct (scanProject_result_is_consistent _ _ _ E)
    as (_ & _ & _ & _ & _ & _ & Hinit & _ & Hapi).
  assert (Ht : Scanner.projectType d = "api-service").
  { vm_compute in E. apply Normal_inj in E. now subst d. }
  split; [exact Ht |]. split; [exact (Hapi Ht) |]. now rewrite Hinit.
Defined.

(** X17.  The scanner and the loader of the merger see the same components.
    In a project whose .claude directory the probes agree on, the names
    that [scanProject] lists as existing skills, agents and hooks are, in
    the same order, the names of the components that
    [loadExistingConfig] loads. *)
Theorem scanner_and_loader_agree_on_names :
  forall (JSON_parse : string -> option Js.value) (w : Fs.World) (d : Scanner.Detected),
    ScannerSpec.coherentClaude w ->
    Scanner.scanProject JSON_parse w = Normal d ->
    Scanner.existingClaude d = Merger.exists_ (Merger.loadExistingConfig JSON_parse w)
    /\ Scanner.skills (Scanner.existingClaudeComponents d)
       = map Merger.name (Merger.skills (Merger.loadExistingConfig JSON_parse w))
    /\ Scanner.agents (Scanner.existingClaudeComponents d)
       = map Merger.name (Merger.agents (Merger.loadExistingConfig JSON_parse w))
    /\ Scanner.hooks (Scanner.existingClaudeComponents d)
       = map Merger.name (Merger.hooks (Merger.loadExistingConfig JSON_parse w)).
Proof.
  intros JSON_parse w d (Hacc & Hstat & Hsub & Hagents & Hhooks) H.
  destruct (scanProject_claude JSON_parse w d H) as [Hb Hc].
  unfold Scanner.dirExists in *. rewrite Hstat in *. rewrite Hb, Hc.
  unfold Merger.loadExistingConfig. rewrite Hacc. cbn.
  unfold Merger.loadSkills, Merger.loadAgents, Merger.loadHooks,
    Scanner.existingSkillDirs.
  repeat split.
  - destruct (Fs.readdir w ".claude/skills") as [dirs |] eqn:E.
    + assert (Hs : Fs.stat w ".claude/skills" = Some true)
        by (apply (Hsub "skills"); [simpl; auto | simpl; congruence]).
      rewrite Hs.
      symmetry. apply loadSkills_names.
    + now destruct (Fs.stat w ".claude/skills") as [[|] |].
  - destruct (Fs.readdir w ".claude/agents") as [files |] eqn:E.
    + assert (Hs : Fs.stat w ".claude/agents" = Some true)
        by (apply (Hsub "agents"); [simpl; auto | simpl; congruence]).
      rewrite Hs.
      symmetry. apply loadFiles_names; [reflexivity |].
      intros file Hin Hext. now apply (Hagents files).
    + now destruct (Fs.stat w ".claude/agents") as [[|] |].
  - destruct (Fs.readdir w ".claude/hooks") as [files |] eqn:E.
    + assert (Hs : Fs.stat w ".claude/hooks" = Some true)
        by (apply (Hsub "hooks"); [simpl; auto | simpl; congruence]).
      rewrite Hs.
      symmetry. apply loadFiles_names; [reflexivity |].
      intros file Hin Hext. now apply (Hhooks files).
    + now destruct (Fs.stat w ".claude/hooks") as [[|] |].
Qed.

Lemma configured_world_coherent : ScannerSpec.coherentClaude Configured.world.
Proof.
  unfold ScannerSpec.coherentClaude. repeat split.
  - intros sub Hin _. simpl in Hin. decompose [or] Hin; subst; try contradiction;
      reflexivity.
  - intros files file Hdir Hin Hext. simpl in Hdir. injection Hdir as <-.
    simpl in Hin. decompose [or] Hin; subst; try contradiction;
      [discriminate | discriminate Hext].
  - intros files file Hdir Hin Hext. simpl in Hdir. injection Hdir as <-.
    simpl in Hin. decompose [or] Hin; subst; try contradiction. discriminate.
Qed.

(** In the configured project both see the skill code-reviewer, the
    agent architect and the hook quality-gate, and neither sees the stray
    files. *)
Lemma scanner_and_loader_agree_on_names_witness :
  ScannerSpec.coherentClaude Configured.world
  /\ exists d,
      Scanner.scanProject Examples.parseEmptyObject Configured.world = Normal d
      /\ Scanner.existingClaudeComponents d
         = {| Scanner.skills := ["code-reviewer"];
              Scanner.agents := ["architect"];
              Scanner.hooks := ["quality-gate"] |}
      /\ map Merger.name
             (Merger.agents
                (Merger.loadExistingConfig Examples.parseEmptyObject Configured.world))
         = ["architect"].
Proof.
  split; [exact configured_world_coherent |].
  destruct (Scanner.scanProject Examples.parseEmptyObject Configured.world)
    as [d |] eqn:E; [| vm_compute in E; discriminate E].
  exists d. split; [reflexivity |].
  destruct (scanner_and_loader_agree_on_names _ _ _ configured_world_coherent E)
    as (_ & _ & Ha & _).
  split.
  - vm_compute in E. apply Normal_inj in E. now subst d.
  - rewrite <- Ha. vm_compute in E. apply Normal_inj in E. now subst d.
Defined.

(* ===================================================================== *)
(** * merger.js: listing and pruning backups, further *)
(* ===================================================================== *)

Section ListingMore.
Import Backup BackupSpec.

Lemma collectBackup_loop (es : list Dirent) : forall acc : list Backup,
  (exists bs, foldM collectBackup es acc = Normal bs)
  <-> forall e, In e es -> isBackupEntry e = true -> birthtime e <> None.
Proof.
  induction es as [| e l IH]; intros acc; cbn [foldM].
  - split; [intros _ e [] | intros _; now eexists].
  - unfold collectBackup at 1.
    destruct (isBackupEntry e) eqn:Eb.
    + destruct (birthtime e) as [t |] eqn:Et; cbn [bind].
      * rewrite IH. split.
        -- intros H e' [<- | He'] Hb'; [congruence | now apply H].
        -- intros H e' He'. apply H. now right.
      * split; [intros [bs H]; discriminate |].
        intros H. exfalso. apply (H e); [now left | assumption | assumption].
    + cbn [bind]. rewrite IH. split.
      * intros H e' [<- | He'] Hb'; [congruence | now apply H].
      * intros H e' He'. apply H. now right.
Qed.

Lemma sort_same_age (t : Z) (bs : list Backup) :
  Forall (fun b => created b = t) bs -> sortNewestFirst bs = bs.
Proof.
  induction 1 as [| b l Hb Hl IH]; simpl; [reflexivity |].
  rewrite IH. apply insert_at_front.
  eapply Forall_impl; [| exact Hl]. simpl. intros; lia.
Qed.

Lemma backupOf_timestamp (e : Dirent) (t : Z) :
  isBackupEntry e = true ->
  name (backupOf e t) = (".claude.backup." ++ timestamp (backupOf e t))%string
  /\ path (backupOf e t) = name (backupOf e t).
Proof.
  unfold isBackupEntry, backupOf. cbn [name timestamp path].
  intros H. apply andb_true_iff in H. destruct H as [_ H].
  split; [| reflexivity].
  unfold Str.replace, Str.find. rewrite firstSuffix_eq, H.
  apply startsWith_iff in H. destruct H as [rest Hrest].
  rewrite Hrest. reflexivity.
Qed.

End ListingMore.

Lemma in_backupsOf_inv (b : Backup.Backup) (es : list Backup.Dirent) :
  In b (BackupSpec.backupsOf es)
  <-> exists e t, In e es /\ Backup.isBackupEntry e = true
                  /\ Backup.birthtime e = Some t /\ b = Backup.backupOf e t.
Proof.
  unfold BackupSpec.backupsOf. rewrite in_flat_map. split.
  - intros [e [He Hb]].
    destruct (Backup.isBackupEntry e) eqn:Eb; [| contradiction].
    destruct (Backup.birthtime e) as [t |] eqn:Et; [| contradiction].
    destruct Hb as [<- | []]. now exists e, t.
  - intros (e & t & He & Eb & Et & ->). exists e. split; [assumption |].
    rewrite Eb, Et. now left.
Qed.

(** X18.  [listBackups] returns exactly when the project directory can be
    listed and every backup directory in it can be inspected; otherwise it
    throws.  What it returns are the directories whose name starts with
    ".claude.backup.", and nothing else, from the newest to the oldest,
    those of the same age in the order of the listing; the name of each is
    ".claude.backup." followed by its timestamp, and its path is its
    name. *)
Theorem listBackups_newest_first :
  forall dir : Backup.ProjectDir,
    ((exists bs, Backup.listBackups dir = Normal bs)
     <-> Backup.readable dir = true
         /\ forall e, In e (Backup.entries dir) ->
                      Backup.isBackupEntry e = true -> Backup.birthtime e <> None)
    /\ forall bs,
         Backup.listBackups dir = Normal bs ->
         Permutation (BackupSpec.backupsOf (Backup.entries dir)) bs
         /\ BackupSpec.newestFirst bs
         /\ (forall t,
               filter (fun b => (Backup.created b =? t)%Z) bs
               = filter (fun b => (Backup.created b =? t)%Z)
                        (BackupSpec.backupsOf (Backup.entries dir)))
         /\ (forall b, In b bs <->
               exists e t, In e (Backup.entries dir)
                           /\ Backup.isDirectory e = true
                           /\ Str.startsWith (Backup.entryName e) ".claude.backup." = true
                           /\ Backup.birthtime e = Some t
                           /\ b = Backup.backupOf e t)
         /\ (forall b, In b bs ->
               Backup.name b = (".claude.backup." ++ Backup.timestamp b)%string
               /\ Backup.path b = Backup.name b).
Proof.
  intros dir. unfold Backup.listBackups.
  destruct (Backup.readable dir).
  - pose proof (collectBackup_loop (Backup.entries dir) []) as Hloop.
    split.
    + rewrite <- Hloop.
      destruct (foldM Backup.collectBackup (Backup.entries dir) []); cbn [bind];
        split.
      * intros _. split; [reflexivity | now eexists].
      * intros _. now eexists.
      * intros [bs H]. discriminate.
      * intros [_ [bs H]]. discriminate.
    + intros bs H.
      destruct (foldM Backup.collectBackup (Backup.entries dir) []) as [acc |] eqn:E;
        [| discriminate].
      cbn [bind] in H. apply Normal_inj in H. subst bs.
      assert (Hall : forall e, In e (Backup.entries dir) ->
                               Backup.isBackupEntry e = true ->
                               Backup.birthtime e <> None)
        by (apply Hloop; now exists acc).
      rewrite (foldM_collectBackup _ [] Hall) in E. apply Normal_inj in E.
      cbn [app] in E. subst acc.
      assert (Hmem : forall b,
                 In b (Backup.sortNewestFirst (BackupSpec.backupsOf (Backup.entries dir)))
                 <-> In b (BackupSpec.backupsOf (Backup.entries dir))).
      { intros b. split; apply Permutation_in;
          [apply Permutation_sym |]; apply sortNewestFirst_perm. }
      repeat split.
      * apply sortNewestFirst_perm.
      * apply sortNewestFirst_sorted.
      * intros t. rewrite filter_sortNewestFirst. apply (sort_same_age t).
        apply Forall_forall. intros b Hb. apply filter_In in Hb.
        now apply Z.eqb_eq.
      * intros Hb. apply Hmem, in_backupsOf_inv in Hb.
        destruct Hb as (e & t & He & Eb & Et & ->).
        unfold Backup.isBackupEntry in Eb. apply andb_true_iff in Eb.
        exists e, t. tauto.
      * intros (e & t & He & Hd & Hs & Et & ->). apply Hmem, in_backupsOf_inv.
        exists e, t. unfold Backup.isBackupEntry. rewrite Hd, Hs. auto.
      * apply Hmem, in_backupsOf_inv in H.
        destruct H as (e & t & _ & Eb & _ & ->). now apply backupOf_timestamp.
      * apply Hmem, in_backupsOf_inv in H.
        destruct H as (e & t & _ & Eb & _ & ->). now apply backupOf_timestamp.
  - split; [| discriminate].
    split; [intros [bs H]; discriminate | intros [H _]; discriminate].
Qed.

Section PruningMore.
Import Backup BackupSpec.

(** [array.slice(from)] always is what is left after skipping. *)
Lemma array_slice_from_skips {A} (l : list A) (k : Z) :
  array_slice_from l k
  = skipn (Z.to_nat (clamp_index (Z.of_nat (List.length l)) k)) l.
Proof.
  unfold array_slice_from, array_slice.
  set (len := Z.of_nat (List.length l)).
  assert (Hc : (0 <= clamp_index len k <= len)%Z).
  { unfold clamp_index, len. destruct (k <? 0)%Z eqn:E; lia. }
  replace (clamp_index len len) with len
    by (unfold clamp_index, len; destruct (Z.ltb_spec (Z.of_nat (List.length l)) 0); lia).
  apply firstn_all2. rewrite length_skipn. unfold len in *. lia.
Qed.

(** The outcome of pruning, whatever the keep count. *)
Lemma cleanupBackups_outcome (dir : ProjectDir) (keepCount : Z) :
  wellFormed dir ->
  let bs := sortNewestFirst (backupsOf (entries dir)) in
  let toRemove := array_slice_from bs keepCount in
  cleanupBackups dir keepCount
  = Normal
      (if (Z.of_nat (List.length bs) <=? keepCount)%Z
       then ({| removed := 0; kept := Z.of_nat (List.length bs) |}, dir)
       else ({| removed := Z.of_nat (List.length
                                      (filter (fun b => removable dir (path b)) toRemove));
                kept := keepCount |},
             withEntries dir
               (filter (fun e => negb (goneAmong dir toRemove (entryName e)))
                       (entries dir)))).
Proof.
  intros Hwf bs toRemove. unfold cleanupBackups.
  rewrite (listBackups_wellFormed dir Hwf). cbn [bind]. fold bs.
  destruct (Z.of_nat (List.length bs) <=? keepCount)%Z; [reflexivity |].
  fold toRemove.
  assert (Hsub : forall b, In b toRemove -> In b bs).
  { unfold toRemove. rewrite array_slice_from_skips. intros b. apply in_skipn. }
  assert (Hnd : NoDup (map path bs)).
  { apply (Permutation_NoDup
             (Permutation_map path (sortNewestFirst_perm (backupsOf (entries dir))))).
    apply NoDup_backupsOf, Hwf. }
  rewrite removal_loop_from.
  - cbn [bind fst snd]. rewrite Z.add_0_l. reflexivity.
  - unfold toRemove. rewrite array_slice_from_skips.
    set (m := Z.to_nat _). rewrite <- (firstn_skipn m bs), map_app in Hnd.
    now apply NoDup_app_remove_l in Hnd.
  - intros b Hb. apply in_backupsOf.
    apply (Permutation_in _ (Permutation_sym (sortNewestFirst_perm _))), Hsub, Hb.
Qed.

(** Two entries of the same name in a directory are the same entry. *)
Lemma entry_by_name (es : list Dirent) (e e' : Dirent) :
  NoDup (map entryName es) -> In e es -> In e' es ->
  entryName e = entryName e' -> e = e'.
Proof.
  induction es as [| x l IH]; intros Hnd He He' Hn; [contradiction |].
  inversion Hnd as [| ? ? Hx Hl]; subst.
  destruct He as [-> | He], He' as [-> | He']; try reflexivity.
  - exfalso. apply Hx. rewrite Hn. now apply in_map.
  - exfalso. apply Hx. rewrite <- Hn. now apply in_map.
  - now apply IH.
Qed.


(** Pruning, when there are more backups than the keep count: what is
    skipped stays, and of the rest what can be removed goes. *)
Lemma cleanupBackups_beyond (dir : ProjectDir) (keepCount : Z) :
  wellFormed dir ->
  let bs := sortNewestFirst (backupsOf (entries dir)) in
  let m := Z.to_nat (clamp_index (Z.of_nat (List.length bs)) keepCount) in
  (keepCount < Z.of_nat (List.length bs))%Z ->
  exists dir',
    cleanupBackups dir keepCount
    = Normal ({| removed := Z.of_nat (List.length
                                        (filter (fun b => removable dir (path b))
                                                (skipn m bs)));
                 kept := keepCount |}, dir')
    /\ wellFormed dir'
    /\ removable dir' = removable dir
    /\ entries dir'
       = filter (fun e => negb (goneAmong dir (skipn m bs) (entryName e))) (entries dir)
    /\ listBackups dir'
       = Normal (firstn m bs
                 ++ filter (fun b => negb (removable dir (path b))) (skipn m bs)).
Proof.
  intros Hwf bs m Hlt.
  pose proof (cleanupBackups_outcome dir keepCount Hwf) as H. cbv zeta in H.
  fold bs in H. rewrite array_slice_from_skips in H. fold m in H.
  destruct (Z.leb_spec (Z.of_nat (List.length bs)) keepCount) as [Hle | _]; [lia |].
  eexists. split; [exact H |].
  assert (Hwf' := wellFormed_filter dir
                    (fun e => negb (goneAmong dir (skipn m bs) (entryName e))) Hwf).
  split; [exact Hwf' |]. split; [reflexivity |]. split; [reflexivity |].
  rewrite (listBackups_wellFormed _ Hwf'). cbn [entries withEntries].
  rewrite backupsOf_filter, <- filter_sortNewestFirst. fold bs. f_equal.
  apply filter_not_gone.
  apply (Permutation_NoDup
           (Permutation_map path (sortNewestFirst_perm (backupsOf (entries dir))))).
  apply NoDup_backupsOf, Hwf.
Qed.

End PruningMore.

(** X19.  Pruning touches nothing but backups.  Whatever the keep count, every
    entry of the project directory that is not a backup directory is
    still there afterwards, in the same place among the others; nothing
    is added; and what is gone are backup directories that were listed. *)
Theorem cleanupBackups_spares_everything_else :
  forall (dir dir' : Backup.ProjectDir) (keepCount : Z) (counts : Backup.Counts),
    BackupSpec.wellFormed dir ->
    Backup.cleanupBackups dir keepCount = Normal (counts, dir') ->
    filter (fun e => negb (Backup.isBackupEntry e)) (Backup.entries dir')
    = filter (fun e => negb (Backup.isBackupEntry e)) (Backup.entries dir)
    /\ (forall e, In e (Backup.entries dir') -> In e (Backup.entries dir))
    /\ (forall e, In e (Backup.entries dir) -> ~ In e (Backup.entries dir') ->
                  Backup.isBackupEntry e = true
                  /\ Backup.removable dir (Backup.entryName e) = true).
Proof.
  intros dir dir' keepCount counts Hwf H.
  rewrite (cleanupBackups_outcome dir keepCount Hwf) in H. cbv zeta in H.
  destruct (Z.of_nat _ <=? keepCount)%Z.
  - apply Normal_inj in H. injection H as _ <-.
    split; [reflexivity | split; [auto | intros e He Hn; contradiction]].
  - apply Normal_inj in H. injection H as _ <-. cbn [Backup.entries Backup.withEntries].
    set (toRemove := array_slice_from _ keepCount).
    assert (Hgone : forall e, In e (Backup.entries dir) ->
                      BackupSpec.goneAmong dir toRemove (Backup.entryName e) = true ->
                      Backup.isBackupEntry e = true
                      /\ Backup.removable dir (Backup.entryName e) = true).
    { intros e He Hg. unfold BackupSpec.goneAmong in Hg.
      apply andb_true_iff in Hg. destruct Hg as [Hex Hrm]. split; [| exact Hrm].
      apply existsb_path, in_map_iff in Hex. destruct Hex as [b [Hp Hb]].
      unfold toRemove in Hb. rewrite array_slice_from_skips in Hb.
      apply in_skipn in Hb.
      apply (Permutation_in _ (Permutation_sym (sortNewestFirst_perm _))) in Hb.
      apply in_backupsOf_inv in Hb. destruct Hb as (e' & t & He' & Eb & _ & ->).
      cbn [Backup.path Backup.backupOf] in Hp.
      destruct Hwf as (_ & Hnd & _).
      now rewrite <- (entry_by_name _ _ _ Hnd He' He Hp). }
    split; [| split].
    + rewrite filter_filter_entries. apply filter_ext_in. intros e He.
      destruct (Backup.isBackupEntry e) eqn:Eb; [now rewrite andb_false_r |].
      rewrite andb_true_r.
      destruct (BackupSpec.goneAmong dir toRemove (Backup.entryName e)) eqn:Eg;
        [| reflexivity].
      destruct (Hgone e He Eg). congruence.
    + intros e He. now apply filter_In in He.
    + intros e He Hn.
      destruct (BackupSpec.goneAmong dir toRemove (Backup.entryName e)) eqn:Eg.
      * now apply Hgone.
      * exfalso. apply Hn. apply filter_In. now rewrite Eg.
Qed.

(** Five backups and a source directory, two backups kept: the source
    directory is still there. *)
Lemma cleanupBackups_spares_everything_else_witness :
  BackupSpec.wellFormed Examples.fiveBackups
  /\ exists counts dir',
      Backup.cleanupBackups Examples.fiveBackups 2 = Normal (counts, dir')
      /\ map Backup.entryName
             (filter (fun e => negb (Backup.isBackupEntry e)) (Backup.entries dir'))
         = ["src"].
Proof.
  split; [exact fiveBackups_wellFormed |].
  destruct (Backup.cleanupBackups Examples.fiveBackups 2) as [[counts dir'] |] eqn:E;
    [| vm_compute in E; discriminate E].
  exists counts, dir'. split; [reflexivity |].
  destruct (cleanupBackups_spares_everything_else _ _ _ _ fiveBackups_wellFormed E)
    as [-> _].
  reflexivity.
Defined.

(** X20.  A negative keep count prunes from the old end.  With [keepCount]
    negative, only the [-keepCount] oldest backups are removed (all of
    them when there are fewer), the newer ones stay, and [kept] comes back
    as the negative number given. *)
Theorem cleanupBackups_negative_keep_count :
  forall (dir : Backup.ProjectDir) (keepCount : Z) (bs : list Backup.Backup),
    BackupSpec.wellFormed dir ->
    (keepCount < 0)%Z ->
    Backup.listBackups dir = Normal bs ->
    (forall b, In b bs -> Backup.removable dir (Backup.path b) = true) ->
    exists dir',
      Backup.cleanupBackups dir keepCount
      = Normal ({| Backup.removed := Z.min (- keepCount) (Z.of_nat (List.length bs));
                   Backup.kept := keepCount |}, dir')
      /\ Backup.listBackups dir'
         = Normal (firstn (List.length bs - Z.to_nat (- keepCount)) bs).
Proof.
  intros dir keepCount bs Hwf Hneg Hlist Hrm.
  rewrite (listBackups_wellFormed dir Hwf) in Hlist. apply Normal_inj in Hlist.
  destruct (cleanupBackups_beyond dir keepCount Hwf) as (dir' & Hc & _ & _ & _ & Hl).
  { lia. }
  rewrite Hlist in Hc, Hl.
  assert (Hm : Z.to_nat (clamp_index (Z.of_nat (List.length bs)) keepCount)
               = (List.length bs - Z.to_nat (- keepCount))%nat).
  { unfold clamp_index. destruct (Z.ltb_spec keepCount 0); lia. }
  rewrite Hm in Hc, Hl.
  exists dir'. split.
  - rewrite Hc. do 3 f_equal. rewrite filter_every.
    + rewrite length_skipn. lia.
    + intros b Hb. apply Hrm. now apply in_skipn in Hb.
  - rewrite Hl. f_equal. rewrite filter_none; [apply app_nil_r |].
    intros b Hb. apply negb_false_iff, Hrm. now apply in_skipn in Hb.
Qed.

(** Five backups and a keep count of -2: the two oldest go, three
    stay. *)
Lemma cleanupBackups_negative_keep_count_witness :
  BackupSpec.wellFormed Examples.fiveBackups
  /\ exists bs dir',
      Backup.listBackups Examples.fiveBackups = Normal bs
      /\ Backup.cleanupBackups Examples.fiveBackups (-2)
         = Normal ({| Backup.removed := 2; Backup.kept := -2 |}, dir')
      /\ Backup.listBackups dir' = Normal (firstn 3 bs).
Proof.
  split; [exact fiveBackups_wellFormed |].
  destruct (Backup.listBackups Examples.fiveBackups) as [bs |] eqn:E;
    [| vm_compute in E; discriminate E].
  destruct (cleanupBackups_negative_keep_count Examples.fiveBackups (-2) bs
              fiveBackups_wellFormed eq_refl E (fun _ _ => eq_refl))
    as (dir' & Hc & Hl).
  exists bs, dir'. split; [reflexivity |].
  assert (Hn : List.length bs = 5%nat).
  { vm_compute in E. apply Normal_inj in E. now subst bs. }
  rewrite Hn in Hc, Hl. split; [exact Hc | exact Hl].
Defined.

(** X21.  Pruning twice is pruning once.  When every backup can be removed and
    the keep count is not negative, a second run with the same keep count
    removes nothing, leaves the directory as the first run left it, and
    reports as kept the number of backups that are there. *)
Theorem cleanupBackups_twice :
  forall (dir : Backup.ProjectDir) (keepCount : Z) (bs : list Backup.Backup),
    BackupSpec.wellFormed dir ->
    (0 <= keepCount)%Z ->
    Backup.listBackups dir = Normal bs ->
    (forall b, In b bs -> Backup.removable dir (Backup.path b) = true) ->
    exists counts dir',
      Backup.cleanupBackups dir keepCount = Normal (counts, dir')
      /\ Backup.cleanupBackups dir' keepCount
         = Normal ({| Backup.removed := 0;
                      Backup.kept := Z.min keepCount (Z.of_nat (List.length bs)) |},
                   dir').
Proof.
  intros dir keepCount bs Hwf Hk Hlist Hrm.
  assert (Hbs := Hlist).
  rewrite (listBackups_wellFormed dir Hwf) in Hbs. apply Normal_inj in Hbs.
  destruct (Z.le_gt_cases (Z.of_nat (List.length bs)) keepCount) as [Hle | Hgt].
  - (* nothing to prune, either time *)
    assert (Hc : Backup.cleanupBackups dir keepCount
                 = Normal ({| Backup.removed := 0;
                              Backup.kept := Z.of_nat (List.length bs) |}, dir)).
    { rewrite (cleanupBackups_outcome dir keepCount Hwf). cbv zeta. rewrite Hbs.
      destruct (Z.leb_spec (Z.of_nat (List.length bs)) keepCount); [reflexivity | lia]. }
    exists {| Backup.removed := 0; Backup.kept := Z.of_nat (List.length bs) |}, dir.
    split; [exact Hc |]. rewrite Hc. do 3 f_equal. lia.
  - destruct (cleanupBackups_beyond dir keepCount Hwf)
      as (dir' & Hc & Hwf' & _ & _ & Hl); [rewrite Hbs; lia |].
    rewrite Hbs in Hc, Hl.
    assert (Hm : Z.to_nat (clamp_index (Z.of_nat (List.length bs)) keepCount)
                 = Z.to_nat keepCount).
    { unfold clamp_index. destruct (Z.ltb_spec keepCount 0); lia. }
    rewrite Hm in Hc, Hl.
    rewrite (filter_none (fun b => negb (Backup.removable dir (Backup.path b)))), app_nil_r
      in Hl
      by (intros b Hb; apply negb_false_iff, Hrm; now apply in_skipn in Hb).
    eexists. exists dir'. split; [exact Hc |].
    rewrite (cleanupBackups_outcome dir' keepCount Hwf'). cbv zeta.
    rewrite (listBackups_wellFormed dir' Hwf') in Hl. apply Normal_inj in Hl.
    rewrite Hl, length_firstn.
    destruct (Z.leb_spec (Z.of_nat (Nat.min (Z.to_nat keepCount) (List.length bs)))
                         keepCount); [| lia].
    do 3 f_equal. lia.
Qed.

(** Five backups, two kept: the first run removes three, the second
    none. *)
Lemma cleanupBackups_twice_witness :
  BackupSpec.wellFormed Examples.fiveBackups
  /\ exists dir',
      Backup.cleanupBackups Examples.fiveBackups 2
      = Normal ({| Backup.removed := 3; Backup.kept := 2 |}, dir')
      /\ Backup.cleanupBackups dir' 2
         = Normal ({| Backup.removed := 0; Backup.kept := 2 |}, dir').
Proof.
  split; [exact fiveBackups_wellFormed |].
  destruct (Backup.listBackups Examples.fiveBackups) as [bs |] eqn:E;
    [| vm_compute in E; discriminate E].
  destruct (cleanupBackups_twice Examples.fiveBackups 2 bs
              fiveBackups_wellFormed ltac:(lia) E (fun _ _ => eq_refl))
    as (counts & dir' & Hc & Hc').
  assert (Hn : List.length bs = 5%nat).
  { vm_compute in E. apply Normal_inj in E. now subst bs. }
  rewrite Hn in Hc'. exists dir'. split; [| exact Hc'].
  rewrite Hc. f_equal. f_equal.
  assert (H : exists d, Backup.cleanupBackups Examples.fiveBackups 2
                        = Normal ({| Backup.removed := 3; Backup.kept := 2 |}, d))
    by (eexists; reflexivity).
  destruct H as [d H]. rewrite Hc in H. apply Normal_inj in H.
  now injection H as ->.
Defined.

(* ===================================================================== *)
(** * Copying, backing up and restoring directories *)
(* ===================================================================== *)

Section MapMore.
Variable V : Type.
Implicit Types (m : list (string * V)) (k n : string) (v : V).

Lemma get_absent_iff k m : JsMap.get k m = None <-> ~ In k (map fst m).
Proof.
  induction m as [| [k' v'] m IH]; simpl; [tauto |].
  destruct (String.eqb k k') eqn:E.
  - apply String.eqb_eq in E. subst. split; [discriminate | tauto].
  - apply String.eqb_neq in E. rewrite IH. intuition congruence.
Qed.

Lemma set_absent k v m : JsMap.get k m = None -> JsMap.set k v m = m ++ [(k, v)].
Proof.
  induction m as [| [k' v'] m IH]; simpl; [reflexivity |].
  destruct (String.eqb k k'); [discriminate |].
  intros H. now rewrite IH.
Qed.

Lemma set_set k v v' m : JsMap.set k v (JsMap.set k v' m) = JsMap.set k v m.
Proof.
  induction m as [| [k' w] m IH]; simpl.
  - now rewrite String.eqb_refl.
  - destruct (String.eqb k k') eqn:E; simpl.
    + now rewrite String.eqb_refl.
    + now rewrite E, IH.
Qed.

Lemma get_deleted k m : JsMap.get k (JsMap.delete k m) = None.
Proof.
  unfold JsMap.delete.
  induction m as [| [k' w] m IH]; simpl; [reflexivity |].
  destruct (String.eqb k k') eqn:E; simpl; [exact IH |].
  now rewrite E.
Qed.

Lemma get_middle k v (done todo : list (string * V)) :
  NoDup (map fst (done ++ (k, v) :: todo)) ->
  JsMap.get k (done ++ (k, v) :: todo) = Some v /\ JsMap.get k done = None.
Proof.
  rewrite map_app. simpl. intros H.
  apply NoDup_remove_2 in H.
  assert (Hd : ~ In k (map fst done)) by (intros Hin; apply H, in_or_app; now left).
  split; [| now apply get_absent_iff].
  clear H. induction done as [| [k' w] done IH]; simpl.
  - now rewrite String.eqb_refl.
  - destruct (String.eqb k k') eqn:E.
    + apply String.eqb_eq in E. subst. exfalso. apply Hd. now left.
    + apply IH. intros Hin. apply Hd. now right.
Qed.

End MapMore.

Section Paths.
Import Disk DiskSpec.
Implicit Types (fs n : Node) (p q src dest parent : Path) (name : string).

Lemma apart_app p q p' q' : apart p q -> apart (p ++ p') (q ++ q').
Proof.
  revert q. induction p as [| x p IH]; intros [| y q]; simpl; try tauto.
  intros [H | H]; [now left | right; now apply IH].
Qed.

Lemma apart_sym p q : apart p q -> apart q p.
Proof.
  revert q. induction p as [| x p IH]; intros [| y q]; simpl; try tauto.
  intros [H | H]; [left; congruence | right; now apply IH].
Qed.

Lemma apart_siblings parent (a b : string) :
  a <> b -> apart (parent ++ [a]) (parent ++ [b]).
Proof.
  intros H. induction parent as [| x parent IH]; simpl; [now left | now right].
Qed.

Lemma walk_app fs p q : walk fs (p ++ q) = (n <- walk fs p ;; walk n q).
Proof.
  revert fs. induction p as [| seg p IH]; intros fs; simpl; [reflexivity |].
  destruct fs as [text | entries]; [reflexivity |].
  destruct (JsMap.get seg entries); [apply IH | reflexivity].
Qed.

Lemma walk_child fs p entries name :
  walk fs p = Normal (Dir entries) ->
  walk fs (p ++ [name])
  = match JsMap.get name entries with
    | Some child => Normal child
    | None => Throw "ENOENT"
    end.
Proof.
  intros H. rewrite walk_app, H. simpl.
  now destruct (JsMap.get name entries).
Qed.

Lemma walk_parent fs p name node :
  walk fs (p ++ [name]) = Normal node ->
  exists entries,
    walk fs p = Normal (Dir entries) /\ JsMap.get name entries = Some node.
Proof.
  rewrite walk_app. destruct (walk fs p) as [[text | entries] | e]; simpl;
    try discriminate.
  destruct (JsMap.get name entries) eqn:E; [| discriminate].
  intros [= <-]. now exists entries.
Qed.

Lemma walk_place_same fs p node fs' :
  place fs p node = Normal fs' -> walk fs' p = Normal node.
Proof.
  revert fs fs'. induction p as [| seg rest IH]; intros fs fs'; simpl.
  - now intros [= <-].
  - destruct fs as [text | entries]; [discriminate |].
    destruct (JsMap.get seg entries) as [child |] eqn:E.
    + destruct (place child rest node) as [child' |] eqn:Ec; simpl; [| discriminate].
      intros [= <-]. simpl. rewrite get_set, String.eqb_refl. now apply (IH child).
    + destruct rest; [| discriminate].
      intros [= <-]. simpl. now rewrite get_set, String.eqb_refl.
Qed.

Lemma walk_place_apart fs p node fs' q :
  place fs p node = Normal fs' -> apart q p -> walk fs' q = walk fs q.
Proof.
  revert fs fs' q. induction p as [| seg rest IH]; intros fs fs' q; simpl.
  - destruct q; simpl; tauto.
  - destruct fs as [text | entries]; [discriminate |].
    destruct q as [| y q]; [simpl; tauto |].
    intros H Hq. simpl in Hq.
    assert (Hget : forall child', fs' = Dir (JsMap.set seg child' entries) ->
                     y <> seg -> walk fs' (y :: q) = walk (Dir entries) (y :: q)).
    { intros child' -> Hne. simpl. rewrite get_set.
      apply String.eqb_neq in Hne. now rewrite Hne. }
    destruct (JsMap.get seg entries) as [child |] eqn:E.
    + destruct (place child rest node) as [child' |] eqn:Ec; simpl in H; [| discriminate].
      injection H as <-.
      destruct (String.eqb y seg) eqn:Ey.
      * apply String.eqb_eq in Ey. subst y.
        destruct Hq as [Hq | Hq]; [congruence |].
        simpl. rewrite get_set, String.eqb_refl, E. now apply (IH child).
      * apply String.eqb_neq in Ey. now apply (Hget child').
    + destruct rest; [| discriminate]. injection H as <-.
      destruct Hq as [Hq | Hq]; [now apply (Hget node) |].
      destruct q; contradiction.
Qed.

(** Putting a directory in place and then an entry into it is putting
    the directory with the entry in place. *)
Lemma place_place fs dest (done : list (string * Node)) fs_k name node :
  place fs dest (Dir done) = Normal fs_k ->
  JsMap.get name done = None ->
  place fs_k (dest ++ [name]) node
  = place fs dest (Dir (done ++ [(name, node)])).
Proof.
  intros H Hname. revert fs fs_k H.
  induction dest as [| seg rest IH]; intros fs fs_k; simpl.
  - intros [= <-]. simpl. rewrite Hname. now rewrite (set_absent _ name node done Hname).
  - destruct fs as [text | entries]; [discriminate |].
    destruct (JsMap.get seg entries) as [child |] eqn:E.
    + destruct (place child rest (Dir done)) as [child_k |] eqn:Ec; simpl;
        [| discriminate].
      intros [= <-]. rewrite get_set, String.eqb_refl.
      rewrite (IH child child_k Ec).
      destruct (place child rest (Dir (done ++ [(name, node)]))); simpl;
        [| reflexivity].
      now rewrite set_set.
    + destruct rest; [| discriminate].
      intros [= <-]. simpl. rewrite get_set, String.eqb_refl. simpl.
      rewrite Hname. simpl. now rewrite set_set, (set_absent _ name node done Hname).
Qed.

Lemma place_vacant fs parent name node :
  vacant fs parent name ->
  exists fs', place fs (parent ++ [name]) node = Normal fs'.
Proof.
  intros [entries [Hw Hg]]. revert fs Hw.
  induction parent as [| seg rest IH]; intros fs; simpl.
  - intros [= ->]. rewrite Hg. eauto.
  - destruct fs as [text | es]; [discriminate |].
    destruct (JsMap.get seg es) as [child |]; [| discriminate].
    intros Hw. destruct (IH child Hw) as [child' ->]. simpl. eauto.
Qed.

Lemma mkdirp_vacant fs parent name :
  vacant fs parent name ->
  mkdirp fs (parent ++ [name]) = place fs (parent ++ [name]) (Dir []).
Proof.
  intros [entries [Hw Hg]]. revert fs Hw.
  induction parent as [| seg rest IH]; intros fs; simpl.
  - intros [= ->]. now rewrite Hg.
  - destruct fs as [text | es]; [discriminate |].
    destruct (JsMap.get seg es) as [child |] eqn:E; [| discriminate].
    intros Hw. now rewrite (IH child Hw).
Qed.

Lemma remove_present fs parent name entries child :
  walk fs parent = Normal (Dir entries) ->
  JsMap.get name entries = Some child ->
  exists fs',
    remove fs (parent ++ [name]) = Normal fs'
    /\ walk fs' parent = Normal (Dir (JsMap.delete name entries))
    /\ forall q, apart q (parent ++ [name]) -> walk fs' q = walk fs q.
Proof.
  intros Hw Hg. revert fs Hw.
  induction parent as [| seg rest IH]; intros fs; simpl.
  - intros [= ->]. rewrite Hg. eexists. split; [reflexivity |].
    split; [reflexivity |].
    intros [| y q]; simpl; [tauto |].
    intros [Hne | Hq]; [| destruct q; contradiction]. now rewrite get_delete_ne.
  - destruct fs as [text | es]; [discriminate |].
    destruct (JsMap.get seg es) as [c |] eqn:E; [| discriminate].
    intros Hw. destruct (IH c Hw) as [c' [Hr [Hw' Hframe]]].
    rewrite Hr. simpl.
    destruct (rest ++ [name]) eqn:Erest; [now destruct rest |].
    rewrite <- Erest in *. clear Erest.
    eexists. split; [reflexivity |].
    split; [simpl; now rewrite get_set, String.eqb_refl |].
    intros [| y q]; simpl; [tauto |].
    intros Hq. rewrite get_set.
    destruct (String.eqb y seg) eqn:Ey.
    + apply String.eqb_eq in Ey. subst y. rewrite E.
      destruct Hq as [Hq | Hq]; [congruence | now apply Hframe].
    + reflexivity.
Qed.

Lemma remove_absent fs parent name :
  vacant fs parent name -> remove fs (parent ++ [name]) = Throw "ENOENT".
Proof.
  intros [entries [Hw Hg]]. revert fs Hw.
  induction parent as [| seg rest IH]; intros fs; simpl.
  - intros [= ->]. now rewrite Hg.
  - destruct fs as [text | es]; [discriminate |].
    destruct (JsMap.get seg es) as [c |] eqn:E; [| discriminate].
    intros Hw. rewrite (IH c Hw). simpl.
    now destruct (rest ++ [name]) eqn:Erest; [destruct rest |].
Qed.

Lemma depth_entry (entries : list (string * Node)) name child :
  In (name, child) entries -> depth child < depth (Dir entries).
Proof.
  simpl. induction entries as [| [k c] entries IH]; simpl; [tauto |].
  intros [[= -> ->] | H]; [lia |].
  specialize (IH H). lia.
Qed.

Lemma distinctNames_entry (entries : list (string * Node)) name child :
  distinctNames (Dir entries) -> In (name, child) entries -> distinctNames child.
Proof.
  simpl. intros [_ H]. induction entries as [| [k c] entries IH]; simpl in *; [tauto |].
  intros [[= -> ->] | Hin]; [tauto | apply IH; tauto].
Qed.

End Paths.

Section Copying.
Import Disk DiskSpec.
Implicit Types (fs : Node) (src dest parent : Path) (name : string).

(** What [copyDir] does with the entries it has read: each step puts
    one more entry into the directory it is making. *)
Lemma copyDir_loop (fuel : nat) src parent name fs (tree : list (string * Node))
  (IH : forall src parent name fs (tree : list (string * Node)),
      depth (Dir tree) < fuel ->
      distinctNames (Dir tree) ->
      walk fs src = Normal (Dir tree) ->
      apart src (parent ++ [name]) ->
      vacant fs parent name ->
      exists fs',
        copyDir fuel src (parent ++ [name]) fs = Some (Normal tt, fs')
        /\ place fs (parent ++ [name]) (Dir tree) = Normal fs') :
  depth (Dir tree) < S fuel ->
  distinctNames (Dir tree) ->
  walk fs src = Normal (Dir tree) ->
  apart src (parent ++ [name]) ->
  vacant fs parent name ->
  forall (todo done : list (string * Node)) fs_k,
    tree = done ++ todo ->
    place fs (parent ++ [name]) (Dir done) = Normal fs_k ->
    exists fs',
      forEach (map (fun kv => (fst kv, isDir (snd kv))) todo)
        (fun entry =>
           if snd entry
           then copyDir fuel (src ++ [fst entry]) ((parent ++ [name]) ++ [fst entry])
           else copyFile (src ++ [fst entry]) ((parent ++ [name]) ++ [fst entry]))
        fs_k
      = Some (Normal tt, fs')
      /\ place fs (parent ++ [name]) (Dir (done ++ todo)) = Normal fs'.
Proof.
  intros Hdepth Hnames Hsrc Hapart Hvacant.
  induction todo as [| [n c] todo IHt]; intros done fs_k Htree Hk.
  - exists fs_k. rewrite app_nil_r. now split.
  - assert (Hsrc_k : walk fs_k src = Normal (Dir tree))
      by (now rewrite (walk_place_apart _ _ _ _ _ Hk Hapart)).
    assert (Hdest_k : walk fs_k (parent ++ [name]) = Normal (Dir done))
      by (now apply (walk_place_same fs)).
    destruct Hnames as [Hnodup Hsub] eqn:Hn'. clear Hn'.
    assert (Hmid := Hnodup). rewrite Htree in Hmid.
    apply get_middle in Hmid. destruct Hmid as [Hget Hnone].
    rewrite <- Htree in Hget.
    assert (Hsrcn : walk fs_k (src ++ [n]) = Normal c)
      by (now rewrite (walk_child _ _ _ n Hsrc_k), Hget).
    assert (Hin : In (n, c) tree) by (rewrite Htree; apply in_elt).
    assert (Hstep : forall fs1,
               place fs_k ((parent ++ [name]) ++ [n]) c = Normal fs1 ->
               place fs (parent ++ [name]) (Dir (done ++ [(n, c)])) = Normal fs1)
      by (intros fs1 H1; now rewrite <- (place_place _ _ _ _ _ _ Hk Hnone)).
    assert (Hnext : forall fs1,
               place fs (parent ++ [name]) (Dir (done ++ [(n, c)])) = Normal fs1 ->
               exists fs',
                 forEach (map (fun kv => (fst kv, isDir (snd kv))) todo)
                   (fun entry =>
                      if snd entry
                      then copyDir fuel (src ++ [fst entry])
                             ((parent ++ [name]) ++ [fst entry])
                      else copyFile (src ++ [fst entry])
                             ((parent ++ [name]) ++ [fst entry]))
                   fs1
                 = Some (Normal tt, fs')
                 /\ place fs (parent ++ [name]) (Dir (done ++ (n, c) :: todo))
                    = Normal fs').
    { intros fs1 H1.
      destruct (IHt (done ++ [(n, c)]) fs1) as [fs' [Hrun Hplace]];
        [now rewrite <- app_assoc | exact H1 |].
      rewrite <- app_assoc in Hplace. now exists fs'. }
    cbn [map forEach fst snd]. unfold andThen at 1.
    destruct c as [text | sub]; cbn [isDir].
    + unfold copyFile, writing, copied. rewrite Hsrcn. cbn [bind].
      rewrite (walk_child _ _ _ n Hdest_k), Hnone.
      destruct (place_vacant fs parent name (Dir (done ++ [(n, File text)])) Hvacant)
        as [fs1 H1].
      rewrite (place_place _ _ _ _ _ _ Hk Hnone), H1.
      apply Hnext, H1.
    + destruct (IH (src ++ [n]) (parent ++ [name]) n fs_k sub) as [fs1 [Hrun Hplace]].
      * apply (depth_entry _ _ _) in Hin. lia.
      * apply (distinctNames_entry tree n); [now split | exact Hin].
      * exact Hsrcn.
      * now apply apart_app.
      * now exists done.
      * rewrite Hrun. apply Hnext, Hstep, Hplace.
Qed.

(** [copyDir] into a free path makes the directory, with all it holds,
    appear there. *)
Lemma copyDir_places : forall (fuel : nat) src parent name fs
                              (tree : list (string * Node)),
  depth (Dir tree) < fuel ->
  distinctNames (Dir tree) ->
  walk fs src = Normal (Dir tree) ->
  apart src (parent ++ [name]) ->
  vacant fs parent name ->
  exists fs',
    copyDir fuel src (parent ++ [name]) fs = Some (Normal tt, fs')
    /\ place fs (parent ++ [name]) (Dir tree) = Normal fs'.
Proof.
  induction fuel as [| fuel IH];
    intros src parent name fs tree Hdepth Hnames Hsrc Hapart Hvacant; [lia |].
  destruct (place_vacant fs parent name (Dir []) Hvacant) as [fs0 H0].
  cbn [copyDir]. unfold andThen at 1. unfold mkdir, writing.
  rewrite (mkdirp_vacant _ _ _ Hvacant), H0.
  unfold andThen at 1. unfold readdir, reading, listing.
  rewrite (walk_place_apart _ _ _ _ _ H0 Hapart), Hsrc. cbn [bind].
  exact (copyDir_loop fuel src parent name fs tree IH
           Hdepth Hnames Hsrc Hapart Hvacant tree [] fs0 eq_refl H0).
Qed.

End Copying.

Section BackingUp.
Import Disk DiskSpec.
Implicit Types (fs : Node) (src dest parent projectPath backupPath : Path).

Lemma backupName_not_claude (iso : string) : ".claude" <> backupName iso.
Proof. unfold backupName. simpl. discriminate. Qed.

(** Clearing the way for a restore: whether [fs.rm] succeeds or throws,
    [.claude] is free afterwards and nothing beside it has changed. *)
Lemma restore_clears fs projectPath (entries : list (string * Node)) :
  walk fs projectPath = Normal (Dir entries) ->
  exists fs1,
    try (rm (projectPath ++ [".claude"])) (fun _ => ret tt) fs = Some (Normal tt, fs1)
    /\ vacant fs1 projectPath ".claude"
    /\ forall q, apart q (projectPath ++ [".claude"]) -> walk fs1 q = walk fs q.
Proof.
  intros Hp. unfold try, rm, writing.
  destruct (JsMap.get ".claude" entries) as [c |] eqn:E.
  - destruct (remove_present fs projectPath ".claude" entries c Hp E)
      as [fs1 [Hr [Hw Hframe]]].
    rewrite Hr. exists fs1. split; [reflexivity |]. split; [| exact Hframe].
    exists (JsMap.delete ".claude" entries). split; [exact Hw | apply get_deleted].
  - assert (Hv : vacant fs projectPath ".claude") by now exists entries.
    rewrite (remove_absent fs projectPath ".claude" Hv).
    exists fs. split; [reflexivity |]. now split.
Qed.

Lemma backup_core (fuel : nat) projectPath (iso : string) fs
      (tree : list (string * Node)) :
  walk fs (projectPath ++ [".claude"]) = Normal (Dir tree) ->
  distinctNames (Dir tree) ->
  vacant fs projectPath (backupName iso) ->
  depth (Dir tree) < fuel ->
  exists fs',
    backupExisting fuel projectPath iso fs
    = Some (Normal (Some (projectPath ++ [backupName iso])), fs')
    /\ walk fs' (projectPath ++ [backupName iso]) = Normal (Dir tree)
    /\ forall q, apart q (projectPath ++ [backupName iso]) -> walk fs' q = walk fs q.
Proof.
  intros Hclaude Hnames Hvacant Hfuel.
  assert (Hapart : apart (projectPath ++ [".claude"]) (projectPath ++ [backupName iso]))
    by apply apart_siblings, backupName_not_claude.
  destruct (copyDir_places fuel _ projectPath (backupName iso) fs tree
              Hfuel Hnames Hclaude Hapart Hvacant) as [fs' [Hrun Hplace]].
  exists fs'. split; [| split].
  - unfold backupExisting, try, andThen, access, reading.
    rewrite Hclaude. cbn [bind]. now rewrite Hrun.
  - now apply (walk_place_same fs).
  - intros q Hq. exact (walk_place_apart _ _ _ _ _ Hplace Hq).
Qed.

Lemma restore_core (fuel : nat) backupPath projectPath fs
      (entries tree : list (string * Node)) :
  walk fs projectPath = Normal (Dir entries) ->
  walk fs backupPath = Normal (Dir tree) ->
  apart backupPath (projectPath ++ [".claude"]) ->
  distinctNames (Dir tree) ->
  depth (Dir tree) < fuel ->
  exists fs',
    restoreFromBackup fuel backupPath projectPath fs = Some (Normal tt, fs')
    /\ walk fs' (projectPath ++ [".claude"]) = Normal (Dir tree)
    /\ forall q, apart q (projectPath ++ [".claude"]) -> walk fs' q = walk fs q.
Proof.
  intros Hp Hb Hapart Hnames Hfuel.
  destruct (restore_clears fs projectPath entries Hp) as [fs1 [Hclear [Hv Hframe]]].
  assert (Hb1 : walk fs1 backupPath = Normal (Dir tree))
    by (now rewrite (Hframe _ Hapart)).
  destruct (copyDir_places fuel backupPath projectPath ".claude" fs1 tree
              Hfuel Hnames Hb1 Hapart Hv) as [fs' [Hrun Hplace]].
  exists fs'. split; [| split].
  - unfold restoreFromBackup, andThen. now rewrite Hclear.
  - now apply (walk_place_same fs1).
  - intros q Hq. rewrite <- (Hframe q Hq).
    exact (walk_place_apart _ _ _ _ _ Hplace Hq).
Qed.

End BackingUp.

(** X22.  [copyDir] into a path that is free, from a directory that the path
    does not lie in: with fuel for the depth of the directory it
    resolves, the path then holds the directory with everything in it,
    files and directories in the same order, and every path that does
    not lead to or through the copy holds what it held; the source is
    one of them. *)
Theorem copyDir_copies_tree (fuel : nat) (src parent : Disk.Path) (name : string)
        (fs : Disk.Node) (tree : list (string * Disk.Node)) :
  Disk.walk fs src = Normal (Disk.Dir tree) ->
  DiskSpec.distinctNames (Disk.Dir tree) ->
  DiskSpec.apart src (parent ++ [name]) ->
  DiskSpec.vacant fs parent name ->
  DiskSpec.depth (Disk.Dir tree) < fuel ->
  exists fs',
    Disk.copyDir fuel src (parent ++ [name]) fs = Some (Normal tt, fs')
    /\ Disk.walk fs' (parent ++ [name]) = Normal (Disk.Dir tree)
    /\ forall q, DiskSpec.apart q (parent ++ [name]) ->
                 Disk.walk fs' q = Disk.walk fs q.
Proof.
  intros Hsrc Hnames Hapart Hvacant Hfuel.
  destruct (copyDir_places fuel src parent name fs tree
              Hfuel Hnames Hsrc Hapart Hvacant) as [fs' [Hrun Hplace]].
  exists fs'. split; [exact Hrun |]. split.
  - now apply (walk_place_same fs).
  - intros q Hq. exact (walk_place_apart _ _ _ _ _ Hplace Hq).
Qed.

Lemma workplace_names : DiskSpec.distinctNames (Disk.Dir Workplace.configuration).
Proof.
  simpl. repeat split; repeat constructor; simpl; intuition discriminate.
Qed.

(** The configuration of the project [demo], copied to [demo/copy]. *)
Lemma copyDir_copies_tree_witness :
  exists fs',
    Disk.copyDir 4 ["demo"; ".claude"] (["demo"] ++ ["copy"]) Workplace.disk
    = Some (Normal tt, fs')
    /\ Disk.walk fs' (["demo"] ++ ["copy"]) = Normal (Disk.Dir Workplace.configuration)
    /\ forall q, DiskSpec.apart q (["demo"] ++ ["copy"]) ->
                 Disk.walk fs' q = Disk.walk Workplace.disk q.
Proof.
  apply (copyDir_copies_tree 4 ["demo"; ".claude"] ["demo"] "copy" Workplace.disk
           Workplace.configuration).
  - reflexivity.
  - exact workplace_names.
  - simpl. right. left. discriminate.
  - eexists. split; reflexivity.
  - simpl. lia.
Defined.

(** X23.  [backupExisting] of a project whose [.claude] is a directory, at a
    time for which no backup exists yet: it resolves to the path
    [.claude.backup.<time>] in the project; that path then holds all
    that [.claude] holds, and nothing else on the disk has changed,
    [.claude] included. *)
Theorem backupExisting_copies_configuration
        (fuel : nat) (projectPath : Disk.Path) (iso : string)
        (fs : Disk.Node) (tree : list (string * Disk.Node)) :
  Disk.walk fs (projectPath ++ [".claude"]) = Normal (Disk.Dir tree) ->
  DiskSpec.distinctNames (Disk.Dir tree) ->
  DiskSpec.vacant fs projectPath (Disk.backupName iso) ->
  DiskSpec.depth (Disk.Dir tree) < fuel ->
  exists fs',
    Disk.backupExisting fuel projectPath iso fs
    = Some (Normal (Some (projectPath ++ [Disk.backupName iso])), fs')
    /\ Disk.walk fs' (projectPath ++ [Disk.backupName iso]) = Normal (Disk.Dir tree)
    /\ forall q, DiskSpec.apart q (projectPath ++ [Disk.backupName iso]) ->
                 Disk.walk fs' q = Disk.walk fs q.
Proof. exact (fun H1 H2 H3 H4 => backup_core fuel projectPath iso fs tree H1 H2 H3 H4). Qed.

Lemma backupExisting_copies_configuration_witness :
  exists fs',
    Disk.backupExisting 4 ["demo"] Workplace.iso Workplace.disk
    = Some (Normal (Some ["demo"; ".claude.backup.2024-01-15T10-30-00-000Z"]), fs')
    /\ Disk.walk fs' ["demo"; ".claude.backup.2024-01-15T10-30-00-000Z"]
       = Normal (Disk.Dir Workplace.configuration)
    /\ forall q,
        DiskSpec.apart q ["demo"; ".claude.backup.2024-01-15T10-30-00-000Z"] ->
        Disk.walk fs' q = Disk.walk Workplace.disk q.
Proof.
  apply (backupExisting_copies_configuration 4 ["demo"] Workplace.iso Workplace.disk
           Workplace.configuration).
  - reflexivity.
  - exact workplace_names.
  - eexists. split; reflexivity.
  - simpl. lia.
Defined.

(** X24.  [backupExisting] of a project in which [.claude] is a file: the
    check that it exists passes, the backup directory is made, and only
    then the listing fails.  It throws [Failed to backup], and the empty
    backup directory stays behind. *)
Theorem backupExisting_of_a_file_leaves_empty_backup
        (fuel : nat) (projectPath : Disk.Path) (iso text : string) (fs : Disk.Node) :
  Disk.walk fs (projectPath ++ [".claude"]) = Normal (Disk.File text) ->
  DiskSpec.vacant fs projectPath (Disk.backupName iso) ->
  exists fs',
    Disk.backupExisting (S fuel) projectPath iso fs
    = Some (Throw "Failed to backup: ENOTDIR", fs')
    /\ Disk.walk fs' (projectPath ++ [Disk.backupName iso]) = Normal (Disk.Dir [])
    /\ forall q, DiskSpec.apart q (projectPath ++ [Disk.backupName iso]) ->
                 Disk.walk fs' q = Disk.walk fs q.
Proof.
  intros Hclaude Hvacant.
  destruct (place_vacant fs projectPath (Disk.backupName iso) (Disk.Dir []) Hvacant)
    as [fs0 H0].
  assert (Hapart : DiskSpec.apart (projectPath ++ [".claude"])
                     (projectPath ++ [Disk.backupName iso]))
    by apply apart_siblings, backupName_not_claude.
  exists fs0. split; [| split].
  - unfold Disk.backupExisting, Disk.try, Disk.andThen at 1, Disk.access, Disk.reading.
    rewrite Hclaude. cbn [bind Disk.copyDir].
    unfold Disk.andThen at 1. unfold Disk.andThen at 1. unfold Disk.mkdir, Disk.writing.
    rewrite (mkdirp_vacant _ _ _ Hvacant), H0.
    unfold Disk.andThen at 1. unfold Disk.readdir, Disk.reading, Disk.listing.
    rewrite (walk_place_apart _ _ _ _ _ H0 Hapart), Hclaude. reflexivity.
  - now apply (walk_place_same fs).
  - intros q Hq. exact (walk_place_apart _ _ _ _ _ H0 Hq).
Qed.

Lemma backupExisting_of_a_file_leaves_empty_backup_witness :
  exists fs',
    Disk.backupExisting 1 ["demo"] Workplace.iso Workplace.oddDisk
    = Some (Throw "Failed to backup: ENOTDIR", fs')
    /\ Disk.walk fs' (["demo"] ++ [Disk.backupName Workplace.iso])
       = Normal (Disk.Dir [])
    /\ forall q, DiskSpec.apart q (["demo"] ++ [Disk.backupName Workplace.iso]) ->
                 Disk.walk fs' q = Disk.walk Workplace.oddDisk q.
Proof.
  apply (backupExisting_of_a_file_leaves_empty_backup
           0 ["demo"] Workplace.iso "not a directory" Workplace.oddDisk).
  - reflexivity.
  - eexists. split; reflexivity.
Defined.

(** X25.  [restoreFromBackup] from a directory that is not [.claude] nor
    inside it, into a project directory that exists: it resolves, and
    [.claude] then holds what the backup holds and nothing more, whether
    or not there was a [.claude] before and whatever was in it; the rest
    of the disk, the backup included, is as it was. *)
Theorem restoreFromBackup_replaces_configuration
        (fuel : nat) (backupPath projectPath : Disk.Path) (fs : Disk.Node)
        (entries tree : list (string * Disk.Node)) :
  Disk.walk fs projectPath = Normal (Disk.Dir entries) ->
  Disk.walk fs backupPath = Normal (Disk.Dir tree) ->
  DiskSpec.apart backupPath (projectPath ++ [".claude"]) ->
  DiskSpec.distinctNames (Disk.Dir tree) ->
  DiskSpec.depth (Disk.Dir tree) < fuel ->
  exists fs',
    Disk.restoreFromBackup fuel backupPath projectPath fs = Some (Normal tt, fs')
    /\ Disk.walk fs' (projectPath ++ [".claude"]) = Normal (Disk.Dir tree)
    /\ forall q, DiskSpec.apart q (projectPath ++ [".claude"]) ->
                 Disk.walk fs' q = Disk.walk fs q.
Proof.
  exact (fun H1 H2 H3 H4 H5 =>
           restore_core fuel backupPath projectPath fs entries tree H1 H2 H3 H4 H5).
Qed.

(** The skills of the project [demo] restored as if they were a backup:
    [.claude] then holds the one skill, and the settings are gone. *)
Lemma restoreFromBackup_replaces_configuration_witness :
  exists fs',
    Disk.restoreFromBackup 3 ["demo"; ".claude"; "skills"] ["elsewhere"]
      (Disk.Dir [("elsewhere", Disk.Dir []); ("demo", Disk.Dir [(".claude", Disk.Dir Workplace.configuration)])])
    = Some (Normal tt, fs')
    /\ Disk.walk fs' (["elsewhere"] ++ [".claude"])
       = Normal (Disk.Dir [("code-reviewer",
                            Disk.Dir [("SKILL.md", Disk.File "# Code reviewer")])])
    /\ forall q, DiskSpec.apart q (["elsewhere"] ++ [".claude"]) ->
                 Disk.walk fs' q
                 = Disk.walk (Disk.Dir [("elsewhere", Disk.Dir []); ("demo", Disk.Dir [(".claude", Disk.Dir Workplace.configuration)])]) q.
Proof.
  apply (restoreFromBackup_replaces_configuration 3 ["demo"; ".claude"; "skills"]
           ["elsewhere"] _ []).
  - reflexivity.
  - reflexivity.
  - simpl. left. discriminate.
  - simpl. repeat split; repeat constructor; simpl; intuition discriminate.
  - simpl. lia.
Defined.

(** X26.  [restoreFromBackup] from a path that does not exist: [.claude] is
    removed first, so the call throws [ENOENT] and leaves an empty
    [.claude] where the configuration was. *)
Theorem restoreFromBackup_of_missing_backup_empties_configuration
        (fuel : nat) (backupPath projectPath : Disk.Path) (fs : Disk.Node)
        (entries : list (string * Disk.Node)) :
  Disk.walk fs projectPath = Normal (Disk.Dir entries) ->
  Disk.walk fs backupPath = Throw "ENOENT" ->
  DiskSpec.apart backupPath (projectPath ++ [".claude"]) ->
  exists fs',
    Disk.restoreFromBackup (S fuel) backupPath projectPath fs
    = Some (Throw "ENOENT", fs')
    /\ Disk.walk fs' (projectPath ++ [".claude"]) = Normal (Disk.Dir []).
Proof.
  intros Hp Hb Hapart.
  destruct (restore_clears fs projectPath entries Hp) as [fs1 [Hclear [Hv Hframe]]].
  destruct (place_vacant fs1 projectPath ".claude" (Disk.Dir []) Hv) as [fs0 H0].
  exists fs0. split.
  - unfold Disk.restoreFromBackup, Disk.andThen at 1. rewrite Hclear.
    cbn [Disk.copyDir]. unfold Disk.andThen at 1. unfold Disk.mkdir, Disk.writing.
    rewrite (mkdirp_vacant _ _ _ Hv), H0.
    unfold Disk.andThen at 1. unfold Disk.readdir, Disk.reading, Disk.listing.
    rewrite (walk_place_apart _ _ _ _ _ H0 Hapart), (Hframe _ Hapart), Hb.
    reflexivity.
  - now apply (walk_place_same fs1).
Qed.

Lemma restoreFromBackup_of_missing_backup_empties_configuration_witness :
  exists fs',
    Disk.restoreFromBackup 1 ["demo"; ".claude.backup.lost"] ["demo"] Workplace.disk
    = Some (Throw "ENOENT", fs')
    /\ Disk.walk fs' (["demo"] ++ [".claude"]) = Normal (Disk.Dir []).
Proof.
  apply (restoreFromBackup_of_missing_backup_empties_configuration
           0 ["demo"; ".claude.backup.lost"] ["demo"] Workplace.disk
           [(".claude", Disk.Dir Workplace.configuration);
            ("README.md", Disk.File "# Demo")]).
  - reflexivity.
  - reflexivity.
  - simpl. right. left. discriminate.
Defined.

(** X27.  A backup made by [backupExisting] brings the configuration back:
    whatever happens to the disk afterwards, as long as the backup
    directory holds what it held, [restoreFromBackup] with the path
    that [backupExisting] returned resolves, and [.claude] then holds
    exactly what it held when the backup was made. *)
Theorem backup_then_restore_round_trip
        (fuel : nat) (projectPath : Disk.Path) (iso : string)
        (fs : Disk.Node) (tree : list (string * Disk.Node)) :
  Disk.walk fs (projectPath ++ [".claude"]) = Normal (Disk.Dir tree) ->
  DiskSpec.distinctNames (Disk.Dir tree) ->
  DiskSpec.vacant fs projectPath (Disk.backupName iso) ->
  DiskSpec.depth (Disk.Dir tree) < fuel ->
  exists backupPath fs1,
    Disk.backupExisting fuel projectPath iso fs = Some (Normal (Some backupPath), fs1)
    /\ forall later,
        Disk.walk later backupPath = Disk.walk fs1 backupPath ->
        exists restored,
          Disk.restoreFromBackup fuel backupPath projectPath later
          = Some (Normal tt, restored)
          /\ Disk.walk restored (projectPath ++ [".claude"])
             = Disk.walk fs (projectPath ++ [".claude"]).
Proof.
  intros Hclaude Hnames Hvacant Hfuel.
  destruct (backup_core fuel projectPath iso fs tree Hclaude Hnames Hvacant Hfuel)
    as [fs1 [Hrun [Hcopy _]]].
  exists (projectPath ++ [Disk.backupName iso]), fs1. split; [exact Hrun |].
  intros later Hlater. rewrite Hcopy in Hlater.
  destruct (walk_parent later projectPath _ _ Hlater) as [entries [Hp _]].
  destruct (restore_core fuel (projectPath ++ [Disk.backupName iso]) projectPath
              later entries tree Hp Hlater) as [restored [Hr [Hw _]]].
  - apply apart_siblings. intros H. symmetry in H. revert H. apply backupName_not_claude.
  - exact Hnames.
  - exact Hfuel.
  - exists restored. split; [exact Hr |]. now rewrite Hw, Hclaude.
Qed.

(** The project [demo] is backed up, its configuration is then replaced
    by a single file, and the backup is restored. *)
Lemma backup_then_restore_round_trip_witness :
  exists backupPath fs1,
    Disk.backupExisting 4 ["demo"] Workplace.iso Workplace.disk
    = Some (Normal (Some backupPath), fs1)
    /\ forall later,
        Disk.walk later backupPath = Disk.walk fs1 backupPath ->
        exists restored,
          Disk.restoreFromBackup 4 backupPath ["demo"] later
          = Some (Normal tt, restored)
          /\ Disk.walk restored (["demo"] ++ [".claude"])
             = Disk.walk Workplace.disk (["demo"] ++ [".claude"]).
Proof.
  apply (backup_then_restore_round_trip 4 ["demo"] Workplace.iso Workplace.disk
           Workplace.configuration).
  - reflexivity.
  - exact workplace_names.
  - eexists. split; reflexivity.
  - simpl. lia.
Defined.

Lemma replace_prefix (prefix rest : string) :
  Str.replace (prefix ++ rest) prefix "" = rest.
Proof.
  assert (H : Str.startsWith (prefix ++ rest) prefix = true)
    by (apply startsWith_iff; now exists rest).
  unfold Str.replace, Str.find. rewrite firstSuffix_eq, H.
  assert (Hd : Str.drop (String.length prefix) (prefix ++ rest) = rest).
  { clear H. induction prefix as [| c prefix IH]; simpl; [now destruct rest | exact IH]. }
  cbn [Nat.add]. rewrite Hd. now destruct (prefix ++ rest)%string.
Qed.

(** X28.  A backup made by [backupExisting] is one that [listBackups] reports:
    in a project directory that can be listed, the directory that
    carries the name given at the time [iso] appears in the list under
    that name, with the time, its colons and full stops turned into
    dashes, as its timestamp. *)
Theorem backups_made_are_listed
        (dir : Backup.ProjectDir) (iso : string) (e : Backup.Dirent) (t : Z) :
  BackupSpec.wellFormed dir ->
  In e (Backup.entries dir) ->
  Backup.entryName e = Disk.backupName iso ->
  Backup.isDirectory e = true ->
  Backup.birthtime e = Some t ->
  exists backups,
    Backup.listBackups dir = Normal backups
    /\ In {| Backup.name := Disk.backupName iso;
             Backup.timestamp := Disk.dashed iso;
             Backup.created := t;
             Backup.path := Disk.backupName iso |} backups.
Proof.
  intros Hwf He Hname Hdir Ht.
  exists (Backup.sortNewestFirst (BackupSpec.backupsOf (Backup.entries dir))).
  split; [now apply listBackups_wellFormed |].
  apply (Permutation_in _ (sortNewestFirst_perm _)).
  apply in_backupsOf_inv. exists e, t.
  assert (Hb : Backup.isBackupEntry e = true).
  { unfold Backup.isBackupEntry. rewrite Hdir, Hname. simpl.
    apply startsWith_iff. now exists (Disk.dashed iso). }
  repeat split; try assumption.
  unfold Backup.backupOf. rewrite Hname. f_equal.
  unfold Disk.backupName. now rewrite replace_prefix.
Qed.

Lemma backups_made_are_listed_witness :
  exists backups,
    Backup.listBackups
      {| Backup.readable := true;
         Backup.entries :=
           [{| Backup.entryName := "README.md";
               Backup.isDirectory := false;
               Backup.birthtime := Some 1700000000000%Z |};
            {| Backup.entryName := Disk.backupName Workplace.iso;
               Backup.isDirectory := true;
               Backup.birthtime := Some 1705314600000%Z |}];
         Backup.removable := fun _ => true |}
    = Normal backups
    /\ In {| Backup.name := Disk.backupName Workplace.iso;
             Backup.timestamp := Disk.dashed Workplace.iso;
             Backup.created := 1705314600000%Z;
             Backup.path := Disk.backupName Workplace.iso |} backups.
Proof.
  apply (backups_made_are_listed _ Workplace.iso
           {| Backup.entryName := Disk.backupName Workplace.iso;
              Backup.isDirectory := true;
              Backup.birthtime := Some 1705314600000%Z |}).
  - unfold BackupSpec.wellFormed. simpl. repeat split.
    + repeat constructor; simpl; intuition discriminate.
    + intros e He Hb.
      repeat (destruct He as [<- | He]; [discriminate |]). contradiction.
  - simpl. right. now left.
  - reflexivity.
  - reflexivity.
  - reflexivity.
Defined.

(* ===================================================================== *)
(** * Validating a configuration *)
(* ===================================================================== *)

Section Validation.
Import Validator.
Variable JSON_parse : string -> option Js.value.
Variable syntaxError : string -> string.
Variable join : list string -> string.
Variable dirname : string -> string.
Variable fs : Probes.

(** A step of the validation that reports no error. *)
Lemma fold_verdict (step : Results -> string -> Results) (l : list string) :
  (forall r x, valid (step r x) = valid r /\ errors (step r x) = errors r) ->
  forall r, valid (fold_left step l r) = valid r
            /\ errors (fold_left step l r) = errors r.
Proof.
  intros Hstep. induction l as [| x l IH]; intros r; simpl; [now split |].
  destruct (IH (step r x)) as [Hv He]. destruct (Hstep r x) as [Hv' He'].
  split; congruence.
Qed.

Lemma checkClaudeMd_verdict r p :
  valid (checkClaudeMd fs r p) = valid r /\ errors (checkClaudeMd fs r p) = errors r.
Proof. unfold checkClaudeMd. now destruct (access fs p). Qed.

Lemma countSkills_verdict r outputDir :
  valid (countSkills join fs r outputDir) = valid r
  /\ errors (countSkills join fs r outputDir) = errors r.
Proof.
  unfold countSkills. destruct (readdir fs _); [| now split].
  apply fold_verdict. intros r' x. unfold countSkill.
  now destruct (access fs _).
Qed.

Lemma countAgents_verdict r outputDir :
  valid (countAgents join fs r outputDir) = valid r
  /\ errors (countAgents join fs r outputDir) = errors r.
Proof. unfold countAgents. now destruct (readdir fs _). Qed.

Lemma countHooks_verdict r outputDir :
  valid (countHooks join fs r outputDir) = valid r
  /\ errors (countHooks join fs r outputDir) = errors r.
Proof.
  unfold countHooks. destruct (readdir fs _) as [hookFiles |]; [| now split].
  match goal with
  | |- context [fold_left ?step ?l ?r0] =>
      destruct (fold_verdict step l) with (r := r0) as [Hv He]
  end.
  - intros r' x. unfold checkHook.
    destruct (Str.endsWith x ".sh"); [| now split].
    destruct (mode fs _) as [m |]; [| now split].
    now destruct (Z.land m 73 =? 0)%Z.
  - now rewrite Hv, He.
Qed.

Lemma validateConfiguration_verdict outputDir :
  access fs outputDir = true ->
  let checked :=
    checkSettings JSON_parse syntaxError fs
      {| valid := true; errors := []; warnings := [];
         summary := {| skills := 0; agents := 0; hooks := 0 |} |}
      (join [outputDir; "settings.json"]) in
  valid (validateConfiguration JSON_parse syntaxError join dirname fs outputDir)
  = valid checked
  /\ errors (validateConfiguration JSON_parse syntaxError join dirname fs outputDir)
     = errors checked.
Proof.
  intros Ha checked. unfold validateConfiguration. rewrite Ha. cbv zeta.
  fold checked.
  destruct (countHooks_verdict
              (countAgents join fs
                 (countSkills join fs
                    (checkClaudeMd fs checked (join [dirname outputDir; "CLAUDE.md"]))
                    outputDir) outputDir) outputDir) as [H1 H1'].
  destruct (countAgents_verdict
              (countSkills join fs
                 (checkClaudeMd fs checked (join [dirname outputDir; "CLAUDE.md"]))
                 outputDir) outputDir) as [H2 H2'].
  destruct (countSkills_verdict
              (checkClaudeMd fs checked (join [dirname outputDir; "CLAUDE.md"]))
              outputDir) as [H3 H3'].
  destruct (checkClaudeMd_verdict checked (join [dirname outputDir; "CLAUDE.md"]))
    as [H4 H4'].
  split; congruence.
Qed.

End Validation.

(** X29.  [validateConfiguration] finds a configuration valid exactly when it
    reports no error, and it reports at most one.  The configuration is
    valid exactly when the directory exists and [settings.json] either
    does not exist or can be read and parsed: a missing [settings.json]
    or [CLAUDE.md], a skill directory without [SKILL.md] and a hook that
    is not executable are warnings, and never make it invalid. *)
Theorem validateConfiguration_valid_iff
        (JSON_parse : string -> option Js.value) (syntaxError : string -> string)
        (join : list string -> string) (dirname : string -> string)
        (fs : Validator.Probes) (outputDir : string) :
  let results :=
    Validator.validateConfiguration JSON_parse syntaxError join dirname fs outputDir in
  (Validator.valid results = true <-> Validator.errors results = [])
  /\ List.length (Validator.errors results) <= 1
  /\ (Validator.valid results = true
      <-> Validator.access fs outputDir = true
          /\ match Validator.readFile fs (join [outputDir; "settings.json"]) with
             | Validator.Text content => JSON_parse content <> None
             | Validator.Rejected code _ => code = "ENOENT"
             end).
Proof.
  intros results. subst results.
  destruct (Validator.access fs outputDir) eqn:Ha.
  - destruct (validateConfiguration_verdict JSON_parse syntaxError join dirname fs
                outputDir Ha) as [Hv He].
    cbv zeta in Hv, He. rewrite Hv, He. clear Hv He.
    unfold Validator.checkSettings.
    destruct (Validator.readFile fs (join [outputDir; "settings.json"]))
      as [content | code message].
    + destruct (JSON_parse content); simpl.
      * repeat split; auto; discriminate.
      * repeat split; auto; try discriminate; intros H; try discriminate.
        destruct H as [_ H]. now contradiction H.
    + destruct (String.eqb code "ENOENT") eqn:E; simpl.
      * apply String.eqb_eq in E. repeat split; auto.
      * apply String.eqb_neq in E.
        repeat split; auto; try discriminate; intros H; try discriminate.
        destruct H as [_ H]. contradiction.
  - unfold Validator.validateConfiguration. rewrite Ha. simpl.
    repeat split; auto; try discriminate; intros H; try discriminate.
    destruct H as [H _]. discriminate.
Qed.
